(* ===== verification/_CoqProject ===== *)
-Q . S2P
Prelude.v
Crates.v
CratesRef.v
Errors.v
Time.v
Packet.v
PacketWire.v
PacketTests.v
AddrText.v
Congestion.v
Socket.v
PacketSender.v
PacketReceiver.v
Stream.v
StreamFacts.v
StreamRead.v
StreamWrite.v
StreamInvariant.v
Display.v
Polls.v
Listener.v
Handshake.v
Host.v
Boxes.v
HostState.v
Handles.v
HostProps.v
HostEffect.v
Runs.v
Delivery.v
SocketTests.v
Transfer.v
Acks.v
World.v
Mailbox.v
TwoWay.v
Opening.v
LateAnswer.v
StaleStream.v
Loss.v
Wakers.v
Progress.v
Settle.v
Fair.v
TransferWrap.v
