(* ===== verification/Prelude.v ===== *)
(** * utp-rs: a verification development

    utp-rs implements uTP, a transport protocol over UDP, on the tokio runtime.
    This library models its Rust code (the files under src/src) as executable
    definitions, and proves what makes it correct, or shows where it is not.

    ** The program

    A [UtpSocket] (socket.rs) owns a UDP socket, a routing table from
    (connection identifier, remote address) to mailboxes, a queue of SYN packets
    and a queue of outgoing packets. Two background tasks work for it: the
    sender (socket/packet_sender.rs) takes packets from the outgoing queue and
    writes them to the UDP socket; the receiver (socket/packet_receiver.rs)
    reads datagrams, parses them (packet.rs) and routes them. A [UtpStream]
    (stream.rs) is a connection: it reads packets from its mailbox, buffers and
    reassembles data, acknowledges it, and cuts what is written to it into
    packets; it is made by [connect], or by a [UtpListener] (listener.rs) that
    accepts a SYN packet. congestion.rs records delays and windows, time.rs is
    the clock in the packets, error.rs the errors.

    ** The files

    - Prelude.v (this file): Rust's [Result] and [Poll]; the [Outcome] monad, in
      which a computation is done, panics (with its reason) or runs out of fuel;
      machine integers as [Z] with their wrap-around; addresses; automation.
    - Crates.v: the interfaces of the crates called, as classes that bundle the
      operations with the documented laws the source relies on: [BytesCrate]
      (bytes), [ReadBufCrate] and [MpscCrate] (tokio), [DashMapCrate] (dashmap).
      [PromptMpsc] is the extra law that a channel answers "not ready" only when
      it is empty; tokio may also do so spuriously (its cooperative budget), and
      theorems that need promptness say so. CratesRef.v has reference instances,
      used by the witnesses only.
    - Errors.v, Time.v, Congestion.v: error.rs, time.rs and congestion.rs, the
      last two with their properties.
    - Packet.v: packet.rs, types, [bytes_from_packet] (From<Packet> for Bytes)
      and [Packet_try_from] (TryFrom<Bytes>). PacketWire.v: an inductive grammar
      of the datagrams ([parses]), and the codec theorems: round trip, the parser
      decides the grammar, canonicity, exact layout, truncated datagrams.
      PacketTests.v: the unit tests of packet.rs, which the model passes.
    - AddrText.v: the standard library's texts of numbers and socket addresses.
      Display.v: the messages of error.rs and the [Debug] output of a stream.
    - Socket.v: the shared state of socket.rs. The two halves of a connection's
      channel have different owners, so mailboxes live in a heap and the table
      and the streams name them by identifier. The routing invariant [wf_socket],
      and the operations on the table.
    - PacketSender.v, PacketReceiver.v: the [poll] of each task, on the list of
      answers the UDP socket gives. The receiver refines an abstract machine per
      connection ([view_step]).
    - Stream.v: stream.rs, each handler and poll as a function on the stream and
      its environment [Env], the socket it shares and the number of clock
      readings made. StreamFacts.v: what an operation may do to the shared socket
      ([touched]) and what a sequence of packets does to a stream
      ([receive_all]); the loops of Stream.v are shown to be runs of it.
    - StreamRead.v: acceptance windows, reassembly ([run]) and [poll_read], on
      every branch. StreamWrite.v: [poll_write], acknowledgements, [poll_flush]
      and [poll_shutdown]. StreamInvariant.v: the invariant of reachable streams.
      Polls.v: what any poll leaves alone and what it may send ([polled]), and
      that what [poll_write] sends fits a datagram.
    - Listener.v: [accept]. Handshake.v: [connect] and [accept] put together.
    - Host.v: binding a socket, and the routing invariant in every state its
      users and tasks can reach, by induction on a step relation.
    - HostState.v: a whole host ([Host]): the shared socket, its two tasks while
      they run, the pending [connect]s and the streams (the owners of the
      mailboxes), and the number of handles ([Arc]s) the program and its listeners
      hold; and [host_step], everything that can happen to it, labelled with the
      datagrams emitted and the poll made. Its invariant [host_ok] says that the
      parts agree; Boxes.v has the part about table, mailboxes and owners.
      HostProps.v: the consequences. HostEffect.v: what one step can change
      ([step_effect]), which is all that World.v uses of [host_step].
      Handles.v: the ways to make a listener. Runs.v: hosts played by the kernel
      ([perform]), every action of which is a [host_step]; the concrete runs of
      the last files are scripts of such actions.
    - Delivery.v: the components together when the network does its work, from
      one host's outgoing queue to the other's mailbox, and from [poll_write] to
      [poll_read] and back to [poll_flush].
    - SocketTests.v: the tests of socket.rs, listener.rs and lib.rs, under one
      schedule of the tasks, on the reference crates.
    - Transfer.v: two streams and an unreliable network, as a step relation, and
      the safety of the transfer by rule induction. TransferWrap.v: a run that
      shows that its bound is tight.
    - Acks.v: the transfer with the acknowledgements that travel back, and what
      the sender forgets. World.v: two whole hosts and the network between them;
      what they do is, for the two ends of a connection, a run of Transfer.v.
      TwoWay.v: the same with the datagrams of both directions tracked, which is
      a run of Acks.v. Opening.v: from two hosts just bound to a connection
      between them, which starts as World.v and TwoWay.v assume.
    - LateAnswer.v, StaleStream.v, Loss.v: what goes wrong in that world when a
      [connect] takes a later packet for its answer, when an earlier stream still
      sends under the identifier of the connection, and when a data packet is
      lost. The first two show that the conditions on the moves of World.v and
      TwoWay.v are needed.
    - Wakers.v: the waker of a mailbox, and what one task or two that poll a
      stream wait for. Progress.v, Settle.v: from a state that two hosts reach, a
      continuation in which everything is read, and in which a flush is ready.
      Fair.v: infinite runs that are fair.

    ** What the theorems show

    The codec loses nothing and never panics. The tasks keep packets in order,
    lose none between the channel and the UDP socket, and route each to its
    connection only. The table never confuses two connections. A stream
    reassembles what its peer sent whatever the order and number of arrivals
    inside its window, and an arbitrary network cannot make it deliver anything
    but a prefix of the data, before the 16-bit numbers come round. What is
    written is cut, numbered and kept in flight consistently. The handshake makes
    two streams that agree.

    Put together: between two whole hosts, with all their users, tasks and other
    connections, what is read from a stream is a prefix of what was written at
    the other end ([world_transfer_safe]), because the hosts refine the abstract
    transfer ([world_refines_transfer]); and a flush that succeeds means that
    all of it has arrived ([flush_means_received]). Two hosts just bound get to
    such a connection by a [connect] and an [accept] ([opened_up] for the data of
    the side that connects, [opened_down] for that of the side that accepts). These
    theorems leave the hosts and the network free, but for conditions that are
    part of each move: the identifiers of the connection are its own at both hosts
    ([only_stream], [only_answers]; [none_sends], [accepts_only] while it opens),
    and a [connect] takes the answer that was sent to it ([answered]). The code
    ensures neither, and each is needed: [stale_stream_injects_data] and
    [late_answer_loses_data] are runs of two hosts without the one and the other.
    They also stop where the 16-bit numbers come round: at 65536 packets, or,
    where acknowledgements count, when the numbers in flight wrap.

    In the states that two hosts reach so and in which the connection is up and
    running ([up_and_running]: the receiver tasks run, nothing but data and
    acknowledgements waits in the mailboxes, both ends are there), the connection
    is not stuck: with a network that delivers what it was given, as often as it
    takes, the reader can get everything written ([written_can_be_read]), and a
    flush of the writer can become ready ([flush_can_be_ready]); and in an
    infinite run that is fair to the tasks, the network and the reader, it does
    get everything, provided that the writer is never more than 128 packets ahead
    ([fair_runs_read_everything]). In every state a host reaches its parts are
    consistent ([host_invariant]), and nothing panics but a [todo!()], and an
    [accept] after the end of the receiver task ([only_todo_panics]). The authors'
    tests pass in the model.

    Other theorems delimit this: a [connect] that takes an acknowledgement for
    the answer to its SYN packet, and skips data ([late_answer_loses_data]); a
    stream of an earlier connection whose data is read from a later one
    ([stale_stream_injects_data]); a lost data packet, which nothing sends again,
    so that the reader stops there and no flush succeeds, before the numbers come
    round ([lost_packet_stalls]); an acknowledgement across the wrap-around
    ([ack_across_wrap]), bursts of more than 128 packets
    ([poll_read_burst_loss]), duplicates kept beyond their use, which make the
    bound of 65536 packets tight ([stale_duplicate_kept],
    [transfer_wraps_around]), a reader who never sees the end of the stream
    ([reads_never_end]) and would lose bytes if it came ([poll_read_eof]), the
    packets lost when the last owner of a socket goes ([task_lifetime]), and the
    panics and endless loops of unfinished code
    ([unfinished_panics], [accept_duplicate], [sender_poll_termination],
    [register_connection_livelock]). A task that polls a stream alone never waits
    for what is there ([sole_task_waits_rightly]); two tasks that share one can
    starve each other ([halves_starve_each_other]).

    ** Choices

    - Concurrency: each poll of a future is one step, and between two polls of a
      stream the rest of the program may do anything to the socket that the
      statement does not exclude. What the code shares is behind channels and the
      table's locks, whose operations are atomic.
    - Loops have fuel. The loops on a mailbox use one unit per packet, so that
      more fuel than queued packets is enough (poll_read_correct and the others
      prove it); reassembly removes an entry per round and gets the size of the
      buffer plus one; [chunks] gets the length of its slice. The loops driven by
      the UDP socket or the random generator consume a list of its answers, and
      run out exactly when the list does; the termination theorems say which
      lists suffice.
    - Arithmetic that wraps in the source is written with its modulus; [usize]
      lengths are [nat], since they count bytes or elements in memory.
    - An [await] splits a function: [connect] is [connect_start] and
      [connect_poll], [accept] is its poll with the lock on the SYN queue held.

    ** Not modelled

    The scheduler (any poll may happen at any time, but in Wakers.v, where a task
    that waits for a stream is polled again only when its waker is used), the
    wakers of the other channels and of the UDP socket, log output and name
    resolution; the UDP socket, the clock and the random generator are
    parameters. In World.v what arrives
    at B with A's address was sent by A (and in TwoWay.v the converse): uTP does
    not authenticate its packets. In the tests the addresses that the operating
    system binds are arguments; the two [bind_test]s, which only test those, and
    the [local_addr_test] of the listener, which compares a value with itself, are
    left out. *)

From Stdlib Require Export ZArith Lia.
From stdpp Require Export gmap prelude.

#[global] Set Default Goal Selector "!".

Declare Scope utp_scope.
Delimit Scope utp_scope with utp.
#[global] Open Scope Z_scope.
#[global] Open Scope utp_scope.

(** ** Control: results, polls and outcomes *)

(** Rust's [Result<A, E>]. *)
Inductive Result (A E : Type) : Type :=
  | Ok (a : A)
  | Err (e : E).
Arguments Ok {A E} a.
Arguments Err {A E} e.

(** Rust's [std::task::Poll<A>]. *)
Inductive Poll (A : Type) : Type :=
  | Ready (a : A)
  | Pending.
Arguments Ready {A} a.
Arguments Pending {A}.

(** Why a Rust computation panicked. [Dangling] is not a panic of the source:
    it is the answer of a lookup in the channel heap under an identifier that
    was never allocated, which ownership excludes in Rust and the socket
    invariant excludes here. *)
Inductive PanicReason : Type :=
  | Todo
  | UnwrapNone
  | UnwrapErr
  | OutOfBounds
  | BufferOverrun
  | AssertFailed
  | Dangling.

(** What running a piece of code does: it finishes, it panics, or the fuel (or
    the script of answers from the environment) given to a loop runs out
    before the loop ends. *)
Inductive Outcome (A : Type) : Type :=
  | Done (a : A)
  | Panic (r : PanicReason)
  | OutOfFuel.
Arguments Done {A} a.
Arguments Panic {A} r.
Arguments OutOfFuel {A}.

#[export] Instance Outcome_ret : MRet Outcome := @Done.
#[export] Instance Outcome_bind : MBind Outcome := fun A B k m =>
  match m with
  | Done a => k a
  | Panic r => Panic r
  | OutOfFuel => OutOfFuel
  end.

(** An operation of a crate that panics on [None]. *)
Definition expect {A} (r : PanicReason) (o : option A) : Outcome A :=
  match o with
  | Some a => Done a
  | None => Panic r
  end.

(** The [?] operator: [try! x := m in k] runs [k] on the value of [m] and
    returns early with its error. *)
Definition bind_result {A B E} (m : Outcome (Result A E))
    (k : A -> Outcome (Result B E)) : Outcome (Result B E) :=
  match m with
  | Done (Ok a) => k a
  | Done (Err e) => Done (Err e)
  | Panic r => Panic r
  | OutOfFuel => OutOfFuel
  end.

Notation "'try!' x ':=' m 'in' k" := (bind_result m (fun x => k))
  (at level 10, x pattern, m at level 100, k at level 200) : utp_scope.

#[export] Instance Result_eq_dec {A E} `{EqDecision A, EqDecision E} :
  EqDecision (Result A E).
Proof. solve_decision. Defined.
#[export] Instance Poll_eq_dec {A} `{EqDecision A} : EqDecision (Poll A).
Proof. solve_decision. Defined.
#[export] Instance PanicReason_eq_dec : EqDecision PanicReason.
Proof. solve_decision. Defined.
#[export] Instance Outcome_eq_dec {A} `{EqDecision A} : EqDecision (Outcome A).
Proof. solve_decision. Defined.

(** ** Machine integers

    A [w]-bit unsigned integer is a [Z]; [u8], [u16] and [u32] say it is in
    range, and the wrapping operations write the modulus out. *)

Definition u8 (z : Z) : Prop := 0 <= z < 2 ^ 8.
Definition u16 (z : Z) : Prop := 0 <= z < 2 ^ 16.
Definition u32 (z : Z) : Prop := 0 <= z < 2 ^ 32.
Definition u32_MAX : Z := 2 ^ 32 - 1.

#[export] Instance u8_dec z : Decision (u8 z).
Proof. unfold u8. apply _. Defined.
#[export] Instance u16_dec z : Decision (u16 z).
Proof. unfold u16. apply _. Defined.
#[export] Instance u32_dec z : Decision (u32 z).
Proof. unfold u32. apply _. Defined.

(** [x as u8], [x as u16], [x as u32] of a non-negative integer. *)
Definition as_u8 (z : Z) : Z := z mod 2 ^ 8.
Definition as_u16 (z : Z) : Z := z mod 2 ^ 16.
Definition as_u32 (z : Z) : Z := z mod 2 ^ 32.

Definition wrapping_add16 (a b : Z) : Z := (a + b) mod 2 ^ 16.
Definition wrapping_sub16 (a b : Z) : Z := (a - b) mod 2 ^ 16.
Definition wrapping_sub32 (a b : Z) : Z := (a - b) mod 2 ^ 32.

(** ** Addresses: [std::net::SocketAddr] *)

Inductive SocketAddr : Type :=
  | V4 (ip port : Z)
  | V6 (ip port flowinfo scope_id : Z).

#[export] Instance SocketAddr_eq_dec : EqDecision SocketAddr.
Proof. solve_decision. Defined.
#[export] Instance SocketAddr_countable : Countable SocketAddr.
Proof.
  refine (inj_countable'
    (fun a => match a with
              | V4 i p => inl (i, p)
              | V6 i p f s => inr (i, p, f, s)
              end)
    (fun x => match x with
              | inl (i, p) => V4 i p
              | inr (i, p, f, s) => V6 i p f s
              end) _).
  by intros [].
Defined.

(** A byte string: the contents of a [bytes::Bytes], a [bytes::BytesMut] or a
    [&[u8]]. *)
Abbreviation bytes := (list Z).

(** [is_empty()] of a vector, a deque or a buffer. *)
Definition is_empty {A} (l : list A) : bool :=
  match l with [] => true | _ :: _ => false end.

(** ** Automation *)

Create HintDb utp discriminated.
Create Rewrite HintDb utp_rw.

(** Unfold the machine-integer vocabulary and finish with [lia]. *)
Ltac int_unfold :=
  unfold u8, u16, u32, as_u8, as_u16, as_u32, wrapping_add16, wrapping_sub16,
    wrapping_sub32, u32_MAX in *;
  change (2 ^ 8) with 256 in *; change (2 ^ 16) with 65536 in *;
  change (2 ^ 32) with 4294967296 in *.
Ltac int_lia := int_unfold; Z.to_euclidean_division_equations; lia.

(** Invert an equation between finished outcomes. *)
Ltac outcome_inv :=
  repeat match goal with
  | H : Done _ = Done _ |- _ => injection H; clear H; intros; subst
  | H : Ok _ = Ok _ |- _ => injection H; clear H; intros; subst
  | H : Err _ = Err _ |- _ => injection H; clear H; intros; subst
  | H : Ready _ = Ready _ |- _ => injection H; clear H; intros; subst
  | H : (_, _) = (_, _) |- _ => injection H; clear H; intros; subst
  | H : Panic _ = Done _ |- _ => discriminate H
  | H : OutOfFuel = Done _ |- _ => discriminate H
  | H : Done _ = Panic _ |- _ => discriminate H
  | H : Done _ = OutOfFuel |- _ => discriminate H
  | H : Ok _ = Err _ |- _ => discriminate H
  | H : Err _ = Ok _ |- _ => discriminate H
  | H : Ready _ = Pending |- _ => discriminate H
  | H : Pending = Ready _ |- _ => discriminate H
  end.

(** ** Inversion of the monad *)

Section outcome_lemmas.
Context {A B E : Type}.

Lemma bind_Done (m : Outcome A) (k : A -> Outcome B) b :
  (m ≫= k) = Done b <-> exists a, m = Done a /\ k a = Done b.
Proof.
  split; [destruct m; cbn; intros; simplify_eq; eauto|].
  by intros (a & -> & ?).
Qed.

Lemma bind_result_Done_Ok (m : Outcome (Result A E))
    (k : A -> Outcome (Result B E)) b :
  bind_result m k = Done (Ok b) <->
  exists a, m = Done (Ok a) /\ k a = Done (Ok b).
Proof.
  split; [destruct m as [[]| |]; cbn; intros; simplify_eq; eauto|].
  by intros (a & -> & ?).
Qed.

Lemma expect_Done (r : PanicReason) (o : option A) a :
  expect r o = Done a <-> o = Some a.
Proof. destruct o; cbn; split; intros; simplify_eq; done. Qed.
End outcome_lemmas.

(** ** Wrapping arithmetic *)

Lemma wrapping_add16_u16 a b : u16 (wrapping_add16 a b).
Proof. int_unfold. apply Z.mod_pos_bound. lia. Qed.

Lemma wrapping_sub16_u16 a b : u16 (wrapping_sub16 a b).
Proof. int_unfold. apply Z.mod_pos_bound. lia. Qed.

Lemma wrapping_sub32_u32 a b : u32 (wrapping_sub32 a b).
Proof. int_unfold. apply Z.mod_pos_bound. lia. Qed.

Lemma as_u8_u8 z : u8 (as_u8 z).
Proof. int_unfold. apply Z.mod_pos_bound. lia. Qed.

Lemma as_u8_small z : u8 z -> as_u8 z = z.
Proof. intros. int_unfold. by apply Z.mod_small. Qed.

Lemma as_u16_small z : u16 z -> as_u16 z = z.
Proof. intros. int_unfold. by apply Z.mod_small. Qed.

Lemma as_u32_small z : u32 z -> as_u32 z = z.
Proof. intros. int_unfold. by apply Z.mod_small. Qed.

Lemma wrapping_add16_sub16 a b : u16 a -> wrapping_add16 (wrapping_sub16 a b) b = a.
Proof. intros. int_lia. Qed.

Lemma wrapping_sub16_add16 a b : u16 b -> wrapping_sub16 (wrapping_add16 a b) a = b.
Proof. intros. int_lia. Qed.

#[export] Hint Resolve wrapping_add16_u16 wrapping_sub16_u16 wrapping_sub32_u32
  as_u8_u8 : utp.

(** ** Lists *)

Lemma take_drop_app_length {A} (l k : list A) :
  take (length l) (l ++ k) = l /\ drop (length l) (l ++ k) = k.
Proof. by rewrite take_app_length, drop_app_length. Qed.

Lemma Forall_take_drop {A} (P : A -> Prop) n (l : list A) :
  Forall P l -> Forall P (take n l) /\ Forall P (drop n l).
Proof. eauto using Forall_take, Forall_drop. Qed.
