(* ===== verification/Crates.v ===== *)
(** * The crates utp-rs calls, as interfaces

    Each class is a record of the operations the source calls on a crate it
    does not contain, with the documented behaviour the source relies on as
    its laws. Nothing below is an implementation: every definition of the
    development that calls a crate takes the class as an argument, and the
    concrete instances live in CratesRef.v, for the witnesses only. *)

From S2P Require Import Prelude.

(** ** [bytes]: [Buf], [BufMut], [Bytes] and [BytesMut]

    A buffer is its contents. The [get_*] and [split_to] operations return the
    value and the buffer they leave, [None] where the crate documents a panic
    (not enough bytes remaining); the [put_*] operations append. All integers
    are big-endian. *)
Class BytesCrate := {
  get_u8 : bytes -> option (Z * bytes);
  get_u16 : bytes -> option (Z * bytes);
  get_u32 : bytes -> option (Z * bytes);
  split_to : nat -> bytes -> option (bytes * bytes);
  split_all : bytes -> bytes * bytes;
  with_capacity : nat -> bytes;
  put_u8 : Z -> bytes -> bytes;
  put_u16 : Z -> bytes -> bytes;
  put_u32 : Z -> bytes -> bytes;
  put : bytes -> bytes -> bytes;
  extend_from_slice : bytes -> bytes -> bytes;

  get_u8_cons : forall a r, get_u8 (a :: r) = Some (a, r);
  get_u8_nil : get_u8 [] = None;
  get_u16_cons : forall a b r, get_u16 (a :: b :: r) = Some (a * 2 ^ 8 + b, r);
  get_u32_cons : forall a b c d r,
    get_u32 (a :: b :: c :: d :: r) =
      Some (a * 2 ^ 24 + b * 2 ^ 16 + c * 2 ^ 8 + d, r);
  split_to_le : forall n l, (n <= length l)%nat ->
    split_to n l = Some (take n l, drop n l);
  split_to_gt : forall n l, (length l < n)%nat -> split_to n l = None;
  split_all_spec : forall l, split_all l = (l, []);
  with_capacity_nil : forall n, with_capacity n = [];
  put_u8_app : forall z l, u8 z -> put_u8 z l = l ++ [z];
  put_u16_app : forall z l, u16 z -> put_u16 z l = l ++ [z / 2 ^ 8; z mod 2 ^ 8];
  put_u32_app : forall z l, u32 z ->
    put_u32 z l = l ++ [z / 2 ^ 24; z / 2 ^ 16 mod 2 ^ 8;
                        z / 2 ^ 8 mod 2 ^ 8; z mod 2 ^ 8];
  put_app : forall s l, put s l = l ++ s;
  extend_from_slice_app : forall s l, extend_from_slice s l = l ++ s;
}.

(** ** [tokio::io::ReadBuf], the destination of a [poll_read] *)
Class ReadBufCrate := {
  ReadBuf : Type;
  filled : ReadBuf -> bytes;
  remaining : ReadBuf -> nat;
  put_slice : bytes -> ReadBuf -> option ReadBuf;

  put_slice_fits : forall s b, (length s <= remaining b)%nat ->
    exists b', put_slice s b = Some b' /\ filled b' = filled b ++ s /\
      remaining b' = (remaining b - length s)%nat;
  put_slice_overrun : forall s b, (remaining b < length s)%nat ->
    put_slice s b = None;
}.

(** ** [tokio::sync::mpsc]: unbounded channels

    A value of [chan T] is the shared state behind one [UnboundedSender] and
    one [UnboundedReceiver]; the source never clones a sender. [queued],
    [tx_alive] and [rx_alive] observe it. [poll_recv] may answer [Pending]
    while messages are queued: tokio documents such spurious failures (its
    cooperative budget), so the laws only say what each answer means. *)
Class MpscCrate := {
  chan : Type -> Type;
  unbounded_channel : forall T, chan T;
  send : forall {T}, T -> chan T -> option (chan T);
  poll_recv : forall {T}, chan T -> Poll (option T) * chan T;
  drop_tx : forall {T}, chan T -> chan T;
  drop_rx : forall {T}, chan T -> chan T;
  queued : forall {T}, chan T -> list T;
  tx_alive : forall {T}, chan T -> bool;
  rx_alive : forall {T}, chan T -> bool;

  unbounded_channel_spec : forall T,
    queued (unbounded_channel T) = [] /\
    tx_alive (unbounded_channel T) = true /\
    rx_alive (unbounded_channel T) = true;
  send_alive : forall T (x : T) c, rx_alive c = true ->
    exists c', send x c = Some c' /\ queued c' = queued c ++ [x] /\
      tx_alive c' = tx_alive c /\ rx_alive c' = true;
  send_dead : forall T (x : T) c, rx_alive c = false -> send x c = None;
  poll_recv_Some : forall T (x : T) c c', poll_recv c = (Ready (Some x), c') ->
    queued c = x :: queued c' /\ tx_alive c' = tx_alive c /\
    rx_alive c' = rx_alive c;
  poll_recv_None : forall T (c c' : chan T), poll_recv c = (Ready None, c') ->
    queued c = [] /\ tx_alive c = false /\
    queued c' = [] /\ tx_alive c' = false /\ rx_alive c' = rx_alive c;
  poll_recv_Pending : forall T (c c' : chan T), poll_recv c = (Pending, c') ->
    queued c' = queued c /\ tx_alive c' = tx_alive c /\
    rx_alive c' = rx_alive c;
  drop_tx_spec : forall T (c : chan T),
    queued (drop_tx c) = queued c /\ tx_alive (drop_tx c) = false /\
    rx_alive (drop_tx c) = rx_alive c;
  drop_rx_spec : forall T (c : chan T),
    queued (drop_rx c) = [] /\ tx_alive (drop_rx c) = tx_alive c /\
    rx_alive (drop_rx c) = false;
}.

(** A channel implementation without spurious failures: it answers [Pending]
    only when nothing is queued and the sender is alive. *)
Class PromptMpsc `{MpscCrate} : Prop :=
  poll_recv_prompt : forall T (c c' : chan T), poll_recv c = (Pending, c') ->
    queued c = [] /\ tx_alive c = true.

(** ** [dashmap::DashMap<(u16, SocketAddr), UnboundedSender<Packet>>]

    A sender is the identifier of the channel it sends to. Each operation is
    atomic in the source: an [Entry] and [remove_if] hold the lock of the
    shard while they run. [remove_if] runs its closure on the value found, and
    the closure may change state of its own. *)
Definition ConnKey : Type := Z * SocketAddr.
Definition ChanId : Type := nat.

Class DashMapCrate := {
  dashmap : Type;
  dm_new : dashmap;
  entry_occupied : ConnKey -> dashmap -> bool;
  or_insert : ConnKey -> ChanId -> dashmap -> dashmap;
  remove_if : forall {S}, ConnKey -> (ChanId -> S -> bool * S) ->
    dashmap -> S -> dashmap * S;
  entries : dashmap -> gmap ConnKey ChanId;

  entries_new : entries dm_new = ∅;
  entry_occupied_spec : forall k m,
    entry_occupied k m = bool_decide (is_Some (entries m !! k));
  or_insert_vacant : forall k v m, entries m !! k = None ->
    entries (or_insert k v m) = <[k := v]> (entries m);
  remove_if_vacant : forall S k f m (s : S), entries m !! k = None ->
    entries (remove_if k f m s).1 = entries m /\ (remove_if k f m s).2 = s;
  remove_if_occupied : forall S k f m v (s : S), entries m !! k = Some v ->
    entries (remove_if k f m s).1 =
      (if (f v s).1 then delete k (entries m) else entries m) /\
    (remove_if k f m s).2 = (f v s).2;
}.

(** ** What the laws give, in the form the proofs use *)

Section bytes_lemmas.
Context `{By : BytesCrate}.

Lemma put_u8_byte z l : u8 z -> put_u8 z l = l ++ [z].
Proof. apply put_u8_app. Qed.
End bytes_lemmas.

Section mpsc_lemmas.
Context `{Mp : MpscCrate}.
Context {T : Type}.
Implicit Types (c : chan T) (x : T).

Lemma queued_unbounded_channel : queued (unbounded_channel T) = [].
Proof. by destruct (unbounded_channel_spec T) as (? & ? & ?). Qed.
Lemma tx_alive_unbounded_channel : tx_alive (unbounded_channel T) = true.
Proof. by destruct (unbounded_channel_spec T) as (? & ? & ?). Qed.
Lemma rx_alive_unbounded_channel : rx_alive (unbounded_channel T) = true.
Proof. by destruct (unbounded_channel_spec T) as (? & ? & ?). Qed.
Lemma rx_alive_drop_rx c : rx_alive (drop_rx c) = false.
Proof. by destruct (drop_rx_spec T c) as (? & ? & ?). Qed.
Lemma tx_alive_drop_rx c : tx_alive (drop_rx c) = tx_alive c.
Proof. by destruct (drop_rx_spec T c) as (? & ? & ?). Qed.
Lemma queued_drop_rx c : queued (drop_rx c) = [].
Proof. by destruct (drop_rx_spec T c) as (? & ? & ?). Qed.
Lemma queued_drop_tx c : queued (drop_tx c) = queued c.
Proof. by destruct (drop_tx_spec T c) as (? & ? & ?). Qed.
Lemma tx_alive_drop_tx c : tx_alive (drop_tx c) = false.
Proof. by destruct (drop_tx_spec T c) as (? & ? & ?). Qed.
Lemma rx_alive_drop_tx c : rx_alive (drop_tx c) = rx_alive c.
Proof. by destruct (drop_tx_spec T c) as (? & ? & ?). Qed.

(** A send succeeds exactly on a live receiver, and appends. *)
Lemma send_Some x c c' : send x c = Some c' ->
  rx_alive c = true /\ queued c' = queued c ++ [x] /\
  tx_alive c' = tx_alive c /\ rx_alive c' = true.
Proof.
  intros Hs. destruct (rx_alive c) eqn:Hr.
  - destruct (send_alive T x c Hr) as (c2 & ? & ?). by simplify_eq.
  - by rewrite (send_dead T x c Hr) in Hs.
Qed.

Lemma send_None x c : send x c = None -> rx_alive c = false.
Proof.
  intros Hs. destruct (rx_alive c) eqn:Hr; [|done].
  destruct (send_alive T x c Hr) as (c2 & ? & ?). by simplify_eq.
Qed.

(** Receiving never lengthens the queue, and a message shortens it. *)
Lemma poll_recv_alive c r c' : poll_recv c = (r, c') ->
  tx_alive c' = tx_alive c /\ rx_alive c' = rx_alive c.
Proof.
  intros Hp. destruct r as [[x|]|].
  - by apply poll_recv_Some in Hp as (? & ? & ?).
  - apply poll_recv_None in Hp as (? & ? & ? & ? & ?). by split; [congruence|].
  - by apply poll_recv_Pending in Hp as (? & ? & ?).
Qed.
End mpsc_lemmas.

#[export] Hint Rewrite @queued_unbounded_channel @tx_alive_unbounded_channel
  @rx_alive_unbounded_channel @rx_alive_drop_rx @tx_alive_drop_rx @queued_drop_rx
  @queued_drop_tx @tx_alive_drop_tx @rx_alive_drop_tx : utp_rw.
