(* ===== verification/CratesRef.v ===== *)
(** * Reference instances of the crate interfaces

    One concrete, executable instance of every class of Crates.v. They are not
    models of the crates' code: they show that the laws can be satisfied
    together, and they are what the witnesses compute with. *)

From S2P Require Import Prelude Crates.

#[local] Obligation Tactic := idtac.

(** ** [bytes] *)

Definition ref_get_u8 (l : bytes) : option (Z * bytes) :=
  match l with a :: r => Some (a, r) | [] => None end.
Definition ref_get_u16 (l : bytes) : option (Z * bytes) :=
  match l with a :: b :: r => Some (a * 2 ^ 8 + b, r) | _ => None end.
Definition ref_get_u32 (l : bytes) : option (Z * bytes) :=
  match l with
  | a :: b :: c :: d :: r =>
      Some (a * 2 ^ 24 + b * 2 ^ 16 + c * 2 ^ 8 + d, r)
  | _ => None
  end.
Definition ref_split_to (n : nat) (l : bytes) : option (bytes * bytes) :=
  if decide (n <= length l)%nat then Some (take n l, drop n l) else None.

#[export] Program Instance ref_bytes : BytesCrate := {|
  get_u8 := ref_get_u8;
  get_u16 := ref_get_u16;
  get_u32 := ref_get_u32;
  split_to := ref_split_to;
  split_all l := (l, []);
  with_capacity _ := [];
  put_u8 z l := l ++ [z];
  put_u16 z l := l ++ [z / 2 ^ 8; z mod 2 ^ 8];
  put_u32 z l := l ++ [z / 2 ^ 24; z / 2 ^ 16 mod 2 ^ 8;
                       z / 2 ^ 8 mod 2 ^ 8; z mod 2 ^ 8];
  put s l := l ++ s;
  extend_from_slice s l := l ++ s;
|}.
Solve Obligations with try done.
Next Obligation. intros n l ?. unfold ref_split_to. by rewrite decide_True. Qed.
Next Obligation.
  intros n l ?. unfold ref_split_to. rewrite decide_False by lia. done.
Qed.

(** ** [ReadBuf]: the filled part and the room left *)

#[export] Program Instance ref_readbuf : ReadBufCrate := {|
  ReadBuf := bytes * nat;
  filled := fst;
  remaining := snd;
  put_slice s b :=
    if decide (length s <= b.2)%nat then Some (b.1 ++ s, (b.2 - length s)%nat)
    else None;
|}.
Solve Obligations with try done.
Next Obligation.
  intros s [f n] Hle. simpl in *. rewrite decide_True by done. eauto.
Qed.
Next Obligation.
  intros s [f n] Hlt. simpl in *. rewrite decide_False by lia. done.
Qed.

(** ** [mpsc]: a queue and two flags *)

Record RefChan (T : Type) : Type := mkRefChan {
  rc_queue : list T;
  rc_tx : bool;
  rc_rx : bool;
}.
Arguments mkRefChan {T}.
Arguments rc_queue {T}.
Arguments rc_tx {T}.
Arguments rc_rx {T}.

Definition ref_poll_recv {T} (c : RefChan T) : Poll (option T) * RefChan T :=
  match rc_queue c with
  | x :: q => (Ready (Some x), mkRefChan q (rc_tx c) (rc_rx c))
  | [] => if rc_tx c then (Pending, c) else (Ready None, c)
  end.

#[export] Program Instance ref_mpsc : MpscCrate := {|
  chan := RefChan;
  unbounded_channel T := mkRefChan [] true true;
  send T x c :=
    if rc_rx c then Some (mkRefChan (rc_queue c ++ [x]) (rc_tx c) true) else None;
  poll_recv T c := ref_poll_recv c;
  drop_tx T c := mkRefChan (rc_queue c) false (rc_rx c);
  drop_rx T c := mkRefChan [] (rc_tx c) false;
  queued T := rc_queue;
  tx_alive T := rc_tx;
  rx_alive T := rc_rx;
|}.
Solve Obligations with try done.
Next Obligation. intros T x [q tx rx] Hr; simpl in *. rewrite Hr. eauto. Qed.
Next Obligation. intros T x [q tx rx] Hr; simpl in *. by rewrite Hr. Qed.
Next Obligation.
  intros T x [[|y q] tx rx] c'; unfold ref_poll_recv; simpl; [by destruct tx|].
  intros; by simplify_eq/=.
Qed.
Next Obligation.
  intros T [[|y q] [] rx] c'; unfold ref_poll_recv; simpl; intros; by simplify_eq/=.
Qed.
Next Obligation.
  intros T [[|y q] [] rx] c'; unfold ref_poll_recv; simpl; intros; by simplify_eq/=.
Qed.

#[export] Instance ref_mpsc_prompt : PromptMpsc.
Proof.
  intros T [[|y q] [] rx] c'; cbn; unfold ref_poll_recv; simpl; intros;
    by simplify_eq/=.
Qed.

(** ** [DashMap] *)

Definition ref_remove_if {S} (k : ConnKey) (f : ChanId -> S -> bool * S)
    (m : gmap ConnKey ChanId) (s : S) : gmap ConnKey ChanId * S :=
  match m !! k with
  | Some v => ((if (f v s).1 then delete k m else m), (f v s).2)
  | None => (m, s)
  end.

#[export] Program Instance ref_dashmap : DashMapCrate := {|
  dashmap := gmap ConnKey ChanId;
  dm_new := ∅;
  entry_occupied k m := bool_decide (is_Some (m !! k));
  or_insert k v m := <[k := v]> m;
  remove_if S := ref_remove_if;
  entries m := m;
|}.
Solve Obligations with try done.
Next Obligation. intros S k f m s Hk. unfold ref_remove_if. by rewrite Hk. Qed.
Next Obligation. intros S k f m v s Hk. unfold ref_remove_if. by rewrite Hk. Qed.
