(* ===== verification/Errors.v ===== *)
(** * Errors (src/src/error.rs, and [std::io::Error] as the source builds it) *)

From S2P Require Import Prelude.

Inductive ConnectionError : Type :=
  | NoAddress
  | TooMany
  | AlreadyExists (id : Z) (addr : SocketAddr).

Inductive PacketParseError : Type :=
  | TooSmall
  | UnsupportedVersion (v : Z)
  | InvalidPacketType (n : Z)
  | MissingExtension (n : nat)
  | IncompleteExtension (index length remaining : nat).

(** [io::ErrorKind], with the two kinds the source names and the operating
    system's own errors. *)
Inductive ErrorKind : Type :=
  | KindOther
  | KindAlreadyExists
  | KindOs (code : Z).

(** What an [io::Error] wraps: a [ConnectionError], the [SendError] of a closed
    channel, or nothing. *)
Inductive ErrorPayload : Type :=
  | PayloadConnection (e : ConnectionError)
  | PayloadSendError
  | PayloadNone.

Record IoError : Type := mkIoError {
  kind : ErrorKind;
  payload : ErrorPayload;
}.

#[export] Instance ConnectionError_eq_dec : EqDecision ConnectionError.
Proof. solve_decision. Defined.
#[export] Instance PacketParseError_eq_dec : EqDecision PacketParseError.
Proof. solve_decision. Defined.
#[export] Instance ErrorKind_eq_dec : EqDecision ErrorKind.
Proof. solve_decision. Defined.
#[export] Instance ErrorPayload_eq_dec : EqDecision ErrorPayload.
Proof. solve_decision. Defined.
#[export] Instance IoError_eq_dec : EqDecision IoError.
Proof. solve_decision. Defined.
