(* ===== verification/Time.v ===== *)
(** * Timestamps (src/src/time.rs) *)

From S2P Require Import Prelude.

(** A [SystemTime], as nanoseconds since the UNIX epoch: negative before it. *)
Definition SystemTime : Type := Z.

(** [now.duration_since(UNIX_EPOCH).unwrap().as_micros()] *)
Definition micros_since_epoch (now : SystemTime) : Outcome Z :=
  if now <? 0 then Panic UnwrapErr else Done (now / 1000).

(** [current_micros], at the system time [now]. *)
Definition current_micros (now : SystemTime) : Outcome Z :=
  total_microseconds ← micros_since_epoch now;
  Done (as_u32 (Z.land total_microseconds u32_MAX)).

Lemma current_micros_eq now : 0 <= now ->
  current_micros now = Done ((now / 1000) mod 2 ^ 32).
Proof.
  intros Hn. unfold current_micros, micros_since_epoch.
  rewrite (proj2 (Z.ltb_ge _ _)) by done. cbn.
  change u32_MAX with (Z.ones 32). rewrite Z.land_ones by done.
  unfold as_u32. by rewrite Z.mod_mod.
Qed.

Lemma current_micros_u32 now t : current_micros now = Done t -> u32 t.
Proof.
  unfold current_micros. intros (m & _ & Ht)%bind_Done. outcome_inv.
  int_unfold. by apply Z.mod_pos_bound.
Qed.

Lemma current_micros_panic now :
  current_micros now = Panic UnwrapErr <-> now < 0.
Proof.
  unfold current_micros, micros_since_epoch.
  destruct (Z.ltb_spec now 0); cbn; split; intros; try done; lia.
Qed.

#[export] Hint Resolve current_micros_u32 : utp.
