(* ===== verification/Packet.v ===== *)
(** * Packets and their wire format (src/src/packet.rs)

    The data of a uTP packet, [From<Packet> for Bytes] ([bytes_from_packet])
    and [TryFrom<Bytes> for Packet] ([Packet_try_from]), as the source computes
    them through the cursor operations of the [bytes] crate. The grammar they
    implement and the theorems about them are in PacketWire.v. *)

From S2P Require Import Prelude Crates Errors.

Definition PACKET_HEADER_LEN : nat := 20.

Inductive PacketType : Type := Data | Fin | State | Reset | Syn.

Inductive ExtensionType : Type :=
  | ExtNone
  | SelectiveAck
  | Bitfield
  | CloseReason
  | Unknown (n : Z).

Record Extension : Type := Extension_new {
  extension_type : ExtensionType;
  ext_data : bytes;
}.

Record Packet : Type := Packet_new {
  packet_type : PacketType;
  version : Z;
  connection_id : Z;
  timestamp_micros : Z;
  timestamp_delta_micros : Z;
  window_size : Z;
  seq_number : Z;
  ack_number : Z;
  extensions : list Extension;
  data : bytes;
}.

#[export] Instance PacketType_eq_dec : EqDecision PacketType.
Proof. solve_decision. Defined.
#[export] Instance ExtensionType_eq_dec : EqDecision ExtensionType.
Proof. solve_decision. Defined.
#[export] Instance Extension_eq_dec : EqDecision Extension.
Proof. solve_decision. Defined.
#[export] Instance Packet_eq_dec : EqDecision Packet.
Proof. solve_decision. Defined.

(** [packet_type as u8]: the discriminants of the [repr(u8)] enum. *)
Definition PacketType_as_u8 (t : PacketType) : Z :=
  match t with Data => 0 | Fin => 1 | State => 2 | Reset => 3 | Syn => 4 end.

Definition PacketType_try_from (value : Z) : Result PacketType PacketParseError :=
  match value with
  | 0 => Ok Data
  | 1 => Ok Fin
  | 2 => Ok State
  | 3 => Ok Reset
  | 4 => Ok Syn
  | n => Err (InvalidPacketType n)
  end.

Definition ExtensionType_from (num : Z) : ExtensionType :=
  match num with
  | 0 => ExtNone
  | 1 => SelectiveAck
  | 2 => Bitfield
  | 3 => CloseReason
  | n => Unknown n
  end.

Definition u8_from_ExtensionType (t : ExtensionType) : Z :=
  match t with
  | ExtNone => 0
  | SelectiveAck => 1
  | Bitfield => 2
  | CloseReason => 3
  | Unknown n => n
  end.

Definition has_remaining (bs : bytes) : bool := (0 <? length bs)%nat.

Section codec.
Context `{By : BytesCrate}.

(** ** Serialisation *)

(** The capacity reserved for the serialised packet. *)
Definition packet_length (p : Packet) : nat :=
  fold_left (fun n e => n + (1 + 1 + length (ext_data e)))%nat (extensions p)
    (PACKET_HEADER_LEN + length (data p))%nat.

(** The loop [for i in 0..packet.extensions.len()], on the indices left. *)
Fixpoint put_extensions (exts : list Extension) (indices : list nat)
    (result : bytes) : Outcome bytes :=
  match indices with
  | [] => Done result
  | i :: indices =>
      let next := match exts !! (i + 1)%nat with
                  | None => 0
                  | Some e => u8_from_ExtensionType (extension_type e)
                  end in
      let result := put_u8 next result in
      extension ← expect OutOfBounds (exts !! i);
      let result := put_u8 (as_u8 (Z.of_nat (length (ext_data extension)))) result in
      let result := put (ext_data extension) result in
      put_extensions exts indices result
  end.

Definition bytes_from_packet (packet : Packet) : Outcome bytes :=
  let result := with_capacity (packet_length packet) in
  let result :=
    put_u8 (Z.lor (as_u8 (Z.shiftl (PacketType_as_u8 (packet_type packet)) 4))
                  (version packet)) result in
  result ←
    (if is_empty (extensions packet) then
       Done (put_u8 (u8_from_ExtensionType ExtNone) result)
     else
       e ← expect OutOfBounds (extensions packet !! 0%nat);
       Done (put_u8 (u8_from_ExtensionType (extension_type e)) result));
  let result := put_u16 (connection_id packet) result in
  let result := put_u32 (timestamp_micros packet) result in
  let result := put_u32 (timestamp_delta_micros packet) result in
  let result := put_u32 (window_size packet) result in
  let result := put_u16 (seq_number packet) result in
  let result := put_u16 (ack_number packet) result in
  result ←
    put_extensions (extensions packet) (seq 0 (length (extensions packet))) result;
  Done (put (data packet) result).

(** ** Parsing *)

(** The [loop] over the extensions. Each round consumes at least the length
    byte of an extension, so more fuel than bytes is enough. *)
Fixpoint extension_loop (fuel : nat) (exts : list Extension)
    (extension_number : nat) (ext_type next_extension_type : Z) (bs : bytes)
    : Outcome (Result (list Extension * bytes) PacketParseError) :=
  match fuel with
  | O => OutOfFuel
  | S fuel =>
      match ExtensionType_from ext_type with
      | ExtNone => Done (Ok (exts, bs))
      | other_type =>
          if negb (has_remaining bs) then
            Done (Err (MissingExtension extension_number))
          else
            '(len, bs) ← expect BufferOverrun (get_u8 bs);
            let len := Z.to_nat len in
            if (length bs <? len)%nat then
              Done (Err (IncompleteExtension extension_number len (length bs)))
            else
              '(extension_data, bs) ← expect OutOfBounds (split_to len bs);
              let exts := exts ++ [Extension_new other_type extension_data] in
              if negb (next_extension_type =? 0) && has_remaining bs then
                '(b, bs) ← expect BufferOverrun (get_u8 bs);
                extension_loop fuel exts (S extension_number)
                  next_extension_type b bs
              else
                extension_loop fuel exts (S extension_number)
                  next_extension_type next_extension_type bs
      end
  end.

Definition Packet_try_from (bs : bytes)
    : Outcome (Result Packet PacketParseError) :=
  if (length bs <? PACKET_HEADER_LEN)%nat then Done (Err TooSmall) else
  '(type_and_version, bs) ← expect BufferOverrun (get_u8 bs);
  try! ptype := Done (PacketType_try_from (Z.shiftr type_and_version 4)) in
  try! vers :=
    Done (match Z.land type_and_version 0x0F with
          | 1 => Ok 1
          | v => Err (UnsupportedVersion v)
          end) in
  '(first_extension_type, bs) ← expect BufferOverrun (get_u8 bs);
  '(conn_id, bs) ← expect BufferOverrun (get_u16 bs);
  '(ts_micros, bs) ← expect BufferOverrun (get_u32 bs);
  '(ts_delta_micros, bs) ← expect BufferOverrun (get_u32 bs);
  '(window, bs) ← expect BufferOverrun (get_u32 bs);
  '(seq_num, bs) ← expect BufferOverrun (get_u16 bs);
  '(ack_num, bs) ← expect BufferOverrun (get_u16 bs);
  try! (next_extension_type, bs) :=
    (if negb (first_extension_type =? 0) then
       if has_remaining bs then
         '(b, bs) ← expect BufferOverrun (get_u8 bs);
         Done (Ok (b, bs))
       else Done (Err (MissingExtension 0))
     else Done (Ok (0, bs))) in
  try! (exts, bs) :=
    extension_loop (S (length bs)) [] 0 first_extension_type
      next_extension_type bs in
  Done (Ok (Packet_new ptype vers conn_id ts_micros ts_delta_micros window
              seq_num ack_num exts bs)).
End codec.
