(* ===== verification/PacketWire.v ===== *)
(** * The packet grammar, and the codec against it

    [parses] is the abstract specification of the packet format: an inductive
    grammar over the bytes of a datagram, with no cursor and no lookahead.
    The theorems say that [Packet_try_from] decides it, that
    [bytes_from_packet] writes it, and that the two are inverse bijections
    between well-formed packets and the byte strings that parse. *)

From S2P Require Import Prelude Crates CratesRef Errors Packet.

(** ** Definitions *)

Definition be16 (a b : Z) : Z := a * 2 ^ 8 + b.
Definition be32 (a b c d : Z) : Z :=
  a * 2 ^ 24 + b * 2 ^ 16 + c * 2 ^ 8 + d.

(** The big-endian integer at an offset of the header. *)
Definition hdr16 (bs : bytes) (i : nat) : Z := be16 (bs !!! i) (bs !!! S i).
Definition hdr32 (bs : bytes) (i : nat) : Z :=
  be32 (bs !!! i) (bs !!! S i) (bs !!! S (S i)) (bs !!! S (S (S i))).

(** The type byte that announces a chain of extensions: that of the first, and
    0 when there is none. *)
Definition first_type (exts : list Extension) : Z :=
  match exts with
  | [] => 0
  | e :: _ => u8_from_ExtensionType (extension_type e)
  end.

(** The bytes of a chain of extensions: each one is the type byte of the next
    one, its length byte and its data. *)
Fixpoint chain_bytes (exts : list Extension) : bytes :=
  match exts with
  | [] => []
  | e :: rest =>
      [first_type rest; as_u8 (Z.of_nat (length (ext_data e)))] ++ ext_data e ++
      chain_bytes rest
  end.

Definition put16 (z : Z) : bytes := [z / 2 ^ 8; z mod 2 ^ 8].
Definition put32 (z : Z) : bytes :=
  [z / 2 ^ 24; z / 2 ^ 16 mod 2 ^ 8; z / 2 ^ 8 mod 2 ^ 8; z mod 2 ^ 8].

Definition header_bytes (p : Packet) : bytes :=
  [Z.lor (PacketType_as_u8 (packet_type p) * 16) (version p);
   first_type (extensions p)] ++
  put16 (connection_id p) ++ put32 (timestamp_micros p) ++
  put32 (timestamp_delta_micros p) ++ put32 (window_size p) ++
  put16 (seq_number p) ++ put16 (ack_number p).

(** The bytes an extension takes: type, length and data. *)
Definition ext_size (e : Extension) : nat := 2 + length (ext_data e).

(** The bytes of a packet. *)
Definition wire (p : Packet) : bytes :=
  header_bytes p ++ chain_bytes (extensions p) ++ data p.

(** [parse_chain i t bs r]: reading a chain of extensions announced by the type
    byte [t] from [bs], the next extension being number [i], gives [r]: the
    extensions and the bytes after them, or the error of the first extension
    that is not there in full. *)
Inductive parse_chain : nat -> Z -> bytes ->
    Result (list Extension * bytes) PacketParseError -> Prop :=
  | chain_end i bs :
      parse_chain i 0 bs (Ok ([], bs))
  | chain_missing i t bs :
      t <> 0 -> (length bs < 2)%nat ->
      parse_chain i t bs (Err (MissingExtension i))
  | chain_incomplete i t n len bs :
      t <> 0 -> (length bs < Z.to_nat len)%nat ->
      parse_chain i t (n :: len :: bs)
        (Err (IncompleteExtension i (Z.to_nat len) (length bs)))
  | chain_ext i t n len d bs es rest :
      t <> 0 -> length d = Z.to_nat len ->
      parse_chain (S i) n bs (Ok (es, rest)) ->
      parse_chain i t (n :: len :: d ++ bs)
        (Ok (Extension_new (ExtensionType_from t) d :: es, rest))
  | chain_err i t n len d bs e :
      t <> 0 -> length d = Z.to_nat len ->
      parse_chain (S i) n bs (Err e) ->
      parse_chain i t (n :: len :: d ++ bs) (Err e).

(** The packet whose header fields are read from [bs] at their offsets. *)
Definition packet_at (bs : bytes) (t : PacketType) (es : list Extension)
    (payload : bytes) : Packet :=
  Packet_new t 1 (hdr16 bs 2) (hdr32 bs 4) (hdr32 bs 8) (hdr32 bs 12)
    (hdr16 bs 16) (hdr16 bs 18) es payload.

Inductive parses (bs : bytes) : Result Packet PacketParseError -> Prop :=
  | parses_small :
      (length bs < 20)%nat -> parses bs (Err TooSmall)
  | parses_type e :
      (20 <= length bs)%nat ->
      PacketType_try_from ((bs !!! 0%nat) / 16) = Err e -> parses bs (Err e)
  | parses_version t :
      (20 <= length bs)%nat ->
      PacketType_try_from ((bs !!! 0%nat) / 16) = Ok t ->
      (bs !!! 0%nat) mod 16 <> 1 ->
      parses bs (Err (UnsupportedVersion ((bs !!! 0%nat) mod 16)))
  | parses_bad_chain t e :
      (20 <= length bs)%nat ->
      PacketType_try_from ((bs !!! 0%nat) / 16) = Ok t ->
      (bs !!! 0%nat) mod 16 = 1 ->
      parse_chain 0 (bs !!! 1%nat) (drop 20 bs) (Err e) -> parses bs (Err e)
  | parses_ok t es rest :
      (20 <= length bs)%nat ->
      PacketType_try_from ((bs !!! 0%nat) / 16) = Ok t ->
      (bs !!! 0%nat) mod 16 = 1 ->
      parse_chain 0 (bs !!! 1%nat) (drop 20 bs) (Ok (es, rest)) ->
      parses bs (Ok (packet_at bs t es rest)).

(** The packet [p] with another payload. *)
Definition with_data (p : Packet) (payload : bytes) : Packet :=
  Packet_new (packet_type p) (version p) (connection_id p) (timestamp_micros p)
    (timestamp_delta_micros p) (window_size p) (seq_number p) (ack_number p)
    (extensions p) payload.

(** Well-formed packets: what a packet that came from the wire satisfies. The
    fields have their width, the version is the one supported, an extension
    has a type that is its own byte's and at most 255 bytes. *)
Definition wf_ExtensionType (t : ExtensionType) : Prop :=
  match t with
  | ExtNone => False
  | Unknown n => 4 <= n < 2 ^ 8
  | _ => True
  end.

Record wf_Extension (e : Extension) : Prop := {
  wf_extension_type : wf_ExtensionType (extension_type e);
  wf_ext_length : (length (ext_data e) < 256)%nat;
  wf_ext_data : Forall u8 (ext_data e);
}.

Record wf_Packet (p : Packet) : Prop := {
  wf_version : version p = 1;
  wf_connection_id : u16 (connection_id p);
  wf_timestamp_micros : u32 (timestamp_micros p);
  wf_timestamp_delta_micros : u32 (timestamp_delta_micros p);
  wf_window_size : u32 (window_size p);
  wf_seq_number : u16 (seq_number p);
  wf_ack_number : u16 (ack_number p);
  wf_extensions : Forall wf_Extension (extensions p);
  wf_data : Forall u8 (data p);
}.

(** Packets whose fields fit their width on the wire: what serialisation needs
    to write the packet, well-formed or not. *)
Record encodable (p : Packet) : Prop := {
  en_version : u8 (version p);
  en_connection_id : u16 (connection_id p);
  en_timestamp_micros : u32 (timestamp_micros p);
  en_timestamp_delta_micros : u32 (timestamp_delta_micros p);
  en_window_size : u32 (window_size p);
  en_seq_number : u16 (seq_number p);
  en_ack_number : u16 (ack_number p);
  en_extensions :
    Forall (fun e => u8 (u8_from_ExtensionType (extension_type e))) (extensions p);
}.

(** A [State] packet with two extensions and a payload, for the witnesses. *)
Definition sample_packet : Packet :=
  Packet_new State 1 12345 246810 40 4096 65535 7
    [Extension_new SelectiveAck [0; 1; 0; 1]; Extension_new (Unknown 255) [9]]
    [1; 2; 3; 4; 5].

(** ** Helper lemmas: type bytes *)

Lemma PacketType_try_from_as_u8 t : PacketType_try_from (PacketType_as_u8 t) = Ok t.
Proof. by destruct t. Qed.

Lemma PacketType_try_from_Ok n t :
  PacketType_try_from n = Ok t -> n = PacketType_as_u8 t.
Proof.
  intros Ht. destruct n as [|[[p|p|]|[[]|[]|]|]|]; cbn in Ht; by simplify_eq.
Qed.

Lemma PacketType_try_from_Err n e :
  PacketType_try_from n = Err e -> e = InvalidPacketType n /\ ~ 0 <= n <= 4.
Proof.
  intros Ht. destruct n as [|[[p|p|]|[[]|[]|]|]|]; cbn in Ht; simplify_eq;
    (split; [done|lia]).
Qed.

Lemma PacketType_as_u8_bound t : 0 <= PacketType_as_u8 t <= 4.
Proof. destruct t; cbn; lia. Qed.

Lemma ExtensionType_from_None t : ExtensionType_from t = ExtNone <-> t = 0.
Proof. by destruct t as [|[[]|[]|]|]. Qed.

Lemma u8_from_ExtensionType_from t : u8_from_ExtensionType (ExtensionType_from t) = t.
Proof. by destruct t as [|[[]|[]|]|]. Qed.

Lemma ExtensionType_from_wf t :
  u8 t -> t <> 0 -> wf_ExtensionType (ExtensionType_from t).
Proof.
  intros Ht ?. int_unfold. destruct t as [|[[p|p|]|[[]|[]|]|]|]; cbn; try done; lia.
Qed.

Lemma u8_from_ExtensionType_wf t :
  wf_ExtensionType t ->
  u8 (u8_from_ExtensionType t) /\ u8_from_ExtensionType t <> 0.
Proof. destruct t; cbn; int_unfold; lia. Qed.

Lemma ExtensionType_from_u8 t :
  wf_ExtensionType t -> ExtensionType_from (u8_from_ExtensionType t) = t.
Proof.
  destruct t as [| | | |n]; cbn; try done. intros Hn.
  destruct n as [|[[p|p|]|[[]|[]|]|]|]; cbn; try done; lia.
Qed.

Lemma wf_Packet_encodable p : wf_Packet p -> encodable p.
Proof.
  intros [Hv]. split; try done; [rewrite Hv; int_unfold; lia|].
  eapply Forall_impl; [eassumption|]. intros e [Ht _ _].
  by apply u8_from_ExtensionType_wf.
Qed.

(** ** Helper lemmas: integers on the wire *)

Lemma put16_length z : length (put16 z) = 2%nat.
Proof. done. Qed.
Lemma put32_length z : length (put32 z) = 4%nat.
Proof. done. Qed.

Lemma put16_u8 z : u16 z -> Forall u8 (put16 z).
Proof.
  intros Hz. unfold put16. repeat apply Forall_cons_2; [int_lia..|done].
Qed.

Lemma put32_u8 z : u32 z -> Forall u8 (put32 z).
Proof.
  intros Hz. unfold put32. change (2 ^ 24) with 16777216. repeat apply Forall_cons_2;
    [int_lia..|done].
Qed.

Lemma be16_put16 z : be16 (z / 2 ^ 8) (z mod 2 ^ 8) = z.
Proof. unfold be16. int_lia. Qed.

Lemma be32_put32 z :
  be32 (z / 2 ^ 24) (z / 2 ^ 16 mod 2 ^ 8) (z / 2 ^ 8 mod 2 ^ 8) (z mod 2 ^ 8) = z.
Proof.
  unfold be32. change (2 ^ 8) with 256. change (2 ^ 16) with 65536.
  change (2 ^ 24) with 16777216. Z.to_euclidean_division_equations. lia.
Qed.

Lemma put16_be16 a b : u8 a -> u8 b -> put16 (be16 a b) = [a; b].
Proof. intros. unfold put16, be16. repeat f_equal; int_lia. Qed.

Lemma put32_be32 a b c d : u8 a -> u8 b -> u8 c -> u8 d ->
  put32 (be32 a b c d) = [a; b; c; d].
Proof.
  intros. unfold put32, be32. change (2 ^ 24) with 16777216.
  repeat f_equal; int_lia.
Qed.

Lemma be16_u16 a b : u8 a -> u8 b -> u16 (be16 a b).
Proof. intros. unfold be16. int_lia. Qed.
Lemma be32_u32 a b c d : u8 a -> u8 b -> u8 c -> u8 d -> u32 (be32 a b c d).
Proof. intros. unfold be32. change (2 ^ 24) with 16777216. int_lia. Qed.

(** The type and version byte. *)
Lemma type_version_byte t v : 0 <= v < 16 ->
  Z.lor (PacketType_as_u8 t * 16) v = PacketType_as_u8 t * 16 + v.
Proof.
  intros Hv. symmetry. apply Z.add_nocarry_lor. apply Z.bits_inj. intros n.
  rewrite Z.land_spec, Z.bits_0. destruct (decide (n < 4)) as [Hn|Hn].
  - change 16 with (2 ^ 4). by rewrite Z.mul_pow2_bits_low.
  - rewrite (Z.bits_above_log2 v n), andb_false_r; [done|lia|].
    destruct (decide (v = 0)) as [->|]; [cbn; lia|].
    apply Z.log2_lt_pow2; [lia|].
    apply Z.lt_le_trans with (2 ^ 4); [apply Hv|]. apply Z.pow_le_mono_r; lia.
Qed.

Lemma type_version_u8 t v : u8 v -> u8 (Z.lor (PacketType_as_u8 t * 16) v).
Proof.
  intros [Hv0 Hv]. pose proof (PacketType_as_u8_bound t). split.
  - apply Z.lor_nonneg. lia.
  - destruct (decide (Z.lor (PacketType_as_u8 t * 16) v = 0)) as [->|Hne]; [done|].
    apply Z.log2_lt_pow2; [pose proof (proj2 (Z.lor_nonneg _ _)
      (conj (ltac:(lia) : 0 <= PacketType_as_u8 t * 16) Hv0)); lia|].
    rewrite Z.log2_lor by lia. apply Z.max_lub_lt.
    + by destruct t.
    + destruct (decide (v = 0)) as [->|]; [done|]. apply Z.log2_lt_pow2; lia.
Qed.

Lemma shiftr_4 z : Z.shiftr z 4 = z / 16.
Proof. by rewrite Z.shiftr_div_pow2. Qed.

Lemma land_15 z : Z.land z 0x0F = z mod 16.
Proof. change 0x0F with (Z.ones 4). by rewrite Z.land_ones. Qed.

(** ** Helper lemmas: serialisation writes [wire] *)

Section encode.
Context `{By : BytesCrate}.

Lemma first_type_u8 es :
  Forall (fun e => u8 (u8_from_ExtensionType (extension_type e))) es ->
  u8 (first_type es).
Proof. intros Hes. destruct Hes; [int_unfold; cbn; lia|done]. Qed.

Lemma put_extensions_chain exts i n buf :
  Forall (fun e => u8 (u8_from_ExtensionType (extension_type e))) exts ->
  (i + n = length exts)%nat ->
  put_extensions exts (seq i n) buf = Done (buf ++ chain_bytes (drop i exts)).
Proof.
  intros Hes. revert i buf. induction n as [|n IH]; intros i buf Hi; cbn.
  - rewrite drop_ge by lia. by rewrite app_nil_r.
  - destruct (lookup_lt_is_Some_2 exts i) as [e He]; [lia|].
    rewrite (drop_S _ _ _ He), He. cbn. rewrite IH by lia. f_equal.
    assert (match exts !! (i + 1)%nat with
            | Some e0 => u8_from_ExtensionType (extension_type e0)
            | None => 0
            end = first_type (drop (S i) exts)) as ->.
    { rewrite Nat.add_1_r. destruct (exts !! S i) as [e'|] eqn:He'.
      - by rewrite (drop_S _ _ _ He').
      - by rewrite drop_ge by (by apply lookup_ge_None). }
    rewrite put_app, !put_u8_app by (by eauto using first_type_u8, Forall_drop,
      as_u8_u8).
    by rewrite <- !(assoc_L (++)).
Qed.

Lemma bytes_from_packet_wire p :
  encodable p -> bytes_from_packet p = Done (wire p).
Proof.
  intros [Hv ? ? ? ? ? ? Hes]. unfold bytes_from_packet.
  rewrite Z.shiftl_mul_pow2 by done. change (2 ^ 4) with 16.
  rewrite as_u8_small by
    (pose proof (PacketType_as_u8_bound (packet_type p)); int_unfold; lia).
  rewrite with_capacity_nil, (put_u8_app (Z.lor _ _)) by (by apply type_version_u8).
  assert ((if is_empty (extensions p) then _ else _) =
    Done ([Z.lor (PacketType_as_u8 (packet_type p) * 16) (version p)] ++
          [first_type (extensions p)])) as ->.
  { destruct (extensions p) as [|e es]; cbn.
    - rewrite put_u8_app by (int_unfold; cbn; lia). done.
    - apply Forall_cons in Hes as [? _]. by rewrite put_u8_app. }
  cbn [mbind Outcome_bind].
  rewrite !put_u16_app, !put_u32_app by done. cbn [mbind Outcome_bind].
  rewrite put_extensions_chain by done. cbn [mbind Outcome_bind drop].
  by rewrite put_app.
Qed.

Lemma header_bytes_length p : length (header_bytes p) = 20%nat.
Proof. done. Qed.

Lemma chain_bytes_length es :
  length (chain_bytes es) = sum_list_with ext_size es.
Proof.
  induction es as [|e es IH]; cbn; [done|]. rewrite length_app, IH.
  unfold ext_size. lia.
Qed.

Lemma packet_length_wire p : packet_length p = length (wire p).
Proof.
  unfold packet_length, wire. rewrite !length_app, header_bytes_length,
    chain_bytes_length. unfold PACKET_HEADER_LEN.
  assert (forall es n, fold_left (fun n e => n + (1 + 1 + length (ext_data e)))%nat es n =
    (n + sum_list_with ext_size es)%nat) as ->; [|lia].
  induction es as [|e es IH]; intros n; cbn; [lia|]. rewrite IH.
  unfold ext_size. lia.
Qed.

Lemma chain_bytes_u8 es :
  Forall (fun e => u8 (u8_from_ExtensionType (extension_type e))) es ->
  Forall (fun e => Forall u8 (ext_data e)) es -> Forall u8 (chain_bytes es).
Proof.
  intros Hes Hed. induction es as [|e es IH]; cbn; [done|].
  apply Forall_cons in Hes as [? Hes]. apply Forall_cons in Hed as [? Hed].
  rewrite !Forall_cons, Forall_app.
  split_and!; auto using first_type_u8, as_u8_u8.
Qed.

Lemma wire_u8 p : encodable p ->
  Forall (fun e => Forall u8 (ext_data e)) (extensions p) ->
  Forall u8 (data p) -> Forall u8 (wire p).
Proof.
  intros [Hv ? ? ? ? ? ? Hes] Hed Hd. unfold wire, header_bytes.
  rewrite !Forall_app, !Forall_cons.
  split_and!; auto using put16_u8, put32_u8, type_version_u8, first_type_u8,
    chain_bytes_u8.
Qed.

Lemma wf_wire_u8 p : wf_Packet p -> Forall u8 (wire p).
Proof.
  intros Hp. apply wire_u8; [by apply wf_Packet_encodable| |apply Hp].
  eapply Forall_impl; [apply Hp|]. by intros e [].
Qed.
End encode.

(** ** Helper lemmas: the grammar *)

Lemma first_type_nonzero es :
  Forall wf_Extension es -> first_type es = 0 -> es = [].
Proof.
  intros [|e es' [Ht _ _] _]; cbn; [done|].
  intros. by apply u8_from_ExtensionType_wf in Ht as [_ ?].
Qed.

(** The grammar is deterministic: a byte string has one reading. *)
Lemma parse_chain_det i t bs r r' :
  parse_chain i t bs r -> parse_chain i t bs r' -> r = r'.
Proof.
  intros Hr. revert r'.
  induction Hr as [i bs|i t bs Ht Hl|i t n len bs Ht Hl|i t n len d bs es rest Ht Hd _ IH
                  |i t n len d bs e Ht Hd _ IH]; intros r' Hr'.
  - by inversion Hr'.
  - inversion Hr'; subst; cbn in *; try done; lia.
  - inversion Hr'; subst; cbn in *; rewrite ?length_app in *; try done; lia.
  - inversion Hr' as [| |? ? ? ? ? ? Hlt|? ? ? ? d' bs' ? ? ? Hd' Hc|? ? ? ? d' bs' ? ? Hd' Hc];
      subst; cbn in *; rewrite ?length_app in *; try done; try lia.
    all: destruct (app_inj_1 d' d bs' bs) as [-> ->]; [congruence|done|].
    + apply IH in Hc. by simplify_eq.
    + by apply IH in Hc.
  - inversion Hr' as [| |? ? ? ? ? ? Hlt|? ? ? ? d' bs' ? ? ? Hd' Hc|? ? ? ? d' bs' ? ? Hd' Hc];
      subst; cbn in *; rewrite ?length_app in *; try done; try lia.
    all: destruct (app_inj_1 d' d bs' bs) as [-> ->]; [congruence|done|].
    + by apply IH in Hc.
    + apply IH in Hc. by simplify_eq.
Qed.

Lemma parses_det bs r r' : parses bs r -> parses bs r' -> r = r'.
Proof.
  intros Hr Hr'. destruct Hr, Hr'; simplify_eq; try done; try lia;
    try congruence.
  all: match goal with
       | H1 : parse_chain _ _ _ _, H2 : parse_chain _ _ _ _ |- _ =>
           pose proof (parse_chain_det _ _ _ _ _ H1 H2); congruence
       end.
Qed.

(** What is written reads back. *)
Lemma parse_chain_bytes i es rest :
  Forall wf_Extension es ->
  parse_chain i (first_type es) (chain_bytes es ++ rest) (Ok (es, rest)).
Proof.
  intros Hes. revert i. induction Hes as [|e es [Ht Hl _] _ IH]; intros i; cbn.
  - apply chain_end.
  - destruct e as [t d]; cbn in *. rewrite <- (ExtensionType_from_u8 t) at 2 by done.
    rewrite <- (assoc_L (++)). apply chain_ext.
    + by apply u8_from_ExtensionType_wf.
    + rewrite as_u8_small by (int_unfold; lia). lia.
    + apply IH.
Qed.

(** What reads was written by [chain_bytes], and its extensions are
    well-formed. *)
Lemma parse_chain_Ok i t bs es rest :
  parse_chain i t bs (Ok (es, rest)) -> u8 t -> Forall u8 bs ->
  bs = chain_bytes es ++ rest /\ first_type es = t /\
  Forall wf_Extension es /\ Forall u8 rest.
Proof.
  remember (Ok (es, rest)) as r eqn:Hr. intros Hc. revert es rest Hr.
  induction Hc as [i bs|i t bs Ht Hl|i t n len bs Ht Hl
                  |i t n len d bs es0 rest0 Ht Hd Hc IH|i t n len d bs e Ht Hd _ _];
    intros es rest Hr Hut Hbs; simplify_eq.
  - done.
  - apply Forall_cons in Hbs as [Hn Hbs]. apply Forall_cons in Hbs as [Hlen Hbs].
    apply Forall_app in Hbs as [Hud Hbs].
    destruct (IH es0 rest eq_refl Hn Hbs) as (-> & Hft & Hwf & Hrest). cbn.
    rewrite Hft, u8_from_ExtensionType_from, Hd, Z2Nat.id by apply Hlen.
    rewrite as_u8_small by done. split_and!; try done.
    + by rewrite <- (assoc_L (++)).
    + apply Forall_cons. split; [|done]. split; cbn; [|int_unfold; lia|done].
      by apply ExtensionType_from_wf.
Qed.

(** ** Helper lemmas: the parser follows the grammar *)

Lemma has_remaining_nil : has_remaining [] = false.
Proof. done. Qed.
Lemma has_remaining_cons b bs : has_remaining (b :: bs) = true.
Proof. done. Qed.

Ltac rewrite_has_remaining :=
  rewrite ?has_remaining_nil, ?has_remaining_cons; cbn [negb andb bind_result].

(** A result of the grammar, after the extensions already read. *)
Definition prepend (acc : list Extension)
    (r : Result (list Extension * bytes) PacketParseError)
    : Result (list Extension * bytes) PacketParseError :=
  match r with
  | Ok (es, rest) => Ok (acc ++ es, rest)
  | Err e => Err e
  end.

Section decode.
Context `{By : BytesCrate}.

(** One round of the loop on a type byte that announces an extension. *)
Lemma extension_loop_step fuel exts i et nt bs : et <> 0 ->
  extension_loop (S fuel) exts i et nt bs =
    if negb (has_remaining bs) then Done (Err (MissingExtension i)) else
    '(len, bs) ← expect BufferOverrun (get_u8 bs);
    if (length bs <? Z.to_nat len)%nat
    then Done (Err (IncompleteExtension i (Z.to_nat len) (length bs))) else
    '(d, bs) ← expect OutOfBounds (split_to (Z.to_nat len) bs);
    if negb (nt =? 0) && has_remaining bs then
      '(b, bs) ← expect BufferOverrun (get_u8 bs);
      extension_loop fuel (exts ++ [Extension_new (ExtensionType_from et) d])
        (S i) nt b bs
    else
      extension_loop fuel (exts ++ [Extension_new (ExtensionType_from et) d])
        (S i) nt nt bs.
Proof.
  intros Het. cbn [extension_loop]. rewrite <- ExtensionType_from_None in Het.
  by destruct (ExtensionType_from et).
Qed.

Lemma extension_loop_end fuel exts i nt bs :
  extension_loop (S fuel) exts i 0 nt bs = Done (Ok (exts, bs)).
Proof. done. Qed.

Lemma extension_loop_chain fuel exts i et nt bs :
  (length bs < fuel)%nat -> et <> 0 ->
  exists r, extension_loop fuel exts i et nt bs = Done (prepend exts r) /\
    parse_chain i et (nt :: bs) r.
Proof.
  revert exts i et nt bs.
  induction fuel as [|fuel IH]; intros exts i et nt bs Hf Het; [lia|].
  rewrite extension_loop_step by done.
  destruct bs as [|len bs]; cbn [negb]; rewrite_has_remaining.
  { exists (Err (MissingExtension i)). split; [done|].
    apply chain_missing; [done|cbn; lia]. }
  rewrite get_u8_cons. cbn [expect mbind Outcome_bind].
  destruct (Nat.ltb_spec (length bs) (Z.to_nat len)) as [Hlt|Hge].
  { eexists (Err _). split; [done|]. by apply chain_incomplete. }
  rewrite split_to_le by done. cbn [expect mbind Outcome_bind]. cbn in Hf.
  set (n := Z.to_nat len) in *.
  assert (Hd : length (take n bs) = n) by (rewrite length_take; lia).
  assert (Hrest : (length (drop n bs) < fuel)%nat) by (rewrite length_drop; lia).
  assert (Hbs : nt :: len :: bs = nt :: len :: take n bs ++ drop n bs)
    by (by rewrite take_drop).
  rewrite Hbs.
  set (e := Extension_new (ExtensionType_from et) (take n bs)).
  assert (Hgo : exists r, (if negb (nt =? 0) && has_remaining (drop n bs) then
      '(b, bs) ← expect BufferOverrun (get_u8 (drop n bs));
      extension_loop fuel (exts ++ [e]) (S i) nt b bs
    else extension_loop fuel (exts ++ [e]) (S i) nt nt (drop n bs)) =
      Done (prepend (exts ++ [e]) r) /\ parse_chain (S i) nt (drop n bs) r).
  { destruct fuel as [|fuel]; [lia|].
    destruct (Z.eqb_spec nt 0) as [->|Hnt]; cbn [negb andb].
    - eexists (Ok ([], _)). rewrite extension_loop_end. cbn [prepend].
      rewrite app_nil_r. split; [done|apply chain_end].
    - destruct (drop n bs) as [|b rest] eqn:Hdrop; rewrite_has_remaining.
      + exists (Err (MissingExtension (S i))). split.
        * by rewrite extension_loop_step by done.
        * apply chain_missing; [done|cbn; lia].
      + rewrite get_u8_cons. cbn [expect mbind Outcome_bind].
        cbn in Hrest. apply IH; [lia|done]. }
  destruct Hgo as ([[es rest]|err] & -> & Hc); eexists.
  - split; [|by apply chain_ext]. cbn. by rewrite <- (assoc_L (++)).
  - split; [|by apply chain_err]. done.
Qed.

Lemma Packet_try_from_parses_aux bs :
  exists r, Packet_try_from bs = Done r /\ parses bs r.
Proof.
  unfold Packet_try_from, PACKET_HEADER_LEN.
  destruct (Nat.ltb_spec (length bs) 20) as [Hlt|Hge].
  { eexists. split; [done|]. by apply parses_small. }
  pose proof Hge as Hge'.
  do 20 (destruct bs as [|? bs]; [cbn in Hge; lia|]). clear Hge.
  rewrite !get_u8_cons. cbn [expect mbind Outcome_bind].
  rewrite shiftr_4, land_15.
  match goal with |- context [PacketType_try_from (?a / 16)] => rename a into b0 end.
  match goal with |- context [?l :: bs] =>
    match goal with |- exists r, _ /\ parses ?all r => set (full := all) in * end end.
  assert (Hdrop : drop 20 full = bs) by done.
  destruct (PacketType_try_from (b0 / 16)) as [t|e] eqn:Ht; cbn [bind_result].
  2: { eexists. split; [done|]. by apply parses_type. }
  destruct (decide (b0 mod 16 = 1)) as [Hv|Hv].
  2: { exists (Err (UnsupportedVersion (b0 mod 16))). split.
       - destruct (b0 mod 16) as [|[]|]; done.
       - by apply parses_version with t. }
  rewrite Hv. cbn [bind_result]. rewrite get_u8_cons. cbn [expect mbind Outcome_bind].
  rewrite !get_u16_cons. cbn [expect mbind Outcome_bind].
  rewrite !get_u32_cons. cbn [expect mbind Outcome_bind].
  rewrite !get_u32_cons. cbn [expect mbind Outcome_bind].
  rewrite !get_u32_cons. cbn [expect mbind Outcome_bind].
  rewrite !get_u16_cons. cbn [expect mbind Outcome_bind].
  rewrite !get_u16_cons. cbn [expect mbind Outcome_bind].
  match goal with |- context [negb (?a =? 0)] => rename a into t0 end.
  destruct (Z.eqb_spec t0 0) as [->|Ht0]; cbn [negb bind_result].
  { rewrite extension_loop_end. cbn [bind_result].
    eexists. split; [reflexivity|].
    apply (parses_ok full t [] bs); try done. rewrite Hdrop. apply chain_end. }
  destruct bs as [|b bs]; rewrite_has_remaining.
  { eexists. split; [done|]. apply (parses_bad_chain full t); try done.
    rewrite Hdrop. apply chain_missing; [done|cbn; lia]. }
  rewrite get_u8_cons. cbn [expect mbind Outcome_bind bind_result].
  destruct (extension_loop_chain (S (length bs)) [] 0 t0 b bs)
    as ([[es rest]|e] & -> & Hc); [lia|done|..]; cbn [prepend bind_result app].
  - eexists. split; [reflexivity|]. apply (parses_ok full t es rest); try done.
  - eexists. split; [reflexivity|]. by apply (parses_bad_chain full t).
Qed.
End decode.

(** ** Helper lemmas: the header of [wire] *)

Lemma PacketType_nibble t v : 0 <= v < 16 ->
  Z.lor (PacketType_as_u8 t * 16) v / 16 = PacketType_as_u8 t /\
  Z.lor (PacketType_as_u8 t * 16) v mod 16 = v.
Proof.
  intros. rewrite type_version_byte by done.
  split; Z.to_euclidean_division_equations; lia.
Qed.

(** The header of [p] followed by anything: its fields are read back from their
    offsets. *)
Lemma packet_at_header p rest payload : version p = 1 ->
  packet_at (header_bytes p ++ rest) (packet_type p) (extensions p) payload =
    with_data p payload.
Proof.
  intros Hv. unfold packet_at, hdr16, hdr32, header_bytes. destruct p; cbn in *.
  by rewrite !be16_put16, !be32_put32, Hv.
Qed.

Lemma with_data_id p : with_data p (data p) = p.
Proof. by destruct p. Qed.

Lemma header_lookup0 p rest :
  (header_bytes p ++ rest) !!! 0%nat =
    Z.lor (PacketType_as_u8 (packet_type p) * 16) (version p).
Proof. done. Qed.

Lemma header_lookup1 p rest :
  (header_bytes p ++ rest) !!! 1%nat = first_type (extensions p).
Proof. done. Qed.

(** Reading a header written by [header_bytes] amounts to reading the chain. *)
Lemma parses_header_Ok p rest es payload : version p = 1 ->
  parse_chain 0 (first_type (extensions p)) rest (Ok (es, payload)) ->
  parses (header_bytes p ++ rest)
    (Ok (packet_at (header_bytes p ++ rest) (packet_type p) es payload)).
Proof.
  intros Hv Hc. destruct (PacketType_nibble (packet_type p) (version p))
    as [Ht Hm]; [lia|].
  apply parses_ok.
  - rewrite length_app, header_bytes_length. lia.
  - by rewrite header_lookup0, Ht, PacketType_try_from_as_u8.
  - by rewrite header_lookup0, Hm.
  - by rewrite header_lookup1, drop_app_length'.
Qed.

Lemma parses_header_Err p rest e : version p = 1 ->
  parse_chain 0 (first_type (extensions p)) rest (Err e) ->
  parses (header_bytes p ++ rest) (Err e).
Proof.
  intros Hv Hc. destruct (PacketType_nibble (packet_type p) (version p))
    as [Ht Hm]; [lia|].
  apply (parses_bad_chain _ (packet_type p)).
  - rewrite length_app, header_bytes_length. lia.
  - by rewrite header_lookup0, Ht, PacketType_try_from_as_u8.
  - by rewrite header_lookup0, Hm.
  - by rewrite header_lookup1, drop_app_length'.
Qed.

Lemma parses_wire p : wf_Packet p -> parses (wire p) (Ok p).
Proof.
  intros Hp. rewrite <- (with_data_id p) at 2.
  rewrite <- (packet_at_header p (chain_bytes (extensions p) ++ data p)) by apply Hp.
  apply parses_header_Ok; [apply Hp|]. apply parse_chain_bytes, Hp.
Qed.

Lemma packet_at_wf bs t es rest :
  Forall u8 bs -> (20 <= length bs)%nat -> Forall wf_Extension es ->
  Forall u8 rest -> wf_Packet (packet_at bs t es rest).
Proof.
  intros Hbs Hl Hes Hrest.
  assert (Hu : forall i, (i < 20)%nat -> u8 (bs !!! i)).
  { intros i Hi. destruct (lookup_lt_is_Some_2 bs i) as [b Hb]; [lia|].
    rewrite (list_lookup_total_correct _ _ _ Hb). exact (Forall_lookup_1 _ _ _ _ Hbs Hb). }
  split; cbn; try done; unfold hdr16, hdr32;
    auto using be16_u16, be32_u32 with lia.
Qed.

#[local] Arguments put16 _ : simpl never.
#[local] Arguments put32 _ : simpl never.
#[local] Arguments be16 _ _ : simpl never.
#[local] Arguments be32 _ _ _ _ : simpl never.

(** What parses was written by [wire]. *)
Lemma parses_Ok_wire bs p :
  Forall u8 bs -> parses bs (Ok p) -> wf_Packet p /\ bs = wire p.
Proof.
  intros Hbs Hp. inversion Hp as [| | | |t es rest Hl Ht Hv Hc]; subst.
  assert (H1 : u8 (bs !!! 1%nat)).
  { do 2 (destruct bs as [|? bs]; [cbn in Hl; lia|]).
    by apply Forall_cons in Hbs as [_ [? _]%Forall_cons]. }
  destruct (parse_chain_Ok _ _ _ _ _ Hc) as (Hdrop & Hft & Hes & Hrest);
    [done|by apply Forall_drop|].
  split; [by apply packet_at_wf|].
  unfold wire. rewrite <- (take_drop 20 bs), Hdrop. cbn [data extensions packet_at].
  f_equal. apply PacketType_try_from_Ok in Ht. clear Hc Hdrop Hp.
  do 20 (destruct bs as [|? bs]; [cbn in Hl; lia|]).
  repeat (apply Forall_cons in Hbs as [? Hbs]).
  unfold header_bytes, packet_at, hdr16, hdr32. cbn in *.
  rewrite !put16_be16, !put32_be32 by done.
  rewrite Hft, type_version_byte by lia.
  cbn. f_equal. rewrite <- Ht. Z.to_euclidean_division_equations. lia.
Qed.

Section codec_lemmas.
Context `{By : BytesCrate}.

Lemma Packet_try_from_iff bs r : Packet_try_from bs = Done r <-> parses bs r.
Proof.
  destruct (Packet_try_from_parses_aux bs) as (r0 & -> & Hr0). split.
  - intros. by outcome_inv.
  - intros Hr. by rewrite (parses_det _ _ _ Hr0 Hr).
Qed.

Lemma Packet_try_from_wire p :
  wf_Packet p -> Packet_try_from (wire p) = Done (Ok p).
Proof. intros. by apply Packet_try_from_iff, parses_wire. Qed.

Lemma bytes_from_packet_wf p :
  wf_Packet p -> bytes_from_packet p = Done (wire p).
Proof. intros. by apply bytes_from_packet_wire, wf_Packet_encodable. Qed.
End codec_lemmas.

(** ** Truncated datagrams *)

Lemma parse_chain_truncated es i n :
  Forall wf_Extension es -> (n < length (chain_bytes es))%nat ->
  exists e, parse_chain i (first_type es) (take n (chain_bytes es)) (Err e).
Proof.
  intros Hes. revert i n.
  induction Hes as [|[t d] es [Ht Hl _] Hwf IH]; intros i n Hn; cbn in Hn; [lia|].
  apply u8_from_ExtensionType_wf in Ht as [_ Ht]. cbn in *.
  destruct (decide (n < 2)%nat) as [Hn2|Hn2].
  { eexists. apply chain_missing; [done|]. rewrite length_take. lia. }
  destruct n as [|[|n]]; [lia..|]. cbn [take].
  assert (Hlen : Z.to_nat (as_u8 (Z.of_nat (length d))) = length d).
  { rewrite as_u8_small by (int_unfold; lia). lia. }
  rewrite take_app. destruct (decide (n < length d)%nat) as [Hnd|Hnd].
  - replace (n - length d)%nat with 0%nat by lia. rewrite take_0, app_nil_r.
    eexists. apply chain_incomplete; [done|]. rewrite Hlen, length_take. lia.
  - rewrite take_ge by lia. rewrite length_app in Hn.
    destruct (IH (S i) (n - length d)%nat) as [e He]; [lia|].
    exists e. by apply chain_err.
Qed.

(** ** Properties *)

Section properties.
Context `{By : BytesCrate}.

(** C10. Parsing a serialised packet gives the packet back: for every
    well-formed packet, with any number of extensions and any payload,
    [Bytes::from] followed by [Packet::try_from] is the identity, and neither
    panics. *)
Theorem packet_round_trip (p : Packet) :
  wf_Packet p ->
  (bs ← bytes_from_packet p; Packet_try_from bs) = Done (Ok p).
Proof. intros. rewrite bytes_from_packet_wf by done. by apply Packet_try_from_wire. Qed.

(** C25. Parsing is canonical: when [Packet::try_from] accepts a byte string,
    the packet it returns is well-formed (fields in range, version 1, no
    extension of type [None]) and serialises to exactly those bytes, so two
    different datagrams never parse to the same packet. *)
Theorem packet_parse_canonical (bs : bytes) (p : Packet) :
  Forall u8 bs -> Packet_try_from bs = Done (Ok p) ->
  wf_Packet p /\ bytes_from_packet p = Done bs.
Proof.
  intros Hbs Hp. apply Packet_try_from_iff in Hp.
  apply parses_Ok_wire in Hp as [Hp ->]; [|done].
  by split; [|apply bytes_from_packet_wf].
Qed.

(** C11. [Packet::try_from] decides the packet grammar: on every byte string it
    terminates without a panic (no [get_*] past the end, no [split_to] out of
    range, no round of the extension loop without progress) and returns the
    one result the grammar [parses] gives, packet or error. *)
Theorem packet_parser_decides_grammar (bs : bytes) :
  exists r, Packet_try_from bs = Done r /\ forall r', parses bs r' <-> r' = r.
Proof.
  destruct (Packet_try_from_parses_aux bs) as (r & Hr & Hp).
  exists r. split; [done|]. intros r'. split; [|by intros ->].
  intros. by eapply parses_det.
Qed.

(** Serialisation writes the wire format: for any packet whose fields fit
    their width, [Bytes::from] does not index out of bounds, its output is the
    header, the chain of extensions and the payload, and the capacity computed
    in advance is exactly the length of the output. *)
Theorem packet_serialise_wire (p : Packet) :
  encodable p ->
  bytes_from_packet p = Done (wire p) /\ packet_length p = length (wire p) /\
  length (wire p) =
    (20 + sum_list_with ext_size (extensions p) + length (data p))%nat.
Proof.
  intros Hp. split; [by apply bytes_from_packet_wire|].
  split; [apply packet_length_wire|]. unfold wire.
  rewrite !length_app, header_bytes_length, chain_bytes_length. lia.
Qed.

(** Truncation is detected or harmless: cutting the bytes of a well-formed
    packet short inside the header or the extensions makes [Packet::try_from]
    return an error; cutting them in the payload only shortens the payload. *)
Theorem packet_truncated (p : Packet) (n : nat) :
  wf_Packet p ->
  let h := (20 + length (chain_bytes (extensions p)))%nat in
  if (n <? h)%nat then
    exists e, Packet_try_from (take n (wire p)) = Done (Err e)
  else
    Packet_try_from (take n (wire p)) =
      Done (Ok (with_data p (take (n - h) (data p)))).
Proof.
  intros Hp h. unfold wire. rewrite take_app, header_bytes_length.
  destruct (Nat.ltb_spec n h) as [Hn|Hn].
  - destruct (decide (n < 20)%nat) as [Hn20|Hn20].
    + exists TooSmall. apply Packet_try_from_iff, parses_small.
      rewrite length_app, !length_take, header_bytes_length. lia.
    + rewrite (take_ge (header_bytes p)) by (rewrite header_bytes_length; lia).
      rewrite take_app.
      replace (n - 20 - length (chain_bytes (extensions p)))%nat with 0%nat by lia.
      rewrite take_0, app_nil_r.
      destruct (parse_chain_truncated (extensions p) 0 (n - 20)) as [e He];
        [apply Hp|lia|]. exists e. apply Packet_try_from_iff, parses_header_Err; [apply Hp|done].
  - rewrite (take_ge (header_bytes p)) by (rewrite header_bytes_length; lia).
    rewrite take_app, (take_ge (chain_bytes _)) by lia.
    replace (n - 20 - length (chain_bytes (extensions p)))%nat with (n - h)%nat by lia.
    rewrite <- (packet_at_header p (chain_bytes (extensions p) ++ take (n - h) (data p)))
      by apply Hp.
    apply Packet_try_from_iff, parses_header_Ok; [apply Hp|]. apply parse_chain_bytes, Hp.
Qed.
End properties.

(** ** Witnesses *)

Lemma sample_packet_wf : wf_Packet sample_packet.
Proof.
  split; cbn; try done; repeat apply Forall_cons_2; try apply Forall_nil_2;
    try done; split; cbn; try done; try lia; by repeat apply Forall_cons_2.
Qed.

Lemma packet_round_trip_witness :
  wf_Packet sample_packet /\
  (bs ← bytes_from_packet sample_packet; Packet_try_from bs) =
    Done (Ok sample_packet).
Proof.
  split; [exact sample_packet_wf|].
  exact (packet_round_trip sample_packet sample_packet_wf).
Defined.

Lemma packet_parse_canonical_witness :
  wf_Packet sample_packet /\
  bytes_from_packet sample_packet = Done (wire sample_packet).
Proof.
  apply (packet_parse_canonical (wire sample_packet) sample_packet).
  - exact (wf_wire_u8 _ sample_packet_wf).
  - vm_compute. reflexivity.
Defined.

Lemma packet_serialise_wire_witness :
  bytes_from_packet sample_packet = Done (wire sample_packet) /\
  packet_length sample_packet = 34%nat /\
  length (wire sample_packet) = 34%nat.
Proof.
  destruct (packet_serialise_wire sample_packet
    (wf_Packet_encodable _ sample_packet_wf)) as (H1 & H2 & H3).
  split; [exact H1|]. split; [rewrite H2|]; exact H3.
Defined.

Lemma packet_truncated_witness :
  (exists e, Packet_try_from (take 25 (wire sample_packet)) = Done (Err e)) /\
  Packet_try_from (take 31 (wire sample_packet)) =
    Done (Ok (with_data sample_packet [1; 2])).
Proof.
  split.
  - exact (packet_truncated sample_packet 25 sample_packet_wf).
  - exact (packet_truncated sample_packet 31 sample_packet_wf).
Defined.
