(* ===== verification/PacketTests.v ===== *)
(** * The tests of packet.rs (src/src/packet.rs, [mod tests])

    Each test of the source is a program of the [Outcome] monad: it is passed
    when it ends, and a failed assertion is a panic. They validate the model: for
    every implementation of [bytes] that obeys its documentation, the definitions
    of Packet.v give the results the authors wrote down. *)

From S2P Require Import Prelude Crates CratesRef Errors Packet PacketWire.

(** ** Assertions *)

(** [assert!]. *)
Definition assert (b : bool) : Outcome unit :=
  if b then Done tt else Panic AssertFailed.

(** [assert_eq!]. *)
Definition assert_eq {A} `{EqDecision A} (a b : A) : Outcome unit :=
  assert (bool_decide (a = b)).

(** [unwrap], [is_ok] and [is_err] of a [Result]. *)
Definition unwrap {A E} (r : Result A E) : Outcome A :=
  match r with Ok a => Done a | Err _ => Panic UnwrapErr end.
Definition is_ok {A E} (r : Result A E) : bool :=
  match r with Ok _ => true | Err _ => false end.
Definition is_err {A E} (r : Result A E) : bool := negb (is_ok r).

(** ** The tests *)

Section packet_tests.
Context `{By : BytesCrate}.

Definition new_packet (exts : list Extension) (payload : bytes) : Packet :=
  Packet_new State 1 12345 246810 40 4096 0 0 exts payload.

Definition into_bytes_test : Outcome unit :=
  let packet := new_packet [] [] in
  bs ← bytes_from_packet packet;
  assert_eq bs
    [Z.lor (Z.shiftl 0x02 4) 0x01; 0x00; 0x30; 0x39;
     0x00; 0x03; 0xc4; 0x1a;
     0x00; 0x00; 0x00; 0x28;
     0x00; 0x00; 0x10; 0x00;
     0x00; 0x00; 0x00; 0x00].

Definition into_bytes_with_extension_test : Outcome unit :=
  let packet :=
    new_packet [Extension_new SelectiveAck [0x00; 0x01; 0x00; 0x01]] [] in
  bs ← bytes_from_packet packet;
  assert_eq bs
    [Z.lor (Z.shiftl 0x02 4) 0x01; 0x01; 0x30; 0x39;
     0x00; 0x03; 0xc4; 0x1a;
     0x00; 0x00; 0x00; 0x28;
     0x00; 0x00; 0x10; 0x00;
     0x00; 0x00; 0x00; 0x00;
     (* selective ack extension with bitfield *)
     0x00; 0x04; 0x00; 0x01; 0x00; 0x01].

Definition into_bytes_with_data_test : Outcome unit :=
  let packet := new_packet [] [0x01; 0x02; 0x03; 0x04; 0x05] in
  bs ← bytes_from_packet packet;
  assert_eq bs
    [Z.lor (Z.shiftl 0x02 4) 0x01; 0x00; 0x30; 0x39;
     0x00; 0x03; 0xc4; 0x1a;
     0x00; 0x00; 0x00; 0x28;
     0x00; 0x00; 0x10; 0x00;
     0x00; 0x00; 0x00; 0x00;
     (* data *)
     0x01; 0x02; 0x03; 0x04; 0x05].

Definition into_bytes_with_extension_and_data_test : Outcome unit :=
  let packet :=
    new_packet [Extension_new SelectiveAck [0x00; 0x01; 0x00; 0x01]]
      [0x01; 0x02; 0x03; 0x04; 0x05] in
  bs ← bytes_from_packet packet;
  assert_eq bs
    [Z.lor (Z.shiftl 0x02 4) 0x01; 0x01; 0x30; 0x39;
     0x00; 0x03; 0xc4; 0x1a;
     0x00; 0x00; 0x00; 0x28;
     0x00; 0x00; 0x10; 0x00;
     0x00; 0x00; 0x00; 0x00;
     (* selective ack extension with bitfield *)
     0x00; 0x04; 0x00; 0x01; 0x00; 0x01;
     (* data *)
     0x01; 0x02; 0x03; 0x04; 0x05].

Definition multiple_extensions_test : Outcome unit :=
  let packet :=
    new_packet
      [Extension_new SelectiveAck [0x00; 0x01; 0x00; 0x01];
       Extension_new Bitfield [0x01; 0x00; 0x00; 0x01];
       Extension_new CloseReason [0x00; 0x01; 0x01; 0x00]] [] in
  bs ← bytes_from_packet packet;
  assert_eq bs
    [Z.lor (Z.shiftl 0x02 4) 0x01; 0x01; 0x30; 0x39;
     0x00; 0x03; 0xc4; 0x1a;
     0x00; 0x00; 0x00; 0x28;
     0x00; 0x00; 0x10; 0x00;
     0x00; 0x00; 0x00; 0x00;
     (* 3 extension segments *)
     0x02; 0x04; 0x00; 0x01; 0x00; 0x01;
     0x03; 0x04; 0x01; 0x00; 0x00; 0x01;
     0x00; 0x04; 0x00; 0x01; 0x01; 0x00].

Definition from_bytes_test : Outcome unit :=
  parsed ← Packet_try_from
    [Z.lor (Z.shiftl 0x02 4) 0x01; 0x00; 0x30; 0x39;
     0x00; 0x03; 0xc4; 0x1a;
     0x00; 0x00; 0x00; 0x28;
     0x00; 0x00; 0x10; 0x00;
     0x00; 0x00; 0x00; 0x00];
  packet ← unwrap parsed;
  assert_eq packet (new_packet [] []).

(** The four byte strings of [from_malformed_bytes_test]. The operands of the
    type bytes are [u8]s, so the shift of [0xff] loses its upper half. *)
Definition invalid_length : bytes :=
  [Z.lor (Z.shiftl 0x02 4) 0x01; 0x00; 0x30; 0x39;
   0x00; 0x00; 0x10; 0x00;
   0x00; 0x00; 0x00; 0x00].
Definition invalid_type : bytes :=
  [Z.lor (as_u8 (Z.shiftl 0xff 4)) 0x01; 0x00; 0x30; 0x39;
   0x00; 0x03; 0xc4; 0x1a;
   0x00; 0x00; 0x00; 0x28;
   0x00; 0x00; 0x10; 0x00;
   0x00; 0x00; 0x00; 0x00].
Definition invalid_version : bytes :=
  [Z.lor (Z.shiftl 0x02 4) 0xff; 0x00; 0x30; 0x39;
   0x00; 0x03; 0xc4; 0x1a;
   0x00; 0x00; 0x00; 0x28;
   0x00; 0x00; 0x10; 0x00;
   0x00; 0x00; 0x00; 0x00].
Definition no_extension : bytes :=
  [Z.lor (Z.shiftl 0x02 4) 0x01; 0x01; 0x30; 0x39;
   0x00; 0x03; 0xc4; 0x1a;
   0x00; 0x00; 0x00; 0x28;
   0x00; 0x00; 0x10; 0x00;
   0x00; 0x00; 0x00; 0x00].

Definition from_malformed_bytes_test : Outcome unit :=
  parsed ← Packet_try_from invalid_length; _ ← assert (is_err parsed);
  parsed ← Packet_try_from invalid_type; _ ← assert (is_err parsed);
  parsed ← Packet_try_from invalid_version; _ ← assert (is_err parsed);
  parsed ← Packet_try_from no_extension; assert (is_err parsed).

Definition from_bytes_with_extension_test : Outcome unit :=
  parsed ← Packet_try_from
    [Z.lor (Z.shiftl 0x02 4) 0x01; 0x01; 0x30; 0x39;
     0x00; 0x03; 0xc4; 0x1a;
     0x00; 0x00; 0x00; 0x28;
     0x00; 0x00; 0x10; 0x00;
     0x00; 0x00; 0x00; 0x00;
     (* selective ack extension with bitfield *)
     0x00; 0x04; 0x00; 0x01; 0x00; 0x01];
  packet ← unwrap parsed;
  assert_eq packet
    (new_packet [Extension_new SelectiveAck [0x00; 0x01; 0x00; 0x01]] []).

Definition from_bytes_with_unknown_extension_test : Outcome unit :=
  parsed ← Packet_try_from
    [Z.lor (Z.shiftl 0x02 4) 0x01; 0xff; 0x30; 0x39;
     0x00; 0x03; 0xc4; 0x1a;
     0x00; 0x00; 0x00; 0x28;
     0x00; 0x00; 0x10; 0x00;
     0x00; 0x00; 0x00; 0x00;
     (* made-up extension with length 3 *)
     0x00; 0x03; 0x00; 0x01; 0x00];
  packet ← unwrap parsed;
  assert_eq packet
    (new_packet [Extension_new (Unknown 0xff) [0x00; 0x01; 0x00]] []).

Definition from_non_conforming_bytes_with_extension_test : Outcome unit :=
  (* ok because the length % 4 == 0 check is not enforced in practice *)
  parsed ← Packet_try_from
    [Z.lor (Z.shiftl 0x02 4) 0x01; 0x01; 0x30; 0x39;
     0x00; 0x03; 0xc4; 0x1a;
     0x00; 0x00; 0x00; 0x28;
     0x00; 0x00; 0x10; 0x00;
     0x00; 0x00; 0x00; 0x00;
     (* length is 1 rather than minimum of 4 *)
     0x00; 0x01; 0xff];
  assert (is_ok parsed).

Definition from_malformed_bytes_with_extension_test : Outcome unit :=
  (* invalid extension length *)
  parsed ← Packet_try_from
    [Z.lor (Z.shiftl 0x02 4) 0x01; 0xff; 0x30; 0x39;
     0x00; 0x03; 0xc4; 0x1a;
     0x00; 0x00; 0x00; 0x28;
     0x00; 0x00; 0x10; 0x00;
     0x00; 0x00; 0x00; 0x00;
     0x00; 0x02; 0xab];
  _ ← assert (is_err parsed);
  (* missing an extension *)
  parsed ← Packet_try_from
    [Z.lor (Z.shiftl 0x02 4) 0x01; 0xff; 0x30; 0x39;
     0x00; 0x03; 0xc4; 0x1a;
     0x00; 0x00; 0x00; 0x28;
     0x00; 0x00; 0x10; 0x00;
     0x00; 0x00; 0x00; 0x00;
     0x02; 0x01; 0x00];
  assert (is_err parsed).

Definition from_bytes_with_data_test : Outcome unit :=
  parsed ← Packet_try_from
    [Z.lor (Z.shiftl 0x02 4) 0x01; 0x00; 0x30; 0x39;
     0x00; 0x03; 0xc4; 0x1a;
     0x00; 0x00; 0x00; 0x28;
     0x00; 0x00; 0x10; 0x00;
     0x00; 0x00; 0x00; 0x00;
     (* data *)
     0x01; 0x02; 0x03; 0x04; 0x05];
  packet ← unwrap parsed;
  assert_eq packet (new_packet [] [0x01; 0x02; 0x03; 0x04; 0x05]).

Definition from_bytes_with_extension_and_data_test : Outcome unit :=
  parsed ← Packet_try_from
    [Z.lor (Z.shiftl 0x02 4) 0x01; 0x03; 0x30; 0x39;
     0x00; 0x03; 0xc4; 0x1a;
     0x00; 0x00; 0x00; 0x28;
     0x00; 0x00; 0x10; 0x00;
     0x00; 0x00; 0x00; 0x00;
     (* 'close reason' extension with random data *)
     0x00; 0x04; 0x00; 0x01; 0x00; 0x01;
     (* data *)
     0x01; 0x02; 0x03; 0x04; 0x05];
  packet ← unwrap parsed;
  assert_eq packet
    (new_packet [Extension_new CloseReason [0x00; 0x01; 0x00; 0x01]]
       [0x01; 0x02; 0x03; 0x04; 0x05]).

Definition packet_tests : list (Outcome unit) :=
  [into_bytes_test; into_bytes_with_extension_test; into_bytes_with_data_test;
   into_bytes_with_extension_and_data_test; multiple_extensions_test;
   from_bytes_test; from_malformed_bytes_test; from_bytes_with_extension_test;
   from_bytes_with_unknown_extension_test;
   from_non_conforming_bytes_with_extension_test;
   from_malformed_bytes_with_extension_test; from_bytes_with_data_test;
   from_bytes_with_extension_and_data_test].
End packet_tests.

(** ** They pass *)

Section packet_tests_pass.
Context `{By : BytesCrate}.

(** The codec gives the same results on every implementation of [bytes]. *)
Lemma Packet_try_from_any bs :
  Packet_try_from (By := By) bs = Packet_try_from (By := ref_bytes) bs.
Proof.
  destruct (Packet_try_from_parses_aux (By := ref_bytes) bs) as (r & -> & Hr).
  by apply Packet_try_from_iff.
Qed.

Lemma bytes_from_packet_any p : wf_Packet p ->
  bytes_from_packet (By := By) p = bytes_from_packet (By := ref_bytes) p.
Proof. intros Hp. by rewrite !bytes_from_packet_wf. Qed.

Lemma new_packet_wf exts payload :
  Forall wf_Extension exts -> Forall u8 payload -> wf_Packet (new_packet exts payload).
Proof. by split. Qed.

Ltac wf_test :=
  repeat first [apply new_packet_wf | apply Forall_cons_2 | apply Forall_nil_2 | split];
  vm_compute; try done; lia.

(** The tests of packet.rs pass, whatever the implementation of [bytes]: the
    byte strings and the packets the authors wrote down are those the
    serialiser and the parser compute, and the malformed datagrams are
    rejected. *)
Theorem packet_tests_pass : Forall (eq (Done tt)) packet_tests.
Proof.
  unfold packet_tests. repeat apply Forall_cons_2; try apply Forall_nil_2;
    unfold into_bytes_test, into_bytes_with_extension_test, into_bytes_with_data_test,
      into_bytes_with_extension_and_data_test, multiple_extensions_test,
      from_bytes_test, from_malformed_bytes_test, from_bytes_with_extension_test,
      from_bytes_with_unknown_extension_test, from_non_conforming_bytes_with_extension_test,
      from_malformed_bytes_with_extension_test, from_bytes_with_data_test,
      from_bytes_with_extension_and_data_test;
    rewrite ?Packet_try_from_any; rewrite ?bytes_from_packet_any by wf_test;
    by vm_compute.
Qed.

(** The byte string called an invalid version is rejected for its type: or-ing
    [0xff] into the first byte sets its upper half too, and the version of that
    datagram is never looked at. *)
Theorem invalid_version_type :
  Packet_try_from invalid_version = Done (Err (InvalidPacketType 15)) /\
  Packet_try_from invalid_type = Done (Err (InvalidPacketType 15)).
Proof. by rewrite !Packet_try_from_any. Qed.
End packet_tests_pass.
