(* ===== verification/AddrText.v ===== *)
(** * Texts of numbers and addresses

    The standard library's [Display] of integers and of socket addresses: dotted
    decimal for IPv4; for IPv6 the form of RFC 5952, in which the first longest
    run of at least two zero segments is [::] and an IPv4-mapped address ends in
    dotted decimal (as in Rust 1.76 and later). Different addresses have different
    texts. *)

From S2P Require Import Prelude.
From Stdlib Require Import Ascii.
From stdpp Require Import pretty strings.

#[local] Open Scope string_scope.
#[local] Open Scope list_scope.
#[local] Open Scope Z_scope.

(** ** Definitions *)

(** [{}] of an unsigned integer. *)
Definition dec (z : Z) : string := pretty z.

(** [{:x}] of a [u16]. *)
Definition hex_char (z : Z) : ascii :=
  match z with
  | 0 => "0" | 1 => "1" | 2 => "2" | 3 => "3" | 4 => "4" | 5 => "5" | 6 => "6" | 7 => "7"
  | 8 => "8" | 9 => "9" | 10 => "a" | 11 => "b" | 12 => "c" | 13 => "d" | 14 => "e"
  | _ => "f"
  end%char.
Fixpoint hex_go (fuel : nat) (z : Z) (s : string) : string :=
  let s := String (hex_char (z mod 16)) s in
  match fuel with
  | O => s
  | S fuel => if z / 16 =? 0 then s else hex_go fuel (z / 16) s
  end.
Definition hex (z : Z) : string := hex_go 3 z "".

(** The [n] digits of [z], the octets of an [Ipv4Addr] and the segments of an
    [Ipv6Addr]. *)
Fixpoint digits (base : Z) (n : nat) (z : Z) : list Z :=
  match n with
  | O => []
  | S n => digits base n (z / base) ++ [z mod base]
  end.
Definition octets (ip : Z) : list Z := digits (2 ^ 8) 4 ip.
Definition segments (ip : Z) : list Z := digits (2 ^ 16) 8 ip.

(** [fmt_subslice] and the like: texts with a separator between them. *)
Fixpoint join (sep : string) (l : list string) : string :=
  match l with
  | [] => ""
  | [s] => s
  | s :: l => s +:+ sep +:+ join sep l
  end.

Definition ip4_text (ip : Z) : string := join "." (dec <$> octets ip).

(** The first longest run of zeros: its start and its length. *)
Definition Span : Type := nat * nat.
Definition span_step (st : Span * Span * nat) (segment : Z) : Span * Span * nat :=
  let '(longest, current, i) := st in
  if segment =? 0 then
    let current := if (current.2 =? 0)%nat then (i, 1%nat) else (current.1, S current.2) in
    (if (longest.2 <? current.2)%nat then current else longest, current, S i)
  else (longest, (0, 0)%nat, S i).
Definition longest_zeros (segs : list Z) : Span :=
  (foldl span_step ((0, 0), (0, 0), 0)%nat segs).1.1.

Definition ip4_mapped (ip : Z) : bool :=
  bool_decide (take 6 (segments ip) = [0; 0; 0; 0; 0; 65535]).

Definition ip6_text (ip : Z) : string :=
  let segs := segments ip in
  if ip4_mapped ip then "::ffff:" +:+ ip4_text (ip mod 2 ^ 32) else
  let zeros := longest_zeros segs in
  if (1 <? zeros.2)%nat then
    join ":" (hex <$> take zeros.1 segs) +:+ "::" +:+
      join ":" (hex <$> drop (zeros.1 + zeros.2) segs)
  else join ":" (hex <$> segs).

Definition addr_text (a : SocketAddr) : string :=
  match a with
  | V4 ip port => ip4_text ip +:+ ":" +:+ dec port
  | V6 ip port _ scope_id =>
      if scope_id =? 0 then "[" +:+ ip6_text ip +:+ "]:" +:+ dec port
      else "[" +:+ ip6_text ip +:+ "%" +:+ dec scope_id +:+ "]:" +:+ dec port
  end.

(** Texts of some addresses. *)
Example addr_text_v4 : addr_text (V4 2130706433 8080) = "127.0.0.1:8080".
Proof. reflexivity. Qed.
Example addr_text_v6 : addr_text (V6 1 9090 7 0) = "[::1]:9090".
Proof. reflexivity. Qed.
Example ip6_text_mapped : ip6_text (65535 * 2 ^ 32 + 2130706433) = "::ffff:127.0.0.1".
Proof. reflexivity. Qed.
Example ip6_text_middle : ip6_text (0x20010db8000000000001000000000abc) = "2001:db8::1:0:0:abc".
Proof. reflexivity. Qed.

(** ** Helper lemmas: characters *)

(** Every character of the string satisfies [ok]. *)
Fixpoint made_of (ok : ascii -> bool) (s : string) : bool :=
  match s with EmptyString => true | String c s => ok c && made_of ok s end.

Lemma made_of_app ok s t : made_of ok (s +:+ t) = made_of ok s && made_of ok t.
Proof. induction s as [|c s IH]; simpl; [done|]. by rewrite IH, andb_assoc. Qed.

Lemma made_of_weaken (ok ok' : ascii -> bool) s : (forall c, ok c = true -> ok' c = true) ->
  made_of ok s = true -> made_of ok' s = true.
Proof.
  intros Hok. induction s as [|c s IH]; cbn; [done|].
  intros [Hc Hs]%andb_true_iff. by rewrite Hok, IH.
Qed.

(** Two texts with a separator that neither part before it contains. *)
Lemma separated ok s1 s2 c1 c2 t1 t2 :
  made_of ok s1 = true -> made_of ok s2 = true -> ok c1 = false -> ok c2 = false ->
  s1 +:+ String c1 t1 = s2 +:+ String c2 t2 -> s1 = s2 /\ c1 = c2 /\ t1 = t2.
Proof.
  intros H1 H2 Hc1 Hc2. revert s2 H2. induction s1 as [|a s1 IH]; intros [|b s2]; cbn in *.
  - by intros _ [= -> ->].
  - intros [Hb _]%andb_true_iff [= -> _]. congruence.
  - intros _ [= -> _]. apply andb_true_iff in H1 as [Ha _]. congruence.
  - intros [_ H2]%andb_true_iff [= -> Heq]. apply andb_true_iff in H1 as [_ H1].
    by destruct (IH H1 s2 H2 Heq) as (-> & -> & ->).
Qed.

Lemma separated_end ok s1 s2 c t : made_of ok s1 = true -> ok c = false ->
  s1 <> s2 +:+ String c t.
Proof.
  intros H1 Hc ->. rewrite made_of_app in H1. cbn in H1. rewrite Hc in H1.
  by rewrite andb_false_r in H1.
Qed.

Lemma string_app_nil_r s : s +:+ "" = s.
Proof. induction s as [|c s IH]; [done|]. exact (f_equal (String c) IH). Qed.

Lemma string_app_assoc s t u : (s +:+ t) +:+ u = s +:+ (t +:+ u).
Proof. induction s as [|c s IH]; [done|]. exact (f_equal (String c) IH). Qed.

Definition is_digit (c : ascii) : bool :=
  bool_decide (c ∈ ["0"; "1"; "2"; "3"; "4"; "5"; "6"; "7"; "8"; "9"]%char).
Definition is_hex (c : ascii) : bool :=
  is_digit c || bool_decide (c ∈ ["a"; "b"; "c"; "d"; "e"; "f"]%char).
(** A digit or a dot: an IPv4 address. *)
Definition is_dotted (c : ascii) : bool := is_digit c || bool_decide (c = "."%char).
(** Anything but a colon, a percent sign, a bracket or a blank: a field of an IPv6
    address. *)
Definition is_field (c : ascii) : bool := is_hex c || bool_decide (c = "."%char).
(** What the text of an address is made of. *)
Definition is_addr (c : ascii) : bool :=
  is_field c || bool_decide (c ∈ [":"; "%"; "["; "]"]%char).

Lemma digit_dotted c : is_digit c = true -> is_dotted c = true.
Proof. unfold is_dotted. by intros ->. Qed.
Lemma digit_hex c : is_digit c = true -> is_hex c = true.
Proof. unfold is_hex. by intros ->. Qed.
Lemma hex_field c : is_hex c = true -> is_field c = true.
Proof. unfold is_field. by intros ->. Qed.
Lemma dotted_field c : is_dotted c = true -> is_field c = true.
Proof.
  unfold is_dotted, is_field. intros [Hc|Hc]%orb_true_iff; [by rewrite digit_hex|].
  by rewrite Hc, orb_true_r.
Qed.
Lemma field_addr c : is_field c = true -> is_addr c = true.
Proof. unfold is_addr. by intros ->. Qed.

(** ** Helper lemmas: numbers *)

Lemma pretty_N_go_made x s : made_of is_digit s = true ->
  made_of is_digit (pretty_N_go x s) = true.
Proof.
  revert s. induction (N.lt_wf_0 x) as [x _ IH]; intros s Hs.
  destruct (decide (x = 0)%N) as [->|Hx]; [done|]. rewrite pretty_N_go_step by lia.
  apply IH; [by apply N.div_lt; lia|]. cbn. rewrite Hs, andb_true_r.
  unfold pretty_N_char. by repeat case_match.
Qed.

Lemma dec_made z : 0 <= z -> made_of is_digit (dec z) = true.
Proof.
  intros Hz. unfold dec. destruct z as [|p|]; [done| |lia].
  cbn. unfold pretty, pretty_positive, pretty, pretty_N. rewrite decide_False by done.
  by apply pretty_N_go_made.
Qed.

(** The value of a lower-case hexadecimal text. *)
Definition hex_digit (c : ascii) : Z :=
  let d := Z.of_nat (nat_of_ascii c) in if d <? 58 then d - 48 else d - 87.
Fixpoint hex_value (s : string) (acc : Z) : Z :=
  match s with
  | EmptyString => acc
  | String c s => hex_value s (16 * acc + hex_digit c)
  end.

Lemma hex_char_value z : 0 <= z < 16 ->
  hex_digit (hex_char z) = z /\ is_hex (hex_char z) = true.
Proof.
  intros Hz. assert (z ∈ seqZ 0 16) as Hin by (apply elem_of_seqZ; lia).
  revert Hin. clear Hz. revert z. apply Forall_forall.
  by repeat (apply Forall_cons_2; [done|]).
Qed.

Lemma hex_go_value fuel z s : 0 <= z < 16 ^ Z.of_nat (S fuel) ->
  hex_value (hex_go fuel z s) 0 = hex_value s z.
Proof.
  revert z s. induction fuel as [|fuel IH]; intros z s Hz.
  - change (16 ^ Z.of_nat 1) with 16 in Hz. cbn [hex_go hex_value].
    rewrite (Z.mod_small z 16) by lia. by destruct (hex_char_value z) as [-> _].
  - assert (Hm : 0 <= z mod 16 < 16) by (by apply Z.mod_pos_bound).
    assert (Hv : forall acc, hex_value (String (hex_char (z mod 16)) s) acc =
      hex_value s (16 * acc + z mod 16)).
    { intros acc. cbn [hex_value]. by destruct (hex_char_value _ Hm) as [-> _]. }
    cbn [hex_go]. destruct (Z.eqb_spec (z / 16) 0) as [H0|H0].
    + rewrite Hv. f_equal. pose proof (Z.div_mod z 16). lia.
    + rewrite IH, Hv; [f_equal; pose proof (Z.div_mod z 16); lia|].
      rewrite Nat2Z.inj_succ, Z.pow_succ_r in Hz by lia. split; [apply Z.div_pos; lia|].
      apply Z.div_lt_upper_bound; lia.
Qed.

Lemma hex_inj z1 z2 : u16 z1 -> u16 z2 -> hex z1 = hex z2 -> z1 = z2.
Proof.
  unfold hex. intros H1 H2 Heq%(f_equal (fun s => hex_value s 0)).
  by rewrite !hex_go_value in Heq.
Qed.

Lemma hex_go_made fuel z s : made_of is_hex s = true ->
  made_of is_hex (hex_go fuel z s) = true /\ hex_go fuel z s <> "".
Proof.
  assert (Hd : forall z s, made_of is_hex s = true ->
    made_of is_hex (String (hex_char (z mod 16)) s) = true).
  { intros z' s' Hs. cbn [made_of]. rewrite Hs, andb_true_r.
    apply hex_char_value. by apply Z.mod_pos_bound. }
  revert z s. induction fuel as [|fuel IH]; intros z s Hs; cbn [hex_go];
    [by split; [apply Hd|]|].
  destruct (z / 16 =? 0); [by split; [apply Hd|]|]. by apply IH, Hd.
Qed.

(** ** Helper lemmas: lists of texts *)

Lemma join_cons c s t l : join (String c "") (s :: t :: l) =
  s +:+ String c (join (String c "") (t :: l)).
Proof. done. Qed.

Lemma join_inj ok c l1 l2 : ok c = false -> l1 <> [] -> l2 <> [] ->
  Forall (fun s => made_of ok s = true) l1 -> Forall (fun s => made_of ok s = true) l2 ->
  join (String c "") l1 = join (String c "") l2 -> l1 = l2.
Proof.
  intros Hc Hn1 Hn2 H1. revert l2 Hn2. induction H1 as [|s1 l1 Hs1 H1 IH]; [done|].
  intros [|s2 l2] Hn2 H2 Heq; [done|]. apply Forall_cons in H2 as [Hs2 H2].
  destruct l1 as [|t1 l1], l2 as [|t2 l2].
  - cbn in Heq. congruence.
  - rewrite join_cons in Heq. by apply separated_end with (ok := ok) in Heq.
  - rewrite join_cons in Heq. symmetry in Heq. by apply separated_end with (ok := ok) in Heq.
  - rewrite !join_cons in Heq.
    destruct (separated ok _ _ _ _ _ _ Hs1 Hs2 Hc Hc Heq) as (-> & _ & Ht). f_equal.
    by apply IH.
Qed.

Lemma join_app c l1 l2 : l1 <> [] -> l2 <> [] ->
  join (String c "") (l1 ++ l2) =
  join (String c "") l1 +:+ String c (join (String c "") l2).
Proof.
  intros H1 H2. induction l1 as [|s l1 IH]; [done|]. destruct l1 as [|t l1].
  - by destruct l2.
  - cbn [app] in *. rewrite !join_cons, string_app_assoc. cbn [String.append].
    by rewrite IH.
Qed.

Lemma join_made ok c l : ok c = true -> Forall (fun s => made_of ok s = true) l ->
  made_of ok (join (String c "") l) = true.
Proof.
  intros Hc H. induction H as [|s l Hs H IH]; [done|]. destruct l as [|t l]; [done|].
  rewrite join_cons, made_of_app, Hs. cbn [made_of]. by rewrite Hc.
Qed.

(** A list with a separator that neither part before it contains. *)
Lemma list_separated {A} (x : A) l1 l2 r1 r2 : x ∉ l1 -> x ∉ l2 ->
  l1 ++ x :: r1 = l2 ++ x :: r2 -> l1 = l2 /\ r1 = r2.
Proof.
  revert l2. induction l1 as [|a l1 IH]; intros [|b l2] H1 H2 Heq; cbn in Heq.
  - by injection Heq.
  - injection Heq as -> _. destruct H2. by left.
  - injection Heq as -> _. destruct H1. by left.
  - injection Heq as -> Heq. apply IH in Heq as [-> ->]; [done|..].
    + intros Hx. apply H1. by right.
    + intros Hx. apply H2. by right.
Qed.

(** ** Helper lemmas: digits *)

Lemma length_digits base n z : length (digits base n z) = n.
Proof. revert z. induction n as [|n IH]; intros z; cbn; [done|]. rewrite length_app, IH. cbn. lia. Qed.

Lemma digits_S base n z : digits base (S n) z = digits base n (z / base) ++ [z mod base].
Proof. done. Qed.

Lemma digits_range base n z : 0 < base -> Forall (fun d => 0 <= d < base) (digits base n z).
Proof.
  intros Hb. revert z. induction n as [|n IH]; intros z; cbn; [constructor|].
  apply Forall_app. split; [done|]. apply Forall_singleton. by apply Z.mod_pos_bound.
Qed.

Lemma digits_inj base n z1 z2 : 0 < base -> 0 <= z1 < base ^ Z.of_nat n ->
  0 <= z2 < base ^ Z.of_nat n -> digits base n z1 = digits base n z2 -> z1 = z2.
Proof.
  intros Hb. revert z1 z2. induction n as [|n IH]; intros z1 z2 H1 H2 Heq; cbn [digits] in Heq.
  - change (base ^ Z.of_nat 0) with 1 in *. lia.
  - apply app_inj_tail in Heq as [Hq Hr]. rewrite Nat2Z.inj_succ, Z.pow_succ_r in H1, H2 by lia.
    apply IH in Hq.
    + rewrite (Z.div_mod z1 base), (Z.div_mod z2 base) by lia. congruence.
    + split; [apply Z.div_pos; lia|apply Z.div_lt_upper_bound; lia].
    + split; [apply Z.div_pos; lia|apply Z.div_lt_upper_bound; lia].
Qed.

(** ** Helper lemmas: IPv4 addresses *)

Lemma octets_made ip : Forall (fun s => made_of is_digit s = true) (dec <$> octets ip).
Proof.
  apply Forall_fmap. eapply Forall_impl; [by apply digits_range|].
  intros d Hd. exact (dec_made d (proj1 Hd)).
Qed.

Lemma ip4_text_inj ip1 ip2 : u32 ip1 -> u32 ip2 -> ip4_text ip1 = ip4_text ip2 -> ip1 = ip2.
Proof.
  intros H1 H2 Heq%(join_inj is_digit); [|done..|apply octets_made|apply octets_made].
  apply list_fmap_eq_inj in Heq; [|intros ? ?; apply pretty_Z_inj].
  by eapply (digits_inj (2 ^ 8) 4).
Qed.

Lemma ip4_text_made ip : made_of is_dotted (ip4_text ip) = true.
Proof.
  apply join_made; [done|]. eapply Forall_impl; [apply octets_made|].
  intros s. apply made_of_weaken, digit_dotted.
Qed.

(** It contains a dot. *)
Lemma ip4_text_dot ip : made_of is_hex (ip4_text ip) = false.
Proof.
  unfold ip4_text. pose proof (length_digits (2 ^ 8) 4 ip) as Hl. fold (octets ip) in Hl.
  destruct (octets ip) as [|a [|b l]]; [done|done|]. cbn [fmap list_fmap].
  rewrite join_cons, made_of_app. cbn [made_of]. by rewrite andb_false_r.
Qed.

(** ** Helper lemmas: IPv6 addresses *)

(** A span of zeros. *)
Definition zero_span (segs : list Z) (sp : Span) : Prop :=
  exists pre post, segs = pre ++ replicate sp.2 0 ++ post /\ length pre = sp.1.

Lemma zero_span_snoc segs sp x : zero_span segs sp -> zero_span (segs ++ [x]) sp.
Proof.
  intros (pre & post & -> & Hl). exists pre, (post ++ [x]). split; [|done].
  by rewrite <- !(assoc_L (++)).
Qed.

Lemma zero_span_empty segs : zero_span segs (0, 0)%nat.
Proof. by exists [], segs. Qed.

(** A span that ends where the list does grows with a zero. *)
Lemma zero_span_grows segs start len : zero_span segs (start, len) ->
  (start + len = length segs)%nat -> zero_span (segs ++ [0]) (start, S len).
Proof.
  intros (pre & post & -> & Hl) Hlen. cbn in *.
  rewrite !length_app, length_replicate in Hlen.
  assert (post = []) as -> by (apply length_zero_iff_nil; lia).
  exists pre, []. cbn [fst snd]. split; [|done]. rewrite replicate_S_end, !app_nil_r.
  by rewrite (assoc_L (++)).
Qed.

Lemma span_scan segs :
  let '(longest, current, i) := foldl span_step ((0, 0), (0, 0), 0)%nat segs in
  i = length segs /\ zero_span segs longest /\ zero_span segs current /\
  ((0 < current.2)%nat -> (current.1 + current.2)%nat = i).
Proof.
  induction segs as [|x segs IH] using rev_ind.
  { cbn. split_and!; [done|apply zero_span_empty..|lia]. }
  rewrite foldl_app. cbn [foldl].
  destruct (foldl _ _ segs) as [[longest current] i]. destruct IH as (-> & Hl & Hc & Hend).
  unfold span_step. rewrite length_app. cbn [length]. destruct (Z.eqb_spec x 0) as [->|Hx].
  - set (current' := if (current.2 =? 0)%nat then _ else _).
    assert (Hc' : zero_span (segs ++ [0]) current' /\
      (current'.1 + current'.2)%nat = S (length segs)).
    { unfold current'. destruct current as [start len]. cbn in *.
      destruct (Nat.eqb_spec len 0); cbn; [split; [by exists segs, []|lia]|].
      split; [apply zero_span_grows; [done|lia]|lia]. }
    destruct Hc' as [Hc' He]. split_and!; [lia| |done|lia].
    destruct (_ <? _)%nat; [done|by apply zero_span_snoc].
  - split_and!; [lia|by apply zero_span_snoc|apply zero_span_empty|cbn; lia].
Qed.

(** What is left of an address around its longest run of zeros. *)
Lemma longest_zeros_around segs : let zeros := longest_zeros segs in
  segs = take zeros.1 segs ++ replicate zeros.2 0 ++ drop (zeros.1 + zeros.2) segs.
Proof.
  intros zeros. pose proof (span_scan segs) as Hs. unfold zeros, longest_zeros.
  destruct (foldl _ _ segs) as [[[start len] current] i]. cbn [fst snd].
  destruct Hs as (_ & (pre & post & Hp & Hl) & _). cbn in *. rewrite Hp at 1 2 3.
  rewrite take_app_length' by done. rewrite drop_app, (drop_ge pre) by lia.
  rewrite Hl. replace (start + len - start)%nat with len by lia.
  rewrite drop_app_length' by (by rewrite length_replicate). done.
Qed.

(** The fields of an IPv6 address between its colons: an empty one stands for the
    zeros, and one more for nothing at an end. *)
Definition or_empty (l : list string) : list string :=
  match l with [] => [""] | _ :: _ => l end.
Definition around (pre post : list Z) : list string :=
  or_empty (hex <$> pre) ++ "" :: or_empty (hex <$> post).
Definition ip6_fields (ip : Z) : list string :=
  let segs := segments ip in
  if ip4_mapped ip then [""; ""; "ffff"; ip4_text (ip mod 2 ^ 32)] else
  let zeros := longest_zeros segs in
  if (1 <? zeros.2)%nat then around (take zeros.1 segs) (drop (zeros.1 + zeros.2) segs)
  else hex <$> segs.

Lemma join_or_empty l : join ":" (or_empty l) = join ":" l.
Proof. by destruct l. Qed.

Lemma or_empty_nil l : or_empty l <> [].
Proof. by destruct l. Qed.

Lemma ip6_text_fields ip : ip6_text ip = join ":" (ip6_fields ip).
Proof.
  unfold ip6_text, ip6_fields, around. destruct (ip4_mapped ip); [done|].
  destruct (1 <? _)%nat; [|done].
  rewrite join_app by (done || apply or_empty_nil). rewrite join_or_empty. do 2 f_equal.
  rewrite <- join_or_empty. by destruct (or_empty _) eqn:He; [apply or_empty_nil in He|].
Qed.

Lemma segments_u16 ip : Forall u16 (segments ip).
Proof. by apply digits_range. Qed.

(** The fields that are segments. *)
Lemma hexes_made (l : list Z) : Forall (fun s => made_of is_hex s = true) (hex <$> l).
Proof. apply Forall_fmap, Forall_true. intros z. by apply hex_go_made. Qed.

Lemma hexes_nonempty (l : list Z) : "" ∉ hex <$> l.
Proof. intros (z & Hz & _)%list_elem_of_fmap. symmetry in Hz. by apply hex_go_made in Hz. Qed.

Lemma hexes_inj (l1 l2 : list Z) : Forall u16 l1 -> Forall u16 l2 -> hex <$> l1 = hex <$> l2 -> l1 = l2.
Proof.
  intros H1. revert l2. induction H1 as [|a l1 Ha H1 IH]; intros [|b l2] H2 Heq; try done.
  apply Forall_cons in H2 as [Hb H2]. cbn in Heq. injection Heq as Hab Hl.
  f_equal; [by apply hex_inj|by apply IH].
Qed.

Lemma or_empty_inj (l1 l2 : list Z) : Forall u16 l1 -> Forall u16 l2 ->
  or_empty (hex <$> l1) = or_empty (hex <$> l2) -> l1 = l2.
Proof.
  intros H1 H2 Heq. pose proof (hexes_nonempty l1) as N1. pose proof (hexes_nonempty l2) as N2.
  apply hexes_inj; [done..|]. destruct (hex <$> l1), (hex <$> l2); cbn in Heq; [done|..|done].
  - injection Heq as <- _. destruct N2. by left.
  - injection Heq as -> _. destruct N1. by left.
Qed.

Lemma around_inj p1 q1 p2 q2 : Forall u16 p1 -> Forall u16 q1 -> Forall u16 p2 ->
  Forall u16 q2 -> around p1 q1 = around p2 q2 -> p1 = p2 /\ q1 = q2.
Proof.
  intros Hp1 Hq1 Hp2 Hq2 Heq. unfold around in Heq.
  pose proof (hexes_nonempty p1) as N1. pose proof (hexes_nonempty p2) as N2.
  assert (Hpq : hex <$> p1 = hex <$> p2 /\
    or_empty (hex <$> q1) = or_empty (hex <$> q2)).
  { destruct (hex <$> p1) as [|a l1] eqn:E1, (hex <$> p2) as [|b l2] eqn:E2; cbn in Heq.
    - by injection Heq.
    - injection Heq as <- _. destruct N2. by left.
    - injection Heq as -> _. destruct N1. by left.
    - by apply (list_separated "" (a :: l1) (b :: l2)) in Heq. }
  destruct Hpq as [Hp Hq]. split; [by apply hexes_inj|by apply or_empty_inj].
Qed.

Lemma ip6_fields_made ip : Forall (fun s => made_of is_field s = true) (ip6_fields ip).
Proof.
  assert (Hhex : forall l : list Z, Forall (fun s => made_of is_field s = true) (hex <$> l)).
  { intros l. eapply Forall_impl; [apply hexes_made|]. intros s. apply made_of_weaken, hex_field. }
  assert (Hor : forall l : list Z, Forall (fun s => made_of is_field s = true) (or_empty (hex <$> l))).
  { intros l. destruct (hex <$> l) eqn:He; cbn; [by apply Forall_singleton|].
    rewrite <- He. apply Hhex. }
  unfold ip6_fields. destruct (ip4_mapped ip).
  - do 3 (apply Forall_cons; split; [done|]). apply Forall_singleton.
    eapply made_of_weaken; [apply dotted_field|apply ip4_text_made].
  - destruct (1 <? _)%nat; [|apply Hhex]. apply Forall_app. split; [apply Hor|].
    apply Forall_cons. by split; [|apply Hor].
Qed.

Lemma ip6_fields_nil ip : ip6_fields ip <> [].
Proof.
  unfold ip6_fields, around. destruct (ip4_mapped ip); [done|]. destruct (1 <? _)%nat.
  - by destruct (or_empty _).
  - pose proof (length_digits (2 ^ 16) 8 ip) as Hl. unfold segments.
    by destruct (digits _ _ _).
Qed.

Lemma mapped_around v p q : [""; ""; "ffff"; ip4_text v] <> around p q.
Proof.
  unfold around. pose proof (hexes_nonempty p) as N. destruct (hex <$> p) as [|a l] eqn:E; cbn.
  - intros [= Hq]. pose proof (hexes_made q) as Hm. destruct (hex <$> q); cbn in Hq; [done|].
    rewrite <- Hq in Hm. apply Forall_cons in Hm as [_ [Hm _]%Forall_cons].
    discriminate (eq_trans (eq_sym (ip4_text_dot v)) Hm).
  - intros [= <- _]. apply N. by left.
Qed.

Lemma around_hexes p q (l : list Z) : around p q <> hex <$> l.
Proof.
  intros Heq. apply (hexes_nonempty l). rewrite <- Heq. unfold around.
  apply elem_of_app. right. by left.
Qed.

Lemma mapped_hexes v (l : list Z) : [""; ""; "ffff"; ip4_text v] <> hex <$> l.
Proof. intros Heq. apply (hexes_nonempty l). rewrite <- Heq. by left. Qed.

Lemma take_segments ip : take 6 (segments ip) = digits (2 ^ 16) 6 (ip / 2 ^ 32).
Proof.
  unfold segments. rewrite (digits_S _ 7), (digits_S _ 6), <- (assoc_L (++)), Z.div_div by done.
  by rewrite take_app_length' by (by rewrite length_digits).
Qed.

Lemma mapped_inj ip1 ip2 : 0 <= ip1 < 2 ^ 128 -> 0 <= ip2 < 2 ^ 128 ->
  take 6 (segments ip1) = take 6 (segments ip2) ->
  ip4_text (ip1 mod 2 ^ 32) = ip4_text (ip2 mod 2 ^ 32) -> ip1 = ip2.
Proof.
  rewrite !take_segments. intros H1 H2 Hq Hr.
  apply ip4_text_inj in Hr; [|by apply Z.mod_pos_bound..].
  apply digits_inj in Hq; [|done|..].
  - rewrite (Z.div_mod ip1 (2 ^ 32)), (Z.div_mod ip2 (2 ^ 32)) by done. congruence.
  - split; [apply Z.div_pos; lia|apply Z.div_lt_upper_bound; [done|apply H1]].
  - split; [apply Z.div_pos; lia|apply Z.div_lt_upper_bound; [done|apply H2]].
Qed.

(** An address around its zeros. *)
Lemma around_segments_inj ip1 ip2 : let segs1 := segments ip1 in let segs2 := segments ip2 in
  let z1 := longest_zeros segs1 in let z2 := longest_zeros segs2 in
  around (take z1.1 segs1) (drop (z1.1 + z1.2) segs1) =
  around (take z2.1 segs2) (drop (z2.1 + z2.2) segs2) -> segs1 = segs2.
Proof.
  intros segs1 segs2 z1 z2 Heq.
  pose proof (segments_u16 ip1) as U1. pose proof (segments_u16 ip2) as U2.
  apply around_inj in Heq as [Hp Hq]; [|by (apply Forall_take || apply Forall_drop)..].
  pose proof (longest_zeros_around segs1) as S1. pose proof (longest_zeros_around segs2) as S2.
  cbn zeta in S1, S2. fold z1 in S1. fold z2 in S2.
  pose proof (length_digits (2 ^ 16) 8 ip1) as L1. pose proof (length_digits (2 ^ 16) 8 ip2) as L2.
  fold (segments ip1) segs1 in L1. fold (segments ip2) segs2 in L2.
  rewrite S1, !length_app, length_replicate in L1.
  rewrite S2, !length_app, length_replicate in L2.
  rewrite S1, S2, Hp, Hq. do 2 f_equal. f_equal. rewrite Hp, Hq in L1. lia.
Qed.

Lemma ip6_text_inj ip1 ip2 : 0 <= ip1 < 2 ^ 128 -> 0 <= ip2 < 2 ^ 128 ->
  ip6_text ip1 = ip6_text ip2 -> ip1 = ip2.
Proof.
  intros H1 H2 Heq. rewrite !ip6_text_fields in Heq.
  apply (join_inj is_field) in Heq; [|done|apply ip6_fields_nil|
    apply ip6_fields_nil|apply ip6_fields_made|apply ip6_fields_made].
  assert (Hs : segments ip1 = segments ip2 -> ip1 = ip2) by (by apply digits_inj).
  unfold ip6_fields in Heq. unfold ip4_mapped in *.
  do 2 case_bool_decide.
  - injection Heq as Heq. apply mapped_inj; [done|done|congruence|done].
  - exfalso.
    destruct (1 <? _)%nat; [by apply mapped_around in Heq|by apply mapped_hexes in Heq].
  - exfalso. symmetry in Heq.
    destruct (1 <? _)%nat; [by apply mapped_around in Heq|by apply mapped_hexes in Heq].
  - destruct (1 <? _)%nat, (1 <? _)%nat.
    + by apply Hs, around_segments_inj.
    + by apply around_hexes in Heq.
    + symmetry in Heq. by apply around_hexes in Heq.
    + apply Hs. by apply hexes_inj; [apply segments_u16..|].
Qed.

(** ** Helper lemmas: socket addresses *)

#[local] Opaque ip4_text ip6_text dec.

(** Values that a [SocketAddr] can have. *)
Definition wf_addr (a : SocketAddr) : Prop :=
  match a with
  | V4 ip port => u32 ip /\ u16 port
  | V6 ip port flowinfo scope_id =>
      0 <= ip < 2 ^ 128 /\ u16 port /\ u32 flowinfo /\ u32 scope_id
  end.

(** What the text of an address shows: all but the flow label. *)
Definition shown (a : SocketAddr) : SocketAddr :=
  match a with V6 ip port _ scope_id => V6 ip port 0 scope_id | a => a end.

Definition is_colon_field (c : ascii) : bool := is_field c || bool_decide (c = ":"%char).

Lemma ip6_text_made ip : made_of is_colon_field (ip6_text ip) = true.
Proof.
  rewrite ip6_text_fields. apply join_made; [done|].
  eapply Forall_impl; [apply ip6_fields_made|]. intros s. apply made_of_weaken.
  unfold is_colon_field. by intros c ->.
Qed.

Lemma dec_inj z1 z2 : dec z1 = dec z2 -> z1 = z2.
Proof. apply pretty_Z_inj. Qed.

(** The text of an IPv6 socket address, from that of its address. *)
Definition bracketed (ip : string) (port scope_id : Z) : string :=
  if scope_id =? 0 then "[" +:+ ip +:+ "]:" +:+ dec port
  else "[" +:+ ip +:+ "%" +:+ dec scope_id +:+ "]:" +:+ dec port.

Lemma bracketed_inj t1 port1 sc1 t2 port2 sc2 :
  made_of is_colon_field t1 = true -> made_of is_colon_field t2 = true ->
  0 <= sc1 -> 0 <= sc2 -> bracketed t1 port1 sc1 = bracketed t2 port2 sc2 ->
  t1 = t2 /\ port1 = port2 /\ sc1 = sc2.
Proof.
  unfold bracketed. intros M1 M2 H1 H2 Heq.
  destruct (Z.eqb_spec sc1 0) as [->|N1], (Z.eqb_spec sc2 0) as [->|N2];
    injection Heq as Heq; apply (separated _ _ _ _ _ _ _ M1 M2) in Heq as (-> & Hc & Ht);
    try done.
  - injection Ht as Hport. apply dec_inj in Hport. by subst.
  - apply (separated is_digit) in Ht as (Hs & _ & Ht); [|by apply dec_made..|done|done].
    injection Ht as Hport. apply dec_inj in Hs, Hport. by subst.
Qed.

Lemma ip4_port_inj t1 port1 t2 port2 :
  made_of is_dotted t1 = true -> made_of is_dotted t2 = true ->
  t1 +:+ ":" +:+ dec port1 = t2 +:+ ":" +:+ dec port2 -> t1 = t2 /\ port1 = port2.
Proof.
  intros M1 M2 Heq. apply (separated _ _ _ _ _ _ _ M1 M2) in Heq as (-> & _ & Ht); [|done..].
  by apply dec_inj in Ht.
Qed.

(** An IPv4 address does not begin with a bracket. *)
Lemma ip4_bracketed t4 port4 t6 port6 sc : made_of is_dotted t4 = true ->
  t4 +:+ ":" +:+ dec port4 <> bracketed t6 port6 sc.
Proof.
  unfold bracketed. intros M Heq.
  destruct (sc =? 0), t4 as [|c t4]; try discriminate Heq; injection Heq as -> _; discriminate M.
Qed.

Lemma addr_text_inj a1 a2 : wf_addr a1 -> wf_addr a2 -> addr_text a1 = addr_text a2 ->
  shown a1 = shown a2.
Proof.
  destruct a1 as [ip1 port1|ip1 port1 f1 sc1], a2 as [ip2 port2|ip2 port2 f2 sc2];
    unfold addr_text; intros W1 W2 Heq.
  - apply ip4_port_inj in Heq as [Hip ->]; [|apply ip4_text_made..].
    apply ip4_text_inj in Hip as ->; [done|apply W1|apply W2].
  - by destruct (ip4_bracketed _ _ _ _ sc2 (ip4_text_made ip1) Heq).
  - symmetry in Heq. by destruct (ip4_bracketed _ _ _ _ sc1 (ip4_text_made ip2) Heq).
  - destruct W1 as (W1 & _ & _ & [S1 _]), W2 as (W2 & _ & _ & [S2 _]).
    apply (bracketed_inj _ _ sc1 _ _ sc2) in Heq as (Hip & -> & ->);
      [|apply ip6_text_made|apply ip6_text_made|done|done].
    by apply ip6_text_inj in Hip as ->.
Qed.

Lemma field_colon_addr c : is_colon_field c = true -> is_addr c = true.
Proof.
  unfold is_colon_field. intros [Hc|Hc%bool_decide_eq_true]%orb_true_iff; [by apply field_addr|by subst].
Qed.

Lemma addr_text_made a : wf_addr a -> made_of is_addr (addr_text a) = true.
Proof.
  assert (Hdec : forall z, 0 <= z -> made_of is_addr (dec z) = true).
  { intros z Hz. eapply made_of_weaken; [|by apply dec_made].
    intros c Hc. by apply field_addr, hex_field, digit_hex. }
  destruct a as [ip port|ip port f sc]; cbn [addr_text].
  - intros [_ [Hp _]]. rewrite !made_of_app, Hdec by done.
    erewrite made_of_weaken; [done| |apply ip4_text_made].
    intros c Hc. by apply field_addr, dotted_field.
  - intros (_ & [Hp _] & _ & [Hs _]).
    assert (Hip : made_of is_addr (ip6_text ip) = true)
      by (eapply made_of_weaken; [apply field_colon_addr|apply ip6_text_made]).
    destruct (sc =? 0); by rewrite !made_of_app, Hip, !Hdec by done.
Qed.
