(* ===== verification/Congestion.v ===== *)
(** * Congestion control state (src/src/congestion.rs)

    The controller of a stream: windows, base delays and delay samples, and
    [update_state], run on every packet a stream accepts. *)

From S2P Require Import Prelude Crates Errors Time Packet.

Definition LOCAL_RECEIVE_WINDOW_SIZE : Z := 1024 * 1024.
Definition ETHERNET_MTU : Z := 1500.

Record CongestionController : Type := mkCongestionController {
  current_window : Z;
  local_recieve_window : Z;
  remote_receive_window : Z;
  local_base_delay : Z;
  remote_base_delay : Z;
  local_delay_samples : list Z;
  remote_delay_samples : list Z;
}.

Definition CongestionController_new : CongestionController :=
  mkCongestionController 0 LOCAL_RECEIVE_WINDOW_SIZE ETHERNET_MTU
    u32_MAX u32_MAX [] [].

Definition update_state (c : CongestionController) (received_at : Z)
    (received_packet : Packet) : CongestionController :=
  let local_delay :=
    wrapping_sub32 received_at (timestamp_micros received_packet) in
  let remote_delay := timestamp_delta_micros received_packet in
  mkCongestionController
    (current_window c)
    (local_recieve_window c)
    (window_size received_packet)
    (Z.min (local_base_delay c) local_delay)
    (Z.min (remote_base_delay c) remote_delay)
    (local_delay_samples c ++ [local_delay])
    (remote_delay_samples c ++ [remote_delay]).

(** ** Specification *)

(** The smallest of the samples, and [u32::MAX] when there is none. *)
Definition lowest (samples : list Z) : Z := foldr Z.min u32_MAX samples.

(** The controller after a sequence of packets, each with its time of receipt. *)
Definition run_updates (c : CongestionController) (ps : list (Z * Packet))
    : CongestionController :=
  foldl (fun c '(received_at, p) => update_state c received_at p) c ps.

(** The window a sequence of packets leaves advertised: that of the last one. *)
Definition last_window (w : Z) (ps : list (Z * Packet)) : Z :=
  from_option (fun '(_, p) => window_size p) w (last ps).

(** The type invariant: 32-bit fields, one sample on each side per packet, and
    base delays that are the lowest samples seen. *)
Record wf_CongestionController (c : CongestionController) : Prop := {
  wf_current_window : u32 (current_window c);
  wf_local_window : u32 (local_recieve_window c);
  wf_remote_window : u32 (remote_receive_window c);
  wf_local_samples : Forall u32 (local_delay_samples c);
  wf_remote_samples : Forall u32 (remote_delay_samples c);
  wf_same_length :
    length (local_delay_samples c) = length (remote_delay_samples c);
  wf_local_base : local_base_delay c = lowest (local_delay_samples c);
  wf_remote_base : remote_base_delay c = lowest (remote_delay_samples c);
}.

(** ** Helper lemmas *)

Lemma lowest_snoc samples s : lowest (samples ++ [s]) = Z.min (lowest samples) (Z.min s u32_MAX).
Proof.
  unfold lowest. rewrite foldr_app. cbn.
  induction samples as [|x l IH]; cbn; [lia|]. rewrite IH. lia.
Qed.

Lemma lowest_le samples s : s ∈ samples -> lowest samples <= s.
Proof.
  induction 1 as [s l|s x l _ IH]; cbn; [|unfold lowest in IH]; lia.
Qed.

Lemma lowest_in samples : lowest samples = u32_MAX \/ lowest samples ∈ samples.
Proof.
  induction samples as [|x l IH]; cbn; [by left|]. fold (lowest l).
  destruct (Z.min_spec x (lowest l)) as [[_ ->]|[_ ->]].
  - right. apply list_elem_of_here.
  - destruct IH as [IH|IH]; [by left|right]. by apply list_elem_of_further.
Qed.

Lemma u32_le_max s : u32 s -> Z.min s u32_MAX = s.
Proof. intros. int_unfold. lia. Qed.

Lemma CongestionController_new_wf : wf_CongestionController CongestionController_new.
Proof. split; cbn; try done; int_unfold; lia. Qed.

Lemma update_state_wf c received_at p :
  wf_CongestionController c -> u32 (timestamp_delta_micros p) ->
  u32 (window_size p) ->
  wf_CongestionController (update_state c received_at p).
Proof.
  intros [? ? ? Hls Hrs Hlen Hlb Hrb] Hd Hw. split; cbn; try done.
  - rewrite Forall_app, Forall_singleton. auto with utp.
  - rewrite Forall_app, Forall_singleton. auto.
  - rewrite !length_app. cbn. lia.
  - rewrite lowest_snoc, Hlb, u32_le_max; auto with utp.
  - rewrite lowest_snoc, Hrb, u32_le_max; auto.
Qed.

Lemma run_updates_snoc c ps received_at p :
  run_updates c (ps ++ [(received_at, p)]) =
    update_state (run_updates c ps) received_at p.
Proof. unfold run_updates. by rewrite foldl_app. Qed.

#[export] Hint Resolve CongestionController_new_wf update_state_wf : utp.

(** ** Properties *)

(** C30. The controller's invariant over any run: after any sequence of packets
    with 32-bit fields, the samples are the one-way delays of exactly those
    packets in order, each base delay is the lowest sample of its side, the
    remote window is the last one advertised, and the two windows the
    controller never updates are still their initial values. This is what the
    code does, and not what the comments on the fields say: the samples are the
    delays themselves and not their differences to the base delay, and
    [current_window] is 0 whatever is in flight. *)
Theorem congestion_run (ps : list (Z * Packet)) :
  Forall (fun '(_, p) => u32 (timestamp_delta_micros p) /\ u32 (window_size p)) ps ->
  let c := run_updates CongestionController_new ps in
  wf_CongestionController c /\
  local_delay_samples c =
    map (fun '(received_at, p) => wrapping_sub32 received_at (timestamp_micros p)) ps /\
  remote_delay_samples c = map (fun '(_, p) => timestamp_delta_micros p) ps /\
  (forall s, s ∈ local_delay_samples c -> local_base_delay c <= s) /\
  remote_receive_window c = last_window ETHERNET_MTU ps /\
  current_window c = 0 /\ local_recieve_window c = LOCAL_RECEIVE_WINDOW_SIZE.
Proof.
  intros Hps c. subst c.
  assert (Hwf : wf_CongestionController (run_updates CongestionController_new ps)).
  { induction ps as [|[r p] ps IH] using rev_ind; [apply CongestionController_new_wf|].
    apply Forall_app in Hps as [Hps [[? ?] _]%Forall_cons].
    rewrite run_updates_snoc. auto with utp. }
  split; [done|]. split_and!.
  - clear Hwf Hps. induction ps as [|[r p] ps IH] using rev_ind; [done|].
    rewrite run_updates_snoc, map_app. cbn. by rewrite IH.
  - clear Hwf Hps. induction ps as [|[r p] ps IH] using rev_ind; [done|].
    rewrite run_updates_snoc, map_app. cbn. by rewrite IH.
  - intros s Hs. rewrite (wf_local_base _ Hwf). by apply lowest_le.
  - clear Hwf Hps. destruct ps as [|[r p] ps _] using rev_ind; [done|].
    unfold last_window. by rewrite run_updates_snoc, last_snoc.
  - clear Hwf Hps. induction ps as [|[r p] ps IH] using rev_ind; [done|].
    by rewrite run_updates_snoc.
  - clear Hwf Hps. induction ps as [|[r p] ps IH] using rev_ind; [done|].
    by rewrite run_updates_snoc.
Qed.

(** Delay measurement survives the wrap-around of the 32-bit clock: when a
    packet stamped by [current_micros] at one moment is accepted at a later
    moment less than 2^32 microseconds (72 minutes) after, the sample recorded
    is the exact number of microseconds between the two readings, even when the
    counter wrapped in between. *)
Theorem update_state_delay (c : CongestionController) (p : Packet)
    (sent received : SystemTime) (ts tr : Z) :
  sent <= received -> received / 1000 - sent / 1000 < 2 ^ 32 ->
  current_micros sent = Done ts -> current_micros received = Done tr ->
  timestamp_micros p = ts ->
  last (local_delay_samples (update_state c tr p)) =
    Some (received / 1000 - sent / 1000).
Proof.
  intros Hle Hlt Hs Hr Hp. cbn. rewrite last_snoc. f_equal.
  assert (Hs0 : 0 <= sent).
  { destruct (Z.lt_ge_cases sent 0) as [Hn|]; [|done].
    apply current_micros_panic in Hn. congruence. }
  rewrite current_micros_eq in Hs, Hr by lia. injection Hs as Hs.
  injection Hr as Hr. rewrite Hp, <- Hs, <- Hr.
  unfold wrapping_sub32. rewrite <- Zminus_mod.
  apply Z.mod_small. split; [|done].
  assert (sent / 1000 <= received / 1000) by (apply Z.div_le_mono; lia). lia.
Qed.

(** ** Witnesses *)

Lemma congestion_run_witness :
  let p t d w := Packet_new State 1 0 t d w 0 0 [] [] in
  let c := run_updates CongestionController_new
             [(100, p 90 7 5000); (5, p (2 ^ 32 - 3) 4 6000)] in
  local_delay_samples c = [10; 8] /\ local_base_delay c = 8 /\
  remote_base_delay c = 4 /\ remote_receive_window c = 6000.
Proof.
  intros p c.
  destruct (congestion_run [(100, p 90 7 5000); (5, p (2 ^ 32 - 3) 4 6000)])
    as (Hwf & Hl & Hr & _ & Hw & _).
  { repeat apply Forall_cons_2; try apply Forall_nil_2; split; cbn; int_unfold; lia. }
  split; [exact Hl|].
  split; [exact (eq_trans (wf_local_base _ Hwf) (f_equal lowest Hl))|].
  split; [exact (eq_trans (wf_remote_base _ Hwf) (f_equal lowest Hr))|exact Hw].
Defined.

Lemma update_state_delay_witness :
  last (local_delay_samples
    (update_state CongestionController_new 4
       (Packet_new Data 1 0 (2 ^ 32 - 6) 0 0 0 0 [] []))) = Some 10.
Proof.
  apply (update_state_delay CongestionController_new
    (Packet_new Data 1 0 (2 ^ 32 - 6) 0 0 0 0 [] [])
    ((2 ^ 32 - 6) * 1000) ((2 ^ 32 + 4) * 1000) (2 ^ 32 - 6) 4);
    vm_compute; congruence.
Defined.
