(* ===== verification/Socket.v ===== *)
(** * The socket (src/src/socket.rs)

    A [UtpSocket] owns the routing table and the channels that connect the
    streams, the listener and the two background tasks. The receive half of a
    connection's channel is held by a stream and the send half by the routing
    table: both name the channel by its [ChanId] in the heap [mailboxes], so
    that a packet routed by one task is seen by the other owner. *)

From S2P Require Import Prelude Crates CratesRef Errors Packet.

Definition MAX_DATAGRAM_SIZE : nat := 1472.

Section socket.
Context `{Mp : MpscCrate, Dm : DashMapCrate}.

(** [socket_alive] and [table_alive] say whether the [Arc]s behind the tasks'
    [Weak] references are still owned; [syn_channel] is the channel of [syn_rx]
    and the receiver task's [syn_tx]; [outgoing_channel] that of [outgoing_tx]
    and the sender task's [outgoing_rx]. *)
Record UtpSocket : Type := mkUtpSocket {
  socket_alive : bool;
  table_alive : bool;
  local_addr : SocketAddr;
  routing_table : dashmap;
  syn_channel : chan (Packet * SocketAddr);
  outgoing_channel : chan (Packet * SocketAddr);
  mailboxes : gmap ChanId (chan Packet);
  next_chan : ChanId;
}.

Definition set_routing (t : dashmap) (h : gmap ChanId (chan Packet))
    (s : UtpSocket) : UtpSocket :=
  mkUtpSocket (socket_alive s) (table_alive s) (local_addr s) t (syn_channel s)
    (outgoing_channel s) h (next_chan s).

Definition set_mailboxes (h : gmap ChanId (chan Packet)) (s : UtpSocket) : UtpSocket :=
  set_routing (routing_table s) h s.

Definition set_syn_channel (c : chan (Packet * SocketAddr)) (s : UtpSocket) : UtpSocket :=
  mkUtpSocket (socket_alive s) (table_alive s) (local_addr s) (routing_table s) c
    (outgoing_channel s) (mailboxes s) (next_chan s).

Definition set_outgoing_channel (c : chan (Packet * SocketAddr)) (s : UtpSocket)
    : UtpSocket :=
  mkUtpSocket (socket_alive s) (table_alive s) (local_addr s) (routing_table s)
    (syn_channel s) c (mailboxes s) (next_chan s).

(** The socket [TryFrom<UdpSocket>] makes: fresh channels and an empty routing
    table on the address the UDP socket reports. The tasks it spawns are added in
    Host.v ([try_from_udp]). *)
Definition UtpSocket_try_from (udp_local_addr : Result SocketAddr IoError)
    : Result UtpSocket IoError :=
  match udp_local_addr with
  | Ok addr =>
      Ok (mkUtpSocket true true addr dm_new
            (unbounded_channel _) (unbounded_channel _) ∅ 0%nat)
  | Err e => Err e
  end.

Definition send_error : IoError := mkIoError KindOther PayloadSendError.

Definition send_to (s : UtpSocket) (packet : Packet) (remote_addr : SocketAddr)
    : Result unit IoError * UtpSocket :=
  match send (packet, remote_addr) (outgoing_channel s) with
  | Some c => (Ok tt, set_outgoing_channel c s)
  | None => (Err send_error, s)
  end.

(** [vacant.or_insert(packet_tx)] with the channel [mpsc::unbounded_channel()]
    just made: a new mailbox in the heap, its send half in the table. *)
Definition insert_mailbox (s : UtpSocket) (k : ConnKey) : ChanId * UtpSocket :=
  let id := next_chan s in
  (id, mkUtpSocket (socket_alive s) (table_alive s) (local_addr s)
         (or_insert k id (routing_table s)) (syn_channel s) (outgoing_channel s)
         (<[id := unbounded_channel Packet]> (mailboxes s)) (S id)).

(** The [loop] of [register_connection], on the draws of [rand::random::<u16>]:
    it returns the connection identifier, the receive half and the draws left. *)
Fixpoint register_connection (s : UtpSocket) (remote_addr : SocketAddr)
    (draws : list Z) : Outcome (Z * ChanId * UtpSocket * list Z) :=
  match draws with
  | [] => OutOfFuel
  | conn_id :: draws =>
      if entry_occupied (conn_id, remote_addr) (routing_table s) then
        register_connection s remote_addr draws
      else
        let '(rx, s) := insert_mailbox s (conn_id, remote_addr) in
        Done (conn_id, rx, s, draws)
  end.

Definition already_exists (conn_id : Z) (remote_addr : SocketAddr) : IoError :=
  mkIoError KindAlreadyExists
    (PayloadConnection (AlreadyExists conn_id remote_addr)).

Definition insert_connection (s : UtpSocket) (conn_id : Z)
    (remote_addr : SocketAddr) : Result ChanId IoError * UtpSocket :=
  if entry_occupied (conn_id, remote_addr) (routing_table s) then
    (Err (already_exists conn_id remote_addr), s)
  else
    let '(rx, s) := insert_mailbox s (conn_id, remote_addr) in
    (Ok rx, s).

(** A poll of [get_syn], once the lock on [syn_rx] is held. *)
Definition get_syn (s : UtpSocket)
    : Poll (option (Packet * SocketAddr)) * UtpSocket :=
  let '(r, c) := poll_recv (syn_channel s) in (r, set_syn_channel c s).

(** ** The receive half of a mailbox *)

(** [self.inbound_packets.poll_recv(cx)] on the mailbox [rx]. *)
Definition mailbox_poll_recv (s : UtpSocket) (rx : ChanId)
    : Outcome (Poll (option Packet) * UtpSocket) :=
  c ← expect Dangling (mailboxes s !! rx);
  let '(r, c) := poll_recv c in
  Done (r, set_mailboxes (<[rx := c]> (mailboxes s)) s).

(** Dropping the receive half: what happens to the mailbox of a connection
    whose stream is dropped, or whose set-up returns early. *)
Definition mailbox_drop_rx (s : UtpSocket) (rx : ChanId) : UtpSocket :=
  match mailboxes s !! rx with
  | Some c => set_mailboxes (<[rx := drop_rx c]> (mailboxes s)) s
  | None => s
  end.

(** The mailboxes whose send half the routing table holds. *)
Definition routed_boxes (s : UtpSocket) : gset ChanId :=
  map_img (entries (routing_table s)).

(** Dropping the socket, when the last [Arc] to it goes, drops its fields: the
    UDP socket and the routing table, to which the tasks have [Weak] references
    only, with the send halves in the table; [syn_rx]; and [outgoing_tx]. *)
Definition socket_drop (s : UtpSocket) : UtpSocket :=
  mkUtpSocket false false (local_addr s) dm_new (drop_rx (syn_channel s))
    (drop_tx (outgoing_channel s))
    (map_imap (fun id c =>
       Some (if decide (id ∈ routed_boxes s) then drop_tx c else c)) (mailboxes s))
    (next_chan s).

(** The packets waiting in a mailbox. *)
Definition mailbox (s : UtpSocket) (rx : ChanId) : list Packet :=
  from_option queued [] (mailboxes s !! rx).

(** The channel a connection is routed to. *)
Definition route (s : UtpSocket) (k : ConnKey) : option ChanId :=
  entries (routing_table s) !! k.

(** ** The routing invariant

    No two connections share a mailbox; every routed connection has a mailbox
    in the heap, and a mailbox's send half is alive exactly while it is routed;
    identifiers in use are below the next fresh one; connection identifiers are
    16-bit. *)
Record wf_socket (s : UtpSocket) : Prop := {
  wf_route_inj : forall k1 k2 id,
    route s k1 = Some id -> route s k2 = Some id -> k1 = k2;
  wf_route_alive : forall k id, route s k = Some id ->
    exists c, mailboxes s !! id = Some c /\ tx_alive c = true;
  wf_alive_route : forall id c, mailboxes s !! id = Some c ->
    tx_alive c = true -> exists k, route s k = Some id;
  wf_fresh : forall id, is_Some (mailboxes s !! id) -> (id < next_chan s)%nat;
  wf_route_u16 : forall k id, route s k = Some id -> u16 k.1;
}.
End socket.

Arguments UtpSocket {_ _}.

(** ** Sample sockets, for the witnesses *)

Definition sample_addr : SocketAddr := V4 2130706433 8080.
Definition sample_peer : SocketAddr := V4 2130706434 9090.

(** A new socket. *)
Definition sample_socket : UtpSocket :=
  mkUtpSocket true true sample_addr dm_new (unbounded_channel _)
    (unbounded_channel _) ∅ 0%nat.

(** A socket with connection 5 to [sample_peer] registered. *)
Definition sample_socket5 : UtpSocket :=
  (insert_connection sample_socket 5 sample_peer).2.

(** A socket with connections to [sample_peer] under the given identifiers. *)
Definition keyed_socket (ds : list Z) : UtpSocket :=
  let keys := (fun d => (d, sample_peer)) <$> ds in
  set_routing (list_to_map (M := gmap ConnKey ChanId) (zip keys (seq 0 (length keys))))
    ∅ sample_socket.

(** ** Helper lemmas *)

Section socket_lemmas.
Context `{Mp : MpscCrate, Dm : DashMapCrate}.
Implicit Types s : UtpSocket.

Lemma occupied_route s k :
  entry_occupied k (routing_table s) = bool_decide (is_Some (route s k)).
Proof. apply entry_occupied_spec. Qed.

Lemma occupied_false s k :
  entry_occupied k (routing_table s) = false <-> route s k = None.
Proof.
  rewrite occupied_route, bool_decide_eq_false. by rewrite eq_None_not_Some.
Qed.

Lemma occupied_true s k :
  entry_occupied k (routing_table s) = true <-> is_Some (route s k).
Proof. by rewrite occupied_route, bool_decide_eq_true. Qed.

Lemma mailboxes_fresh s : wf_socket s -> mailboxes s !! next_chan s = None.
Proof.
  intros Hs. apply eq_None_not_Some. intros Hc. apply (wf_fresh _ Hs) in Hc. lia.
Qed.

(** What [insert_mailbox] does to a vacant key. *)
Record mailbox_inserted s (k : ConnKey) (rx : ChanId) s' : Prop := {
  mi_vacant : route s k = None;
  mi_table : entries (routing_table s') = <[k := rx]> (entries (routing_table s));
  mi_heap : mailboxes s' = <[rx := unbounded_channel Packet]> (mailboxes s);
  mi_next : next_chan s' = S rx;
  mi_rx : rx = next_chan s;
  mi_syn : syn_channel s' = syn_channel s;
  mi_outgoing : outgoing_channel s' = outgoing_channel s;
  mi_addr : local_addr s' = local_addr s;
  mi_alive : table_alive s' = table_alive s /\ socket_alive s' = socket_alive s;
}.

Lemma insert_mailbox_inserted s k : route s k = None ->
  mailbox_inserted s k (insert_mailbox s k).1 (insert_mailbox s k).2.
Proof. intros Hk. split; cbn; try done. by apply or_insert_vacant. Qed.

Lemma mailbox_inserted_wf s k rx s' :
  wf_socket s -> u16 k.1 -> mailbox_inserted s k rx s' -> wf_socket s'.
Proof.
  intros Hs Hk Hi. pose proof (mailboxes_fresh s Hs) as Hfresh.
  rewrite <- (mi_rx _ _ _ _ Hi) in Hfresh.
  assert (Hroute : forall k', route s' k' = <[k := rx]> (entries (routing_table s)) !! k')
    by (intros; unfold route; by rewrite (mi_table _ _ _ _ Hi)).
  assert (Hold : forall k' id, route s k' = Some id -> id <> rx).
  { intros k' id Hk' ->. destruct (wf_route_alive _ Hs _ _ Hk') as (c & Hc & _).
    congruence. }
  split.
  - intros k1 k2 id. rewrite !Hroute, !lookup_insert. intros H1 H2.
    repeat case_decide; simplify_eq; try done;
      first [by apply (wf_route_inj _ Hs k1 k2 id)|exfalso; by eapply Hold].
  - intros k' id. rewrite Hroute, (mi_heap _ _ _ _ Hi), lookup_insert.
    case_decide; intros; simplify_eq.
    + exists (unbounded_channel Packet). rewrite lookup_insert_eq.
      by rewrite tx_alive_unbounded_channel.
    + rewrite lookup_insert_ne by (by apply not_eq_sym, (Hold k')).
      by apply (wf_route_alive _ Hs k').
  - intros id c. rewrite (mi_heap _ _ _ _ Hi), lookup_insert.
    case_decide; intros Hc Ha; simplify_eq.
    + exists k. by rewrite Hroute, lookup_insert_eq.
    + destruct (wf_alive_route _ Hs _ _ Hc Ha) as [k' Hk']. exists k'.
      rewrite Hroute, lookup_insert_ne; [done|]. intros <-.
      by rewrite (mi_vacant _ _ _ _ Hi) in Hk'.
  - intros id. rewrite (mi_heap _ _ _ _ Hi), (mi_next _ _ _ _ Hi), lookup_insert.
    case_decide; intros Hc; [subst; lia|]. apply (wf_fresh _ Hs) in Hc.
    rewrite (mi_rx _ _ _ _ Hi). lia.
  - intros k' id. rewrite Hroute, lookup_insert. case_decide; intros; simplify_eq;
      [done|]. by apply (wf_route_u16 _ Hs k' id).
Qed.

(** An operation that only changes the other channels keeps the invariant. *)
Lemma wf_socket_ext s s' :
  routing_table s' = routing_table s -> mailboxes s' = mailboxes s ->
  next_chan s' = next_chan s -> wf_socket s -> wf_socket s'.
Proof.
  intros Ht Hm Hn [? ? ? ? ?]. split; unfold route in *; by rewrite ?Ht, ?Hm, ?Hn.
Qed.

(** An operation on the receive half of a mailbox, which leaves its send half
    as it is, keeps the invariant. *)
Lemma wf_socket_update_mailbox s rx c c' :
  wf_socket s -> mailboxes s !! rx = Some c -> tx_alive c' = tx_alive c ->
  wf_socket (set_mailboxes (<[rx := c']> (mailboxes s)) s).
Proof.
  intros Hs Hc Ht. split; unfold route; cbn.
  - apply (wf_route_inj _ Hs).
  - intros k id Hk. destruct (wf_route_alive _ Hs _ _ Hk) as (c2 & Hc2 & ?).
    rewrite lookup_insert. case_decide; [|eauto]. simplify_eq.
    exists c'. split; [done|congruence].
  - intros id c2. rewrite lookup_insert. case_decide; intros; simplify_eq.
    + eapply (wf_alive_route _ Hs); [done|congruence].
    + by eapply (wf_alive_route _ Hs).
  - intros id. rewrite lookup_insert. case_decide; intros; subst.
    + apply (wf_fresh _ Hs). eauto.
    + by apply (wf_fresh _ Hs).
  - apply (wf_route_u16 _ Hs).
Qed.

Lemma send_to_wf s p a r s' : send_to s p a = (r, s') -> wf_socket s -> wf_socket s'.
Proof.
  unfold send_to. intros Hr Hs. destruct (send _ _); simplify_eq; [|done].
  by apply (wf_socket_ext s).
Qed.

Lemma get_syn_wf s r s' : get_syn s = (r, s') -> wf_socket s -> wf_socket s'.
Proof.
  unfold get_syn. intros Hr Hs. destruct (poll_recv _); simplify_eq.
  by apply (wf_socket_ext s).
Qed.

Lemma mailbox_poll_recv_wf s rx r s' :
  mailbox_poll_recv s rx = Done (r, s') -> wf_socket s -> wf_socket s'.
Proof.
  unfold mailbox_poll_recv. intros (c & Hc%expect_Done & Hr)%bind_Done Hs.
  destruct (poll_recv c) as [r2 c2] eqn:Hp. outcome_inv.
  apply poll_recv_alive in Hp as [Ht _]. by eapply wf_socket_update_mailbox.
Qed.

Lemma mailbox_drop_rx_wf s rx : wf_socket s -> wf_socket (mailbox_drop_rx s rx).
Proof.
  intros Hs. unfold mailbox_drop_rx. destruct (mailboxes s !! rx) as [c|] eqn:Hc; [|done].
  eapply wf_socket_update_mailbox; [done..|apply tx_alive_drop_rx].
Qed.

Lemma socket_drop_mailbox s id c : mailboxes (socket_drop s) !! id = Some c ->
  exists c0, mailboxes s !! id = Some c0 /\
    c = if decide (id ∈ routed_boxes s) then drop_tx c0 else c0.
Proof.
  cbn. rewrite map_lookup_imap. destruct (mailboxes s !! id) as [c0|]; cbn; [|done].
  intros [= <-]. eauto.
Qed.

Lemma socket_drop_wf s : wf_socket s -> wf_socket (socket_drop s).
Proof.
  intros Hs. assert (Hr : forall k, route (socket_drop s) k = None)
    by (intros k; unfold route; cbn; by rewrite entries_new, lookup_empty).
  split.
  - intros k1 k2 id. by rewrite Hr.
  - intros k id. by rewrite Hr.
  - intros id c Hc Htx. exfalso. apply socket_drop_mailbox in Hc as (c0 & Hc0 & ->).
    case_decide as Hin; [by rewrite tx_alive_drop_tx in Htx|].
    destruct (wf_alive_route _ Hs _ _ Hc0 Htx) as [k Hk].
    apply Hin, elem_of_map_img. by exists k.
  - intros id [c (c0 & Hc0 & _)%socket_drop_mailbox]. apply (wf_fresh _ Hs). by exists c0.
  - intros k id. by rewrite Hr.
Qed.

Lemma UtpSocket_try_from_wf r s : UtpSocket_try_from r = Ok s -> wf_socket s.
Proof.
  destruct r as [a|e]; cbn; intros; simplify_eq.
  split; unfold route; cbn; try setoid_rewrite entries_new;
    setoid_rewrite lookup_empty; done.
Qed.

Lemma insert_connection_wf s conn_id addr r s' :
  insert_connection s conn_id addr = (r, s') -> u16 conn_id ->
  wf_socket s -> wf_socket s'.
Proof.
  unfold insert_connection. intros Hr Hu Hs.
  destruct (entry_occupied _ _) eqn:Ho; [by simplify_eq|].
  apply occupied_false, insert_mailbox_inserted in Ho.
  destruct (insert_mailbox _ _); simplify_eq/=.
  by apply (mailbox_inserted_wf s (conn_id, addr) c).
Qed.

Lemma register_connection_Done s addr draws conn_id rx s' rest :
  register_connection s addr draws = Done (conn_id, rx, s', rest) ->
  exists skipped, draws = skipped ++ conn_id :: rest /\
    Forall (fun d => is_Some (route s (d, addr))) skipped /\
    mailbox_inserted s (conn_id, addr) rx s'.
Proof.
  induction draws as [|d draws IH]; cbn; [done|].
  destruct (entry_occupied _ _) eqn:Ho.
  - intros (skipped & -> & Hsk & Hi)%IH. exists (d :: skipped).
    apply occupied_true in Ho. split_and!; [done| |done].
    by apply Forall_cons.
  - intros; outcome_inv. apply occupied_false, insert_mailbox_inserted in Ho.
    exists []. split_and!; [done|by apply Forall_nil_2|done].
Qed.

Lemma register_connection_wf s addr draws conn_id rx s' rest :
  register_connection s addr draws = Done (conn_id, rx, s', rest) ->
  Forall u16 draws -> wf_socket s -> wf_socket s'.
Proof.
  intros (skipped & -> & _ & Hi)%register_connection_Done
    (_ & [Hu _]%Forall_cons)%Forall_app Hs.
  by apply (mailbox_inserted_wf s (conn_id, addr) rx).
Qed.
End socket_lemmas.

(** ** Properties *)

Section properties.
Context `{Mp : MpscCrate, Dm : DashMapCrate}.
Implicit Types s : UtpSocket.

(** What [register_connection] returns is new: the identifier is the first
    draw that no connection to that address uses, the routing table gains
    exactly that entry, its mailbox did not exist before and starts empty with
    both halves alive, and every other mailbox, the SYN queue and the outgoing
    queue are untouched. The routing invariant is kept. *)
Theorem register_connection_fresh s addr draws conn_id rx s' rest :
  wf_socket s -> Forall u16 draws ->
  register_connection s addr draws = Done (conn_id, rx, s', rest) ->
  (exists skipped, draws = skipped ++ conn_id :: rest /\
     Forall (fun d => is_Some (route s (d, addr))) skipped) /\
  route s (conn_id, addr) = None /\ mailboxes s !! rx = None /\
  (forall k, route s' k = if decide (k = (conn_id, addr)) then Some rx else route s k) /\
  (exists c, mailboxes s' !! rx = Some c /\
     queued c = [] /\ tx_alive c = true /\ rx_alive c = true) /\
  (forall id, id <> rx -> mailboxes s' !! id = mailboxes s !! id) /\
  syn_channel s' = syn_channel s /\ outgoing_channel s' = outgoing_channel s /\
  wf_socket s'.
Proof.
  intros Hs Hu Hr. pose proof (register_connection_wf _ _ _ _ _ _ _ Hr Hu Hs).
  apply register_connection_Done in Hr as (skipped & -> & Hsk & Hi).
  split; [eauto|]. split; [apply Hi|].
  split; [rewrite (mi_rx _ _ _ _ Hi); by apply mailboxes_fresh|].
  split_and!; try apply Hi; [..|done].
  - intros k. unfold route. rewrite (mi_table _ _ _ _ Hi), lookup_insert.
    repeat case_decide; congruence.
  - exists (unbounded_channel Packet). rewrite (mi_heap _ _ _ _ Hi), lookup_insert_eq.
    split; [done|]. apply unbounded_channel_spec.
  - intros id ?. by rewrite (mi_heap _ _ _ _ Hi), lookup_insert_ne.
Qed.

(** Termination of [register_connection]: on any sequence of draws the loop
    ends exactly when some draw is an identifier not yet used towards that
    address; it never panics, so otherwise it is still looping when the draws
    run out. *)
Theorem register_connection_terminates s addr draws :
  ((exists r, register_connection s addr draws = Done r) <->
     Exists (fun d => route s (d, addr) = None) draws) /\
  (forall reason, register_connection s addr draws <> Panic reason).
Proof.
  induction draws as [|d draws [IH1 IH2]]; cbn.
  { split; [|done]. split; [by intros []|by intros ?%Exists_nil]. }
  destruct (entry_occupied _ _) eqn:Ho.
  - apply occupied_true in Ho as [id Hid]. split; [|done]. rewrite IH1, Exists_cons.
    split; [by right|]. intros [?|?]; [congruence|done].
  - apply occupied_false in Ho. split; [|done]. rewrite Exists_cons. split; [by left|eauto].
Qed.

(** C39. With every 16-bit identifier in use towards an address,
    [register_connection] never returns: whatever [rand::random] draws, the loop
    retries. The [TooMany] error the crate declares for this case is never
    produced. *)
Theorem register_connection_livelock s addr draws :
  (forall d, u16 d -> is_Some (route s (d, addr))) -> Forall u16 draws ->
  register_connection s addr draws = OutOfFuel.
Proof.
  intros Hfull Hd. induction Hd as [|d draws Hu _ IH]; cbn; [done|].
  by rewrite (proj2 (occupied_true s (d, addr)) (Hfull d Hu)).
Qed.

(** [insert_connection] succeeds exactly on a vacant key. On success the
    table gains that one entry with a fresh empty mailbox; on failure it returns
    [AlreadyExists] and changes nothing. *)
Theorem insert_connection_spec s conn_id addr :
  wf_socket s -> u16 conn_id ->
  match insert_connection s conn_id addr with
  | (Ok rx, s') =>
      route s (conn_id, addr) = None /\ mailboxes s !! rx = None /\
      (forall k, route s' k = if decide (k = (conn_id, addr)) then Some rx else route s k) /\
      mailboxes s' = <[rx := unbounded_channel Packet]> (mailboxes s) /\
      outgoing_channel s' = outgoing_channel s /\ wf_socket s'
  | (Err e, s') =>
      is_Some (route s (conn_id, addr)) /\ e = already_exists conn_id addr /\ s' = s
  end.
Proof.
  intros Hs Hu. destruct (insert_connection s conn_id addr) as [[rx|e] s'] eqn:Hr.
  - pose proof (insert_connection_wf _ _ _ _ _ Hr Hu Hs). unfold insert_connection in Hr.
    destruct (entry_occupied _ _) eqn:Ho; [by simplify_eq|].
    apply occupied_false in Ho. pose proof (insert_mailbox_inserted _ _ Ho) as Hi.
    destruct (insert_mailbox _ _); simplify_eq/=.
    split_and!; try apply Hi; [..|done].
    + rewrite (mi_rx _ _ _ _ Hi). by apply mailboxes_fresh.
    + intros k. unfold route. rewrite (mi_table _ _ _ _ Hi), lookup_insert.
      repeat case_decide; congruence.
  - unfold insert_connection in Hr.
    destruct (entry_occupied _ _) eqn:Ho; [|by simplify_eq].
    apply occupied_true in Ho. by simplify_eq.
Qed.
End properties.

(** ** Witnesses *)

Lemma sample_socket5_wf : wf_socket sample_socket5.
Proof.
  apply (insert_connection_wf sample_socket 5 sample_peer (Ok 0%nat)); [done..|].
  by apply (UtpSocket_try_from_wf (Ok sample_addr)).
Qed.

Lemma sample_draws_u16 : Forall u16 [5; 5; 9; 1].
Proof. repeat apply Forall_cons_2; [done..|apply Forall_nil_2]. Qed.

Lemma register_connection_fresh_witness :
  exists s', register_connection sample_socket5 sample_peer [5; 5; 9; 1] =
      Done (9, 1%nat, s', [1]) /\
    route sample_socket5 (9, sample_peer) = None /\
    route s' (9, sample_peer) = Some 1%nat /\
    route s' (5, sample_peer) = Some 0%nat.
Proof.
  eexists. split; [reflexivity|].
  destruct (register_connection_fresh sample_socket5 sample_peer [5; 5; 9; 1]
    9 1%nat _ [1] sample_socket5_wf sample_draws_u16 eq_refl)
    as (_ & H1 & _ & H2 & _).
  split; [exact H1|]. split; [exact (H2 (9, sample_peer))|].
  exact (H2 (5, sample_peer)).
Defined.

Lemma keyed_socket_route ds d :
  d ∈ ds -> is_Some (route (keyed_socket ds) (d, sample_peer)).
Proof.
  intros Hd. unfold route, keyed_socket, set_routing.
  cbn [routing_table entries ref_dashmap].
  apply (elem_of_dom (D := gset ConnKey)).
  rewrite (dom_list_to_map_L (M := gmap ConnKey)), fst_zip by (by rewrite length_seq).
  apply elem_of_list_to_set, list_elem_of_fmap. by exists d.
Qed.

Lemma register_connection_livelock_witness :
  register_connection (keyed_socket (seqZ 0 65536)) sample_peer [5; 5; 9; 1] =
    OutOfFuel.
Proof.
  apply (register_connection_livelock (keyed_socket (seqZ 0 65536)) sample_peer).
  - intros d Hd. apply keyed_socket_route, elem_of_seqZ. exact Hd.
  - exact sample_draws_u16.
Defined.

Lemma insert_connection_spec_witness :
  (exists rx s', insert_connection sample_socket5 6 sample_peer = (Ok rx, s') /\
    route s' (6, sample_peer) = Some rx) /\
    (exists e, insert_connection sample_socket5 5 sample_peer =
    (Err e, sample_socket5)).
Proof.
  split.
  - pose proof (insert_connection_spec sample_socket5 6 sample_peer
      sample_socket5_wf ltac:(done)) as Hi.
    exists 1%nat. eexists. split; [reflexivity|].
    exact (proj1 (proj2 (proj2 Hi)) (6, sample_peer)).
  - pose proof (insert_connection_spec sample_socket5 5 sample_peer
      sample_socket5_wf ltac:(done)) as Hi.
    exact (ex_intro _ _ (f_equal (pair _) (proj2 (proj2 Hi)))).
Defined.
