(* ===== verification/PacketSender.v ===== *)
(** * The sender task (src/src/socket/packet_sender.rs)

    [PacketSender::poll] moves packets from the outgoing channel to the buffer
    and from the buffer to the UDP socket. The UDP socket is the environment:
    [answers] lists what its successive [poll_send_to] calls return, and the
    task's output is the list of datagrams for which it returned [Ok]. *)

From S2P Require Import Prelude Crates CratesRef Errors Packet PacketWire Socket.

(** An item of the outgoing channel, and a datagram handed to the network. *)
Abbreviation Outgoing := (Packet * SocketAddr)%type.
Abbreviation Datagram := (bytes * SocketAddr)%type.

(** What a [poll_send_to] returns: the number of bytes written, an error, or
    not ready. *)
Definition SendAnswer : Type := Poll (Result nat IoError).

(** The fields of the task. Its [outgoing_rx] is the receive half of the socket's
    [outgoing_channel], and its weak reference is upgraded through
    [socket_alive]. *)
Record PacketSender : Type := mkPacketSender {
  ps_local_addr : SocketAddr;
  outgoing_buffer : list Outgoing;
}.

Section sender.
Context `{By : BytesCrate, Mp : MpscCrate, Dm : DashMapCrate}.

(** The first loop: fetch packets from the channel until it is not ready, or
    closed ([true]). *)
Fixpoint fetch_outgoing (fuel : nat) (c : chan Outgoing) (buffer : list Outgoing)
    : Outcome (bool * chan Outgoing * list Outgoing) :=
  match fuel with
  | O => OutOfFuel
  | S fuel =>
      match poll_recv c with
      | (Ready (Some item), c) => fetch_outgoing fuel c (buffer ++ [item])
      | (Ready None, c) => Done (true, c, buffer)
      | (Pending, c) => Done (false, c, buffer)
      end
  end.

(** The second loop: send the front of the buffer, putting it back on an error
    or when the UDP socket is not ready. *)
Fixpoint send_buffered (answers : list SendAnswer) (buffer : list Outgoing)
    (sent : list Datagram)
    : Outcome (list Outgoing * list Datagram * list SendAnswer) :=
  match buffer with
  | [] => Done ([], sent, answers)
  | (packet, remote_addr) :: buffer =>
      bs ← bytes_from_packet packet;
      match answers with
      | [] => OutOfFuel
      | Ready (Ok _) :: answers =>
          send_buffered answers buffer (sent ++ [(bs, remote_addr)])
      | Ready (Err _) :: answers =>
          send_buffered answers ((packet, remote_addr) :: buffer) sent
      | Pending :: answers =>
          Done ((packet, remote_addr) :: buffer, sent, answers)
      end
  end.

(** [PacketSender::poll]. *)
Definition sender_poll (fuel : nat) (answers : list SendAnswer)
    (task : PacketSender) (s : UtpSocket)
    : Outcome (Poll unit * PacketSender * UtpSocket * list Datagram *
               list SendAnswer) :=
  if negb (socket_alive s) then Done (Ready tt, task, s, [], answers) else
  '(closed, c, buffer) ←
    fetch_outgoing fuel (outgoing_channel s) (outgoing_buffer task);
  let s := set_outgoing_channel c s in
  if (closed : bool) then
    Done (Ready tt, mkPacketSender (ps_local_addr task) buffer, s, [], answers)
  else
    '(buffer, sent, answers) ← send_buffered answers buffer [];
    Done (Pending, mkPacketSender (ps_local_addr task) buffer, s, sent, answers).

(** ** Specification *)

(** Everything the task still has to send, oldest first. *)
Definition backlog (task : PacketSender) (s : UtpSocket) : list Outgoing :=
  outgoing_buffer task ++ queued (outgoing_channel s).

(** A datagram is the serialisation of an outgoing item. *)
Definition serialises (o : Outgoing) (d : Datagram) : Prop :=
  bytes_from_packet o.1 = Done d.1 /\ o.2 = d.2.

Definition is_sent (a : SendAnswer) : bool :=
  match a with Ready (Ok _) => true | _ => false end.
Definition is_send_error (a : SendAnswer) : bool :=
  match a with Ready (Err _) => true | _ => false end.

(** Answers that let a backlog of [n] packets go: a [Pending], or [n] sends. *)
Definition enough_answers (n : nat) (answers : list SendAnswer) : Prop :=
  Pending ∈ answers \/ (n <= length (filter is_sent answers))%nat.

(** ** Helper lemmas *)

Lemma fetch_outgoing_Done fuel c buffer closed c' buffer' :
  fetch_outgoing fuel c buffer = Done (closed, c', buffer') ->
  buffer ++ queued c = buffer' ++ queued c' /\
  tx_alive c' = tx_alive c /\ rx_alive c' = rx_alive c /\
  (closed = true -> tx_alive c = false) /\
  (exists new, buffer' = buffer ++ new).
Proof.
  revert c buffer. induction fuel as [|fuel IH]; intros c buffer; cbn; [done|].
  destruct (poll_recv c) as [[[item|]|] c2] eqn:Hp.
  - intros (Hb & Ht & Hr & Hc & new & ->)%IH.
    apply poll_recv_Some in Hp as (Hq & Htx & Hrx).
    rewrite Hq, <- Hb, <- (assoc_L (++)).
    rewrite Htx in Hc. split_and!; [done|congruence..|done|].
    exists ([item] ++ new). by rewrite (assoc_L (++)).
  - intros; outcome_inv. apply poll_recv_None in Hp as (-> & ? & -> & ? & ?).
    split_and!; try congruence. exists []. by rewrite app_nil_r.
  - intros; outcome_inv. apply poll_recv_Pending in Hp as (-> & ? & ?).
    split_and!; try congruence. exists []. by rewrite app_nil_r.
Qed.

Lemma fetch_outgoing_total fuel c buffer :
  (length (queued c) < fuel)%nat ->
  exists r, fetch_outgoing fuel c buffer = Done r.
Proof.
  revert c buffer. induction fuel as [|fuel IH]; intros c buffer Hf; [lia|]. cbn.
  destruct (poll_recv c) as [[[item|]|] c2] eqn:Hp; eauto.
  apply poll_recv_Some in Hp as (Hq & ? & ?). rewrite Hq in Hf. cbn in Hf.
  apply IH. lia.
Qed.

Lemma send_buffered_Done answers buffer sent buffer' sent' answers' :
  send_buffered answers buffer sent = Done (buffer', sent', answers') ->
  exists gone new, buffer = gone ++ buffer' /\ sent' = sent ++ new /\
    Forall2 serialises gone new.
Proof.
  revert buffer sent.
  induction answers as [|a answers IH]; intros [|[p addr] buffer] sent; cbn;
    intros Hs.
  - outcome_inv. exists [], [].
    split_and!; [done|by rewrite app_nil_r|constructor].
  - by apply bind_Done in Hs as (bs & _ & Hs).
  - outcome_inv. exists [], [].
    split_and!; [done|by rewrite app_nil_r|constructor].
  - apply bind_Done in Hs as (bs & Hbs & Hs). destruct a as [[n|e]|].
    + apply IH in Hs as (gone & new & -> & -> & Hf).
      exists ((p, addr) :: gone), ((bs, addr) :: new).
      rewrite <- (assoc_L (++)). split_and!; [done|done|]. constructor; [by split|done].
    + by apply IH in Hs.
    + outcome_inv. exists [], [].
    split_and!; [done|by rewrite app_nil_r|constructor].
Qed.

Lemma send_buffered_total answers buffer sent :
  Forall (fun o => exists bs, bytes_from_packet o.1 = Done bs) buffer ->
  enough_answers (length buffer) answers ->
  exists r, send_buffered answers buffer sent = Done r.
Proof.
  revert buffer sent. induction answers as [|a answers IH];
    intros [|[p addr] buffer] sent Hb Ha; cbn; eauto;
    apply Forall_cons in Hb as [[bs Hbs] Hb]; cbn in Hbs; rewrite Hbs; cbn.
  - destruct Ha as [Ha|Ha]; [by apply not_elem_of_nil in Ha|]. cbn in Ha. lia.
  - destruct a as [[n|e]|]; [..|eauto].
    + apply IH; [done|]. destruct Ha as [Ha|Ha].
      * left. by apply elem_of_cons in Ha as [?|?].
      * right. rewrite filter_cons_True in Ha by done. cbn in Ha. lia.
    + apply IH; [by apply Forall_cons; eauto|]. destruct Ha as [Ha|Ha].
      * left. by apply elem_of_cons in Ha as [?|?].
      * right. rewrite filter_cons_False in Ha by (by intros ?). done.
Qed.

Lemma send_buffered_stuck answers o buffer sent :
  Forall (fun a => is_send_error a = true) answers ->
  (exists bs, bytes_from_packet o.1 = Done bs) ->
  send_buffered answers (o :: buffer) sent = OutOfFuel.
Proof.
  intros Ha [bs Hbs]. destruct o as [p addr]. cbn in Hbs.
  induction Ha as [|a answers Ha _ IH]; cbn; rewrite Hbs; cbn; [done|].
  by destruct a as [[n|e]|].
Qed.
(** What a poll sends leaves the front of the backlog. *)
Lemma sender_poll_Done fuel answers task s r task' s' sent answers' :
  sender_poll fuel answers task s = Done (r, task', s', sent, answers') ->
  exists gone, backlog task s = gone ++ backlog task' s' /\ Forall2 serialises gone sent.
Proof.
  unfold sender_poll, backlog. destruct (socket_alive s); cbn.
  2: { intros; outcome_inv. exists []. by split; [|constructor]. }
  intros ([[closed c] buffer] & (Hb & _ & _ & Hc & _)%fetch_outgoing_Done & Hr)%bind_Done.
  rewrite Hb. destruct closed.
  - outcome_inv. exists []. by split; [|constructor].
  - apply bind_Done in Hr as ([[buffer' sent2] answers2] & Hs & Hr). outcome_inv.
    apply send_buffered_Done in Hs as (gone & new & -> & -> & Hf). cbn.
    exists gone. by rewrite (assoc_L (++)).
Qed.

End sender.

(** ** Properties *)

Section properties.
Context `{By : BytesCrate, Mp : MpscCrate, Dm : DashMapCrate}.

Lemma enough_answers_le n m answers :
  (n <= m)%nat -> enough_answers m answers -> enough_answers n answers.
Proof. intros ? [?|?]; [by left|right; lia]. Qed.

Lemma fetch_outgoing_drained `{!PromptMpsc} fuel c buffer closed c' buffer' :
  fetch_outgoing fuel c buffer = Done (closed, c', buffer') -> queued c' = [].
Proof.
  revert c buffer. induction fuel as [|fuel IH]; intros c buffer; cbn; [done|].
  destruct (poll_recv c) as [[[item|]|] c2] eqn:Hpr; [apply IH|..];
    intros; outcome_inv.
  - by apply poll_recv_None in Hpr as (? & ? & ? & ?).
  - destruct (poll_recv_Pending _ _ _ Hpr) as (-> & _).
    by apply poll_recv_prompt in Hpr as [].
Qed.

Lemma filter_all_sent answers :
  Forall (fun a => is_sent a = true) answers -> filter is_sent answers = answers.
Proof.
  induction 1 as [|a answers Ha _ IH]; [done|].
  by rewrite filter_cons_True, IH by (by rewrite Ha).
Qed.

(** Sends only: nothing is left in the buffer. *)
Lemma send_buffered_all answers buffer sent :
  Forall (fun a => is_sent a = true) answers ->
  forall buffer' sent' answers',
  send_buffered answers buffer sent = Done (buffer', sent', answers') -> buffer' = [].
Proof.
  intros Ha. revert buffer sent.
  induction Ha as [|a answers Ha _ IH]; intros [|[p addr] buffer] sent; cbn;
    intros buffer' sent' answers' Hs.
  - by outcome_inv.
  - by apply bind_Done in Hs as (bs & _ & Hs).
  - by outcome_inv.
  - apply bind_Done in Hs as (bs & _ & Hs). destruct a as [[n|e]|]; try done. eauto.
Qed.

(** C19. The sender task is a FIFO that loses nothing: whatever the UDP socket
    answers (errors and not-ready included), a poll that returns has taken some
    packets off the front of the backlog (buffer, then channel), emitted exactly
    their serialisations in that order, and kept the rest in order. It touches
    no other part of the socket, and it finishes only when the socket or the
    sending half of its channel is gone, without having sent anything. *)
Theorem sender_poll_fifo fuel answers task s r task' s' sent answers' :
  sender_poll fuel answers task s = Done (r, task', s', sent, answers') ->
  (exists gone, backlog task s = gone ++ backlog task' s' /\
     Forall2 serialises gone sent) /\
  routing_table s' = routing_table s /\ mailboxes s' = mailboxes s /\
  syn_channel s' = syn_channel s /\ next_chan s' = next_chan s /\
  (r = Ready tt -> sent = [] /\
     (socket_alive s = false \/ tx_alive (outgoing_channel s) = false)).
Proof.
  intros Hr. pose proof (sender_poll_Done _ _ _ _ _ _ _ _ _ Hr) as Hgone. split; [exact Hgone|].
  clear Hgone. unfold sender_poll in Hr. destruct (socket_alive s); cbn in Hr.
  2: { outcome_inv. split_and!; auto. }
  apply bind_Done in Hr as ([[closed c] buffer] & (_ & _ & _ & Hc & _)%fetch_outgoing_Done & Hr).
  destruct closed; [by outcome_inv; cbn; split_and!; auto|].
  apply bind_Done in Hr as ([[buffer' sent2] answers2] & _ & Hr). by outcome_inv.
Qed.

(** A poll of the sender task returns: with packets whose fields fit their
    width (so that serialisation does not panic), the fetch loop ends once the
    queue is read, and the send loop ends as soon as the UDP socket either
    answers not-ready or has accepted as many datagrams as there are packets,
    however many errors come before. *)
Theorem sender_poll_returns fuel answers task s :
  (length (queued (outgoing_channel s)) < fuel)%nat ->
  Forall (fun o => encodable o.1) (backlog task s) ->
  enough_answers (length (backlog task s)) answers ->
  exists r, sender_poll fuel answers task s = Done r.
Proof.
  intros Hf Hp Ha. unfold sender_poll. destruct (socket_alive s); cbn; [|eauto].
  destruct (fetch_outgoing_total fuel (outgoing_channel s) (outgoing_buffer task) Hf)
    as [[[closed c] buffer] Hfetch]. rewrite Hfetch. cbn.
  destruct closed; [eauto|]. unfold backlog in *.
  apply fetch_outgoing_Done in Hfetch as (Hb & _). rewrite Hb in Hp, Ha.
  apply Forall_app in Hp as [Hp _].
  destruct (send_buffered_total answers buffer []) as [[[b2 s2] a2] ->]; cbn; [..|eauto].
  - eapply Forall_impl; [exact Hp|]. intros o Ho. eauto using bytes_from_packet_wire.
  - eapply enough_answers_le; [|exact Ha]. rewrite length_app. lia.
Qed.

(** With no spurious not-ready from the channel and a UDP socket that
    accepts every datagram, one poll of the sender task sends the whole backlog:
    every packet queued by the streams and the listener leaves, in order, and
    nothing stays behind. *)
Theorem sender_poll_drains `{!PromptMpsc} fuel answers task s :
  socket_alive s = true -> tx_alive (outgoing_channel s) = true ->
  (length (queued (outgoing_channel s)) < fuel)%nat ->
  Forall (fun o => encodable o.1) (backlog task s) ->
  Forall (fun a => is_sent a = true) answers ->
  (length (backlog task s) <= length answers)%nat ->
  exists task' s' sent answers',
    sender_poll fuel answers task s = Done (Pending, task', s', sent, answers') /\
    backlog task' s' = [] /\ Forall2 serialises (backlog task s) sent.
Proof.
  intros Hal Htx Hf Hp Ha Hlen. unfold sender_poll, backlog in *. rewrite Hal. cbn.
  destruct (fetch_outgoing_total fuel (outgoing_channel s) (outgoing_buffer task) Hf)
    as [[[closed c] buffer] Hfetch]. rewrite Hfetch. cbn.
  pose proof (fetch_outgoing_drained _ _ _ _ _ _ Hfetch) as Hq.
  apply fetch_outgoing_Done in Hfetch as (Hb & _ & _ & Hcl & _).
  rewrite Hb, Hq, app_nil_r in *.
  destruct closed; [by rewrite Hcl in Htx|].
  destruct (send_buffered_total answers buffer []) as [[[b2 s2] a2] Hs].
  - eapply Forall_impl; [exact Hp|]. intros o Ho. eauto using bytes_from_packet_wire.
  - right. by rewrite filter_all_sent.
  - rewrite Hs. cbn. eexists _, _, _, _. split; [done|]. cbn. rewrite Hq, app_nil_r.
    pose proof (send_buffered_all _ _ _ Ha _ _ _ Hs) as ->. split; [done|].
    apply send_buffered_Done in Hs as (gone & new & -> & -> & Hg).
    by rewrite app_nil_r.
Qed.

(** A persistent send error makes the task spin: with a packet at the front
    of the buffer and a UDP socket that only answers errors, the send loop puts
    the packet back and tries again without ever yielding, so the poll is still
    running when any finite sequence of answers is exhausted. *)
Theorem sender_poll_livelock fuel answers task s o buffer :
  socket_alive s = true -> tx_alive (outgoing_channel s) = true ->
  outgoing_buffer task = o :: buffer -> encodable o.1 ->
  Forall (fun a => is_send_error a = true) answers ->
  sender_poll fuel answers task s = OutOfFuel.
Proof.
  intros Hal Htx Hb Ho Ha. unfold sender_poll. rewrite Hal, Hb. cbn.
  destruct (fetch_outgoing _ _ _) as [[[closed c] buffer']|re|] eqn:Hf; cbn.
  - apply fetch_outgoing_Done in Hf as (_ & _ & _ & Hcl & new & ->).
    destruct closed; [by rewrite Hcl in Htx|]. cbn [app].
    rewrite send_buffered_stuck; eauto using bytes_from_packet_wire.
  - exfalso. revert Hf. generalize (outgoing_channel s) (o :: buffer).
    induction fuel as [|fuel IH]; intros c l; cbn; [done|].
    destruct (poll_recv c) as [[[]|] c2]; [apply IH|done..].
  - done.
Qed.

(** C28. When a poll of the sender task returns. With packets whose fields fit their
    width (so that serialisation does not panic), the fetch loop ends once the
    queue is read, and the send loop ends as soon as the UDP socket either answers
    not-ready or has accepted as many datagrams as there are packets, however many
    errors come before. But while the UDP socket answers errors only, a poll with a
    packet in its buffer does not return: the packet is put back and tried again
    without ever yielding, and the poll is still running when any finite sequence
    of answers is exhausted. *)
Theorem sender_poll_termination fuel answers task s :
  (length (queued (outgoing_channel s)) < fuel)%nat ->
  Forall (fun o => encodable o.1) (backlog task s) ->
  (enough_answers (length (backlog task s)) answers ->
     exists r, sender_poll fuel answers task s = Done r) /\
  (socket_alive s = true -> tx_alive (outgoing_channel s) = true ->
   outgoing_buffer task <> [] -> Forall (fun a => is_send_error a = true) answers ->
   sender_poll fuel answers task s = OutOfFuel).
Proof.
  intros Hf Hp. split; [by apply sender_poll_returns|]. intros Hal Htx Hb Ha.
  destruct (outgoing_buffer task) as [|o buffer] eqn:Ho; [done|].
  apply (sender_poll_livelock _ _ _ _ o buffer); try done.
  unfold backlog in Hp. rewrite Ho in Hp. by apply Forall_cons in Hp as [? _].
Qed.
End properties.

(** ** Witnesses *)

(** A task with one packet in its buffer and another in the channel. *)
Lemma sample_backlog_encodable :
  Forall (fun o => encodable o.1)
    (backlog (mkPacketSender sample_addr [(sample_packet, sample_peer)])
       (send_to sample_socket sample_packet sample_peer).2).
Proof.
  repeat apply Forall_cons_2; try apply Forall_nil_2;
    apply wf_Packet_encodable, sample_packet_wf.
Qed.

(** The poll is waiting. *)
Definition sender_waiting (r : Outcome (Poll unit * PacketSender * UtpSocket *
    list Datagram * list SendAnswer)) : bool :=
  match r with Done (Pending, _, _, _, _) => true | _ => false end.

Lemma sender_waiting_true r : sender_waiting r = true ->
  exists task' s' sent answers', r = Done (Pending, task', s', sent, answers').
Proof. destruct r as [[[[[[?|] ?] ?] ?] ?]| |]; by eauto 10. Qed.

Lemma sender_poll_fifo_witness :
  exists task' s' sent answers',
    sender_poll 5 [Ready (Err send_error); Ready (Ok 34%nat); Pending]
      (mkPacketSender sample_addr [(sample_packet, sample_peer)])
      (send_to sample_socket sample_packet sample_peer).2 =
      Done (Pending, task', s', sent, answers') /\
    (exists gone, backlog (mkPacketSender sample_addr [(sample_packet, sample_peer)])
         (send_to sample_socket sample_packet sample_peer).2 =
       gone ++ backlog task' s' /\ Forall2 serialises gone sent).
Proof.
  destruct (sender_waiting_true (sender_poll 5 [Ready (Err send_error); Ready (Ok 34%nat); Pending]
    (mkPacketSender sample_addr [(sample_packet, sample_peer)])
    (send_to sample_socket sample_packet sample_peer).2)) as (task' & s' & sent & answers' & Hp);
    [by vm_compute|].
  exists task', s', sent, answers'. split; [exact Hp|].
  exact (proj1 (sender_poll_fifo _ _ _ _ _ _ _ _ _ Hp)).
Defined.

Lemma sender_poll_drains_witness :
  exists task' s' sent answers',
    sender_poll 5 [Ready (Ok 34%nat); Ready (Ok 34%nat)]
      (mkPacketSender sample_addr [(sample_packet, sample_peer)])
      (send_to sample_socket sample_packet sample_peer).2 =
      Done (Pending, task', s', sent, answers') /\ backlog task' s' = [].
Proof.
  destruct (sender_poll_drains 5 [Ready (Ok 34%nat); Ready (Ok 34%nat)]
    (mkPacketSender sample_addr [(sample_packet, sample_peer)])
    (send_to sample_socket sample_packet sample_peer).2)
    as (task' & s' & sent & answers' & H1 & H2 & _); [done|done|cbn; lia|..].
  - exact sample_backlog_encodable.
  - by repeat apply Forall_cons_2.
  - cbn. lia.
  - by exists task', s', sent, answers'.
Defined.

Lemma sender_poll_termination_witness :
  let task := mkPacketSender sample_addr [(sample_packet, sample_peer)] in
  let s := (send_to sample_socket sample_packet sample_peer).2 in
  (exists r, sender_poll 5 [Ready (Err send_error); Ready (Ok 34%nat); Pending] task s = Done r) /\
  sender_poll 5 (replicate 1000 (Ready (Err send_error))) task s = OutOfFuel.
Proof.
  split.
  - apply sender_poll_termination; [cbn; lia|exact sample_backlog_encodable|].
    left. apply list_elem_of_lookup. by exists 2%nat.
  - apply sender_poll_termination; [cbn; lia|exact sample_backlog_encodable|done..|].
    by apply Forall_replicate.
Defined.
