(* ===== verification/PacketReceiver.v ===== *)
(** * The receiver task (src/src/socket/packet_receiver.rs)

    [PacketReceiver::poll] reads datagrams from the UDP socket, parses them and
    routes them: SYN packets to the listener's queue, the others to the mailbox
    of their connection. The UDP socket is the environment: [answers] lists what
    the two polls of each round of the loop return.

    The specification of routing is a machine per connection ([view_step]) that
    knows nothing of tables, channels or heaps; the theorems say that the task
    refines it. *)

From S2P Require Import Prelude Crates CratesRef Errors Packet PacketWire Socket.

(** What [poll_recv_ready] returns in a round and what [poll_recv_from] returns
    after it (when it is called): the filled part of the 1472-byte buffer and
    the address of the sender. *)
Record RecvAnswer : Type := mkRecvAnswer {
  recv_ready : Poll (Result unit IoError);
  recv_from : Poll (Result (bytes * SocketAddr) IoError);
}.

(** The fields of the task: its references to the UDP socket and to the routing
    table are upgraded through [socket_alive] and [table_alive], its [syn_tx] is
    the send half of the socket's [syn_channel], and a poll changes none. *)
Record PacketReceiver : Type := mkPacketReceiver {
  pr_local_addr : SocketAddr;
}.

Section receiver.
Context `{By : BytesCrate, Mp : MpscCrate, Dm : DashMapCrate}.

(** The heap of mailboxes and the flag [found_conn], which the closure given to
    [remove_if] changes. *)
Definition DeliverState : Type := gmap ChanId (chan Packet) * bool.

(** The closure given to [remove_if]: send to the mailbox, and ask for the entry
    to be removed when its receiver is gone. The sender of a removed entry is
    dropped with it. *)
Definition deliver (packet : Packet) (sender : ChanId) (st : DeliverState)
    : bool * DeliverState :=
  let '(heap, _) := st in
  match heap !! sender with
  | Some c =>
      match send packet c with
      | Some c => (false, (<[sender := c]> heap, true))
      | None => (true, (<[sender := drop_tx c]> heap, true))
      end
  | None => (true, (heap, true))
  end.

(** Routing one packet: [true] when the task must shut down because the socket
    is gone. *)
Definition route_packet (packet : Packet) (remote_addr : SocketAddr)
    (s : UtpSocket) : bool * UtpSocket :=
  match packet_type packet with
  | Syn =>
      match send (packet, remote_addr) (syn_channel s) with
      | Some c => (false, set_syn_channel c s)
      | None => (true, s)
      end
  | _ =>
      if negb (table_alive s) then (true, s) else
      let '(table, (heap, _)) :=
        remove_if (connection_id packet, remote_addr) (deliver packet)
          (routing_table s) (mailboxes s, false) in
      (false, set_routing table heap s)
  end.

(** The [loop] of [poll]. *)
Fixpoint recv_loop (answers : list RecvAnswer) (s : UtpSocket)
    : Outcome (Poll unit * UtpSocket * list RecvAnswer) :=
  match answers with
  | [] => OutOfFuel
  | a :: answers =>
      match recv_ready a with
      | Ready (Ok _) =>
          match recv_from a with
          | Ready (Ok (filled, remote_addr)) =>
              parsed ← Packet_try_from filled;
              match parsed with
              | Ok packet =>
                  let '(stop, s) := route_packet packet remote_addr s in
                  if (stop : bool) then Done (Ready tt, s, answers)
                  else recv_loop answers s
              | Err _ => recv_loop answers s
              end
          | Ready (Err _) => recv_loop answers s
          | Pending => Done (Pending, s, answers)
          end
      | Ready (Err _) => Done (Ready tt, s, answers)
      | Pending => Done (Pending, s, answers)
      end
  end.

(** [PacketReceiver::poll]. *)
Definition receiver_poll (answers : list RecvAnswer) (s : UtpSocket)
    : Outcome (Poll unit * UtpSocket * list RecvAnswer) :=
  if negb (socket_alive s) then Done (Ready tt, s, answers)
  else recv_loop answers s.

(** ** Specification *)

(** The packets a sequence of answers delivers, with their senders: datagrams
    that do not parse are ignored. *)
Definition arrival (a : RecvAnswer) : option (Packet * SocketAddr) :=
  match recv_ready a, recv_from a with
  | Ready (Ok _), Ready (Ok (filled, remote_addr)) =>
      match Packet_try_from filled with
      | Done (Ok packet) => Some (packet, remote_addr)
      | _ => None
      end
  | _, _ => None
  end.

Definition arrivals (answers : list RecvAnswer) : list (Packet * SocketAddr) :=
  omap arrival answers.

Definition is_syn (o : Packet * SocketAddr) : bool :=
  bool_decide (packet_type o.1 = Syn).

(** The packet belongs to the connection [k]. *)
Definition is_for (k : ConnKey) (o : Packet * SocketAddr) : bool :=
  negb (is_syn o) && bool_decide ((connection_id o.1, o.2) = k).

(** A connection as its users see it: whether its stream still holds the receive
    half of the mailbox, and the packets waiting in it. [None] when the
    connection is not routed. *)
Definition conn_view (s : UtpSocket) (k : ConnKey) : option (bool * list Packet) :=
  rx ← route s k; c ← mailboxes s !! rx; Some (rx_alive c, queued c).

(** What the arrival of a packet does to the connection [k]. *)
Definition view_step (k : ConnKey) (v : option (bool * list Packet))
    (o : Packet * SocketAddr) : option (bool * list Packet) :=
  if is_for k o then
    match v with
    | Some (true, q) => Some (true, q ++ [o.1])
    | _ => None
    end
  else v.

(** Answers on which the task stops polling. *)
Definition is_stop (a : RecvAnswer) : bool :=
  match recv_ready a, recv_from a with
  | Ready (Ok _), Ready _ => false
  | _, _ => true
  end.
End receiver.

(** ** Helper lemmas *)

Section receiver_lemmas.
Context `{By : BytesCrate, Mp : MpscCrate, Dm : DashMapCrate}.
Implicit Types s : UtpSocket.

Lemma conn_view_None s k : route s k = None -> conn_view s k = None.
Proof. intros Hk. unfold conn_view. by rewrite Hk. Qed.

Lemma conn_view_Some s k rx c : route s k = Some rx -> mailboxes s !! rx = Some c ->
  conn_view s k = Some (rx_alive c, queued c).
Proof. intros Hk Hc. unfold conn_view. rewrite Hk. cbn. by rewrite Hc. Qed.

(** A socket in which only the mailbox [rx], routed from [k0], changed. *)
Lemma conn_view_other s s' k0 rx c' k :
  wf_socket s -> route s k0 = Some rx -> route s' k = route s k ->
  mailboxes s' = <[rx := c']> (mailboxes s) -> k <> k0 ->
  conn_view s' k = conn_view s k.
Proof.
  intros Hs Hk0 Hr Hm Hne. unfold conn_view. rewrite Hr, Hm.
  destruct (route s k) as [rx2|] eqn:Hk; cbn; [|done].
  rewrite lookup_insert_ne; [done|]. intros <-.
  by destruct (wf_route_inj _ Hs k k0 rx).
Qed.

Lemma is_for_other k o : (connection_id o.1, o.2) <> k -> is_for k o = false.
Proof. intros. unfold is_for. by rewrite bool_decide_eq_false_2, andb_false_r. Qed.

Lemma is_for_same p addr : packet_type p <> Syn ->
  is_for (connection_id p, addr) (p, addr) = true.
Proof.
  intros. unfold is_for, is_syn. cbn. by rewrite bool_decide_eq_false_2, bool_decide_eq_true_2.
Qed.

(** What routing a packet does, seen from every connection. *)
Record routed (p : Packet) (addr : SocketAddr) s (stop : bool) s' : Prop := {
  rt_wf : wf_socket s';
  rt_view : forall k, conn_view s' k = view_step k (conn_view s k) (p, addr);
  rt_route : forall k, route s' k = route s k \/ route s' k = None;
  rt_stop : stop = true -> is_syn (p, addr) = true;
  rt_syn : rx_alive (syn_channel s) = true -> stop = false /\
    rx_alive (syn_channel s') = true /\
    queued (syn_channel s') =
      queued (syn_channel s) ++ (if is_syn (p, addr) then [(p, addr)] else []);
  rt_table : table_alive s' = table_alive s;
  rt_socket : socket_alive s' = socket_alive s;
  rt_outgoing : outgoing_channel s' = outgoing_channel s;
  rt_syn_tx : tx_alive (syn_channel s') = tx_alive (syn_channel s);
  rt_next : next_chan s' = next_chan s;
}.

Lemma route_packet_syn s p addr stop s' :
  wf_socket s -> packet_type p = Syn -> route_packet p addr s = (stop, s') ->
  routed p addr s stop s'.
Proof.
  intros Hs Hp. unfold route_packet. rewrite Hp.
  assert (Hsyn : is_syn (p, addr) = true) by by apply bool_decide_eq_true_2.
  assert (Hfor : forall k, is_for k (p, addr) = false)
    by (intros; unfold is_for; by rewrite Hsyn).
  destruct (send _ _) as [c|] eqn:Hc; intros; simplify_eq.
  - apply send_Some in Hc as (Hrx & Hq & Htx & Hrx').
    split; cbn; try done.
    + by apply (wf_socket_ext s).
    + intros k. unfold view_step. by rewrite Hfor.
    + by left.
    + intros _. by rewrite Hsyn.
  - apply send_None in Hc. split; try done.
    + intros k. unfold view_step. by rewrite Hfor.
    + by left.
    + congruence.
Qed.

(** The table and heap after [remove_if], on a connection that is routed. *)
Lemma route_packet_found s p addr rx c :
  packet_type p <> Syn -> table_alive s = true ->
  route s (connection_id p, addr) = Some rx -> mailboxes s !! rx = Some c ->
  let s' := (route_packet p addr s).2 in
  (route_packet p addr s).1 = false /\
  syn_channel s' = syn_channel s /\ outgoing_channel s' = outgoing_channel s /\
  table_alive s' = true /\ socket_alive s' = socket_alive s /\
  next_chan s' = next_chan s /\
  match send p c with
  | Some c' => entries (routing_table s') = entries (routing_table s) /\
      mailboxes s' = <[rx := c']> (mailboxes s)
  | None =>
      entries (routing_table s') =
        delete (connection_id p, addr) (entries (routing_table s)) /\
      mailboxes s' = <[rx := drop_tx c]> (mailboxes s)
  end.
Proof.
  intros Hp Ht Hr Hc. unfold route_packet.
  destruct (remove_if_occupied _ _ (deliver p) _ _ (mailboxes s, false) Hr)
    as [He Hst].
  destruct (remove_if _ _ _ _) as [table [heap found]]. cbn [fst snd] in *.
  assert (Hd : deliver p rx (mailboxes s, false) =
    match send p c with
    | Some c' => (false, (<[rx := c']> (mailboxes s), true))
    | None => (true, (<[rx := drop_tx c]> (mailboxes s), true))
    end) by (unfold deliver; by rewrite Hc).
  rewrite Hd in *. rewrite Ht.
  destruct (packet_type p); try done; cbn; destruct (send p c); by simplify_eq/=.
Qed.

Lemma route_packet_unknown s p addr :
  packet_type p <> Syn -> table_alive s = true ->
  route s (connection_id p, addr) = None ->
  let s' := (route_packet p addr s).2 in
  (route_packet p addr s).1 = false /\
  syn_channel s' = syn_channel s /\ outgoing_channel s' = outgoing_channel s /\
  table_alive s' = true /\ socket_alive s' = socket_alive s /\
  next_chan s' = next_chan s /\
  entries (routing_table s') = entries (routing_table s) /\
  mailboxes s' = mailboxes s.
Proof.
  intros Hp Ht Hr. unfold route_packet.
  destruct (remove_if_vacant _ _ (deliver p) _ (mailboxes s, false) Hr) as [He Hst].
  destruct (remove_if _ _ _ _) as [table [heap found]]. cbn [fst snd] in *.
  rewrite Ht. by destruct (packet_type p); simplify_eq/=.
Qed.

(** Removing a route together with its send half keeps the invariant. *)
Lemma wf_socket_remove s s' k rx c :
  wf_socket s -> route s k = Some rx ->
  entries (routing_table s') = delete k (entries (routing_table s)) ->
  mailboxes s' = <[rx := drop_tx c]> (mailboxes s) ->
  next_chan s' = next_chan s -> wf_socket s'.
Proof.
  intros Hs Hk He Hm Hn.
  assert (Hroute : forall k', route s' k' = if decide (k = k') then None else route s k')
    by (intros k'; unfold route; by rewrite He, lookup_delete).
  split.
  - intros k1 k2 id. rewrite !Hroute. repeat case_decide; try done.
    apply (wf_route_inj _ Hs).
  - intros k' id. rewrite Hroute. case_decide as Hne; [done|]. intros Hk'.
    rewrite Hm, lookup_insert_ne; [by apply (wf_route_alive _ Hs k')|].
    intros <-. by apply Hne, (wf_route_inj _ Hs k k' rx).
  - intros id c2. rewrite Hm, lookup_insert. case_decide as Hid; intros Hc2 Ha; simplify_eq.
    + by rewrite tx_alive_drop_tx in Ha.
    + destruct (wf_alive_route _ Hs _ _ Hc2 Ha) as [k' Hk']. exists k'.
      rewrite Hroute. case_decide; [congruence|done].
  - intros id. rewrite Hm, Hn, lookup_insert. case_decide; intros Hid; subst.
    + apply (wf_fresh _ Hs). destruct (wf_route_alive _ Hs _ _ Hk) as (c2 & Hc2 & _).
      by exists c2.
    + by apply (wf_fresh _ Hs).
  - intros k' id. rewrite Hroute. case_decide; [done|]. apply (wf_route_u16 _ Hs).
Qed.

(** Replacing a mailbox by one with the same send half keeps the invariant. *)
Lemma wf_socket_replace s s' rx c c' :
  wf_socket s -> mailboxes s !! rx = Some c -> tx_alive c' = tx_alive c ->
  entries (routing_table s') = entries (routing_table s) ->
  mailboxes s' = <[rx := c']> (mailboxes s) ->
  next_chan s' = next_chan s -> wf_socket s'.
Proof.
  intros Hs Hc Ht He Hm Hn.
  pose proof (wf_socket_update_mailbox s rx c c' Hs Hc Ht) as [? ? ? ? ?].
  unfold route in *. cbn in *.
  split; unfold route; by rewrite ?He, ?Hm, ?Hn.
Qed.

(** The three outcomes of routing a packet that is not a SYN. *)
Lemma routed_delivered s p addr rx c s' :
  wf_socket s -> table_alive s = true -> packet_type p <> Syn ->
  route s (connection_id p, addr) = Some rx -> mailboxes s !! rx = Some c ->
  route_packet p addr s = (false, s') -> is_Some (send p c) ->
  routed p addr s false s'.
Proof.
  intros Hs Ht Hp Hk0 Hc Hr [c' Hsend].
  assert (Hsyn : is_syn (p, addr) = false) by by apply bool_decide_eq_false_2.
  pose proof (is_for_same p addr Hp) as Hfor. set (k0 := (connection_id p, addr)) in *.
  destruct (route_packet_found s p addr rx c Hp Ht Hk0 Hc) as (_ & H2 & H3 & H4 & H5 & H6 & H7).
  rewrite Hr, Hsend in *. cbn [fst snd] in *. destruct H7 as [He Hm].
  apply send_Some in Hsend as (Hrx & Hq & Htx & Hrx').
  assert (Hroute : forall k, route s' k = route s k) by (intros; unfold route; by rewrite He).
  split; try done; try congruence.
  - by eapply (wf_socket_replace s s' rx c c').
  - intros k. unfold view_step. destruct (decide (k0 = k)) as [<-|Hne].
    + rewrite Hfor, (conn_view_Some s k0 rx c), (conn_view_Some s' k0 rx c') by
        (done || by rewrite ?Hroute, ?Hm, ?lookup_insert_eq).
      by rewrite Hrx, Hrx', Hq.
    + rewrite is_for_other by done. by eapply conn_view_other.
  - by left.
  - intros. by rewrite H2, Hsyn, app_nil_r.
Qed.

Lemma routed_stale s p addr rx c s' :
  wf_socket s -> table_alive s = true -> packet_type p <> Syn ->
  route s (connection_id p, addr) = Some rx -> mailboxes s !! rx = Some c ->
  route_packet p addr s = (false, s') -> send p c = None ->
  routed p addr s false s'.
Proof.
  intros Hs Ht Hp Hk0 Hc Hr Hsend.
  assert (Hsyn : is_syn (p, addr) = false) by by apply bool_decide_eq_false_2.
  pose proof (is_for_same p addr Hp) as Hfor. set (k0 := (connection_id p, addr)) in *.
  destruct (route_packet_found s p addr rx c Hp Ht Hk0 Hc) as (_ & H2 & H3 & H4 & H5 & H6 & H7).
  rewrite Hr, Hsend in *. cbn [fst snd] in *. destruct H7 as [He Hm].
  apply send_None in Hsend.
  assert (Hroute : forall k, route s' k = if decide (k0 = k) then None else route s k)
    by (intros k; unfold route; by rewrite He, lookup_delete).
  split; try done; try congruence.
  - by eapply (wf_socket_remove s s' k0 rx c).
  - intros k. unfold view_step. destruct (decide (k0 = k)) as [<-|Hne].
    + rewrite Hfor, (conn_view_Some s k0 rx c), Hsend by done.
      apply conn_view_None. by rewrite Hroute, decide_True.
    + rewrite is_for_other by done. eapply conn_view_other; try done.
      by rewrite Hroute, decide_False.
  - intros k. rewrite Hroute. case_decide; auto.
  - intros. by rewrite H2, Hsyn, app_nil_r.
Qed.

Lemma routed_unknown s p addr s' :
  wf_socket s -> table_alive s = true -> packet_type p <> Syn ->
  route s (connection_id p, addr) = None -> route_packet p addr s = (false, s') ->
  routed p addr s false s'.
Proof.
  intros Hs Ht Hp Hk0 Hr.
  assert (Hsyn : is_syn (p, addr) = false) by by apply bool_decide_eq_false_2.
  pose proof (is_for_same p addr Hp) as Hfor. set (k0 := (connection_id p, addr)) in *.
  destruct (route_packet_unknown s p addr Hp Ht Hk0) as (_ & H2 & H3 & H4 & H5 & H6 & He & Hm).
  rewrite Hr in *. cbn [fst snd] in *.
  assert (Hroute : forall k, route s' k = route s k) by (intros; unfold route; by rewrite He).
  split; try done; try congruence.
  - destruct Hs. split; unfold route in *; by rewrite ?He, ?Hm, ?H6.
  - intros k. unfold conn_view at 1. rewrite Hroute, Hm. fold (conn_view s k).
    unfold view_step. destruct (decide (k0 = k)) as [<-|Hne]; [|by rewrite is_for_other].
    by rewrite Hfor, conn_view_None.
  - by left.
  - intros. by rewrite H2, Hsyn, app_nil_r.
Qed.

Lemma route_packet_routed s p addr stop s' :
  wf_socket s -> table_alive s = true -> route_packet p addr s = (stop, s') ->
  routed p addr s stop s'.
Proof.
  intros Hs Ht Hr. destruct (decide (packet_type p = Syn)) as [Hp|Hp];
    [by apply route_packet_syn|].
  destruct (route s (connection_id p, addr)) as [rx|] eqn:Hk0.
  - destruct (wf_route_alive _ Hs _ _ Hk0) as (c & Hc & _).
    destruct (route_packet_found s p addr rx c Hp Ht Hk0 Hc) as (Hstop & _).
    rewrite Hr in Hstop. cbn in Hstop. subst stop.
    destruct (send p c) eqn:Hsend.
    + by eapply routed_delivered.
    + by eapply routed_stale.
  - destruct (route_packet_unknown s p addr Hp Ht Hk0) as (Hstop & _).
    rewrite Hr in Hstop. cbn in Hstop. subst stop. by apply routed_unknown.
Qed.

(** The effect of a run of the loop that consumed the answers [used]. *)
Record received s (used : list RecvAnswer) s' : Prop := {
  rv_wf : wf_socket s';
  rv_view : forall k,
    conn_view s' k = foldl (view_step k) (conn_view s k) (arrivals used);
  rv_route : forall k, route s' k = route s k \/ route s' k = None;
  rv_syn : rx_alive (syn_channel s) = true ->
    rx_alive (syn_channel s') = true /\
    queued (syn_channel s') =
      queued (syn_channel s) ++ filter is_syn (arrivals used);
  rv_table : table_alive s' = table_alive s;
  rv_socket : socket_alive s' = socket_alive s;
  rv_outgoing : outgoing_channel s' = outgoing_channel s;
  rv_syn_tx : tx_alive (syn_channel s') = tx_alive (syn_channel s);
  rv_next : next_chan s' = next_chan s;
}.

Lemma received_nothing s used : wf_socket s -> arrivals used = [] -> received s used s.
Proof.
  intros Hs Ha. split; try done; rewrite ?Ha; auto.
  intros. by rewrite app_nil_r.
Qed.

(** An answer that brings no packet changes nothing. *)
Lemma received_skip s a used s' : arrival a = None -> received s used s' ->
  received s (a :: used) s'.
Proof.
  intros Ha [? Hv Hr Hs ? ? ? ? ?].
  assert (arrivals (a :: used) = arrivals used) as Hau by (cbn; by rewrite Ha).
  split; try done; by rewrite Hau.
Qed.

(** An answer that brings a packet, routed first. *)
Lemma received_packet s a p addr stop s1 used s' :
  arrival a = Some (p, addr) -> routed p addr s stop s1 -> received s1 used s' ->
  received s (a :: used) s'.
Proof.
  intros Ha [_ Hv1 Hr1 _ Hs1 Ht1 Hk1 Ho1 Hx1 Hn1] [Hwf Hv Hr Hs Ht Hk Ho Hx Hn].
  assert (arrivals (a :: used) = (p, addr) :: arrivals used) as Hau
    by (cbn; by rewrite Ha).
  split; rewrite ?Hau; try congruence.
  - intros k. by rewrite Hv, Hv1.
  - intros k. destruct (Hr k) as [->|?]; auto.
  - intros Hrx. destruct (Hs1 Hrx) as (_ & Hrx1 & Hq1).
    destruct (Hs Hrx1) as [? Hq]. split; [done|]. rewrite Hq, Hq1, <- (assoc_L (++)).
    f_equal. rewrite filter_cons. by destruct (is_syn (p, addr)).
Qed.

Lemma recv_loop_Done answers s r s' rest :
  wf_socket s -> table_alive s = true ->
  recv_loop answers s = Done (r, s', rest) ->
  exists used, answers = used ++ rest /\ received s used s'.
Proof.
  revert s. induction answers as [|a answers IH]; intros s Hs Ht; cbn; [done|].
  assert (Hhalt : forall t, arrival a = None ->
    Done (t, s, answers) = Done (r, s', rest) ->
    exists used, a :: answers = used ++ rest /\ received s used s').
  { intros t Ha Hd. outcome_inv. exists [a]. split; [done|].
    apply received_nothing; [done|]. cbn. by rewrite Ha. }
  assert (Hskip : arrival a = None ->
    recv_loop answers s = Done (r, s', rest) ->
    exists used, a :: answers = used ++ rest /\ received s used s').
  { intros Ha Hd. destruct (IH _ Hs Ht Hd) as (used & -> & Hu). exists (a :: used).
    split; [done|]. by apply received_skip. }
  pose proof (eq_refl : arrival a = arrival a) as Ha. unfold arrival at 2 in Ha.
  destruct (recv_ready a) as [[u|e]|]; [|by eauto..].
  destruct (recv_from a) as [[[filled addr]|e]|]; [|by eauto..].
  intros (parsed & Hp & Hd)%bind_Done. rewrite Hp in Ha.
  destruct parsed as [p|e]; [|by eauto].
  destruct (route_packet p addr s) as [stop s1] eqn:Hroute.
  pose proof (route_packet_routed _ _ _ _ _ Hs Ht Hroute) as Hrt.
  destruct stop.
  - outcome_inv. exists [a]. split; [done|].
    eapply received_packet; [done..|]. apply received_nothing; [apply Hrt|done].
  - destruct (IH s1) as (used & -> & Hu); [apply Hrt|by rewrite (rt_table _ _ _ _ _ Hrt)|done|].
    exists (a :: used). split; [done|]. by eapply received_packet.
Qed.

Lemma recv_loop_total answers s :
  Exists (fun a => is_stop a = true) answers ->
  exists r, recv_loop answers s = Done r.
Proof.
  intros Hex. revert s. induction answers as [|a answers IH]; intros s;
    [by apply Exists_nil in Hex|]. cbn. apply Exists_cons in Hex.
  unfold is_stop in Hex at 1.
  destruct (recv_ready a) as [[u|e]|]; [|by eauto..].
  destruct (recv_from a) as [[[filled addr]|e]|]; [| |by eauto];
    (destruct Hex as [Hex|Hex]; [done|]); [|by eauto].
  destruct (Packet_try_from_parses_aux filled) as ([p|e] & -> & _); cbn; [|by eauto].
  destruct (route_packet p addr s) as [[] s1]; eauto.
Qed.

Lemma recv_loop_no_panic answers s reason : recv_loop answers s <> Panic reason.
Proof.
  revert s. induction answers as [|a answers IH]; intros s; [done|]. cbn.
  destruct (recv_ready a) as [[u|e]|]; [|done..].
  destruct (recv_from a) as [[[filled addr]|e]|]; [|done..].
  destruct (Packet_try_from_parses_aux filled) as ([p|e] & -> & _); cbn; [|done].
  by destruct (route_packet p addr s) as [[] s1].
Qed.

Lemma view_foldl_alive k q os :
  foldl (view_step k) (Some (true, q)) os =
    Some (true, q ++ (filter (is_for k) os).*1).
Proof.
  revert q. induction os as [|o os IH]; intros q;
    [cbn; by rewrite app_nil_r|].
  cbn [foldl]. rewrite filter_cons. unfold view_step at 2. destruct (is_for k o); cbn.
  - rewrite IH. by rewrite <- (assoc_L (++)).
  - apply IH.
Qed.

Lemma view_foldl_None k os : foldl (view_step k) None os = None.
Proof. induction os as [|o os IH]; cbn; [done|]. unfold view_step at 2. by destruct (is_for k o). Qed.

Lemma view_foldl_stale k q os :
  foldl (view_step k) (Some (false, q)) os =
    if is_empty (filter (is_for k) os) then Some (false, q) else None.
Proof.
  induction os as [|o os IH]; [done|].
  cbn [foldl]. rewrite filter_cons. unfold view_step at 2. destruct (is_for k o); cbn.
  - apply view_foldl_None.
  - apply IH.
Qed.
End receiver_lemmas.

(** ** Properties *)

Section properties.
Context `{By : BytesCrate, Mp : MpscCrate, Dm : DashMapCrate}.
Implicit Types s : UtpSocket.

(** C18. The receiver task refines its abstract specification: a poll that
    returns has consumed a prefix of the UDP socket's answers, and every
    connection is then in the state the one-connection machine [view_step]
    reaches on the packets that arrived, in order. Datagrams that do not parse
    are dropped, no connection is created or moved to another mailbox, the
    outgoing queue is untouched, the SYN queue grows by the SYN packets in
    order, and the routing invariant is kept. *)
Theorem receiver_refines_views answers s r s' rest :
  wf_socket s -> table_alive s = true ->
  receiver_poll answers s = Done (r, s', rest) ->
  exists used, answers = used ++ rest /\ wf_socket s' /\
    (forall k, conn_view s' k = foldl (view_step k) (conn_view s k) (arrivals used)) /\
    (forall k, route s' k = route s k \/ route s' k = None) /\
    outgoing_channel s' = outgoing_channel s /\
    (rx_alive (syn_channel s) = true ->
       queued (syn_channel s') =
         queued (syn_channel s) ++ filter is_syn (arrivals used)).
Proof.
  unfold receiver_poll. intros Hs Ht Hr. destruct (socket_alive s); cbn in Hr.
  - apply recv_loop_Done in Hr as (used & -> & [? ? ? Hsyn ? ? ? ? ?]); [|done..].
    exists used. split_and!; try done. intros Hrx. by apply Hsyn.
  - outcome_inv. exists []. split_and!; try done; auto.
    intros. by rewrite app_nil_r.
Qed.

(** Per-connection delivery: a connection whose stream is alive stays
    routed, and its mailbox gains exactly the packets that carry its identifier
    and come from its peer's address, in order of arrival and nothing else, no
    matter what else the task received. *)
Theorem receiver_delivers_in_order answers s r s' rest k q :
  wf_socket s -> table_alive s = true ->
  conn_view s k = Some (true, q) ->
  receiver_poll answers s = Done (r, s', rest) ->
  exists used, answers = used ++ rest /\
    conn_view s' k = Some (true, q ++ (filter (is_for k) (arrivals used)).*1).
Proof.
  unfold receiver_poll. intros Hs Ht Hk Hr. destruct (socket_alive s); cbn in Hr.
  - apply recv_loop_Done in Hr as (used & -> & [? Hv ? ? ? ? ? ? ?]); [|done..].
    exists used. split; [done|]. by rewrite Hv, Hk, view_foldl_alive.
  - outcome_inv. exists []. split; [done|]. cbn. by rewrite app_nil_r.
Qed.

(** Stale connections are collected lazily and only then: a connection whose
    stream was dropped leaves the routing table at the first packet that
    arrives for it, and stays as it is while none does. *)
Theorem receiver_collects_stale answers s r s' rest k q :
  wf_socket s -> table_alive s = true ->
  conn_view s k = Some (false, q) ->
  receiver_poll answers s = Done (r, s', rest) ->
  exists used, answers = used ++ rest /\
    conn_view s' k =
      (if is_empty (filter (is_for k) (arrivals used)) then Some (false, q) else None).
Proof.
  unfold receiver_poll. intros Hs Ht Hk Hr. destruct (socket_alive s); cbn in Hr.
  - apply recv_loop_Done in Hr as (used & -> & [? Hv ? ? ? ? ? ? ?]); [|done..].
    exists used. split; [done|]. by rewrite Hv, Hk, view_foldl_stale.
  - outcome_inv. by exists [].
Qed.

(** C29. No datagram crashes the receiver task: whatever bytes arrive, a poll
    never panics, and it returns as soon as one of the UDP socket's answers is
    not-ready or a readiness error. *)
Theorem receiver_poll_total answers s :
  (forall reason, receiver_poll answers s <> Panic reason) /\
  (Exists (fun a => is_stop a = true) answers ->
   exists r, receiver_poll answers s = Done r).
Proof.
  unfold receiver_poll. destruct (socket_alive s); cbn.
  - split; [intros; apply recv_loop_no_panic|apply recv_loop_total].
  - by eauto.
Qed.
End properties.

(** ** Witnesses *)

(** A datagram from [sample_peer] that holds the packet [p]. *)
Definition sample_arrival (p : Packet) : RecvAnswer :=
  mkRecvAnswer (Ready (Ok tt)) (Ready (Ok (wire p, sample_peer))).

(** Two packets for connection 5, a SYN, garbage, and not-ready. *)
Definition sample_answers : list RecvAnswer :=
  [ sample_arrival (Packet_new Data 1 5 0 0 0 10 0 [] [1; 2]);
    sample_arrival (Packet_new Syn 1 77 0 0 0 1 0 [] []);
    mkRecvAnswer (Ready (Ok tt)) (Ready (Ok ([255; 0], sample_peer)));
    sample_arrival (Packet_new Data 1 5 0 0 0 11 0 [] [3]);
    mkRecvAnswer Pending Pending ].

(** The poll used all its answers and is waiting. *)
Definition receiver_waiting (r : Outcome (Poll unit * UtpSocket * list RecvAnswer)) : bool :=
  match r with Done (Pending, _, []) => true | _ => false end.

Lemma receiver_waiting_true r : receiver_waiting r = true -> exists s', r = Done (Pending, s', []).
Proof. destruct r as [[[[?|] s'] [|]]| |]; by eauto. Qed.

Lemma sample_receiver_poll :
  exists s', receiver_poll sample_answers sample_socket5 = Done (Pending, s', []).
Proof. apply receiver_waiting_true. by vm_compute. Qed.

Lemma receiver_refines_views_witness :
  exists s', receiver_poll sample_answers sample_socket5 = Done (Pending, s', []) /\
    wf_socket s' /\ outgoing_channel s' = outgoing_channel sample_socket5.
Proof.
  destruct sample_receiver_poll as [s' Hs'].
  destruct (receiver_refines_views _ _ _ _ _ sample_socket5_wf eq_refl Hs')
    as (used & _ & Hwf & _ & _ & Ho & _).
  exists s'. split; [exact Hs'|]. split; [exact Hwf|exact Ho].
Defined.

Lemma receiver_delivers_in_order_witness :
  exists s', receiver_poll sample_answers sample_socket5 = Done (Pending, s', []) /\
    conn_view s' (5, sample_peer) =
      Some (true, [Packet_new Data 1 5 0 0 0 10 0 [] [1; 2];
                   Packet_new Data 1 5 0 0 0 11 0 [] [3]]).
Proof.
  destruct sample_receiver_poll as [s' Hs'].
  destruct (receiver_delivers_in_order _ _ _ _ _ (5, sample_peer) []
    sample_socket5_wf eq_refl eq_refl Hs') as (used & Hu & Hv).
  exists s'. split; [exact Hs'|]. rewrite app_nil_r in Hu. subst used.
  exact Hv.
Defined.

(** The socket after the stream of connection 5 was dropped. *)
Definition sample_stale : UtpSocket := mailbox_drop_rx sample_socket5 0%nat.

Lemma sample_stale_poll :
  exists s', receiver_poll sample_answers sample_stale = Done (Pending, s', []).
Proof. apply receiver_waiting_true. by vm_compute. Qed.

Lemma receiver_collects_stale_witness :
  exists s', receiver_poll sample_answers sample_stale = Done (Pending, s', []) /\
    conn_view s' (5, sample_peer) = None.
Proof.
  destruct sample_stale_poll as [s' Hs'].
  destruct (receiver_collects_stale _ _ _ _ _ (5, sample_peer) []
    (mailbox_drop_rx_wf _ 0%nat sample_socket5_wf) eq_refl eq_refl Hs')
    as (used & Hu & Hv).
  exists s'. split; [exact Hs'|]. rewrite app_nil_r in Hu. subst used.
  exact Hv.
Defined.

Lemma receiver_poll_total_witness :
  exists r, receiver_poll sample_answers sample_socket5 = Done r.
Proof.
  apply (receiver_poll_total sample_answers sample_socket5).
  apply Exists_exists. exists (mkRecvAnswer Pending Pending).
  split; [|reflexivity]. apply list_elem_of_lookup. by exists 4%nat.
Defined.
