(* ===== verification/Stream.v ===== *)
(** * Streams (src/src/stream.rs)

    A [UtpStream] and its operations: the two halves of [connect], the packet
    handlers, and the [AsyncRead]/[AsyncWrite] polls. The socket a stream shares
    with others and the system clock are its environment [Env], passed and
    returned by every operation that uses them. *)

From S2P Require Import Prelude Crates Errors Time Packet Congestion Socket.

Definition MAX_DATA_SEGMENT_SIZE : nat := MAX_DATAGRAM_SIZE - PACKET_HEADER_LEN.

(** The fields of a stream. The socket it shares is in [Env]; [inbound_packets]
    names the mailbox of which the stream holds the receive half. *)
Record UtpStream : Type := mkUtpStream {
  congestion_controller : CongestionController;
  connection_id_recv : Z;
  connection_id_send : Z;
  remote_addr : SocketAddr;
  inbound_packets : ChanId;
  st_seq_number : Z;
  st_ack_number : Z;
  inbound_data : gmap Z bytes;
  received_data : bytes;
  unacked_data : list (Z * bytes);
  is_shutdown : bool;
}.

Definition UtpStream_new (id_recv id_send : Z) (remote : SocketAddr) (rx : ChanId)
    (seq ack : Z) (inbound : gmap Z bytes) (received : bytes)
    (unacked : list (Z * bytes)) : UtpStream :=
  mkUtpStream CongestionController_new id_recv id_send remote rx seq ack inbound
    received unacked false.

(** Assignments to one field. *)
Definition set_congestion (c : CongestionController) (st : UtpStream) : UtpStream :=
  mkUtpStream c (connection_id_recv st) (connection_id_send st) (remote_addr st)
    (inbound_packets st) (st_seq_number st) (st_ack_number st) (inbound_data st)
    (received_data st) (unacked_data st) (is_shutdown st).
Definition set_seq_number (n : Z) (st : UtpStream) : UtpStream :=
  mkUtpStream (congestion_controller st) (connection_id_recv st)
    (connection_id_send st) (remote_addr st) (inbound_packets st) n
    (st_ack_number st) (inbound_data st) (received_data st) (unacked_data st)
    (is_shutdown st).
Definition set_ack_number (n : Z) (st : UtpStream) : UtpStream :=
  mkUtpStream (congestion_controller st) (connection_id_recv st)
    (connection_id_send st) (remote_addr st) (inbound_packets st)
    (st_seq_number st) n (inbound_data st) (received_data st) (unacked_data st)
    (is_shutdown st).
Definition set_inbound_data (m : gmap Z bytes) (st : UtpStream) : UtpStream :=
  mkUtpStream (congestion_controller st) (connection_id_recv st)
    (connection_id_send st) (remote_addr st) (inbound_packets st)
    (st_seq_number st) (st_ack_number st) m (received_data st) (unacked_data st)
    (is_shutdown st).
Definition set_received_data (b : bytes) (st : UtpStream) : UtpStream :=
  mkUtpStream (congestion_controller st) (connection_id_recv st)
    (connection_id_send st) (remote_addr st) (inbound_packets st)
    (st_seq_number st) (st_ack_number st) (inbound_data st) b (unacked_data st)
    (is_shutdown st).
Definition set_unacked_data (l : list (Z * bytes)) (st : UtpStream) : UtpStream :=
  mkUtpStream (congestion_controller st) (connection_id_recv st)
    (connection_id_send st) (remote_addr st) (inbound_packets st)
    (st_seq_number st) (st_ack_number st) (inbound_data st) (received_data st) l
    (is_shutdown st).
Definition set_shutdown (b : bool) (st : UtpStream) : UtpStream :=
  mkUtpStream (congestion_controller st) (connection_id_recv st)
    (connection_id_send st) (remote_addr st) (inbound_packets st)
    (st_seq_number st) (st_ack_number st) (inbound_data st) (received_data st)
    (unacked_data st) b.

(** ** Handlers that only concern the stream *)

(** [is_suspicious]: the types it does not expect are a [todo!()]. *)
Definition is_suspicious (st : UtpStream) (packet : Packet) : Outcome bool :=
  match packet_type packet with
  | Data =>
      let acceptable_distance := 128 in
      let left_distance := wrapping_sub16 (st_ack_number st) (seq_number packet) in
      let right_distance := wrapping_sub16 (seq_number packet) (st_ack_number st) in
      Done ((acceptable_distance <? left_distance) &&
            (acceptable_distance <? right_distance))
  | State =>
      let acceptable_distance := Z.of_nat (length (unacked_data st)) + 3 in
      let left_distance := wrapping_sub16 (st_seq_number st) (ack_number packet) in
      Done ((left_distance =? 0) || (acceptable_distance <? left_distance))
  | _ => Panic Todo
  end.

(** The [while let] of [handle_packet] on an ACK: pop the front of the in-flight
    queue while its sequence number is at most [ack]. *)
Fixpoint pop_acked (ack : Z) (unacked : list (Z * bytes)) : list (Z * bytes) :=
  match unacked with
  | [] => []
  | (oldest_seq_num, d) :: unacked =>
      if oldest_seq_num <=? ack then pop_acked ack unacked
      else (oldest_seq_num, d) :: unacked
  end.

Definition handle_packet (st : UtpStream) (packet : Packet) : Outcome UtpStream :=
  match packet_type packet with
  | Data =>
      Done (set_inbound_data
              (<[seq_number packet := data packet]> (inbound_data st)) st)
  | State =>
      Done (set_unacked_data (pop_acked (ack_number packet) (unacked_data st)) st)
  | _ => Panic Todo
  end.

(** [buf.chunks(n)], the pieces of length [n] of a slice (the last one may be
    shorter); every round takes at least a byte. *)
Fixpoint chunks_loop (fuel n : nat) (buf : bytes) : list bytes :=
  match fuel, buf with
  | S fuel, _ :: _ => take n buf :: chunks_loop fuel n (drop n buf)
  | _, _ => []
  end.
Definition chunks (n : nat) (buf : bytes) : list bytes :=
  chunks_loop (length buf) n buf.

Section stream.
Context `{By : BytesCrate, Rb : ReadBufCrate, Mp : MpscCrate, Dm : DashMapCrate}.

(** [SystemTime::now()]: the reading of the system clock at its [n]-th use. *)
Variable clock : nat -> SystemTime.

Record Env : Type := mkEnv {
  env_socket : UtpSocket;
  clock_reads : nat;
}.

Definition with_socket (s : UtpSocket) (e : Env) : Env := mkEnv s (clock_reads e).

(** A call of [current_micros()]. *)
Definition read_clock (e : Env) : Outcome (Z * Env) :=
  t ← current_micros (clock (clock_reads e));
  Done (t, mkEnv (env_socket e) (S (clock_reads e))).

(** ** Receiving *)

(** The second loop of [poll_read]: move consecutive data packets, from
    [next_seq_num] on, to the received data. Each round removes an entry. *)
Fixpoint assemble (fuel : nat) (next_seq_num : Z) (st : UtpStream)
    : Outcome UtpStream :=
  match fuel with
  | O => OutOfFuel
  | S fuel =>
      match inbound_data st !! next_seq_num with
      | Some d =>
          let st := set_inbound_data (delete next_seq_num (inbound_data st)) st in
          let st := set_received_data (extend_from_slice d (received_data st)) st in
          let st := set_ack_number next_seq_num st in
          assemble fuel (wrapping_add16 next_seq_num 1) st
      | None => Done st
      end
  end.

(** [poll_read_packet]. Each round takes a packet out of the mailbox. *)
Fixpoint poll_read_packet (fuel : nat) (st : UtpStream) (e : Env)
    : Outcome (Poll (option Packet) * UtpStream * Env) :=
  match fuel with
  | O => OutOfFuel
  | S fuel =>
      '(maybe_packet, s) ← mailbox_poll_recv (env_socket e) (inbound_packets st);
      let e := with_socket s e in
      match maybe_packet with
      | Pending => Done (Pending, st, e)
      | Ready (Some packet) =>
          '(received_at, e) ← read_clock e;
          suspicious ← is_suspicious st packet;
          if (suspicious : bool) then poll_read_packet fuel st e
          else
            let st := set_congestion
              (update_state (congestion_controller st) received_at packet) st in
            Done (Ready (Some packet), st, e)
      | Ready None => Done (Ready None, set_shutdown true st, e)
      end
  end.

(** The first loop of [poll_read] and of [poll_flush]: handle packets until the
    mailbox is not ready, or closed ([true]). *)
Fixpoint process_packets (fuel : nat) (st : UtpStream) (e : Env)
    : Outcome (bool * UtpStream * Env) :=
  match fuel with
  | O => OutOfFuel
  | S fuel' =>
      '(r, st, e) ← poll_read_packet fuel st e;
      match r with
      | Ready (Some packet) =>
          st ← handle_packet st packet;
          process_packets fuel' st e
      | Ready None => Done (true, st, e)
      | Pending => Done (false, st, e)
      end
  end.

(** ** Sending *)

Definition send_packet (st : UtpStream) (ptype : PacketType) (seq ack : Z)
    (exts : list Extension) (payload : bytes) (e : Env)
    : Outcome (Result unit IoError * Env) :=
  '(now, e) ← read_clock e;
  let packet := Packet_new ptype 1 (connection_id_send st) now 0 0 seq ack exts payload in
  let '(r, s) := send_to (env_socket e) packet (remote_addr st) in
  Done (r, with_socket s e).

Definition send_ack (st : UtpStream) (e : Env) : Outcome (Result unit IoError * Env) :=
  send_packet st State (st_seq_number st) (st_ack_number st) [] [] e.

Definition send_data (st : UtpStream) (payload : bytes) (e : Env)
    : Outcome (Result unit IoError * UtpStream * Env) :=
  '(r, e) ← send_packet st Data (st_seq_number st) (st_ack_number st) [] payload e;
  match r with
  | Err err => Done (Err err, st, e)
  | Ok _ =>
      let st := set_unacked_data (unacked_data st ++ [(st_seq_number st, payload)]) st in
      let st := set_seq_number (wrapping_add16 (st_seq_number st) 1) st in
      Done (Ok tt, st, e)
  end.

(** ** [AsyncRead] and [AsyncWrite] *)

Definition poll_read (fuel : nat) (st : UtpStream) (e : Env) (buf : ReadBuf)
    : Outcome (Poll (Result unit IoError) * UtpStream * Env * ReadBuf) :=
  '(terminated, st, e) ← process_packets fuel st e;
  if (terminated : bool) then Done (Ready (Ok tt), st, e, buf) else
  st ← assemble (S (size (inbound_data st))) (wrapping_add16 (st_ack_number st) 1) st;
  '(acked, e) ← send_ack st e;
  match acked with
  | Err err => Done (Ready (Err err), st, e, buf)
  | Ok _ =>
      if is_empty (received_data st) then Done (Pending, st, e, buf) else
      '(chunk, rest) ←
        (if (remaining buf <? length (received_data st))%nat
         then expect OutOfBounds (split_to (remaining buf) (received_data st))
         else Done (split_all (received_data st)));
      let st := set_received_data rest st in
      if negb (length chunk <=? remaining buf)%nat then Panic AssertFailed else
      buf ← expect BufferOverrun (put_slice chunk buf);
      Done (Ready (Ok tt), st, e, buf)
  end.

(** The [for chunk in buf.chunks(..)] of [poll_write]. *)
Fixpoint write_chunks (cs : list bytes) (bytes_written : nat) (st : UtpStream)
    (e : Env) : Outcome (Poll (Result nat IoError) * UtpStream * Env) :=
  match cs with
  | [] => Done (Ready (Ok bytes_written), st, e)
  | chunk :: cs =>
      '(r, st, e) ← send_data st chunk e;
      match r with
      | Ok _ => write_chunks cs (bytes_written + length chunk) st e
      | Err err => Done (Ready (Err err), st, e)
      end
  end.

Definition poll_write (st : UtpStream) (e : Env) (buf : bytes)
    : Outcome (Poll (Result nat IoError) * UtpStream * Env) :=
  if is_shutdown st then Done (Ready (Ok 0%nat), st, e)
  else write_chunks (chunks MAX_DATA_SEGMENT_SIZE buf) 0 st e.

Definition poll_flush (fuel : nat) (st : UtpStream) (e : Env)
    : Outcome (Poll (Result unit IoError) * UtpStream * Env) :=
  '(_, st, e) ← process_packets fuel st e;
  if is_empty (unacked_data st) then Done (Ready (Ok tt), st, e)
  else if is_shutdown st then Panic Todo
  else Done (Pending, st, e).

Definition poll_shutdown (fuel : nat) (st : UtpStream) (e : Env)
    : Outcome (Poll (Result unit IoError) * UtpStream * Env) :=
  '(r, st, e) ← poll_flush fuel (set_shutdown true st) e;
  match r with
  | Pending => Done (Pending, st, e)
  | Ready (Err err) => Done (Ready (Err err), st, e)
  | Ready (Ok _) => Panic Todo
  end.

(** ** [connect] *)

(** The state of a [connect] that waits for the answer to its SYN. *)
Record Connecting : Type := mkConnecting {
  co_id_recv : Z;
  co_id_send : Z;
  co_remote_addr : SocketAddr;
  co_receiver : ChanId;
  co_seq_number : Z;
}.

Definition no_address : IoError := mkIoError KindOther (PayloadConnection NoAddress).

(** [connect] up to the [await] on the answer. [resolved] is what [lookup_host]
    gives, [draws] what [rand::random] gives; on an early return the receive
    half made by [register_connection] is dropped. *)
Definition connect_start (s : UtpSocket) (resolved : Result (list SocketAddr) IoError)
    (draws : list Z) : Outcome (Result Connecting IoError * UtpSocket * list Z) :=
  match resolved with
  | Err err => Done (Err err, s, draws)
  | Ok [] => Done (Err no_address, s, draws)
  | Ok (remote :: _) =>
      '(id_recv, receiver, s, draws) ← register_connection s remote draws;
      let id_send := wrapping_add16 id_recv 1 in
      let seq := 1 in
      let ack := 0 in
      let syn := Packet_new Syn 1 id_recv 0 0 0 seq ack [] [] in
      let seq := wrapping_add16 seq 1 in
      match send_to s syn remote with
      | (Ok _, s) =>
          Done (Ok (mkConnecting id_recv id_send remote receiver seq), s, draws)
      | (Err err, s) => Done (Err err, mailbox_drop_rx s receiver, draws)
      end
  end.

(** A poll of the rest of [connect]. *)
Definition connect_poll (c : Connecting) (s : UtpSocket)
    : Outcome (Poll UtpStream * UtpSocket) :=
  '(r, s) ← mailbox_poll_recv s (co_receiver c);
  match r with
  | Pending => Done (Pending, s)
  | Ready None => Panic UnwrapNone
  | Ready (Some response) =>
      match packet_type response with
      | State =>
          Done (Ready (UtpStream_new (co_id_recv c) (co_id_send c) (co_remote_addr c)
                         (co_receiver c) (co_seq_number c) (seq_number response)
                         ∅ [] []), s)
      | _ => Panic Todo
      end
  end.
End stream.
