(* ===== verification/StreamFacts.v ===== *)
(** * How a stream uses its socket

    The library behind the theorems on streams: [touched] says what a stream's
    operation may do to the socket it shares, and [receive_all] says what the
    packets it takes out of its mailbox do to it, one at a time. The loops of
    Stream.v are shown to be runs of [receive_all] on a prefix of the mailbox. *)

From S2P Require Import Prelude Crates Errors Time Packet Congestion Socket Stream.

Section facts.
Context `{By : BytesCrate, Rb : ReadBufCrate, Mp : MpscCrate, Dm : DashMapCrate}.
Variable clock : nat -> SystemTime.

(** ** Definitions *)

(** From [s] to [s'], the mailbox [rx] lost [popped] at its front, the outgoing
    queue gained [out] at its end, and nothing else changed. *)
Record touched (rx : ChanId) (popped : list Packet)
    (out : list (Packet * SocketAddr)) (s s' : UtpSocket) : Prop := {
  td_socket : socket_alive s' = socket_alive s;
  td_table_alive : table_alive s' = table_alive s;
  td_addr : local_addr s' = local_addr s;
  td_table : routing_table s' = routing_table s;
  td_syn : syn_channel s' = syn_channel s;
  td_next : next_chan s' = next_chan s;
  td_other : forall id, id <> rx -> mailboxes s' !! id = mailboxes s !! id;
  td_none : mailboxes s !! rx = None -> mailboxes s' !! rx = None;
  td_some : forall c, mailboxes s !! rx = Some c ->
    exists c', mailboxes s' !! rx = Some c' /\
      tx_alive c' = tx_alive c /\ rx_alive c' = rx_alive c;
  td_mailbox : mailbox s rx = popped ++ mailbox s' rx;
  td_out : queued (outgoing_channel s') = queued (outgoing_channel s) ++ out;
  td_out_tx : tx_alive (outgoing_channel s') = tx_alive (outgoing_channel s);
  td_out_rx : rx_alive (outgoing_channel s') = rx_alive (outgoing_channel s);
}.

(** What one packet taken out of the mailbox does to the stream, at the [n]-th
    reading of the clock. *)
Definition receive_packet (n : nat) (st : UtpStream) (p : Packet)
    : Outcome UtpStream :=
  received_at ← current_micros (clock n);
  suspicious ← is_suspicious st p;
  if (suspicious : bool) then Done st
  else handle_packet
         (set_congestion (update_state (congestion_controller st) received_at p) st) p.

Fixpoint receive_all (n : nat) (st : UtpStream) (ps : list Packet)
    : Outcome UtpStream :=
  match ps with
  | [] => Done st
  | p :: ps => st ← receive_packet n st p; receive_all (S n) st ps
  end.

(** The types of packet a stream handles. *)
Definition is_expected (p : Packet) : bool :=
  match packet_type p with Data | State => true | _ => false end.

(** Data packets the stream keeps: those within the window around [ack]. *)
Definition keeps (ack : Z) (p : Packet) : bool :=
  bool_decide (packet_type p = Data) &&
  negb ((128 <? wrapping_sub16 ack (seq_number p)) &&
        (128 <? wrapping_sub16 (seq_number p) ack)).

(** The buffer of out-of-order data after a sequence of packets. *)
Definition buffer_data (ack : Z) (m : gmap Z bytes) (ps : list Packet) : gmap Z bytes :=
  foldl (fun m p => <[seq_number p := data p]> m) m (filter (keeps ack) ps).

(** Fields that receiving packets leaves alone. *)
Record same_stream (st st' : UtpStream) : Prop := {
  ss_recv : connection_id_recv st' = connection_id_recv st;
  ss_send : connection_id_send st' = connection_id_send st;
  ss_remote : remote_addr st' = remote_addr st;
  ss_rx : inbound_packets st' = inbound_packets st;
  ss_seq : st_seq_number st' = st_seq_number st;
  ss_ack : st_ack_number st' = st_ack_number st;
  ss_received : received_data st' = received_data st;
}.

(** ** [touched] *)

Lemma touched_refl rx s : touched rx [] [] s s.
Proof. split; try done; [by eauto|by rewrite app_nil_r]. Qed.

Lemma touched_trans rx popped1 out1 popped2 out2 s1 s2 s3 :
  touched rx popped1 out1 s1 s2 -> touched rx popped2 out2 s2 s3 ->
  touched rx (popped1 ++ popped2) (out1 ++ out2) s1 s3.
Proof.
  intros [? ? ? ? ? ? Ho1 Hn1 Hs1 Hm1 Hq1 ? ?] [? ? ? ? ? ? Ho2 Hn2 Hs2 Hm2 Hq2 ? ?].
  split; try congruence.
  - intros id Hid. by rewrite Ho2, Ho1.
  - auto.
  - intros c Hc. destruct (Hs1 c Hc) as (c1 & Hc1 & ? & ?).
    destruct (Hs2 c1 Hc1) as (c2 & ? & ? & ?). exists c2. split_and!; congruence.
  - by rewrite Hm1, Hm2, (assoc_L (++)).
  - by rewrite Hq2, Hq1, (assoc_L (++)).
Qed.

Lemma touched_wf rx popped out s s' :
  touched rx popped out s s' -> wf_socket s -> wf_socket s'.
Proof.
  intros [? ? ? Ht ? Hn Ho Hno Hso ? ? ? ?] [Hinj Hal Har Hfr Hu].
  assert (Hr : forall k, route s' k = route s k) by (intros; unfold route; by rewrite Ht).
  assert (Hback : forall id c', mailboxes s' !! id = Some c' ->
    exists c, mailboxes s !! id = Some c /\ tx_alive c' = tx_alive c).
  { intros id c' Hc'. destruct (decide (id = rx)) as [->|Hne]; [|rewrite Ho in Hc'; eauto].
    destruct (mailboxes s !! rx) as [c|] eqn:Hc; [|by rewrite Hno in Hc'].
    destruct (Hso c eq_refl) as (c2 & ? & ? & ?). exists c. split; congruence. }
  split.
  - intros k1 k2 id. rewrite !Hr. apply Hinj.
  - intros k id. rewrite Hr. intros Hk. destruct (Hal k id Hk) as (c & Hc & Htx).
    destruct (decide (id = rx)) as [->|Hne]; [|rewrite Ho by done; eauto].
    destruct (Hso c Hc) as (c2 & ? & ? & ?). exists c2. split; congruence.
  - intros id c' Hc' Htx. destruct (Hback id c' Hc') as (c & Hc & Heq).
    setoid_rewrite Hr. apply (Har id c Hc). congruence.
  - intros id [c' Hc']. rewrite Hn. apply Hfr.
    destruct (Hback id c' Hc') as (c & Hc & _). by exists c.
  - intros k id. rewrite Hr. apply Hu.
Qed.

Lemma touched_recv s rx r s' : mailbox_poll_recv s rx = Done (r, s') ->
  touched rx (match r with Ready (Some p) => [p] | _ => [] end) [] s s' /\
  (r = Ready None -> exists c, mailboxes s !! rx = Some c /\ tx_alive c = false).
Proof.
  unfold mailbox_poll_recv. intros (c & Hc%expect_Done & Hr)%bind_Done.
  destruct (poll_recv c) as [r2 c2] eqn:Hp. outcome_inv.
  pose proof (poll_recv_alive _ _ _ Hp) as [Htx Hrx]. split.
  - split; cbn; try done.
    + intros id Hid. by rewrite lookup_insert_ne.
    + congruence.
    + intros c3 Hc3. rewrite lookup_insert_eq. exists c2. split; [done|]. by simplify_eq.
    + unfold mailbox. cbn. rewrite Hc, lookup_insert_eq. cbn.
      destruct r as [[p|]|].
      * by apply poll_recv_Some in Hp as (-> & _).
      * by apply poll_recv_None in Hp as (-> & _ & -> & _).
      * by apply poll_recv_Pending in Hp as (-> & _).
    + by rewrite app_nil_r.
  - intros ->. exists c. by apply poll_recv_None in Hp as (_ & ? & _).
Qed.

Lemma touched_send rx s p a s' : send_to s p a = (Ok tt, s') ->
  touched rx [] [(p, a)] s s'.
Proof.
  unfold send_to. destruct (send _ _) as [c|] eqn:Hc; intros; simplify_eq.
  apply send_Some in Hc as (? & ? & ? & ?). split; cbn; try done; [by eauto|congruence].
Qed.

Lemma send_to_Ok s p a : rx_alive (outgoing_channel s) = true ->
  exists s', send_to s p a = (Ok tt, s').
Proof.
  intros Hrx. unfold send_to.
  destruct (send_alive _ (p, a) _ Hrx) as (c & -> & _). eauto.
Qed.

Lemma send_to_Err s p a err s' : send_to s p a = (Err err, s') ->
  rx_alive (outgoing_channel s) = false /\ err = send_error /\ s' = s.
Proof.
  unfold send_to. destruct (send _ _) as [c|] eqn:Hc; intros; simplify_eq.
  by apply send_None in Hc.
Qed.

(** ** [receive_all] *)

Lemma receive_all_app n st ps qs :
  receive_all n st (ps ++ qs) =
    (st ← receive_all n st ps; receive_all (n + length ps) st qs).
Proof.
  revert n st. induction ps as [|p ps IH]; intros n st; cbn.
  - by rewrite Nat.add_0_r.
  - destruct (receive_packet n st p) as [st1| |]; cbn; [|done..].
    rewrite IH. by rewrite Nat.add_succ_r.
Qed.

Lemma handle_packet_same st p st' : handle_packet st p = Done st' ->
  same_stream st st' /\ is_shutdown st' = is_shutdown st /\ is_expected p = true.
Proof.
  unfold handle_packet, is_expected.
  destruct (packet_type p); intros; outcome_inv; done.
Qed.

Lemma same_stream_refl st : same_stream st st.
Proof. done. Qed.

Lemma same_stream_trans st1 st2 st3 :
  same_stream st1 st2 -> same_stream st2 st3 -> same_stream st1 st3.
Proof. intros [] []. split; congruence. Qed.

Lemma same_stream_congestion c st : same_stream st (set_congestion c st).
Proof. done. Qed.

Lemma receive_packet_same n st p st' : receive_packet n st p = Done st' ->
  same_stream st st' /\ is_shutdown st' = is_shutdown st.
Proof.
  unfold receive_packet. intros (t & _ & (susp & _ & Hs)%bind_Done)%bind_Done.
  destruct susp; [by outcome_inv|].
  apply handle_packet_same in Hs as ([] & ? & _). done.
Qed.

Lemma receive_all_same n st ps st' : receive_all n st ps = Done st' ->
  same_stream st st' /\ is_shutdown st' = is_shutdown st.
Proof.
  revert n st. induction ps as [|p ps IH]; intros n st; cbn.
  - intros. by outcome_inv.
  - intros (st1 & [Hs1 Hd1]%receive_packet_same & [Hs2 Hd2]%IH)%bind_Done.
    split; [by eapply same_stream_trans|congruence].
Qed.

(** A data packet is kept exactly when it is not suspicious. *)
Lemma is_suspicious_Data st p : packet_type p = Data ->
  is_suspicious st p = Done (negb (keeps (st_ack_number st) p)).
Proof.
  intros Hp. unfold is_suspicious, keeps. rewrite Hp, bool_decide_eq_true_2 by done.
  cbn. by rewrite negb_involutive.
Qed.

Lemma keeps_Data ack p : keeps ack p = true -> packet_type p = Data.
Proof. unfold keeps. by intros [?%bool_decide_eq_true _]%andb_prop. Qed.

(** The effect of one packet on the two buffers it may change. *)
Lemma receive_packet_buffers n st p st' : receive_packet n st p = Done st' ->
  inbound_data st' =
    (if keeps (st_ack_number st) p
     then <[seq_number p := data p]> (inbound_data st) else inbound_data st) /\
  exists acked, unacked_data st = acked ++ unacked_data st'.
Proof.
  unfold receive_packet. intros (t & _ & (susp & Hsusp & Hs)%bind_Done)%bind_Done.
  destruct (packet_type p) eqn:Hp.
  - rewrite is_suspicious_Data in Hsusp by done. outcome_inv.
    unfold handle_packet in Hs. rewrite Hp in Hs.
    destruct (keeps _ _); cbn in Hs; outcome_inv; cbn; split; try done; by exists [].
  - unfold is_suspicious in Hsusp. by rewrite Hp in Hsusp.
  - assert (keeps (st_ack_number st) p = false) as ->
      by (unfold keeps; by rewrite Hp).
    unfold handle_packet in Hs. rewrite Hp in Hs.
    destruct susp; outcome_inv; cbn; split; try done; [by exists []|].
    generalize (unacked_data st) as l. induction l as [|[m d] l [acked IH]]; cbn; [by exists []|].
    destruct (m <=? ack_number p); [|by exists []]. exists ((m, d) :: acked). cbn. congruence.
  - unfold is_suspicious in Hsusp. by rewrite Hp in Hsusp.
  - unfold is_suspicious in Hsusp. by rewrite Hp in Hsusp.
Qed.

Lemma buffer_data_cons ack m p ps :
  buffer_data ack m (p :: ps) =
    buffer_data ack (if keeps ack p then <[seq_number p := data p]> m else m) ps.
Proof. unfold buffer_data. rewrite filter_cons. by destruct (keeps ack p). Qed.

Lemma receive_all_buffers n st ps st' : receive_all n st ps = Done st' ->
  inbound_data st' = buffer_data (st_ack_number st) (inbound_data st) ps /\
  exists acked, unacked_data st = acked ++ unacked_data st'.
Proof.
  revert n st. induction ps as [|p ps IH]; intros n st; cbn [receive_all].
  - intros. outcome_inv. split; [done|]. by exists [].
  - intros (st1 & Hp & Hps)%bind_Done.
    pose proof (receive_packet_buffers _ _ _ _ Hp) as [Hi [a1 Hu]].
    apply receive_packet_same in Hp as [[] _].
    apply IH in Hps as [-> [a2 Hu2]]. rewrite buffer_data_cons, Hi.
    split; [congruence|]. exists (a1 ++ a2). rewrite Hu, Hu2. by rewrite (assoc_L (++)).
Qed.

(** Expected packets never panic the stream, once the clock is past 1970. *)
Lemma receive_packet_total n st p : 0 <= clock n -> is_expected p = true ->
  exists st', receive_packet n st p = Done st'.
Proof.
  intros Hn Hp. unfold receive_packet. rewrite current_micros_eq by done. cbn.
  unfold is_suspicious, handle_packet, is_expected in *.
  destruct (packet_type p); try done; cbn; case_match; eauto.
Qed.

Lemma receive_all_total n st ps : (forall i, 0 <= clock i) ->
  Forall (fun p => is_expected p = true) ps ->
  exists st', receive_all n st ps = Done st'.
Proof.
  intros Hc Hps. revert n st. induction Hps as [|p ps Hp _ IH]; intros n st; cbn; [eauto|].
  destruct (receive_packet_total n st p (Hc n) Hp) as [st1 ->]. cbn. apply IH.
Qed.

(** ** The loops *)

(** The channel behind the mailbox is closed: its send half was dropped. *)
Definition closed (s : UtpSocket) (rx : ChanId) : Prop :=
  exists c, mailboxes s !! rx = Some c /\ tx_alive c = false.

Lemma read_clock_Done e t e' : read_clock clock e = Done (t, e') ->
  current_micros (clock (clock_reads e)) = Done t /\
  e' = mkEnv (env_socket e) (S (clock_reads e)).
Proof. unfold read_clock. intros (t2 & Ht & Hr)%bind_Done. by outcome_inv. Qed.

Lemma read_clock_total e : 0 <= clock (clock_reads e) ->
  exists t, read_clock clock e = Done (t, mkEnv (env_socket e) (S (clock_reads e))).
Proof. intros Hc. unfold read_clock. rewrite current_micros_eq by done. cbn. eauto. Qed.

(** Sending through the socket: the packet joins the outgoing queue, or the
    sender task is gone and nothing changes. *)
Lemma send_packet_Done rx st pt seq ack exts payload e r e' :
  send_packet clock st pt seq ack exts payload e = Done (r, e') ->
  exists now, current_micros (clock (clock_reads e)) = Done now /\
    clock_reads e' = S (clock_reads e) /\
    match r with
    | Ok _ => touched rx []
        [(Packet_new pt 1 (connection_id_send st) now 0 0 seq ack exts payload,
          remote_addr st)] (env_socket e) (env_socket e')
    | Err err => err = send_error /\ env_socket e' = env_socket e /\
        rx_alive (outgoing_channel (env_socket e)) = false
    end.
Proof.
  unfold send_packet. intros ([now e1] & Hc & Hr)%bind_Done.
  apply read_clock_Done in Hc as [Hc ->]. cbn in Hr.
  destruct (send_to _ _ _) as [r2 s2] eqn:Hs. outcome_inv.
  exists now. split_and!; [done..|]. destruct r as [[]|err]; cbn.
  - by apply touched_send.
  - by apply send_to_Err in Hs as (? & ? & ?).
Qed.

Lemma send_packet_alive st pt seq ack exts payload e :
  0 <= clock (clock_reads e) -> rx_alive (outgoing_channel (env_socket e)) = true ->
  exists e', send_packet clock st pt seq ack exts payload e = Done (Ok tt, e').
Proof.
  intros Hc Hrx. unfold send_packet. destruct (read_clock_total e Hc) as [now ->]. cbn.
  match goal with |- context [send_to _ ?p ?a] =>
    destruct (send_to_Ok (env_socket e) p a Hrx) as [s' ->] end. eauto.
Qed.

Lemma send_packet_dead st pt seq ack exts payload e :
  0 <= clock (clock_reads e) -> rx_alive (outgoing_channel (env_socket e)) = false ->
  send_packet clock st pt seq ack exts payload e =
    Done (Err send_error, mkEnv (env_socket e) (S (clock_reads e))).
Proof.
  intros Hc Hrx. unfold send_packet. destruct (read_clock_total e Hc) as [now ->]. cbn.
  unfold send_to. by rewrite (send_dead _ _ _ Hrx).
Qed.

(** One call of [poll_read_packet]: it skips some suspicious packets and stops
    at a packet it accepts, at a closed mailbox, or when none is ready. *)
Record packet_read (st : UtpStream) (e : Env) (r : Poll (option Packet))
    (st' : UtpStream) (e' : Env) (skipped last : list Packet) : Prop := {
  pr_touched : touched (inbound_packets st) (skipped ++ last) []
                 (env_socket e) (env_socket e');
  pr_reads : clock_reads e' = (clock_reads e + length (skipped ++ last))%nat;
  pr_skipped : receive_all (clock_reads e) st skipped = Done st;
  pr_result :
    match r with
    | Ready (Some p) =>
        last = [p] /\ inbound_packets st' = inbound_packets st /\
        receive_packet (clock_reads e + length skipped) st p = handle_packet st' p
    | Ready None =>
        last = [] /\ st' = set_shutdown true st /\
        closed (env_socket e') (inbound_packets st)
    | Pending => last = [] /\ st' = st
    end;
}.

Lemma poll_read_packet_Done fuel st e r st' e' :
  poll_read_packet clock fuel st e = Done (r, st', e') ->
  exists skipped last, packet_read st e r st' e' skipped last.
Proof.
  revert e. induction fuel as [|fuel IH]; intros e; cbn; [done|].
  intros ([mp s] & [Ht Hcl]%touched_recv & Hr)%bind_Done.
  destruct mp as [[p|]|].
  - apply bind_Done in Hr as ([t e1] & Hclk & Hr).
    apply read_clock_Done in Hclk as [Hclk ->]. cbn in Hclk, Hr.
    apply bind_Done in Hr as (susp & Hsusp & Hr).
    destruct susp.
    + apply IH in Hr as (skipped & lst & [Ht2 Hreads Hsk Hres]). cbn in *.
      exists (p :: skipped), lst. split; cbn.
      * by apply (touched_trans _ [p] [] _ []  _ s).
      * rewrite Hreads. cbn. lia.
      * unfold receive_packet. rewrite Hclk. cbn. rewrite Hsusp. cbn. done.
      * destruct r as [[q|]|]; [|done..]. by rewrite Nat.add_succ_r.
    + outcome_inv. exists [], [p]. split; cbn; try done; [lia|].
      split_and!; try done. unfold receive_packet.
      by rewrite Nat.add_0_r, Hclk; cbn; rewrite Hsusp.
  - outcome_inv. exists [], []. split; cbn; try done.
    split_and!; try done. destruct (Hcl eq_refl) as (c & Hc & Htx).
    destruct (td_some _ _ _ _ _ Ht c Hc) as (c' & ? & ? & _).
    exists c'. split; [done|congruence].
  - outcome_inv. exists [], []. split; cbn; try done; lia.
Qed.

Lemma closed_touched rx popped out s s' :
  touched rx popped out s s' -> closed s' rx -> closed s rx.
Proof.
  intros [? ? ? ? ? ? ? Hno Hso ? ? ? ?] (c' & Hc' & Htx).
  destruct (mailboxes s !! rx) as [c|] eqn:Hc; [|by rewrite Hno in Hc'].
  destruct (Hso c eq_refl) as (c2 & ? & ? & ?). exists c. split; congruence.
Qed.

(** The first loop of [poll_read] and [poll_flush] takes a prefix of the mailbox
    and lets it act on the stream, packet by packet. *)
Record processed (st : UtpStream) (e : Env) (terminated : bool) (st' : UtpStream)
    (e' : Env) (popped : list Packet) (st1 : UtpStream) : Prop := {
  pp_touched : touched (inbound_packets st) popped [] (env_socket e) (env_socket e');
  pp_reads : clock_reads e' = (clock_reads e + length popped)%nat;
  pp_received : receive_all (clock_reads e) st popped = Done st1;
  pp_stream : st' = if terminated then set_shutdown true st1 else st1;
  pp_closed : terminated = true -> closed (env_socket e) (inbound_packets st);
}.

Lemma process_packets_Done fuel st e terminated st' e' :
  process_packets clock fuel st e = Done (terminated, st', e') ->
  exists popped st1, processed st e terminated st' e' popped st1.
Proof.
  revert st e. induction fuel as [|fuel IH]; intros st e; [done|].
  cbn [process_packets]. intros ([[r st0] e0] & Hp & Hr)%bind_Done.
  apply poll_read_packet_Done in Hp as (skipped & lst & [Ht Hreads Hsk Hres]).
  destruct r as [[p|]|].
  - destruct Hres as (-> & Hrx & Hrecv). apply bind_Done in Hr as (st2 & Hh & Hr).
    pose proof (handle_packet_same _ _ _ Hh) as [[_ _ _ Hrx2 _ _ _] _].
    apply IH in Hr as (popped & st1 & [Ht2 Hreads2 Hps Hst Hcl]).
    exists ((skipped ++ [p]) ++ popped), st1. split; try done.
    + rewrite Hrx2, Hrx in Ht2. by eapply (touched_trans _ _ [] _ []).
    + rewrite Hreads2, Hreads, !length_app. lia.
    + rewrite !receive_all_app, Hsk. cbn. rewrite Hrecv, Hh. cbn.
      rewrite Hreads in Hps. by rewrite length_app in *.
    + intros Hterm. rewrite Hrx2, Hrx in Hcl. eapply closed_touched; eauto.
  - outcome_inv. destruct Hres as (-> & -> & Hcl). rewrite app_nil_r in *.
    exists skipped, st. split; try done. intros _. eapply closed_touched; eauto.
  - outcome_inv. destruct Hres as (-> & ->). rewrite app_nil_r in *.
    by exists skipped, st.
Qed.

(** Enough fuel, a clock past 1970 and packets of the expected types. *)
Lemma poll_read_packet_total fuel st e :
  (forall i, 0 <= clock i) -> is_Some (mailboxes (env_socket e) !! inbound_packets st) ->
  (length (mailbox (env_socket e) (inbound_packets st)) < fuel)%nat ->
  Forall (fun p => is_expected p = true) (mailbox (env_socket e) (inbound_packets st)) ->
  exists r, poll_read_packet clock fuel st e = Done r.
Proof.
  intros Hc. revert e. induction fuel as [|fuel IH]; intros e [c Hbox] Hf Hp; [lia|]. cbn.
  destruct (mailbox_poll_recv (env_socket e) (inbound_packets st)) as [[r s]| |] eqn:Hr.
  - cbn. pose proof (touched_recv _ _ _ _ Hr) as [Ht _].
    destruct r as [[p|]|]; [|eauto..].
    rewrite (td_mailbox _ _ _ _ _ Ht) in Hf, Hp. cbn in Hf.
    apply Forall_cons in Hp as [Hp1 Hp].
    destruct (read_clock_total (with_socket s e)) as [t ->]; [apply Hc|]. cbn.
    unfold is_suspicious. unfold is_expected in Hp1.
    destruct (td_some _ _ _ _ _ Ht c Hbox) as (c' & Hc' & _).
    destruct (packet_type p); try done; cbn; (case_match; [|by eauto]);
      (apply IH; cbn; [by eauto|lia|done]).
  - unfold mailbox_poll_recv in Hr. rewrite Hbox in Hr. cbn in Hr.
    by destruct (poll_recv c).
  - unfold mailbox_poll_recv in Hr. rewrite Hbox in Hr. cbn in Hr.
    by destruct (poll_recv c).
Qed.

Lemma process_packets_total fuel st e :
  (forall i, 0 <= clock i) -> is_Some (mailboxes (env_socket e) !! inbound_packets st) ->
  (length (mailbox (env_socket e) (inbound_packets st)) < fuel)%nat ->
  Forall (fun p => is_expected p = true) (mailbox (env_socket e) (inbound_packets st)) ->
  exists r, process_packets clock fuel st e = Done r.
Proof.
  intros Hc. revert st e. induction fuel as [|fuel IH]; intros st e Hbox Hf Hp; [lia|].
  cbn [process_packets].
  destruct (poll_read_packet_total (S fuel) st e Hc Hbox Hf Hp) as [[[r st0] e0] Hr].
  rewrite Hr. cbn. apply poll_read_packet_Done in Hr as (skipped & lst & [Ht _ _ Hres]).
  destruct r as [[p|]|]; [|eauto..]. destruct Hres as (-> & Hrx & _).
  rewrite (td_mailbox _ _ _ _ _ Ht) in Hf, Hp.
  apply Forall_app in Hp as [Hp1 Hp]. apply Forall_app in Hp1 as [_ [Hp1 _]%Forall_cons].
  rewrite !length_app in Hf. cbn in Hf.
  assert (exists st2, handle_packet st0 p = Done st2) as [st2 Hst2].
  { unfold handle_packet, is_expected in *. destruct (packet_type p); eauto; done. }
  rewrite Hst2. cbn. apply handle_packet_same in Hst2 as [[_ _ _ Hrx2 _ _ _] _].
  apply IH; rewrite Hrx2, Hrx; [|lia|done].
  destruct Hbox as [c Hbox]. destruct (td_some _ _ _ _ _ Ht c Hbox) as (c' & Hc' & _).
  by exists c'.
Qed.

(** Without spurious failures, the loop empties the mailbox. *)
Lemma poll_read_packet_drained `{!PromptMpsc} fuel st e st' e' :
  poll_read_packet clock fuel st e = Done (Pending, st', e') ->
  mailbox (env_socket e') (inbound_packets st) = [] /\
  ~ closed (env_socket e') (inbound_packets st).
Proof.
  revert e. induction fuel as [|fuel IH]; intros e; cbn; [done|].
  intros ([mp s] & Hm & Hr)%bind_Done. destruct mp as [[p|]|].
  - apply bind_Done in Hr as ([t e1] & _ & (susp & _ & Hr)%bind_Done).
    destruct susp; [by apply IH in Hr|by outcome_inv].
  - by outcome_inv.
  - outcome_inv. cbn. unfold mailbox_poll_recv in Hm.
    apply bind_Done in Hm as (c & Hc%expect_Done & Hm).
    destruct (poll_recv c) as [r2 c2] eqn:Hp. outcome_inv.
    unfold mailbox, closed. cbn. rewrite lookup_insert_eq. cbn.
    destruct (poll_recv_Pending _ _ _ Hp) as (-> & ? & _).
    apply poll_recv_prompt in Hp as [-> ?]. split; [done|].
    intros (c3 & ? & ?). simplify_eq. congruence.
Qed.

Lemma process_packets_drained `{!PromptMpsc} fuel st e st' e' :
  process_packets clock fuel st e = Done (false, st', e') ->
  mailbox (env_socket e') (inbound_packets st) = [] /\
  ~ closed (env_socket e') (inbound_packets st).
Proof.
  revert st e. induction fuel as [|fuel IH]; intros st e; [done|].
  cbn [process_packets]. intros ([[r st0] e0] & Hp & Hr)%bind_Done.
  destruct r as [[p|]|].
  - apply poll_read_packet_Done in Hp as (skipped & lst & [_ _ _ (_ & Hrx & _)]).
    apply bind_Done in Hr as (st2 & [[_ _ _ Hrx2 _ _ _] _]%handle_packet_same & Hr).
    apply IH in Hr. by rewrite Hrx2, Hrx in Hr.
  - by outcome_inv.
  - outcome_inv. by eapply poll_read_packet_drained.
Qed.

(** A packet of a type [is_suspicious] does not expect stops the stream with a
    panic as soon as its turn comes. *)
Lemma poll_read_packet_unexpected `{!PromptMpsc} fuel st e ps p rest :
  (forall i, 0 <= clock i) -> is_Some (mailboxes (env_socket e) !! inbound_packets st) ->
  mailbox (env_socket e) (inbound_packets st) = ps ++ p :: rest ->
  (length ps < fuel)%nat -> Forall (fun q => is_expected q = true) ps ->
  is_expected p = false ->
  poll_read_packet clock fuel st e = Panic Todo \/
  exists q st' e' ps', poll_read_packet clock fuel st e = Done (Ready (Some q), st', e') /\
    is_expected q = true /\ inbound_packets st' = inbound_packets st /\
    is_Some (mailboxes (env_socket e') !! inbound_packets st) /\
    mailbox (env_socket e') (inbound_packets st) = ps' ++ p :: rest /\
    (length ps' < length ps)%nat /\ Forall (fun q => is_expected q = true) ps'.
Proof.
  intros Hc. revert e ps. induction fuel as [|fuel IH]; intros e ps [c Hbox] Hm Hf Hps Hp; [lia|].
  cbn. destruct (mailbox_poll_recv (env_socket e) (inbound_packets st)) as [[r s]| |] eqn:Hr.
  2,3: unfold mailbox_poll_recv in Hr; rewrite Hbox in Hr; cbn in Hr;
    by destruct (poll_recv c).
  pose proof (touched_recv _ _ _ _ Hr) as [Ht _]. cbn.
  pose proof (td_mailbox _ _ _ _ _ Ht) as Hbox2. rewrite Hm in Hbox2.
  destruct (td_some _ _ _ _ _ Ht c Hbox) as (c' & Hc' & _).
  unfold mailbox_poll_recv in Hr. rewrite Hbox in Hr. cbn in Hr.
  destruct (poll_recv c) as [r2 c2] eqn:Hpoll. outcome_inv.
  assert (Hq : queued c = ps ++ p :: rest) by (unfold mailbox in Hm; by rewrite Hbox in Hm).
  destruct r as [[q|]|].
  2: { apply poll_recv_None in Hpoll as (Hnil & _). rewrite Hnil in Hq. by destruct ps. }
  2: { apply poll_recv_prompt in Hpoll as [Hnil _]. rewrite Hnil in Hq. by destruct ps. }
  match goal with |- context [with_socket ?s0 e] => set (s := s0) in * end.
  destruct (read_clock_total (with_socket s e)) as [t ->]; [apply Hc|]. cbn.
  destruct ps as [|q2 ps]; cbn in Hbox2; simplify_eq.
  - left. unfold is_suspicious, is_expected in *. by destruct (packet_type q).
  - apply Forall_cons in Hps as [Hq2 Hps]. cbn in Hf.
    assert (exists b, is_suspicious st q = Done b) as [b ->].
    { unfold is_suspicious, is_expected in *. destruct (packet_type q); eauto; done. }
    cbn. destruct b.
    + destruct (IH (mkEnv s (S (clock_reads e))) ps) as [->|(q3 & st' & e' & ps' & -> & ? & ? & ? & ? & ? & ?)];
        cbn; try done; [lia|by left|]. right. exists q3, st', e', ps'. split_and!; try done. lia.
    + right. eexists q, _, _, ps. split; [done|]. cbn. split_and!; try done. lia.
Qed.

Lemma process_packets_unexpected `{!PromptMpsc} fuel st e ps p rest :
  (forall i, 0 <= clock i) -> is_Some (mailboxes (env_socket e) !! inbound_packets st) ->
  mailbox (env_socket e) (inbound_packets st) = ps ++ p :: rest ->
  (length ps < fuel)%nat -> Forall (fun q => is_expected q = true) ps ->
  is_expected p = false -> process_packets clock fuel st e = Panic Todo.
Proof.
  intros Hc. revert st e ps.
  induction fuel as [|fuel IH]; intros st e ps Hbox Hm Hf Hps Hp; [lia|].
  cbn [process_packets].
  destruct (poll_read_packet_unexpected (S fuel) st e ps p rest Hc Hbox Hm Hf Hps Hp)
    as [->|(q & st' & e' & ps' & -> & Hq & Hrx & Hbox2 & Hm2 & Hl & Hps2)]; cbn; [done|].
  assert (exists st2, handle_packet st' q = Done st2) as [st2 Hst2].
  { unfold handle_packet, is_expected in *. destruct (packet_type q); eauto; done. }
  rewrite Hst2. cbn. apply handle_packet_same in Hst2 as [[_ _ _ Hrx2 _ _ _] _].
  apply (IH st2 e' ps'); rewrite ?Hrx2, ?Hrx; try done. lia.
Qed.
End facts.

