(* ===== verification/StreamRead.v ===== *)
(** * Reading from a stream

    The acceptance windows of [is_suspicious], the reassembly loop against its
    specification [run], and [AsyncRead::poll_read] as a whole. *)

From S2P Require Import Prelude Crates CratesRef Errors Time Packet.
From S2P Require Import PacketWire Congestion Socket Stream StreamFacts.

(** ** Definitions *)

(** [run m n ds m']: starting at sequence number [n], the buffer [m] holds the
    consecutive packets [ds] and no packet at the next number; [m'] is what is
    left of [m]. *)
Inductive run : gmap Z bytes -> Z -> list bytes -> gmap Z bytes -> Prop :=
  | run_nil m n : m !! n = None -> run m n [] m
  | run_cons m n d ds m' :
      m !! n = Some d -> run (delete n m) (wrapping_add16 n 1) ds m' ->
      run m n (d :: ds) m'.

(** A stream after its reassembly loop moved [ds], leaving [m'] buffered. *)
Definition assembled (st : UtpStream) (ds : list bytes) (m' : gmap Z bytes)
    : UtpStream :=
  set_inbound_data m'
    (set_received_data (received_data st ++ concat ds)
      (set_ack_number (wrapping_add16 (st_ack_number st) (Z.of_nat (length ds))) st)).

(** The sequence number [i] places after [n]. *)
Definition seq_at (n : Z) (i : nat) : Z := wrapping_add16 n (Z.of_nat i).

(** Data packets of a sender, in order, the first numbered [n]. *)
Definition data_packet (id now n ack : Z) (d : bytes) : Packet :=
  Packet_new Data 1 id now 0 0 n ack [] d.

(** The acknowledgement a stream sends at time [now]. *)
Definition ack_packet (st : UtpStream) (now : Z) : Packet :=
  Packet_new State 1 (connection_id_send st) now 0 0 (st_seq_number st)
    (st_ack_number st) [] [].

(** [sent_as n ds k d]: [d] is one of the payloads [ds], numbered from [n], and
    [k] is its sequence number. *)
Definition sent_as (n : Z) (ds : list bytes) (k : Z) (d : bytes) : Prop :=
  exists i, ds !! i = Some d /\ k = seq_at n i.

(** A data packet carrying one of the payloads, under its sequence number. *)
Definition genuine (n : Z) (ds : list bytes) (p : Packet) : Prop :=
  packet_type p = Data -> sent_as n ds (seq_number p) (data p).

(** Every packet buffered for reassembly carries one of the payloads. *)
Definition genuine_buffer (n : Z) (ds : list bytes) (m : gmap Z bytes) : Prop :=
  forall k d, m !! k = Some d -> sent_as n ds k d.


(** The [i]-th payload after [ack] is at hand: buffered already, or in the
    mailbox and close enough to be kept. *)
Definition available (m : gmap Z bytes) (box : list Packet) (n : Z) (i : nat) : Prop :=
  is_Some (m !! seq_at n i) \/
  ((i < 128)%nat /\ exists p, p ∈ box /\ packet_type p = Data /\
     seq_number p = seq_at n i).

(** A stream on the reference crates, whose mailbox holds [ps]. *)
Definition sample_clock : nat -> SystemTime := fun n => 1000 + Z.of_nat n.
Definition sample_stream : UtpStream := UtpStream_new 5 6 sample_peer 0%nat 2 100 ∅ [] [].
Definition sample_env (ps : list Packet) : Env :=
  mkEnv (set_mailboxes (<[0%nat := mkRefChan ps true true]> (mailboxes sample_socket5))
    sample_socket5) 0.
Definition sample_buf : ReadBuf := ([], 10%nat).

(** ** Helper lemmas: circular distance *)

Lemma wrapping_add16_assoc n a b :
  wrapping_add16 (wrapping_add16 n a) b = wrapping_add16 n (a + b).
Proof. unfold wrapping_add16. rewrite Zplus_mod_idemp_l. f_equal. lia. Qed.

Lemma wrapping_add16_0 n : u16 n -> wrapping_add16 n 0 = n.
Proof. intros. int_lia. Qed.

Lemma seq_at_S n i : seq_at n (S i) = wrapping_add16 (seq_at n i) 1.
Proof. unfold seq_at. rewrite wrapping_add16_assoc. f_equal. lia. Qed.

Lemma seq_at_u16 n i : u16 (seq_at n i).
Proof. apply wrapping_add16_u16. Qed.

Lemma seq_at_inj n i j : Z.of_nat i < 2 ^ 16 -> Z.of_nat j < 2 ^ 16 ->
  seq_at n i = seq_at n j -> i = j.
Proof. unfold seq_at. int_lia. Qed.

Lemma keeps_window ack p : u16 ack -> u16 (seq_number p) -> packet_type p = Data ->
  keeps ack p = true <->
  exists d, -128 <= d <= 128 /\ seq_number p = wrapping_add16 ack d.
Proof.
  intros Ha Hs Hp. unfold keeps. rewrite bool_decide_eq_true_2 by done. cbn [andb].
  rewrite negb_true_iff, andb_false_iff, !Z.ltb_ge. split.
  - intros [Hd|Hd].
    + exists (- wrapping_sub16 ack (seq_number p)). int_lia.
    + exists (wrapping_sub16 (seq_number p) ack). int_lia.
  - intros (d & Hd & ->). int_lia.
Qed.

(** ** Helper lemmas: reassembly *)

Lemma size_delete_S (m : gmap Z bytes) n d :
  m !! n = Some d -> size m = S (size (delete n m)).
Proof.
  intros Hd. rewrite map_size_delete_Some by eauto.
  assert (size m <> 0%nat); [|lia].
  intros ->%map_size_empty_inv. by rewrite lookup_empty in Hd.
Qed.

Lemma run_exists m n : exists ds m', run m n ds m'.
Proof.
  remember (size m) as k eqn:Hk. revert m n Hk.
  induction k as [|k IH]; intros m n Hk.
  - exists [], m. apply run_nil. symmetry in Hk. apply map_size_empty_inv in Hk.
    by rewrite Hk, lookup_empty.
  - destruct (m !! n) as [d|] eqn:Hd; [|exists [], m; by apply run_nil].
    destruct (IH (delete n m) (wrapping_add16 n 1)) as (ds & m' & Hr).
    { pose proof (size_delete_S m n d Hd). lia. }
    exists (d :: ds), m'. by eapply run_cons.
Qed.

Lemma run_det m n ds m' ds2 m2 : run m n ds m' -> run m n ds2 m2 -> ds = ds2 /\ m' = m2.
Proof.
  intros Hr. revert ds2 m2. induction Hr as [m n Hn|m n d ds m' Hd _ IH]; intros ds2 m2 H2.
  - inversion H2; subst; [done|congruence].
  - inversion H2; subst; [congruence|].
    destruct (IH ds0 m2) as [-> ->]; [done|]. split; [|done]. congruence.
Qed.

(** The buffered packet [i] places on is the [i]-th payload of the run. *)
Lemma run_lookup m n ds m' i d : run m n ds m' ->
  ds !! i = Some d -> u16 n -> m !! seq_at n i = Some d.
Proof.
  intros Hr. revert i. induction Hr as [|m n d0 ds m' Hd _ IH]; intros i Hi Hn; [done|].
  destruct i as [|i]; cbn in Hi.
  - simplify_eq. unfold seq_at. by rewrite wrapping_add16_0.
  - apply IH in Hi; [|apply wrapping_add16_u16].
    apply lookup_delete_Some in Hi as [_ Hi]. unfold seq_at in *.
    rewrite wrapping_add16_assoc in Hi. rewrite <- Hi. f_equal. f_equal. lia.
Qed.

(** A run is determined by the lookups it makes. *)
Lemma run_lookups m n ds m' ds' : run m n ds m' -> u16 n ->
  Z.of_nat (length ds') < 2 ^ 16 ->
  (forall i d, ds' !! i = Some d -> m !! seq_at n i = Some d) ->
  m !! seq_at n (length ds') = None -> ds = ds'.
Proof.
  intros Hr. revert ds'. induction Hr as [m n Hn|m n d ds m' Hd _ IH];
    intros ds' Hu Hl Hall Hend.
  - destruct ds' as [|d' ds']; [done|]. specialize (Hall 0%nat d' eq_refl).
    unfold seq_at in Hall. rewrite wrapping_add16_0 in Hall by done. congruence.
  - destruct ds' as [|d' ds'].
    { unfold seq_at in Hend. cbn in Hend. rewrite wrapping_add16_0 in Hend by done. congruence. }
    cbn [length] in Hl. pose proof (Hall 0%nat d' eq_refl) as H0.
    unfold seq_at in H0. rewrite wrapping_add16_0 in H0 by done.
    assert (Hne : forall i, Z.of_nat i < 2 ^ 16 -> seq_at (wrapping_add16 n 1) i = seq_at n (S i))
      by (intros; unfold seq_at; rewrite wrapping_add16_assoc; f_equal; lia).
    f_equal; [congruence|]. apply IH; [apply wrapping_add16_u16|lia|..].
    + intros i d2 Hi. pose proof (lookup_lt_Some _ _ _ Hi). rewrite Hne by lia.
      rewrite lookup_delete_ne; [by apply (Hall (S i))|]. unfold seq_at. int_lia.
    + rewrite Hne by lia. apply lookup_delete_None. by right.
Qed.

Lemma run_rest m n ds m' k d : run m n ds m' -> u16 n -> m' !! k = Some d ->
  m !! k = Some d /\ forall i, (i < length ds)%nat -> k <> seq_at n i.
Proof.
  intros Hr. induction Hr as [m n Hn|m n d0 ds m' Hd _ IH]; intros Hu Hk.
  - split; [done|]. cbn. lia.
  - apply IH in Hk as [[Hne Hk]%lookup_delete_Some Hi]; [|apply wrapping_add16_u16].
    split; [done|]. intros [|i] Hl; cbn in Hl.
    + unfold seq_at. cbn. by rewrite wrapping_add16_0.
    + specialize (Hi i ltac:(lia)). unfold seq_at in *.
      rewrite wrapping_add16_assoc in Hi. by replace (Z.of_nat (S i)) with (1 + Z.of_nat i) by lia.
Qed.

(** A run stops where the buffer has no packet. *)
Lemma run_end m n ds m' : run m n ds m' -> u16 n -> m' !! seq_at n (length ds) = None.
Proof.
  induction 1 as [m n Hn|m n d ds m' Hd _ IH]; intros Hu; unfold seq_at in *; cbn [length].
  - by rewrite wrapping_add16_0.
  - rewrite <- (IH (wrapping_add16_u16 _ _)), wrapping_add16_assoc. do 2 f_equal. lia.
Qed.

Lemma genuine_buffer_empty n ds : genuine_buffer n ds ∅.
Proof. by intros k d ?%lookup_empty_Some. Qed.

(** If the buffer only holds payloads of [ds], a run from the [k]-th sequence
    number on is a segment of [ds]. *)
Lemma run_genuine m n k ds m' rs : genuine_buffer n ds m ->
  Z.of_nat (length ds) < 2 ^ 16 -> (k <= length ds)%nat ->
  run m (seq_at n k) rs m' -> exists rest, drop k ds = rs ++ rest.
Proof.
  intros Hm Hl Hk Hr. remember (seq_at n k) as n' eqn:Hn. revert k Hk Hn.
  induction Hr as [m n' Hn'|m n' d rs m' Hd _ IH]; intros k Hk ->; [by eexists|].
  destruct (Hm _ _ Hd) as (i & Hi & Heq).
  pose proof (lookup_lt_Some _ _ _ Hi). apply seq_at_inj in Heq as <-; [|lia..].
  destruct (IH) with (k := S k) as [rest Hrest].
  - intros k2 d2 Hk2. apply lookup_delete_Some in Hk2 as [_ ?]. by apply Hm.
  - done.
  - by rewrite seq_at_S.
  - exists rest. rewrite (drop_S ds d k Hi). cbn. by f_equal.
Qed.

(** The buffer after a sequence of packets that agree with each other. *)
Lemma buffer_data_lookup n ds ack m ps k d :
  genuine_buffer n ds m -> Forall (genuine n ds) ps -> Z.of_nat (length ds) < 2 ^ 16 ->
  buffer_data ack m ps !! k = Some d <->
  sent_as n ds k d /\
    (is_Some (m !! k) \/ exists p, p ∈ ps /\ keeps ack p = true /\ seq_number p = k).
Proof.
  intros Hm Hps Hl. assert (Hfun : forall k d1 d2, sent_as n ds k d1 -> sent_as n ds k d2 -> d1 = d2).
  { intros k0 d1 d2 (i & Hi & ->) (j & Hj & Heq). pose proof (lookup_lt_Some _ _ _ Hi).
    pose proof (lookup_lt_Some _ _ _ Hj). apply seq_at_inj in Heq as ->; [congruence|lia..]. }
  revert m Hm. induction Hps as [|p ps Hp Hps IH]; intros m Hm.
  - unfold buffer_data. cbn. split.
    + intros Hk. split; [by apply Hm|by left].
    + intros [Hs [[d2 Hk]|(p & Hin%elem_of_nil & _)]]; [|done].
      rewrite Hk. f_equal. eapply Hfun; [by apply Hm|done].
  - rewrite buffer_data_cons. destruct (keeps ack p) eqn:Hkeep.
    + pose proof (Hp (keeps_Data _ _ Hkeep)) as Hsent. rewrite IH.
      * setoid_rewrite elem_of_cons. rewrite lookup_insert_is_Some. split.
        -- intros [? [[?|[_ ?]]|(q & ? & ? & ?)]]; (split; [done|]); eauto 10.
        -- intros [? [?|(q & [Hq|?] & ? & Hk)]]; (split; [done|]);
             [|left; left; congruence|by eauto].
           left. destruct (decide (seq_number p = k)); auto.
      * intros k2 d2 [[<- <-]|[? ?]]%lookup_insert_Some; [done|by apply Hm].
    + rewrite IH by done. setoid_rewrite elem_of_cons. split.
      * intros [? [?|(q & ? & ? & ?)]]; (split; [done|]); eauto 10.
      * intros [? [?|(q & [->|?] & ? & Hk)]]; (split; [done|]); [by left|congruence|by eauto].
Qed.

Section read.
Context `{By : BytesCrate, Rb : ReadBufCrate, Mp : MpscCrate, Dm : DashMapCrate}.
Lemma assemble_run_aux fuel m n ds m' st :
  run m n ds m' -> inbound_data st = m -> (size m < fuel)%nat ->
  st_ack_number st = wrapping_sub16 n 1 -> u16 n ->
  assemble fuel n st = Done (assembled st ds m').
Proof.
  intros Hr. revert fuel st. induction Hr as [m n Hn|m n d ds m' Hd Hr IH];
    intros fuel st Hm Hf Hack Hu; (destruct fuel as [|fuel]; [lia|]); cbn; rewrite Hm.
  - rewrite Hn. f_equal. unfold assembled. destruct st; cbn in *; subst.
    rewrite app_nil_r. unfold set_inbound_data, set_received_data, set_ack_number. cbn.
    f_equal. rewrite wrapping_add16_0; [done|apply wrapping_sub16_u16].
  - rewrite Hd. rewrite (IH fuel).
    + f_equal. unfold assembled. destruct st; cbn in *; subst. rewrite extend_from_slice_app.
      unfold set_inbound_data, set_received_data, set_ack_number. cbn.
      f_equal; [|by rewrite (assoc_L (++))]. int_lia.
    + done.
    + pose proof (size_delete_S m n d Hd). lia.
    + cbn. int_lia.
    + apply wrapping_add16_u16.
Qed.

Lemma assemble_run st : u16 (st_ack_number st) ->
  exists ds m', run (inbound_data st) (wrapping_add16 (st_ack_number st) 1) ds m' /\
    assemble (S (size (inbound_data st))) (wrapping_add16 (st_ack_number st) 1) st =
      Done (assembled st ds m').
Proof.
  intros Hu. destruct (run_exists (inbound_data st) (wrapping_add16 (st_ack_number st) 1))
    as (ds & m' & Hr). exists ds, m'. split; [done|].
  apply (assemble_run_aux _ (inbound_data st)); try done; [lia|int_lia|].
  apply wrapping_add16_u16.
Qed.

Variable clock : nat -> SystemTime.

(** A completed [poll_read] on an open mailbox: it took [popped] from the mailbox,
    moved [ds] to the received data, acknowledged, and gave the reader a chunk. *)
Record read_done (st : UtpStream) (e : Env) (buf : ReadBuf)
    (r : Poll (Result unit IoError)) (st' : UtpStream) (e' : Env) (buf' : ReadBuf)
    (popped : list Packet) (ds : list bytes) (chunk : bytes) (now : Z) : Prop := {
  rd_same_ids : connection_id_send st' = connection_id_send st /\
    remote_addr st' = remote_addr st /\ st_seq_number st' = st_seq_number st /\
    inbound_packets st' = inbound_packets st /\ is_shutdown st' = is_shutdown st;
  rd_touched : touched (inbound_packets st) popped
    [(ack_packet st' now, remote_addr st)] (env_socket e) (env_socket e');
  rd_run : run (buffer_data (st_ack_number st) (inbound_data st) popped)
    (wrapping_add16 (st_ack_number st) 1) ds (inbound_data st');
  rd_ack : st_ack_number st' =
    wrapping_add16 (st_ack_number st) (Z.of_nat (length ds));
  rd_bytes : received_data st ++ concat ds = chunk ++ received_data st';
  rd_chunk : length chunk =
    (remaining buf `min` length (received_data st ++ concat ds))%nat;
  rd_filled : filled buf' = filled buf ++ chunk;
  rd_result : r = if is_empty (received_data st ++ concat ds)
                  then Pending else Ready (Ok tt);
}.

Lemma is_empty_nil {A} (l : list A) : is_empty l = true <-> l = [].
Proof. by destruct l. Qed.

(** The last part of [poll_read]: handing received bytes to the reader. *)
Lemma deliver_chunk (l : bytes) (buf : ReadBuf) : exists chunk rest buf',
  (if (remaining buf <? length l)%nat then expect OutOfBounds (split_to (remaining buf) l)
   else Done (split_all l)) = Done (chunk, rest) /\
  l = chunk ++ rest /\ length chunk = (remaining buf `min` length l)%nat /\
  (length chunk <=? remaining buf)%nat = true /\
  put_slice chunk buf = Some buf' /\ filled buf' = filled buf ++ chunk.
Proof.
  destruct (Nat.ltb_spec (remaining buf) (length l)) as [Hlt|Hge].
  - assert (Hlen : length (take (remaining buf) l) = remaining buf)
      by (rewrite length_take; lia).
    destruct (put_slice_fits (take (remaining buf) l) buf) as (buf' & Hp & Hf & _); [lia|].
    exists (take (remaining buf) l), (drop (remaining buf) l), buf'.
    rewrite split_to_le by lia. cbn. rewrite take_drop, Hlen.
    split_and!; try done; [lia|apply Nat.leb_le; lia].
  - destruct (put_slice_fits l buf) as (buf' & Hp & Hf & _); [lia|].
    exists l, [], buf'. rewrite split_all_spec, app_nil_r.
    split_and!; try done; [lia|apply Nat.leb_le; lia].
Qed.

(** [poll_read] after its first loop, on a mailbox that is not closed. *)
Lemma poll_read_after fuel st e buf st1 e1 popped :
  processed clock st e false st1 e1 popped st1 ->
  process_packets clock fuel st e = Done (false, st1, e1) ->
  0 <= clock (clock_reads e1) -> u16 (st_ack_number st) ->
  rx_alive (outgoing_channel (env_socket e)) = true ->
  exists r st' e' buf' ds chunk now,
    poll_read clock fuel st e buf = Done (r, st', e', buf') /\
    read_done st e buf r st' e' buf' popped ds chunk now.
Proof.
  intros [Ht _ Hrecv _ _] Hproc Hc Hack Hout. unfold poll_read. rewrite Hproc. cbn [mbind Outcome_bind].
  pose proof (receive_all_same _ _ _ _ _ Hrecv) as [[Hi1 Hi2 Hi3 Hi4 Hi5 Hi6 Hi7] Hsh].
  apply receive_all_buffers in Hrecv as [Hin _].
  destruct (assemble_run st1) as (ds & m' & Hrun & ->); [congruence|]. cbn [mbind Outcome_bind].
  set (st2 := assembled st1 ds m').
  destruct (send_packet_alive clock st2 State (st_seq_number st2) (st_ack_number st2) [] [] e1 Hc)
    as [e2 Hsend]; [by rewrite (td_out_rx _ _ _ _ _ Ht)|].
  unfold send_ack. rewrite Hsend. cbn [mbind Outcome_bind].
  apply (send_packet_Done clock (inbound_packets st)) in Hsend as (now & _ & _ & Ht2).
  pose proof (touched_trans _ _ _ _ _ _ _ _ Ht Ht2) as Ht3. rewrite app_nil_r in Ht3.
  change (remote_addr st2) with (remote_addr st1) in Ht3. rewrite Hi3 in Ht3.
  change (received_data st2) with (received_data st1 ++ concat ds). rewrite Hi7.
  destruct (is_empty (received_data st ++ concat ds)) eqn:Hempty.
  - exists Pending, st2, e2, buf, ds, [], now. split; [done|].
    pose proof (proj1 (is_empty_nil _) Hempty) as Hnil.
    split; cbn; try done; try congruence.
    + by rewrite Hnil, Nat.min_0_r.
    + by rewrite app_nil_r.
    + by rewrite Hempty.
  - destruct (deliver_chunk (received_data st ++ concat ds) buf)
      as (chunk & rest & buf' & -> & Hl & Hlen & Hfit & Hput & Hfill).
    cbn [mbind Outcome_bind]. rewrite Hfit, Hput. cbn [negb expect mbind Outcome_bind].
    exists (Ready (Ok tt)), (set_received_data rest st2), e2, buf', ds, chunk, now.
    split; [done|]. split; cbn; try done; try congruence.
    + by rewrite Hempty.
Qed.

(** What every poll of an open stream needs: a clock past 1970, a mailbox whose
    sender is alive, packets of the expected types and more fuel than queued
    packets. *)
Record receivable (fuel : nat) (st : UtpStream) (e : Env) : Prop := {
  po_clock : forall i, 0 <= clock i;
  po_ack : u16 (st_ack_number st);
  po_open : exists c, mailboxes (env_socket e) !! inbound_packets st = Some c /\
    tx_alive c = true;
  po_fuel : (length (mailbox (env_socket e) (inbound_packets st)) < fuel)%nat;
  po_expected : Forall (fun p => is_expected p = true)
    (mailbox (env_socket e) (inbound_packets st));
}.

(** The sender task has not dropped the other end of the outgoing queue. *)
Record pollable (fuel : nat) (st : UtpStream) (e : Env) : Prop := {
  po_receivable : receivable fuel st e;
  po_out : rx_alive (outgoing_channel (env_socket e)) = true;
}.

Lemma process_packets_open fuel st e : receivable fuel st e ->
  exists st1 e1 popped, process_packets clock fuel st e = Done (false, st1, e1) /\
    processed clock st e false st1 e1 popped st1.
Proof.
  intros [Hc _ (c & Hbox & Htx) Hf Hp].
  destruct (process_packets_total clock fuel st e Hc (ex_intro _ c Hbox) Hf Hp)
    as [[[term st1] e1] Hr].
  destruct (process_packets_Done clock _ _ _ _ _ _ Hr) as (popped & st2 & Hpr).
  destruct term.
  - destruct (pp_closed _ _ _ _ _ _ _ _ Hpr eq_refl) as (c2 & ? & ?). congruence.
  - pose proof (pp_stream _ _ _ _ _ _ _ _ Hpr) as ->. by exists st2, e1, popped.
Qed.

Lemma poll_read_open fuel st e buf : pollable fuel st e ->
  exists r st' e' buf' popped ds chunk now,
    poll_read clock fuel st e buf = Done (r, st', e', buf') /\
    read_done st e buf r st' e' buf' popped ds chunk now.
Proof.
  intros Ho. destruct (process_packets_open _ _ _ (po_receivable _ _ _ Ho)) as (st1 & e1 & popped & Hr & Hpr).
  destruct Ho as [[]]. destruct (poll_read_after fuel st e buf st1 e1 popped)
    as (r & st' & e' & buf' & ds & chunk & now & ?); try done.
  by exists r, st', e', buf', popped, ds, chunk, now.
Qed.

(** A prompt channel hands over the whole mailbox. *)
Lemma poll_read_popped `{!PromptMpsc} fuel st e buf r st' e' buf' popped ds chunk now :
  pollable fuel st e -> poll_read clock fuel st e buf = Done (r, st', e', buf') ->
  read_done st e buf r st' e' buf' popped ds chunk now ->
  popped = mailbox (env_socket e) (inbound_packets st) /\
  mailbox (env_socket e') (inbound_packets st) = [].
Proof.
  intros Ho Hr Hd. enough (mailbox (env_socket e') (inbound_packets st) = []) as Hnil.
  { split; [|done]. rewrite (td_mailbox _ _ _ _ _ (rd_touched _ _ _ _ _ _ _ _ _ _ _ Hd)).
    by rewrite Hnil, app_nil_r. }
  destruct (process_packets_open _ _ _ (po_receivable _ _ _ Ho)) as (st1 & e1 & popped1 & Hpp & Hpr).
  pose proof (process_packets_drained clock _ _ _ _ _ Hpp) as [Hnil _].
  destruct Ho as [[]]. destruct (poll_read_after fuel st e buf st1 e1 popped1)
    as (r2 & st2 & e2 & buf2 & ds2 & chunk2 & now2 & Hr2 & Hd2); try done.
  rewrite Hr in Hr2. simplify_eq.
  pose proof (td_mailbox _ _ _ _ _ (rd_touched _ _ _ _ _ _ _ _ _ _ _ Hd2)) as Hm2.
  rewrite (td_mailbox _ _ _ _ _ (pp_touched _ _ _ _ _ _ _ _ Hpr)), Hnil in Hm2.
  rewrite app_nil_r in Hm2. symmetry. by apply (app_inv_head popped1); rewrite app_nil_r.
Qed.

(** Packets number [i] after [ack] are kept exactly when [i < 128]. *)
Lemma keeps_seq_at ack p i : u16 ack -> packet_type p = Data ->
  seq_number p = seq_at (wrapping_add16 ack 1) i -> Z.of_nat i < 2 ^ 16 - 129 ->
  keeps ack p = true <-> (i < 128)%nat.
Proof.
  intros Ha Hp Hs Hi.
  assert (Hseq : seq_number p = wrapping_add16 ack (1 + Z.of_nat i))
    by (rewrite Hs; unfold seq_at; by rewrite wrapping_add16_assoc).
  rewrite keeps_window by (rewrite ?Hseq; auto using wrapping_add16_u16). rewrite Hseq. split.
  - intros (d & Hd & Heq). int_lia.
  - intros. exists (1 + Z.of_nat i). split; [lia|done].
Qed.

(** The run through a buffer of genuine packets is the longest available prefix. *)
Lemma reassemble ack m box ds k rs m' : u16 ack ->
  genuine_buffer (wrapping_add16 ack 1) ds m ->
  Forall (genuine (wrapping_add16 ack 1) ds) box ->
  Z.of_nat (length ds) < 2 ^ 16 - 129 -> (k <= length ds)%nat ->
  (forall i, (i < k)%nat -> available m box (wrapping_add16 ack 1) i) ->
  ((k < length ds)%nat -> ~ available m box (wrapping_add16 ack 1) k) ->
  run (buffer_data ack m box) (wrapping_add16 ack 1) rs m' -> rs = take k ds.
Proof.
  intros Hu Hm Hbox Hl Hk Hall Hend Hr. set (n := wrapping_add16 ack 1) in *.
  assert (Hlook : forall i d, ds !! i = Some d ->
    buffer_data ack m box !! seq_at n i = Some d <-> available m box n i).
  { intros i d Hi. pose proof (lookup_lt_Some _ _ _ Hi).
    rewrite (buffer_data_lookup n ds) by (done || lia). unfold available. split.
    - intros [_ [?|(p & Hp & Hkeep & Hseq)]]; [by left|right].
      pose proof (keeps_Data _ _ Hkeep). split; [|by eauto].
      by apply (keeps_seq_at ack p i Hu); [..|lia|].
    - intros Hav. split; [by exists i|]. destruct Hav as [?|(Hi2 & p & Hp & Ht & Hseq)];
        [by left|right]. exists p. split_and!; [done| |done].
      by apply (keeps_seq_at ack p i Hu); [..|lia|]. }
  eapply run_lookups; [exact Hr|apply wrapping_add16_u16|rewrite length_take; lia|..].
  - intros i d [Hi Hik]%lookup_take_Some. apply Hlook; auto.
  - rewrite length_take_le by done.
    destruct (buffer_data ack m box !! seq_at n k) as [d|] eqn:Hd; [exfalso|done].
    pose proof Hd as Hd2.
    apply (buffer_data_lookup n ds) in Hd2 as [(j & Hj & Heq) _]; [|done..|lia].
    pose proof (lookup_lt_Some _ _ _ Hj). apply seq_at_inj in Heq as <-; [|lia..].
    apply (Hend ltac:(done)). by apply (Hlook k d).
Qed.



(** What [poll_read] reassembles from genuine packets. *)
Lemma poll_read_genuine `{!PromptMpsc} fuel st e buf ds k :
  pollable fuel st e ->
  genuine_buffer (wrapping_add16 (st_ack_number st) 1) ds (inbound_data st) ->
  Forall (genuine (wrapping_add16 (st_ack_number st) 1) ds)
    (mailbox (env_socket e) (inbound_packets st)) ->
  Z.of_nat (length ds) < 2 ^ 16 - 129 -> (k <= length ds)%nat ->
  (forall i, (i < k)%nat -> available (inbound_data st)
    (mailbox (env_socket e) (inbound_packets st)) (wrapping_add16 (st_ack_number st) 1) i) ->
  ((k < length ds)%nat -> ~ available (inbound_data st)
    (mailbox (env_socket e) (inbound_packets st)) (wrapping_add16 (st_ack_number st) 1) k) ->
  exists r st' e' buf' chunk now,
    poll_read clock fuel st e buf = Done (r, st', e', buf') /\
    read_done st e buf r st' e' buf' (mailbox (env_socket e) (inbound_packets st))
      (take k ds) chunk now.
Proof.
  intros Ho Hm Hbox Hl Hk Hall Hend.
  destruct (poll_read_open fuel st e buf Ho)
    as (r & st' & e' & buf' & popped & rs & chunk & now & Hr & Hd).
  destruct (poll_read_popped _ _ _ _ _ _ _ _ _ _ _ _ Ho Hr Hd) as [-> Hnil].
  assert (rs = take k ds) as ->.
  { eapply (reassemble (st_ack_number st) _ _ ds k); [|exact Hm|exact Hbox|done..|apply Hd].
    apply (po_receivable _ _ _ Ho). }
  by exists r, st', e', buf', chunk, now.
Qed.

(** A prompt channel hands over the whole mailbox to the first loop. *)
Lemma process_packets_whole `{!PromptMpsc} fuel st e : receivable fuel st e ->
  exists st1 e1, process_packets clock fuel st e = Done (false, st1, e1) /\
    receive_all clock (clock_reads e) st (mailbox (env_socket e) (inbound_packets st)) =
      Done st1.
Proof.
  intros Ho. destruct (process_packets_open _ _ _ Ho) as (st1 & e1 & popped & Hr & Hp).
  destruct (process_packets_drained clock _ _ _ _ _ Hr) as [Hnil _].
  exists st1, e1. split; [done|]. destruct Hp as [Ht _ Hrecv _ _].
  by rewrite (td_mailbox _ _ _ _ _ Ht), Hnil, app_nil_r.
Qed.

(** ** Properties *)

(** The acceptance windows of [is_suspicious]. A data packet is accepted
    exactly when its sequence number is within 128 of the stream's [ack_number],
    around the circle of 16-bit numbers; an acknowledgement exactly when it is
    for one of the packets sent, up to three before the oldest in flight. Any
    other type of packet is a panic. *)
Theorem suspicious_window st p :
  u16 (st_ack_number st) -> u16 (st_seq_number st) -> u16 (seq_number p) ->
  u16 (ack_number p) -> Z.of_nat (length (unacked_data st)) + 3 < 2 ^ 16 ->
  match packet_type p with
  | Data => is_suspicious st p = Done false <->
      exists d, -128 <= d <= 128 /\ seq_number p = wrapping_add16 (st_ack_number st) d
  | State => is_suspicious st p = Done false <->
      exists d, 1 <= d <= Z.of_nat (length (unacked_data st)) + 3 /\
        ack_number p = wrapping_sub16 (st_seq_number st) d
  | _ => is_suspicious st p = Panic Todo
  end.
Proof.
  intros Ha Hs Hps Hpa Hl. destruct (packet_type p) eqn:Hp;
    [|by unfold is_suspicious; rewrite Hp| |by unfold is_suspicious; rewrite Hp..].
  - rewrite is_suspicious_Data, <- (keeps_window _ p) by done.
    destruct (keeps _ _); cbn; split; congruence.
  - unfold is_suspicious. rewrite Hp. split.
    + intros [= [Hd1%Z.eqb_neq Hd2%Z.ltb_ge]%orb_false_iff].
      exists (wrapping_sub16 (st_seq_number st) (ack_number p)). int_lia.
    + intros (d & Hd & Heq). f_equal. apply orb_false_iff.
      split; [apply Z.eqb_neq|apply Z.ltb_ge]; rewrite Heq; int_lia.
Qed.

(** The reassembly loop of [poll_read] ends, having moved the longest run of
    consecutive packets from [ack_number + 1] on: their payloads are appended to
    the received data in order, [ack_number] is the last of them, and no packet
    with the next number is left buffered. *)
Theorem assemble_maximal st : u16 (st_ack_number st) ->
  exists ds m', assemble (S (size (inbound_data st)))
      (wrapping_add16 (st_ack_number st) 1) st = Done (assembled st ds m') /\
    (forall i d, ds !! i = Some d ->
      inbound_data st !! seq_at (wrapping_add16 (st_ack_number st) 1) i = Some d) /\
    m' !! seq_at (wrapping_add16 (st_ack_number st) 1) (length ds) = None /\
    (forall k d, m' !! k = Some d -> inbound_data st !! k = Some d).
Proof.
  intros Hu. destruct (assemble_run st Hu) as (ds & m' & Hr & Ha). exists ds, m'.
  split; [done|]. pose proof (wrapping_add16_u16 (st_ack_number st) 1) as Hn.
  split_and!.
  - intros i d Hi. by eapply run_lookup.
  - by eapply run_end.
  - intros k d Hk. by eapply run_rest.
Qed.

(** C16. [poll_read] on an open stream returns. It takes a prefix of the mailbox,
    buffers the data packets inside the window, reassembles the longest
    consecutive run after [ack_number], sends one acknowledgement, for the last
    packet of that run, and hands the reader as many of the received bytes as
    its buffer takes; no byte is lost, repeated or reordered, and [Pending] is
    returned exactly when there is no byte to hand over. *)
Theorem poll_read_correct fuel st e buf : pollable fuel st e ->
  exists r st' e' buf' popped ds chunk now,
    poll_read clock fuel st e buf = Done (r, st', e', buf') /\
    read_done st e buf r st' e' buf' popped ds chunk now.
Proof. apply poll_read_open. Qed.

(** C15. Packets may arrive in any order and any number of times: if the mailbox
    and the buffer hold packets of a sender's payloads [ds], numbered after
    [ack_number], and the first [k] are all there, within the window, but not
    the next, then [poll_read] appends exactly these [k] payloads to the
    received data, in the sender's order, and acknowledges the [k]-th. *)
Theorem poll_read_reassembles `{!PromptMpsc} fuel st e buf ds k :
  pollable fuel st e ->
  genuine_buffer (wrapping_add16 (st_ack_number st) 1) ds (inbound_data st) ->
  Forall (genuine (wrapping_add16 (st_ack_number st) 1) ds)
    (mailbox (env_socket e) (inbound_packets st)) ->
  Z.of_nat (length ds) < 2 ^ 16 - 129 -> (k <= length ds)%nat ->
  (forall i, (i < k)%nat -> available (inbound_data st)
    (mailbox (env_socket e) (inbound_packets st)) (wrapping_add16 (st_ack_number st) 1) i) ->
  ((k < length ds)%nat -> ~ available (inbound_data st)
    (mailbox (env_socket e) (inbound_packets st)) (wrapping_add16 (st_ack_number st) 1) k) ->
  exists r st' e' buf' chunk now,
    poll_read clock fuel st e buf = Done (r, st', e', buf') /\
    st_ack_number st' = wrapping_add16 (st_ack_number st) (Z.of_nat k) /\
    queued (outgoing_channel (env_socket e')) =
      queued (outgoing_channel (env_socket e)) ++ [(ack_packet st' now, remote_addr st)] /\
    filled buf' = filled buf ++ chunk /\
    received_data st ++ concat (take k ds) = chunk ++ received_data st' /\
    length chunk = (remaining buf `min` length (chunk ++ received_data st'))%nat.
Proof.
  intros Ho Hm Hbox Hl Hk Hall Hend.
  destruct (poll_read_genuine fuel st e buf ds k Ho Hm Hbox Hl Hk Hall Hend)
    as (r & st' & e' & buf' & chunk & now & Hr & [_ Ht _ Hack Hb Hc Hf _]).
  exists r, st', e', buf', chunk, now. rewrite length_take_le in Hack by done.
  split_and!; try done; [apply Ht|congruence].
Qed.


(** A duplicate of a packet that was already received is not recognised. If
    it is one of the last 128, it enters the reassembly buffer again and is still
    there when [poll_read] returns; and a stream that comes round to the number
    before it with the duplicate still buffered delivers it a second time. *)
Theorem stale_duplicate_kept `{!PromptMpsc} fuel st e buf p i :
  pollable fuel st e -> inbound_data st = ∅ ->
  mailbox (env_socket e) (inbound_packets st) = [p] -> packet_type p = Data ->
  0 <= i < 128 -> seq_number p = wrapping_sub16 (st_ack_number st) i ->
  (exists r st' e' buf',
    poll_read clock fuel st e buf = Done (r, st', e', buf') /\
    st_ack_number st' = st_ack_number st /\
    inbound_data st' = {[ seq_number p := data p ]}) /\
  (forall fuel2 st2 e2 buf2, pollable fuel2 st2 e2 ->
    inbound_data st2 = {[ seq_number p := data p ]} ->
    mailbox (env_socket e2) (inbound_packets st2) = [] ->
    st_ack_number st2 = wrapping_sub16 (seq_number p) 1 ->
    exists r st3 e3 buf3 chunk,
      poll_read clock fuel2 st2 e2 buf2 = Done (r, st3, e3, buf3) /\
      filled buf3 = filled buf2 ++ chunk /\
      received_data st2 ++ data p = chunk ++ received_data st3).
Proof.
  intros Ho Hm Hbox Hp Hi Hseq.
  pose proof (po_ack _ _ _ (po_receivable _ _ _ Ho)) as Hu.
  assert (Hs16 : u16 (seq_number p)) by (rewrite Hseq; apply wrapping_sub16_u16). split.
  - destruct (poll_read_open fuel st e buf Ho)
      as (r & st' & e' & buf' & popped & rs & chunk & now & Hr & Hd).
    destruct (poll_read_popped _ _ _ _ _ _ _ _ _ _ _ _ Ho Hr Hd) as [-> _].
    destruct Hd as [_ _ Hrun Hack _ _ _ _]. rewrite Hbox, Hm in Hrun.
    assert (keeps (st_ack_number st) p = true) as Hk.
    { apply keeps_window; [done..|]. exists (- i). split; [lia|]. rewrite Hseq. int_lia. }
    rewrite buffer_data_cons, Hk in Hrun. cbn in Hrun.
    destruct (run_det _ _ _ _ [] {[ seq_number p := data p ]} Hrun) as [-> Hin].
    { apply run_nil. apply lookup_singleton_ne. rewrite Hseq. int_lia. }
    exists r, st', e', buf'. split_and!; [done| |done].
    rewrite Hack. by apply wrapping_add16_0.
  - intros fuel2 st2 e2 buf2 Ho2 Hm2 Hbox2 Hack2.
    destruct (poll_read_open fuel2 st2 e2 buf2 Ho2)
      as (r & st3 & e3 & buf3 & popped & rs & chunk & now & Hr & Hd).
    destruct (poll_read_popped _ _ _ _ _ _ _ _ _ _ _ _ Ho2 Hr Hd) as [-> _].
    destruct Hd as [_ _ Hrun _ Hb _ Hf _]. rewrite Hbox2, Hm2, Hack2 in Hrun.
    replace (wrapping_add16 (wrapping_sub16 (seq_number p) 1) 1) with (seq_number p)
      in Hrun by int_lia.
    change (buffer_data _ ?m []) with m in Hrun.
    destruct (run_det _ _ _ _ [data p] ∅ Hrun) as [-> _].
    { apply run_cons; [apply lookup_singleton_eq|].
      rewrite delete_singleton_eq. by apply run_nil. }
    exists r, st3, e3, buf3, chunk. cbn in Hb. rewrite app_nil_r in Hb. done.
Qed.

(** If the sender task is gone, [poll_read] reports the failed
    acknowledgement; what it received is not lost: the reassembled bytes stay in
    the received data, for the next call. *)
Theorem poll_read_send_error fuel st e buf :
  receivable fuel st e -> rx_alive (outgoing_channel (env_socket e)) = false ->
  exists st' e' popped ds,
    poll_read clock fuel st e buf = Done (Ready (Err send_error), st', e', buf) /\
    touched (inbound_packets st) popped [] (env_socket e) (env_socket e') /\
    run (buffer_data (st_ack_number st) (inbound_data st) popped)
      (wrapping_add16 (st_ack_number st) 1) ds (inbound_data st') /\
    received_data st' = received_data st ++ concat ds /\
    st_ack_number st' = wrapping_add16 (st_ack_number st) (Z.of_nat (length ds)).
Proof.
  intros Ho Hout.
  destruct (process_packets_open _ _ _ Ho) as (st1 & e1 & popped & Hr & [Ht _ Hrecv _ _]).
  pose proof (receive_all_same _ _ _ _ _ Hrecv) as [[Hi1 Hi2 Hi3 Hi4 Hi5 Hi6 Hi7] _].
  apply receive_all_buffers in Hrecv as [Hin _]. destruct Ho as [Hc Hack _ _ _].
  unfold poll_read. rewrite Hr. cbn [mbind Outcome_bind].
  destruct (assemble_run st1) as (ds & m' & Hrun & ->); [congruence|]. cbn [mbind Outcome_bind].
  unfold send_ack. rewrite (send_packet_dead clock);
    [|done|by rewrite (td_out_rx _ _ _ _ _ Ht)].
  cbn [mbind Outcome_bind]. exists (assembled st1 ds m'). eexists. exists popped, ds.
  split; [done|]. cbn. split_and!; try congruence.
Qed.

(** Any packet that is not data or an acknowledgement, a [Fin] or a [Reset]
    included, makes [poll_read] panic when its turn comes. *)
Theorem poll_read_unexpected `{!PromptMpsc} fuel st e buf ps p rest :
  (forall i, 0 <= clock i) -> is_Some (mailboxes (env_socket e) !! inbound_packets st) ->
  mailbox (env_socket e) (inbound_packets st) = ps ++ p :: rest ->
  (length ps < fuel)%nat -> Forall (fun q => is_expected q = true) ps ->
  packet_type p <> Data -> packet_type p <> State ->
  poll_read clock fuel st e buf = Panic Todo.
Proof.
  intros Hc Hbox Hm Hf Hps Hd Hs. unfold poll_read.
  rewrite (process_packets_unexpected clock fuel st e ps p rest); try done.
  unfold is_expected. by destruct (packet_type p).
Qed.

(** Once the mailbox is closed, [poll_read] reports the end of the stream at
    once: it leaves the reader's buffer as it is, even when there are received
    and acknowledged bytes that were not handed over, which stay behind. *)
Theorem poll_read_eof `{!PromptMpsc} fuel st e buf :
  (forall i, 0 <= clock i) -> closed (env_socket e) (inbound_packets st) ->
  (length (mailbox (env_socket e) (inbound_packets st)) < fuel)%nat ->
  Forall (fun p => is_expected p = true) (mailbox (env_socket e) (inbound_packets st)) ->
  exists st' e', poll_read clock fuel st e buf = Done (Ready (Ok tt), st', e', buf) /\
    is_shutdown st' = true /\ received_data st' = received_data st /\
    st_ack_number st' = st_ack_number st.
Proof.
  intros Hc (c & Hbox & Htx) Hf Hp.
  destruct (process_packets_total clock fuel st e Hc (ex_intro _ c Hbox) Hf Hp)
    as [[[term st1] e1] Hr].
  destruct (process_packets_Done clock _ _ _ _ _ _ Hr) as (popped & st2 & [Ht _ Hrecv -> _]).
  apply receive_all_same in Hrecv as [[] _]. destruct term.
  - exists (set_shutdown true st2), e1. unfold poll_read. by rewrite Hr.
  - apply process_packets_drained in Hr as [_ []]; [|done].
    destruct (td_some _ _ _ _ _ Ht c Hbox) as (c' & ? & ? & _). exists c'. split; congruence.
Qed.
End read.

(** ** Witnesses *)

Lemma sample_clock_nonneg i : 0 <= sample_clock i.
Proof. unfold sample_clock. lia. Qed.

Lemma sample_receivable ps : Forall (fun p => is_expected p = true) ps ->
  receivable sample_clock (S (length ps)) sample_stream (sample_env ps).
Proof.
  intros Hp. split; [apply sample_clock_nonneg|done| |exact (Nat.lt_succ_diag_r _)|exact Hp].
  by exists (mkRefChan ps true true).
Qed.

Lemma sample_pollable ps : Forall (fun p => is_expected p = true) ps ->
  pollable sample_clock (S (length ps)) sample_stream (sample_env ps).
Proof. intros. split; [by apply sample_receivable|done]. Qed.


(** Packets 101 and 103, the second before the first and twice, but not 102. *)
Definition sample_shuffled : list Packet :=
  [data_packet 5 0 103 1 [7; 8]; data_packet 5 0 101 1 [1; 2; 3];
   data_packet 5 0 103 1 [7; 8]].

Lemma sample_shuffled_expected : Forall (fun p => is_expected p = true) sample_shuffled.
Proof. by repeat apply Forall_cons_2. Qed.

Lemma suspicious_window_witness :
  is_suspicious sample_stream (data_packet 5 0 228 1 []) = Done false.
Proof.
  apply (suspicious_window sample_stream (data_packet 5 0 228 1 [])); [done..|].
  exists 128. split; [lia|done].
Defined.

Lemma poll_read_correct_witness :
  exists r st' e' buf' popped ds chunk now,
    poll_read sample_clock 4 sample_stream (sample_env sample_shuffled) sample_buf =
      Done (r, st', e', buf') /\
    read_done sample_stream (sample_env sample_shuffled) sample_buf r st' e' buf'
      popped ds chunk now.
Proof.
  apply poll_read_correct. exact (sample_pollable _ sample_shuffled_expected).
Defined.

Lemma sample_shuffled_genuine :
  Forall (genuine 101 [[1; 2; 3]; [4]; [7; 8]]) sample_shuffled.
Proof.
  repeat apply Forall_cons_2; [intros _..|done];
    [by exists 2%nat|by exists 0%nat|by exists 2%nat].
Qed.

Lemma poll_read_reassembles_witness :
  exists r st' e' buf',
    poll_read sample_clock 4 sample_stream (sample_env sample_shuffled) sample_buf =
      Done (r, st', e', buf') /\
    st_ack_number st' = 101 /\ filled buf' ++ received_data st' = [1; 2; 3].
Proof.
  destruct (poll_read_reassembles sample_clock 4 sample_stream
    (sample_env sample_shuffled) sample_buf [[1; 2; 3]; [4]; [7; 8]] 1)
    as (r & st' & e' & buf' & chunk & now & Hr & Hack & _ & Hf & Hb & _).
  - exact (sample_pollable _ sample_shuffled_expected).
  - exact (genuine_buffer_empty _ _).
  - exact sample_shuffled_genuine.
  - done.
  - cbn. lia.
  - intros [|i] Hi; [|lia]. right. split; [lia|].
    exists (data_packet 5 0 101 1 [1; 2; 3]). split; [|done].
    apply list_elem_of_lookup. by exists 1%nat.
  - change (inbound_data sample_stream) with (∅ : gmap Z bytes).
    intros _ [[? []%lookup_empty_Some]|(_ & p & Hp & _ & Hs)].
    by repeat (apply elem_of_cons in Hp as [->|Hp]; [by cbv in Hs|]);
      apply elem_of_nil in Hp.
  - exists r, st', e', buf'. rewrite Hf. by split_and!.
Defined.


Definition sample_senderless : Env :=
  mkEnv (set_outgoing_channel (mkRefChan [] true false)
    (env_socket (sample_env sample_shuffled))) 0.

Lemma poll_read_send_error_witness :
  exists st' e' ds,
    poll_read sample_clock 4 sample_stream sample_senderless sample_buf =
      Done (Ready (Err send_error), st', e', sample_buf) /\
    received_data st' = concat ds.
Proof.
  destruct (poll_read_send_error sample_clock 4 sample_stream sample_senderless sample_buf)
    as (st' & e' & popped & ds & Hr & _ & _ & Hd & _); [|done|].
  - split; [apply sample_clock_nonneg|done| |exact (Nat.lt_succ_diag_r 3)|
      exact sample_shuffled_expected].
    by exists (mkRefChan sample_shuffled true true).
  - exists st', e', ds. by split.
Defined.

Lemma poll_read_unexpected_witness :
  poll_read sample_clock 4 sample_stream
    (sample_env [data_packet 5 0 101 1 [1]; Packet_new Fin 1 5 0 0 0 102 1 [] []])
    sample_buf = Panic Todo.
Proof.
  apply (poll_read_unexpected sample_clock 4 sample_stream _ sample_buf
    [data_packet 5 0 101 1 [1]] (Packet_new Fin 1 5 0 0 0 102 1 [] []) []);
    [apply sample_clock_nonneg|by eexists|done|cbn; lia|by repeat apply Forall_cons_2|done..].
Defined.

Lemma poll_read_eof_witness :
  exists st' e',
    poll_read sample_clock 1 (set_received_data [1; 2; 3] sample_stream)
      (mkEnv (set_mailboxes (<[0%nat := mkRefChan [] false true]> ∅) sample_socket5) 0)
      sample_buf = Done (Ready (Ok tt), st', e', sample_buf) /\
    received_data st' = [1; 2; 3].
Proof.
  destruct (poll_read_eof sample_clock 1 (set_received_data [1; 2; 3] sample_stream)
    (mkEnv (set_mailboxes (<[0%nat := mkRefChan [] false true]> ∅) sample_socket5) 0)
    sample_buf sample_clock_nonneg) as (st' & e' & Hr & _ & Hd & _);
    [by exists (mkRefChan [] false true)|exact (Nat.lt_succ_diag_r 0)|apply Forall_nil_2|].
  exists st', e'. by split.
Defined.

(** A duplicate of packet 98, when 100 is the last one received. *)
Lemma stale_duplicate_kept_witness :
  exists r st' e' buf',
    poll_read sample_clock 2 sample_stream (sample_env [data_packet 5 0 98 1 [7]]) sample_buf =
      Done (r, st', e', buf') /\ inbound_data st' = {[ 98 := [7] ]}.
Proof.
  destruct (stale_duplicate_kept sample_clock 2 sample_stream
    (sample_env [data_packet 5 0 98 1 [7]]) sample_buf (data_packet 5 0 98 1 [7]) 2)
    as [(r & st' & e' & buf' & Hr & _ & Hin) _]; [|done|done|done|lia|done|].
  - apply (sample_pollable [data_packet 5 0 98 1 [7]]). by repeat apply Forall_cons_2.
  - exists r, st', e', buf'. split; [exact Hr|exact Hin].
Defined.
