(* ===== verification/StreamWrite.v ===== *)
(** * Writing to a stream

    [AsyncWrite] and the queue of data in flight: how [poll_write] cuts a buffer
    into packets, what an acknowledgement removes, and what [poll_flush] and
    [poll_shutdown] return. *)

From S2P Require Import Prelude Crates CratesRef Errors Time Packet.
From S2P Require Import PacketWire Congestion Socket Stream StreamFacts StreamRead.

(** ** Definitions *)

(** Payloads with their sequence numbers, the first numbered [n]. *)
Definition numbered (n : Z) (ds : list bytes) : list (Z * bytes) :=
  imap (fun i d => (seq_at n i, d)) ds.

(** The queue of data in flight holds consecutive packets, the last of them just
    before the next sequence number. *)
Definition in_flight (st : UtpStream) (ds : list bytes) : Prop :=
  unacked_data st =
    numbered (wrapping_sub16 (st_seq_number st) (Z.of_nat (length ds))) ds.

(** A stream after it sent the payloads [ds]. *)
Definition written (st : UtpStream) (ds : list bytes) : UtpStream :=
  set_seq_number (seq_at (st_seq_number st) (length ds))
    (set_unacked_data (unacked_data st ++ numbered (st_seq_number st) ds) st).

(** The packets a stream sends for the payloads [ds], at times [now]. *)
Definition sends (st : UtpStream) (now : nat -> Z) (ds : list bytes)
    : list (Packet * SocketAddr) :=
  imap (fun i d =>
    (data_packet (connection_id_send st) (now i) (seq_at (st_seq_number st) i)
       (st_ack_number st) d, remote_addr st)) ds.

(** The acknowledgements in [box] do not cover the packet in flight [x]: all of
    them are for packets before it. *)
Definition uncovered (box : list Packet) (x : Z * bytes) : bool :=
  forallb (fun p => negb (bool_decide (packet_type p = State)) || (ack_number p <? x.1)) box.

#[global] Arguments numbered : simpl never.
#[global] Arguments sends : simpl never.

(** ** Helper lemmas: numbering *)

Lemma seq_at_shift n i : seq_at (wrapping_add16 n 1) i = seq_at n (S i).
Proof. unfold seq_at. rewrite wrapping_add16_assoc. f_equal. lia. Qed.

Lemma seq_at_0 n : u16 n -> seq_at n 0 = n.
Proof. apply wrapping_add16_0. Qed.

Lemma seq_at_add n i j : seq_at (seq_at n i) j = seq_at n (i + j).
Proof. unfold seq_at. rewrite wrapping_add16_assoc. f_equal. lia. Qed.

Lemma numbered_nil n : numbered n [] = [].
Proof. done. Qed.

Lemma numbered_cons n d ds : u16 n ->
  numbered n (d :: ds) = (n, d) :: numbered (wrapping_add16 n 1) ds.
Proof.
  intros Hn. unfold numbered. rewrite imap_cons, seq_at_0 by done. f_equal.
  apply imap_ext. intros i x _. cbn. by rewrite seq_at_shift.
Qed.

Lemma numbered_app n ds1 ds2 :
  numbered n (ds1 ++ ds2) = numbered n ds1 ++ numbered (seq_at n (length ds1)) ds2.
Proof.
  unfold numbered. rewrite imap_app. f_equal. apply imap_ext.
  intros i x _. cbn. by rewrite seq_at_add.
Qed.

Lemma length_numbered n ds : length (numbered n ds) = length ds.
Proof. apply length_imap. Qed.

Lemma snd_numbered n ds : (numbered n ds).*2 = ds.
Proof.
  unfold numbered. rewrite fmap_imap. rewrite <- (list_fmap_id ds) at 2.
  rewrite <- imap_const. by apply imap_ext.
Qed.

(** ** Helper lemmas: [chunks] *)

Lemma chunks_loop_lookup fuel n buf i : (0 < n)%nat -> (length buf <= fuel)%nat ->
  chunks_loop fuel n buf !! i =
    if decide (i * n < length buf)%nat then Some (take n (drop (i * n) buf)) else None.
Proof.
  intros Hn. revert buf i. induction fuel as [|fuel IH]; intros buf i Hf; cbn.
  - destruct buf; [|cbn in Hf; lia]. by rewrite decide_False by (cbn; lia).
  - destruct buf as [|b buf]; [by rewrite decide_False by (cbn; lia)|].
    destruct i as [|i]; cbn [lookup list_lookup].
    + rewrite decide_True by (cbn; lia). done.
    + rewrite IH by (rewrite length_drop; cbn in *; lia).
      rewrite drop_drop, length_drop. cbn [Nat.mul].
      repeat case_decide; try done; lia.
Qed.

Lemma chunks_lookup n buf i : (0 < n)%nat ->
  chunks n buf !! i =
    if decide (i * n < length buf)%nat then Some (take n (drop (i * n) buf)) else None.
Proof. intros. by apply chunks_loop_lookup. Qed.

Lemma chunks_loop_concat fuel n buf : (0 < n)%nat -> (length buf <= fuel)%nat ->
  concat (chunks_loop fuel n buf) = buf.
Proof.
  intros Hn. revert buf. induction fuel as [|fuel IH]; intros buf Hf; cbn.
  - by destruct buf; [|cbn in Hf; lia].
  - destruct buf as [|b buf]; [done|]. cbn [concat].
    rewrite IH by (rewrite length_drop; cbn in *; lia). apply take_drop.
Qed.

Lemma chunks_concat n buf : (0 < n)%nat -> concat (chunks n buf) = buf.
Proof. intros. by apply chunks_loop_concat. Qed.

Lemma chunks_sizes n buf : (0 < n)%nat ->
  Forall (fun c => (0 < length c <= n)%nat) (chunks n buf).
Proof.
  intros Hn. apply Forall_lookup. intros i c Hc. rewrite chunks_lookup in Hc by done.
  case_decide; simplify_eq. rewrite length_take, length_drop. lia.
Qed.

Lemma chunks_length k n buf : (0 < n)%nat -> (length buf <= k * n)%nat ->
  (length (chunks n buf) <= k)%nat.
Proof.
  intros Hn Hl. apply lookup_ge_None. rewrite chunks_lookup by done.
  by rewrite decide_False by lia.
Qed.

Section write.
Context `{By : BytesCrate, Rb : ReadBufCrate, Mp : MpscCrate, Dm : DashMapCrate}.
Variable clock : nat -> SystemTime.

(** The clock's [n]-th reading in microseconds, as [current_micros] gives it. *)
Definition micros_at (n : nat) : Z := (clock n / 1000) mod 2 ^ 32.

(** ** Helper lemmas: writing *)

Lemma send_data_alive st payload e :
  0 <= clock (clock_reads e) -> rx_alive (outgoing_channel (env_socket e)) = true ->
  exists e', send_data clock st payload e = Done (Ok tt,
      set_seq_number (wrapping_add16 (st_seq_number st) 1)
        (set_unacked_data (unacked_data st ++ [(st_seq_number st, payload)]) st), e') /\
    clock_reads e' = S (clock_reads e) /\
    touched (inbound_packets st) []
      [(data_packet (connection_id_send st) (micros_at (clock_reads e))
          (st_seq_number st) (st_ack_number st) payload, remote_addr st)]
      (env_socket e) (env_socket e').
Proof.
  intros Hc Hrx. unfold send_data.
  destruct (send_packet_alive clock st Data (st_seq_number st) (st_ack_number st) [] payload
    e Hc Hrx) as [e' Hs].
  rewrite Hs. cbn. exists e'. split; [done|].
  apply (send_packet_Done clock (inbound_packets st)) in Hs as (now & Hnow & Hr & Ht).
  split; [done|]. rewrite current_micros_eq in Hnow by done.
  injection Hnow as <-. exact Ht.
Qed.

Lemma write_chunks_alive cs n st e : (forall i, 0 <= clock i) ->
  rx_alive (outgoing_channel (env_socket e)) = true -> u16 (st_seq_number st) ->
  exists e', write_chunks clock cs n st e =
      Done (Ready (Ok (n + length (concat cs))%nat), written st cs, e') /\
    clock_reads e' = (clock_reads e + length cs)%nat /\
    touched (inbound_packets st) []
      (sends st (fun i => micros_at (clock_reads e + i)) cs) (env_socket e) (env_socket e').
Proof.
  intros Hc. revert n st e. induction cs as [|c cs IH]; intros n st e Hrx Hu.
  - exists e. cbn. split_and!; [|lia|apply touched_refl]. unfold written. cbn.
    rewrite Nat.add_0_r, app_nil_r, seq_at_0 by done. by destruct st.
  - cbn [write_chunks].
    destruct (send_data_alive st c e (Hc _) Hrx) as (e1 & -> & Hr & Ht). cbn.
    destruct (IH (n + length c)%nat (set_seq_number (wrapping_add16 (st_seq_number st) 1)
      (set_unacked_data (unacked_data st ++ [(st_seq_number st, c)]) st)) e1)
      as (e2 & -> & Hr2 & Ht2);
      [by rewrite (td_out_rx _ _ _ _ _ Ht)|apply wrapping_add16_u16|].
    exists e2. split_and!.
    + rewrite length_app, Nat.add_assoc. unfold written. cbn.
      by rewrite seq_at_shift, numbered_cons, <- (assoc_L (++)) by done.
    + rewrite Hr2, Hr. cbn. lia.
    + pose proof (touched_trans _ _ _ _ _ _ _ _ Ht Ht2) as Ht3.
      unfold sends in *. rewrite imap_cons. cbn in Ht3.
      rewrite seq_at_0, Nat.add_0_r by done.
      erewrite imap_ext; [exact Ht3|]. intros i x _. cbn.
      by rewrite seq_at_shift, Hr, Nat.add_succ_r.
Qed.

Lemma write_chunks_dead c cs n st e : (forall i, 0 <= clock i) ->
  rx_alive (outgoing_channel (env_socket e)) = false ->
  write_chunks clock (c :: cs) n st e =
    Done (Ready (Err send_error), st, mkEnv (env_socket e) (S (clock_reads e))).
Proof.
  intros Hc Hrx. cbn. unfold send_data. by rewrite send_packet_dead.
Qed.

(** ** Helper lemmas: acknowledgements *)

Lemma numbered_drop n ds k :
  drop k (numbered n ds) = numbered (seq_at n k) (drop k ds).
Proof.
  destruct (decide (k <= length ds)%nat) as [Hk|Hk].
  - rewrite <- (take_drop k ds) at 1. rewrite numbered_app, length_take_le by done.
    rewrite drop_app_length'; [done|]. rewrite length_numbered, length_take. lia.
  - rewrite !drop_ge; [done|lia|rewrite length_numbered; lia].
Qed.

(** As long as the numbers do not wrap around, an acknowledgement removes the
    packets up to its number. *)
Lemma pop_acked_no_wrap n ds a : 0 <= n -> n + Z.of_nat (length ds) <= 2 ^ 16 ->
  pop_acked a (numbered n ds) = drop (Z.to_nat (a + 1 - n)) (numbered n ds).
Proof.
  revert n. induction ds as [|d ds IH]; intros n Hn Hl; [by destruct (Z.to_nat _)|].
  cbn [length] in Hl. rewrite numbered_cons by int_lia. cbn [pop_acked].
  destruct (Z.leb_spec n a) as [Hle|Hgt].
  - replace (Z.to_nat (a + 1 - n)) with (S (Z.to_nat (a + 1 - (n + 1)))) by lia.
    cbn [drop]. destruct ds as [|d2 ds]; [by rewrite numbered_nil; destruct (Z.to_nat _)|].
    cbn [length] in Hl, IH.
    replace (wrapping_add16 n 1) with (n + 1) by int_lia. apply IH; lia.
  - by replace (Z.to_nat (a + 1 - n)) with 0%nat by lia.
Qed.

Lemma pop_acked_all a l : Forall (fun x => x.1 <= a) l -> pop_acked a l = [].
Proof.
  induction 1 as [|[m d] l Hm _ IH]; [done|]. cbn in *. by rewrite (proj2 (Z.leb_le _ _) Hm).
Qed.

Lemma filter_all {A} (f : A -> bool) (l : list A) : Forall (fun x => f x = true) l -> filter f l = l.
Proof.
  induction 1 as [|x l Hx _ IH]; [done|]. rewrite filter_cons, IH, decide_True; [done|].
  by apply Is_true_true.
Qed.

Lemma filter_filter_bool {A} (f g h : A -> bool) (l : list A) : (forall x, f x && g x = h x) ->
  filter f (filter g l) = filter h l.
Proof.
  intros Hh. induction l as [|x l IH]; [done|].
  rewrite (filter_cons g), (filter_cons h), <- Hh, <- IH.
  destruct (g x) eqn:Hg; [|by rewrite andb_false_r].
  rewrite (decide_True (P := Is_true true)), filter_cons, andb_true_r by done. done.
Qed.

(** A queue of data in flight whose last packet comes before [top], without
    wrapping around. *)
Definition flight_to (top : Z) (l : list (Z * bytes)) : Prop :=
  exists n ds, l = numbered n ds /\ 0 <= n /\ n + Z.of_nat (length ds) = top /\
    top <= 2 ^ 16 /\ Z.of_nat (length ds) < 2 ^ 16.

(** The same, as a selection: what stays is numbered after the acknowledgement. *)
Lemma pop_acked_filter n ds a : 0 <= n -> n + Z.of_nat (length ds) <= 2 ^ 16 ->
  pop_acked a (numbered n ds) = filter (fun x => a <? x.1) (numbered n ds).
Proof.
  revert n. induction ds as [|d ds IH]; intros n Hn Hl; [done|]. cbn [length] in Hl.
  rewrite numbered_cons by int_lia. cbn [pop_acked]. rewrite filter_cons. cbn [fst].
  destruct (Z.leb_spec n a) as [Hle|Hgt].
  - rewrite (proj2 (Z.ltb_ge a n)) by lia. cbn [Is_true decide].
    destruct ds as [|d2 ds]; [done|]. cbn [length] in Hl, IH.
    replace (wrapping_add16 n 1) with (n + 1) by int_lia.
    rewrite IH by lia. by destruct (decide (Is_true false)).
  - rewrite (proj2 (Z.ltb_lt a n)) by lia. rewrite decide_True by done. f_equal.
    symmetry. apply filter_all. apply Forall_lookup. intros i x Hx.
    unfold numbered in Hx. rewrite list_lookup_imap in Hx.
    apply fmap_Some in Hx as (c & Hc & ->). pose proof (lookup_lt_Some _ _ _ Hc).
    apply Z.ltb_lt. cbn. unfold seq_at. int_lia.
Qed.

Lemma flight_to_pop top l a : flight_to top l -> a < top ->
  pop_acked a l = filter (fun x => a <? x.1) l /\ flight_to top (pop_acked a l).
Proof.
  intros (n & ds & -> & Hn & Ht & Hle & Hlt) Ha. split; [apply pop_acked_filter; lia|].
  rewrite pop_acked_no_wrap, numbered_drop by lia.
  destruct (decide (a < n)) as [Han|Hge].
  - exists n, ds. replace (Z.to_nat (a + 1 - n)) with 0%nat by lia. split_and!; try done.
    destruct ds as [|d ds]; [done|]. cbn [length] in *. rewrite drop_0, seq_at_0; [done|int_lia].
  - exists (a + 1), (drop (Z.to_nat (a + 1 - n)) ds). rewrite length_drop.
    split_and!; [|lia..]. destruct (decide (a + 1 = top)) as [->|Hne].
    + by rewrite drop_ge by lia.
    + f_equal. unfold seq_at. int_lia.
Qed.

(** One packet of the mailbox, and then all of it. *)
Lemma receive_packet_flight n st p st' top :
  receive_packet clock n st p = Done st' -> flight_to top (unacked_data st) ->
  st_seq_number st = top mod 2 ^ 16 -> (packet_type p = State -> ack_number p < top) ->
  unacked_data st' = filter (uncovered [p]) (unacked_data st) /\
  flight_to top (unacked_data st') /\ st_seq_number st' = top mod 2 ^ 16.
Proof.
  intros Hr Hf Hseq Ha. pose proof (receive_packet_same _ _ _ _ _ Hr) as [[] _].
  unfold receive_packet in Hr.
  apply bind_Done in Hr as (t & _ & (susp & Hsusp & Hr)%bind_Done).
  destruct (decide (packet_type p = State)) as [Hp|Hp].
  - destruct (flight_to_pop top _ (ack_number p) Hf (Ha Hp)) as [Hpop Hft].
    assert (Hsel : filter (uncovered [p]) (unacked_data st) =
      pop_acked (ack_number p) (unacked_data st)).
    { rewrite Hpop. apply list_filter_iff. intros x. unfold uncovered. cbn.
      rewrite bool_decide_eq_true_2, andb_true_r by done. done. }
    rewrite Hsel. enough (unacked_data st' = pop_acked (ack_number p) (unacked_data st))
      as -> by (split_and!; [done..|congruence]).
    destruct susp; [|unfold handle_packet in Hr; rewrite Hp in Hr; by outcome_inv].
    outcome_inv. unfold is_suspicious in Hsusp. rewrite Hp in Hsusp. outcome_inv.
    destruct Hf as (m & ds & Hq & Hm & Ht & Hle & Hlt). rewrite Hq in *.
    rewrite pop_acked_no_wrap by lia. rewrite length_numbered in *.
    replace (Z.to_nat (ack_number p + 1 - m)) with 0%nat; [done|].
    specialize (Ha Hp). destruct (Z.lt_ge_cases (ack_number p) m); [lia|]. exfalso.
    assert (wrapping_sub16 (st_seq_number st') (ack_number p) = top - ack_number p) as Hd
      by (rewrite Hseq; clear H Hsel Hft Hpop; int_lia).
    rewrite Hd in H. apply orb_prop in H as [H%Z.eqb_eq|H%Z.ltb_lt]; lia.
  - assert (unacked_data st' = unacked_data st) as ->.
    { destruct susp; [by outcome_inv|]. unfold handle_packet in Hr.
      destruct (packet_type p); by outcome_inv. }
    split_and!; [|done|congruence]. symmetry. apply filter_all, Forall_true.
    intros x. unfold uncovered. cbn. by rewrite bool_decide_eq_false_2.
Qed.

Lemma receive_all_flight n st box st' top :
  receive_all clock n st box = Done st' -> flight_to top (unacked_data st) ->
  st_seq_number st = top mod 2 ^ 16 ->
  Forall (fun p => packet_type p = State -> ack_number p < top) box ->
  unacked_data st' = filter (uncovered box) (unacked_data st).
Proof.
  intros Hr Hf Hseq Hbox. revert n st Hr Hf Hseq.
  induction Hbox as [|p box Hp _ IH]; intros n st; cbn [receive_all].
  - intros. outcome_inv. symmetry. by apply filter_all, Forall_true.
  - intros (st1 & Hr & Hrest)%bind_Done Hf Hseq.
    destruct (receive_packet_flight _ _ _ _ _ Hr Hf Hseq Hp) as (Hu & Hf1 & Hseq1).
    rewrite (IH _ _ Hrest Hf1 Hseq1), Hu. apply filter_filter_bool.
    intros x. unfold uncovered. cbn. by rewrite andb_true_r, andb_comm.
Qed.

Lemma numbered_u16 n ds : Forall (fun x => u16 x.1) (numbered n ds).
Proof.
  apply Forall_lookup. intros i x Hx. unfold numbered in Hx. rewrite list_lookup_imap in Hx.
  apply fmap_Some in Hx as (d & _ & ->). apply seq_at_u16.
Qed.

(** ** Properties *)

(** C17. On a stream whose sender task is alive, [poll_write] takes the whole
    buffer: it cuts it into packets of 1452 bytes, the last one possibly shorter
    and none empty, sends them with consecutive sequence numbers from
    [seq_number] on, queues them as in flight under the same numbers, and
    reports the length of the buffer. *)
Theorem poll_write_segments st e buf : (forall i, 0 <= clock i) ->
  rx_alive (outgoing_channel (env_socket e)) = true -> u16 (st_seq_number st) ->
  is_shutdown st = false ->
  exists cs e', poll_write clock st e buf =
      Done (Ready (Ok (length buf)), written st cs, e') /\
    concat cs = buf /\
    (forall i, cs !! i = if decide (i * 1452 < length buf)%nat
                         then Some (take 1452 (drop (i * 1452) buf)) else None) /\
    Forall (fun c => (0 < length c <= 1452)%nat) cs /\
    touched (inbound_packets st) []
      (sends st (fun i => micros_at (clock_reads e + i)) cs) (env_socket e) (env_socket e').
Proof.
  intros Hc Hrx Hu Hsh. unfold poll_write. rewrite Hsh.
  assert (Hpos : (0 < MAX_DATA_SEGMENT_SIZE)%nat) by (cbv; lia).
  exists (chunks MAX_DATA_SEGMENT_SIZE buf).
  destruct (write_chunks_alive (chunks MAX_DATA_SEGMENT_SIZE buf) 0 st e Hc Hrx Hu)
    as (e' & Hw & _ & Ht).
  exists e'. rewrite Hw, chunks_concat by done. split_and!; try done.
  - intros i. by apply chunks_lookup.
  - by apply chunks_sizes.
Qed.

(** A write that is not accepted sends nothing: after a shutdown
    [poll_write] reports 0 bytes, and with the sender task gone it reports the
    error of the first packet; in both cases the stream and the queue of
    outgoing packets are as before. *)
Theorem poll_write_refused st e buf : (forall i, 0 <= clock i) -> buf <> [] ->
  rx_alive (outgoing_channel (env_socket e)) = false \/ is_shutdown st = true ->
  exists r e', poll_write clock st e buf = Done (Ready r, st, e') /\
    r = (if is_shutdown st then Ok 0%nat else Err send_error) /\
    env_socket e' = env_socket e.
Proof.
  intros Hc Hbuf Hor. unfold poll_write. destruct (is_shutdown st); [by eauto|].
  destruct Hor as [Hrx|?]; [|done].
  destruct (chunks MAX_DATA_SEGMENT_SIZE buf) as [|c cs] eqn:Hcs.
  - pose proof (chunks_concat MAX_DATA_SEGMENT_SIZE buf) as Hcat. rewrite Hcs in Hcat.
    destruct Hbuf. symmetry. apply Hcat. cbv. lia.
  - rewrite write_chunks_dead by done. by eexists _, _.
Qed.

(** A well-formed packet without extensions and with a payload that [poll_write]
    cuts fits one datagram of 1472 bytes, and the peer decodes that datagram to
    the same packet. *)
Lemma data_datagram p : wf_Packet p -> extensions p = [] ->
  (length (data p) <= MAX_DATA_SEGMENT_SIZE)%nat ->
  exists dgram, bytes_from_packet p = Done dgram /\
    (length dgram <= MAX_DATAGRAM_SIZE)%nat /\ Packet_try_from dgram = Done (Ok p).
Proof.
  intros Hwf Hext Hlen. eexists. split; [by apply bytes_from_packet_wf|].
  split; [|by apply Packet_try_from_wire]. rewrite <- packet_length_wire.
  unfold packet_length. rewrite Hext. cbn.
  unfold MAX_DATA_SEGMENT_SIZE, MAX_DATAGRAM_SIZE, PACKET_HEADER_LEN in *. lia.
Qed.

(** An acknowledgement removes exactly the packets it covers from the queue
    of data in flight, as long as the sequence numbers in the queue do not wrap
    around. *)
Theorem ack_removes_acked st n ds p : packet_type p = State ->
  unacked_data st = numbered n ds -> 0 <= n -> n + Z.of_nat (length ds) <= 2 ^ 16 ->
  n - 1 <= ack_number p < n + Z.of_nat (length ds) ->
  exists st', handle_packet st p = Done st' /\
    unacked_data st' = numbered (wrapping_add16 (ack_number p) 1)
                         (drop (Z.to_nat (ack_number p + 1 - n)) ds) /\
    same_stream st st'.
Proof.
  intros Hp Hq Hn Hl Ha. unfold handle_packet. rewrite Hp. eexists. split; [done|].
  split; [|done]. cbn. rewrite Hq, pop_acked_no_wrap, numbered_drop by done.
  f_equal. unfold seq_at. int_lia.
Qed.

(** C35. When the numbers in the queue wrap around past 65535, the comparison of
    [handle_packet] is wrong on both sides: an acknowledgement of 65535 empties
    the queue, the packets numbered from 0 on included, and an acknowledgement
    of one of the latter removes nothing. *)
Theorem ack_across_wrap st n ds p : packet_type p = State ->
  unacked_data st = numbered n ds -> u16 n -> 2 ^ 16 < n + Z.of_nat (length ds) ->
  exists st', handle_packet st p = Done st' /\
    (ack_number p = 65535 -> unacked_data st' = []) /\
    (ack_number p < n -> unacked_data st' = unacked_data st).
Proof.
  intros Hp Hq Hn Hl. unfold handle_packet. rewrite Hp. eexists. split; [done|]. cbn.
  rewrite Hq. split.
  - intros ->. apply pop_acked_all. eapply Forall_impl; [apply numbered_u16|].
    intros [m d]. cbn. int_lia.
  - intros Ha. destruct ds as [|d ds]; [cbn in Hl; int_lia|].
    rewrite numbered_cons by done. cbn. by rewrite (proj2 (Z.leb_gt _ _) Ha).
Qed.

(** C27. [poll_flush] on an open stream ([receivable]: its mailbox is not closed
    and holds data and acknowledgements only, with fuel for them, and the clock is
    past 1970), with channels that answer promptly, takes the whole mailbox, and
    nothing else changes in the socket: nothing is sent. Each packet acts on the
    stream in turn, so that data is buffered and the identity of the stream, its
    numbers and its received bytes stay; the data in flight loses packets at its
    front only. When the packets in flight, fewer than 65536, are numbered
    consecutively up to the next sequence number, as they are in every reachable
    stream, their numbers do not wrap around and no acknowledgement is for a
    packet not yet sent, it loses exactly the packets that some acknowledgement
    in the mailbox covers. The poll is ready exactly when nothing is left in
    flight, otherwise pending, except after a shutdown, where it panics. *)
Theorem poll_flush_correct `{!PromptMpsc} fuel st e :
  let box := mailbox (env_socket e) (inbound_packets st) in
  receivable clock fuel st e ->
  exists st' e',
    poll_flush clock fuel st e =
      (if is_empty (unacked_data st') then Done (Ready (Ok tt), st', e')
       else if is_shutdown st then Panic Todo else Done (Pending, st', e')) /\
    touched (inbound_packets st) box [] (env_socket e) (env_socket e') /\
    mailbox (env_socket e') (inbound_packets st) = [] /\
    receive_all clock (clock_reads e) st box = Done st' /\
    same_stream st st' /\ is_shutdown st' = is_shutdown st /\
    inbound_data st' = buffer_data (st_ack_number st) (inbound_data st) box /\
    unacked_data st' `suffix_of` unacked_data st /\
    forall n ds, unacked_data st = numbered n ds -> 0 <= n ->
      n + Z.of_nat (length ds) <= 2 ^ 16 -> Z.of_nat (length ds) < 2 ^ 16 ->
      st_seq_number st = (n + Z.of_nat (length ds)) mod 2 ^ 16 ->
      Forall (fun p => packet_type p = State -> ack_number p < n + Z.of_nat (length ds)) box ->
      unacked_data st' = filter (uncovered box) (unacked_data st).
Proof.
  intros box Ho. destruct (process_packets_open clock _ _ _ Ho)
    as (st1 & e1 & popped & Hr & [Ht _ Hrecv _ _]).
  destruct (process_packets_drained clock _ _ _ _ _ Hr) as [Hnil _].
  assert (popped = box) as ->.
  { unfold box. by rewrite (td_mailbox _ _ _ _ _ Ht), Hnil, app_nil_r. }
  destruct (receive_all_same _ _ _ _ _ Hrecv) as [Hsame Hsh].
  destruct (receive_all_buffers _ _ _ _ _ Hrecv) as [Hin Hacked].
  exists st1, e1. split_and!; try done.
  - unfold poll_flush. rewrite Hr. cbn. by rewrite Hsh.
  - intros n ds Hq Hn Hl Hlt Hseq Hbox.
    eapply receive_all_flight; [exact Hrecv| |exact Hseq|exact Hbox]. by exists n, ds; split_and!.
Qed.

(** [poll_shutdown] never returns: whatever the stream and its mailbox hold,
    its last statement is a [todo!()]. On an open stream, with fuel for the
    mailbox, that is the panic it ends with. *)
Theorem poll_shutdown_panics fuel st e :
  (forall r, poll_shutdown clock fuel st e <> Done r) /\
  (receivable clock fuel st e -> poll_shutdown clock fuel st e = Panic Todo).
Proof.
  unfold poll_shutdown, poll_flush. split.
  - intros r ([[r2 st2] e2] & ([[term st1] e1] & Hp & Hf)%bind_Done & Hr)%bind_Done.
    apply process_packets_Done in Hp as (popped & st3 & [_ _ Hrecv Hst _]).
    apply receive_all_same in Hrecv as [_ Hsh]. cbn in Hsh.
    assert (is_shutdown st1 = true) as Hsd by (destruct term; subst; done).
    destruct (is_empty (unacked_data st1)); [by outcome_inv|]. by rewrite Hsd in Hf.
  - intros Ho. assert (Ho' : receivable clock fuel (set_shutdown true st) e)
      by (by destruct Ho).
    destruct (process_packets_open clock _ _ _ Ho') as (st1 & e1 & popped & -> & Hp).
    destruct Hp as [_ _ [_ Hsh]%receive_all_same _ _]. cbn in Hsh. cbn. rewrite Hsh.
    by destruct (is_empty (unacked_data st1)).
Qed.

(** C37. Unfinished code panics the task that runs it: a packet that is neither data
    nor an acknowledgement, a [Fin] or a [Reset] included, makes [poll_read] panic
    when its turn comes, whatever came before; and [poll_shutdown] never returns,
    whatever the stream and its mailbox hold: on an open stream it ends in a
    [todo!()]. *)
Theorem unfinished_panics `{!PromptMpsc} fuel st e :
  (forall i, 0 <= clock i) -> is_Some (mailboxes (env_socket e) !! inbound_packets st) ->
  (forall buf ps p rest,
    mailbox (env_socket e) (inbound_packets st) = ps ++ p :: rest ->
    (length ps < fuel)%nat -> Forall (fun q => is_expected q = true) ps ->
    packet_type p <> Data -> packet_type p <> State ->
    poll_read clock fuel st e buf = Panic Todo) /\
  (forall r, poll_shutdown clock fuel st e <> Done r) /\
  (receivable clock fuel st e -> poll_shutdown clock fuel st e = Panic Todo).
Proof.
  intros Hc Hbox. split; [|apply poll_shutdown_panics].
  intros buf ps p rest. by apply poll_read_unexpected.
Qed.
End write.

(** ** Witnesses *)

(** A stream with packets 65534, 65535 and 0 in flight. *)
Definition sample_wrapping : UtpStream :=
  UtpStream_new 5 6 sample_peer 0%nat 1 100 ∅ [] (numbered 65534 [[1]; [2]; [3]]).

(** An acknowledgement of packet [n], as a stream's peer sends it. *)
Definition sample_ack (n : Z) : Packet := Packet_new State 1 5 0 0 0 101 n [] [].

Lemma poll_write_segments_witness :
  exists cs e', poll_write sample_clock sample_stream (sample_env []) (replicate 2000 7) =
      Done (Ready (Ok (length (replicate 2000 7))), written sample_stream cs, e') /\
    concat cs = replicate 2000 7.
Proof.
  destruct (poll_write_segments sample_clock sample_stream (sample_env [])
    (replicate 2000 7) sample_clock_nonneg) as (cs & e' & Hw & Hc & _); [done..|].
  exists cs, e'. by split.
Defined.

Lemma poll_write_refused_witness :
  exists r e', poll_write sample_clock sample_stream sample_senderless [1; 2] =
      Done (Ready r, sample_stream, e') /\ r = Err send_error.
Proof.
  destruct (poll_write_refused sample_clock sample_stream sample_senderless [1; 2]
    sample_clock_nonneg) as (r & e' & Hw & Hr & _); [done|by left|].
  exists r, e'. by split.
Defined.

Lemma ack_removes_acked_witness :
  exists st', handle_packet
      (set_unacked_data (numbered 10 [[1]; [2]; [3]]) sample_stream) (sample_ack 11) = Done st' /\
    unacked_data st' = numbered 12 [[3]].
Proof.
  destruct (ack_removes_acked
    (set_unacked_data (numbered 10 [[1]; [2]; [3]]) sample_stream) 10 [[1]; [2]; [3]]
    (sample_ack 11)) as (st' & H1 & H2 & _);
    [done|done|lia|cbn; lia|cbn; lia|]. exists st'. by split.
Defined.

Lemma ack_across_wrap_witness :
  exists st', handle_packet sample_wrapping (sample_ack 65535) = Done st' /\
    is_suspicious sample_wrapping (sample_ack 65535) = Done false /\
    unacked_data st' = [].
Proof.
  destruct (ack_across_wrap sample_wrapping 65534 [[1]; [2]; [3]] (sample_ack 65535))
    as (st' & H1 & H2 & _); [done|done|done|cbn; lia|].
  exists st'. split_and!; [done|done|by apply H2].
Defined.

(** A stream with packets 10, 11 and 12 in flight, and a mailbox with a data
    packet and the acknowledgements of 9 and of 11. *)
Definition sample_flushing : UtpStream :=
  UtpStream_new 5 6 sample_peer 0%nat 13 100 ∅ [] (numbered 10 [[1]; [2]; [3]]).
Definition sample_acks : list Packet :=
  [sample_ack 9; data_packet 5 0 101 9 [8]; sample_ack 11].

Lemma poll_flush_correct_witness :
  exists st' e',
    poll_flush sample_clock 4 sample_flushing (sample_env sample_acks) =
      Done (Pending, st', e') /\
    mailbox (env_socket e') 0%nat = [] /\ unacked_data st' = [(12, [3])] /\
    inbound_data st' = {[101 := [8]]}.
Proof.
  destruct (poll_flush_correct sample_clock 4 sample_flushing (sample_env sample_acks))
    as (st' & e' & Hf & _ & Hm & _ & _ & _ & Hin & _ & Hq).
  - split; [apply sample_clock_nonneg|done| |exact (Nat.lt_succ_diag_r _)|by repeat apply Forall_cons_2].
    by exists (mkRefChan sample_acks true true).
  - specialize (Hq 10 [[1]; [2]; [3]] eq_refl).
    assert (Hun : unacked_data st' = [(12, [3])]).
    { rewrite Hq; [done|lia|cbn; lia|cbn; lia|done|]. repeat apply Forall_cons_2; try apply Forall_nil_2;
        cbn; lia || done. }
    exists st', e'. rewrite Hun in Hf. split_and!; [exact Hf|exact Hm|exact Hun|].
    rewrite Hin. by vm_compute.
Defined.

Lemma poll_shutdown_panics_witness :
  poll_shutdown sample_clock 1 sample_stream (sample_env []) = Panic Todo.
Proof.
  apply poll_shutdown_panics. exact (sample_receivable [] (Forall_nil_2 _)).
Defined.

Definition sample_fin : Packet := Packet_new Fin 1 5 0 0 0 102 1 [] [].

Lemma unfinished_panics_witness :
  poll_read sample_clock 4 sample_stream (sample_env [data_packet 5 0 101 1 [1]; sample_fin])
    sample_buf = Panic Todo /\
  poll_shutdown sample_clock 1 sample_stream (sample_env []) = Panic Todo.
Proof.
  split.
  - destruct (unfinished_panics sample_clock 4 sample_stream
      (sample_env [data_packet 5 0 101 1 [1]; sample_fin]) sample_clock_nonneg
      (mk_is_Some _ _ eq_refl)) as [Hread _].
    apply (Hread sample_buf [data_packet 5 0 101 1 [1]] sample_fin []);
      [done|cbn; lia|by repeat apply Forall_cons_2|done..].
  - destruct (unfinished_panics sample_clock 1 sample_stream (sample_env []) sample_clock_nonneg
      (mk_is_Some _ _ eq_refl)) as (_ & _ & Hshut).
    apply Hshut. exact (sample_receivable [] (Forall_nil_2 _)).
Defined.
