(* ===== verification/StreamInvariant.v ===== *)
(** * An invariant of streams

    The states a stream reaches through its polls, as a step relation, and the
    invariant they keep whatever the socket, the clock and the peer do between
    two polls. *)

From S2P Require Import Prelude Crates CratesRef Errors Time Packet.
From S2P Require Import PacketWire Congestion Socket Stream StreamFacts StreamRead.
From S2P Require Import StreamWrite.

(** ** Definitions *)

(** Packets as the receiver task delivers them: parsed from a datagram. *)
Definition wire_packet (p : Packet) : Prop :=
  u16 (seq_number p) /\ u16 (ack_number p) /\
  u32 (timestamp_delta_micros p) /\ u32 (window_size p).

Record wf_stream (st : UtpStream) : Prop := {
  ws_seq : u16 (st_seq_number st);
  ws_ack : u16 (st_ack_number st);
  ws_inbound : forall k d, inbound_data st !! k = Some d -> u16 k;
  ws_congestion : wf_CongestionController (congestion_controller st);
  ws_in_flight : exists ds, in_flight st ds /\
    Forall (fun d => (0 < length d <= MAX_DATA_SEGMENT_SIZE)%nat) ds;
}.

Section invariant.
Context `{By : BytesCrate, Rb : ReadBufCrate, Mp : MpscCrate, Dm : DashMapCrate}.
Variable clock : nat -> SystemTime.

(** A poll of the stream that returns. The environment of the next poll is any
    other: the tasks and the other streams have run in between. *)
Inductive poll_step (st st' : UtpStream) : Prop :=
  | step_read fuel e buf r e' buf' :
      Forall wire_packet (mailbox (env_socket e) (inbound_packets st)) ->
      poll_read clock fuel st e buf = Done (r, st', e', buf') -> poll_step st st'
  | step_write e buf r e' :
      poll_write clock st e buf = Done (r, st', e') -> poll_step st st'
  | step_flush fuel e r e' :
      Forall wire_packet (mailbox (env_socket e) (inbound_packets st)) ->
      poll_flush clock fuel st e = Done (r, st', e') -> poll_step st st'.

(** ** Helper lemmas *)

Lemma in_flight_drop st st' ds acked :
  in_flight st ds -> unacked_data st = acked ++ unacked_data st' ->
  st_seq_number st' = st_seq_number st -> u16 (st_seq_number st) ->
  in_flight st' (drop (length acked) ds).
Proof.
  unfold in_flight. intros Hf Hu Hs H16. rewrite Hs, length_drop.
  assert (unacked_data st' = drop (length acked) (unacked_data st)) as ->
    by (by rewrite Hu, drop_app_length).
  assert (length acked <= length ds)%nat.
  { rewrite <- (length_numbered (wrapping_sub16 (st_seq_number st) (Z.of_nat (length ds))) ds).
    rewrite <- Hf, Hu, length_app. lia. }
  rewrite Hf, numbered_drop. f_equal. unfold seq_at. int_lia.
Qed.

Lemma in_flight_written st ds cs : u16 (st_seq_number st) ->
  in_flight st ds -> in_flight (written st cs) (ds ++ cs).
Proof.
  unfold in_flight. intros Hu Hf. cbn. rewrite Hf, numbered_app.
  f_equal; f_equal; rewrite ?length_app; unfold seq_at; int_lia.
Qed.

(** Receiving keeps the invariant. *)
Lemma receive_packet_wf n st p st' : receive_packet clock n st p = Done st' ->
  wire_packet p -> wf_stream st -> wf_stream st'.
Proof.
  intros Hr (Hs & Ha & Hd & Hw) [Hseq Hack Hin Hc (ds & Hf & Hds)].
  pose proof (receive_packet_same _ _ _ _ _ Hr) as [[_ _ _ _ Hseq' Hack' _] _].
  pose proof (receive_packet_buffers _ _ _ _ _ Hr) as [Hin' [acked Hu]].
  split; rewrite ?Hseq', ?Hack'; try done.
  - intros k d. rewrite Hin'. destruct (keeps _ _); [|by apply Hin].
    intros [[<- _]|[_ ?]]%lookup_insert_Some; [done|by eapply Hin].
  - unfold receive_packet in Hr. apply bind_Done in Hr as (t & Ht & (susp & _ & Hr)%bind_Done).
    destruct susp; [by outcome_inv|].
    assert (congestion_controller st' = update_state (congestion_controller st) t p) as ->.
    { unfold handle_packet in Hr. by destruct (packet_type p); outcome_inv. }
    by apply update_state_wf.
  - exists (drop (length acked) ds). split; [by eapply in_flight_drop|by apply Forall_drop].
Qed.

Lemma receive_all_wf n st ps st' : receive_all clock n st ps = Done st' ->
  Forall wire_packet ps -> wf_stream st -> wf_stream st'.
Proof.
  intros Hr Hps. revert n st Hr. induction Hps as [|p ps Hp _ IH]; intros n st; cbn.
  - intros. by outcome_inv.
  - intros (st1 & Hp1 & Hr)%bind_Done Hst. eapply IH; [done|]. by eapply receive_packet_wf.
Qed.

Lemma set_shutdown_wf b st : wf_stream st -> wf_stream (set_shutdown b st).
Proof. by intros [? ? ? ? ?]. Qed.

Lemma set_received_wf b st : wf_stream st -> wf_stream (set_received_data b st).
Proof. by intros [? ? ? ? ?]. Qed.

Lemma process_packets_wf fuel st e term st' e' :
  process_packets clock fuel st e = Done (term, st', e') ->
  Forall wire_packet (mailbox (env_socket e) (inbound_packets st)) ->
  wf_stream st -> wf_stream st'.
Proof.
  intros (popped & st1 & [Ht _ Hr -> _])%process_packets_Done Hbox Hst.
  rewrite (td_mailbox _ _ _ _ _ Ht) in Hbox. apply Forall_app in Hbox as [Hp _].
  eapply receive_all_wf in Hr; [|done..]. destruct term; [by apply set_shutdown_wf|done].
Qed.

Lemma assembled_wf st ds m' : wf_stream st ->
  (forall k d, m' !! k = Some d -> inbound_data st !! k = Some d) ->
  wf_stream (assembled st ds m').
Proof.
  intros [? ? Hin ? ?] Hm. split; cbn; try done; [apply wrapping_add16_u16|]. eauto.
Qed.

Lemma poll_read_wf fuel st e buf r st' e' buf' :
  poll_read clock fuel st e buf = Done (r, st', e', buf') ->
  Forall wire_packet (mailbox (env_socket e) (inbound_packets st)) ->
  wf_stream st -> wf_stream st'.
Proof.
  unfold poll_read. intros ([[term st1] e1] & Hp & Hr)%bind_Done Hbox Hst.
  apply process_packets_wf in Hp; [|done..]. destruct term; [by outcome_inv|].
  destruct (assemble_run st1 (ws_ack _ Hp)) as (ds & m' & Hrun & Ha). rewrite Ha in Hr.
  cbn [mbind Outcome_bind] in Hr. apply bind_Done in Hr as ([acked e2] & _ & Hr).
  assert (wf_stream (assembled st1 ds m')) as Hwf.
  { apply assembled_wf; [done|]. intros k d Hk.
    eapply run_rest in Hk as [? _]; [done|done|apply wrapping_add16_u16]. }
  destruct acked; [|by outcome_inv]. destruct (is_empty _); [by outcome_inv|].
  apply bind_Done in Hr as ([chunk rest] & _ & Hr). destruct (negb _); [done|].
  apply bind_Done in Hr as (buf2 & _ & Hr). outcome_inv. by apply set_received_wf.
Qed.

Lemma send_data_wf st payload e r st' e' :
  send_data clock st payload e = Done (r, st', e') ->
  (0 < length payload <= MAX_DATA_SEGMENT_SIZE)%nat -> wf_stream st -> wf_stream st'.
Proof.
  unfold send_data. intros ([r2 e2] & _ & Hr)%bind_Done Hl Hst.
  destruct r2; outcome_inv; [|done]. destruct Hst as [Hs Ha Hi Hc (ds & Hf & Hds)].
  split; try done; [apply wrapping_add16_u16|]. exists (ds ++ [payload]). split.
  - pose proof (in_flight_written st ds [payload] Hs Hf) as Hw.
    unfold written in Hw. rewrite numbered_cons, numbered_nil in Hw by done. exact Hw.
  - rewrite Forall_app, Forall_singleton. done.
Qed.

Lemma write_chunks_wf cs n st e r st' e' :
  write_chunks clock cs n st e = Done (r, st', e') ->
  Forall (fun d => (0 < length d <= MAX_DATA_SEGMENT_SIZE)%nat) cs ->
  wf_stream st -> wf_stream st'.
Proof.
  intros Hw Hcs. revert n st e Hw. induction Hcs as [|c cs Hc _ IH]; intros n st e; cbn.
  - intros. by outcome_inv.
  - intros ([[r1 st1] e1] & Hs & Hw)%bind_Done Hst. eapply send_data_wf in Hs; [|done..].
    destruct r1; [by eapply IH|by outcome_inv].
Qed.

Lemma poll_step_wf st st' : poll_step st st' -> wf_stream st -> wf_stream st'.
Proof.
  destruct 1 as [fuel e buf r e' buf' Hbox Hr|e buf r e' Hr|fuel e r e' Hbox Hr]; intros Hst.
  - by eapply poll_read_wf.
  - unfold poll_write in Hr. destruct (is_shutdown st); [by outcome_inv|].
    eapply write_chunks_wf; [done| |done]. apply chunks_sizes. cbv. lia.
  - unfold poll_flush in Hr. apply bind_Done in Hr as ([[term st1] e1] & Hp & Hr).
    apply process_packets_wf in Hp; [|done..].
    destruct (is_empty _); [by outcome_inv|]. by destruct (is_shutdown _); outcome_inv.
Qed.

Lemma UtpStream_new_wf id_recv id_send remote rx seq ack received :
  u16 seq -> u16 ack ->
  wf_stream (UtpStream_new id_recv id_send remote rx seq ack ∅ received []).
Proof.
  intros Hs Ha. split; cbn; try done.
  - exists []. split; [done|constructor].
Qed.

(** ** Properties *)

(** C20. Every state a stream reaches from its creation, through any sequence of
    polls and whatever happens on its socket in between, is well-formed: its
    numbers have 16 bits, its congestion state is consistent, and the data in
    flight is a queue of non-empty packets that fit a datagram, numbered
    consecutively up to just before the next sequence number. *)
Theorem stream_invariant id_recv id_send remote rx seq ack st :
  u16 seq -> u16 ack ->
  rtc poll_step (UtpStream_new id_recv id_send remote rx seq ack ∅ [] []) st ->
  wf_stream st.
Proof.
  intros Hs Ha Hr. remember (UtpStream_new _ _ _ _ _ _ _ _ _) as st0 eqn:Heq.
  assert (wf_stream st0) as Hst by (subst; by apply UtpStream_new_wf). clear Heq.
  induction Hr as [st|st1 st2 st3 Hstep _ IH]; [done|]. by eapply IH, poll_step_wf.
Qed.
End invariant.

(** ** Witnesses *)

Lemma stream_invariant_witness :
  exists st, rtc (poll_step sample_clock) sample_stream st /\
    unacked_data st = [(2, [1; 2; 3])] /\ wf_stream st.
Proof.
  assert (Hu : match poll_write sample_clock sample_stream (sample_env []) [1; 2; 3] with
               | Done (_, st, _) => unacked_data st
               | _ => []
               end = [(2, [1; 2; 3])]) by (vm_compute; reflexivity).
  destruct (poll_write sample_clock sample_stream (sample_env []) [1; 2; 3])
    as [[[r st] e']| |] eqn:Hw; [|discriminate Hw..].
  assert (Hr : rtc (poll_step sample_clock) sample_stream st).
  { eapply rtc_once, step_write. exact Hw. }
  exists st. split; [exact Hr|]. split; [exact Hu|].
  exact (stream_invariant sample_clock 5 6 sample_peer 0%nat 2 100 st
    ltac:(done) ltac:(done) Hr).
Defined.
