(* ===== verification/Display.v ===== *)
(** * Messages (src/src/error.rs, src/src/stream.rs)

    The messages of the two error types and the [Debug] output of a stream. *)

From S2P Require Import Prelude Crates CratesRef Errors Packet Socket Stream StreamRead.
From S2P Require Import AddrText.
From Stdlib Require Import Ascii.
From stdpp Require Import pretty strings.

#[local] Open Scope string_scope.
#[local] Open Scope list_scope.
#[local] Open Scope Z_scope.

(** ** Definitions *)

(** The messages of the two error types. *)
Definition ConnectionError_text (e : ConnectionError) : string :=
  match e with
  | NoAddress => "no socket address provided"
  | TooMany => "too many connections. limit: " +:+ dec (2 ^ 16 - 1)
  | AlreadyExists id addr =>
      "connection to " +:+ addr_text addr +:+ " with id " +:+ dec id +:+ " already exists"
  end.

Definition PacketParseError_text (e : PacketParseError) : string :=
  match e with
  | TooSmall => "packet too small, must be at least 20 bytes"
  | UnsupportedVersion v => "unsupported packet version: " +:+ dec v
  | InvalidPacketType n => "invalid packet type: " +:+ dec n
  | MissingExtension n => "expected extension " +:+ pretty n +:+ ", but hit end of buffer"
  | IncompleteExtension index length remaining =>
      "extension " +:+ pretty index +:+ "'s length (" +:+ pretty length +:+
      ") exceeds number of remaining bytes (" +:+ pretty remaining +:+ ")'"
  end.

(** [fmt] of the [Debug] of a [UtpStream], on its socket. *)
Definition fmt `{Mp : MpscCrate, Dm : DashMapCrate} (s : UtpSocket) (st : UtpStream) : string :=
  "UtpStream { id: " +:+ dec (connection_id_recv st) +:+ ", local_addr: " +:+
  addr_text (local_addr s) +:+ ", remote_addr: " +:+ addr_text (remote_addr st) +:+ " }".

#[local] Opaque ip4_text ip6_text dec.

(** ** Properties *)

(** C40. The [Debug] output of a stream tells which connection it is: two streams
    with the same output have the same receive identifier, and the same local and
    remote addresses (up to the flow label of an IPv6 address, which is not
    shown). *)
Theorem fmt_identifies `{Mp : MpscCrate, Dm : DashMapCrate} s1 st1 s2 st2 :
  wf_addr (local_addr s1) -> wf_addr (remote_addr st1) -> u16 (connection_id_recv st1) ->
  wf_addr (local_addr s2) -> wf_addr (remote_addr st2) -> u16 (connection_id_recv st2) ->
  fmt s1 st1 = fmt s2 st2 ->
  connection_id_recv st1 = connection_id_recv st2 /\
  shown (local_addr s1) = shown (local_addr s2) /\
  shown (remote_addr st1) = shown (remote_addr st2).
Proof.
  intros L1 R1 [I1 _] L2 R2 [I2 _] Heq. unfold fmt in Heq. injection Heq as Heq.
  apply (separated is_digit) in Heq as (Hid & _ & Heq); [|by apply dec_made..|done|done].
  injection Heq as Heq.
  apply (separated is_addr) in Heq as (Hl & _ & Heq); [|by apply addr_text_made..|done|done].
  injection Heq as Heq.
  apply (separated is_addr) in Heq as (Hr & _ & _); [|by apply addr_text_made..|done|done].
  split_and!; [by apply dec_inj|by apply addr_text_inj..].
Qed.

(** ** Witnesses *)

#[local] Transparent ip4_text ip6_text dec.

Lemma fmt_identifies_witness :
  fmt sample_socket sample_stream =
    "UtpStream { id: 5, local_addr: 127.0.0.1:8080, remote_addr: 127.0.0.2:9090 }" /\
  shown (remote_addr sample_stream) = sample_peer.
Proof.
  split; [reflexivity|].
  apply (fmt_identifies sample_socket sample_stream sample_socket sample_stream);
    by (reflexivity || split).
Defined.
