(* ===== verification/Polls.v ===== *)
(** * What the polls of a stream do to the rest of the program

    A poll that returns, on any branch: it keeps the identity of its stream,
    takes packets from its own mailbox, and appends to the outgoing queue packets
    that carry the stream's identifier and go to its peer, acknowledgements from
    [poll_read] and data from [poll_write]. These are the facts that the
    invariants of a host and of two hosts need. *)

From S2P Require Import Prelude Crates CratesRef Errors Time Packet.
From S2P Require Import PacketWire Congestion Socket Stream StreamFacts StreamRead.
From S2P Require Import StreamWrite StreamInvariant.

(** ** Definitions *)

(** The identity of a stream. *)
Record same_ids (st st' : UtpStream) : Prop := {
  si_recv : connection_id_recv st' = connection_id_recv st;
  si_send : connection_id_send st' = connection_id_send st;
  si_remote : remote_addr st' = remote_addr st;
  si_rx : inbound_packets st' = inbound_packets st;
}.

(** A packet of type [t] that [st] sends, with [payload]. *)
Definition stream_packet (st : UtpStream) (t : PacketType) (payload : bytes)
    (o : Packet * SocketAddr) : Prop :=
  o.2 = remote_addr st /\ exists now seq ack, u32 now /\
    o.1 = Packet_new t 1 (connection_id_send st) now 0 0 seq ack [] payload /\
    (u16 (st_seq_number st) -> u16 (st_ack_number st) -> u16 seq /\ u16 ack).

Section polls.
Context `{By : BytesCrate, Rb : ReadBufCrate, Mp : MpscCrate, Dm : DashMapCrate}.
Variable clock : nat -> SystemTime.

(** From [s] to [s'], the stream [st] became [st'], took packets from its own
    mailbox and queued [out]. *)
Definition polled (st st' : UtpStream) (s s' : UtpSocket)
    (out : list (Packet * SocketAddr)) : Prop :=
  same_ids st st' /\ exists popped, touched (inbound_packets st) popped out s s'.

(** ** Helper lemmas *)

Lemma same_ids_trans st1 st2 st3 : same_ids st1 st2 -> same_ids st2 st3 -> same_ids st1 st3.
Proof. intros [] []. split; congruence. Qed.

Lemma same_stream_ids st st' : same_stream st st' -> same_ids st st'.
Proof. intros []. by split. Qed.

Lemma polled_trans st1 st2 st3 s1 s2 s3 out1 out2 :
  polled st1 st2 s1 s2 out1 -> polled st2 st3 s2 s3 out2 ->
  polled st1 st3 s1 s3 (out1 ++ out2).
Proof.
  intros [Hi1 [p1 Ht1]] [Hi2 [p2 Ht2]]. split; [by eapply same_ids_trans|].
  rewrite (si_rx _ _ Hi1) in Ht2. eauto using touched_trans.
Qed.

(** A poll of a stream that differs in fields it does not depend on. *)
Lemma polled_ids st st1 st2 s s' out :
  same_ids st st1 -> polled st1 st2 s s' out -> polled st st2 s s' out.
Proof.
  intros Hi [Hi2 [p Ht]]. split; [by eapply same_ids_trans|].
  rewrite (si_rx _ _ Hi) in Ht. by eexists.
Qed.

Lemma process_packets_polled fuel st e term st' e' :
  process_packets clock fuel st e = Done (term, st', e') ->
  polled st st' (env_socket e) (env_socket e') [] /\
  st_seq_number st' = st_seq_number st /\ st_ack_number st' = st_ack_number st.
Proof.
  intros (popped & st1 & [Ht _ Hr -> _])%process_packets_Done.
  apply receive_all_same in Hr as [Hsame _].
  pose proof (same_stream_ids _ _ Hsame) as Hids. destruct Hsame.
  destruct term; (split; [split; [|by eauto]|done]); [|done].
  by destruct Hids; split.
Qed.

Lemma assemble_same fuel n st st' : assemble fuel n st = Done st' ->
  same_ids st st' /\ st_seq_number st' = st_seq_number st /\
  (u16 n -> u16 (st_ack_number st) -> u16 (st_ack_number st')).
Proof.
  revert n st. induction fuel as [|fuel IH]; intros n st; [done|]. cbn.
  destruct (inbound_data st !! n) as [d|]; [|intros; by outcome_inv].
  intros ([] & Hs & Hu)%IH. cbn in *. split_and!; [by split|done|].
  intros Hn _. apply Hu; [apply wrapping_add16_u16|done].
Qed.

(** Sending a packet of the stream, or failing to. *)
Lemma send_packet_polled st pt seq ack payload e r e' :
  send_packet clock st pt seq ack [] payload e = Done (r, e') ->
  exists now, u32 now /\
    polled st st (env_socket e) (env_socket e')
      (match r with
       | Ok _ => [(Packet_new pt 1 (connection_id_send st) now 0 0 seq ack [] payload,
                   remote_addr st)]
       | Err _ => []
       end).
Proof.
  intros (now & Hnow & _ & Ht)%(send_packet_Done clock (inbound_packets st)).
  exists now. split; [by eapply current_micros_u32|]. split; [done|].
  destruct r; [by eexists|]. destruct Ht as (_ & -> & _). exists []. apply touched_refl.
Qed.

(** [poll_read], on every branch: only acknowledgements leave. *)
Lemma poll_read_polled fuel st e buf r st' e' buf' :
  poll_read clock fuel st e buf = Done (r, st', e', buf') ->
  exists out, polled st st' (env_socket e) (env_socket e') out /\
    Forall (stream_packet st State []) out /\
    Forall (fun o => ack_number o.1 = st_ack_number st') out.
Proof.
  unfold poll_read. intros ([[term st1] e1] & (Hp & Hseq & Hack)%process_packets_polled & Hr)%bind_Done.
  destruct term; [outcome_inv; by exists []; split_and!; [|constructor..]|].
  apply bind_Done in Hr as (st2 & (Hids & Hseq2 & Hack2)%assemble_same & Hr).
  apply bind_Done in Hr as ([acked e2] & (now & Hnow & Hs)%send_packet_polled & Hr).
  assert (Hp2 : polled st st2 (env_socket e) (env_socket e1) []).
  { destruct Hp as [Hi Hp]. split; [by eapply same_ids_trans|done]. }
  pose proof (polled_trans _ _ _ _ _ _ _ _ Hp2 Hs) as Hp3. cbn [app] in Hp3.
  set (out := match acked with
    | Ok _ => [(Packet_new State 1 (connection_id_send st2) now 0 0 (st_seq_number st2)
        (st_ack_number st2) [] [], remote_addr st2)] | Err _ => [] end) in Hp3.
  assert (Hout : Forall (stream_packet st State []) out /\
    Forall (fun o => ack_number o.1 = st_ack_number st2) out).
  { unfold out. destruct acked; (split; [|by repeat constructor]); constructor; [|constructor].
    destruct Hp2 as [[? Hid Hrm ?] _].
    split; [done|]. exists now, (st_seq_number st2), (st_ack_number st2). cbn.
    rewrite Hid, Hseq2, Hseq. split_and!; try done. intros ? Hu. split; [done|].
    apply Hack2; [apply wrapping_add16_u16|by rewrite Hack]. }
  destruct acked; [|outcome_inv; by eexists].
  destruct (is_empty _); [outcome_inv; by eexists|].
  apply bind_Done in Hr as ([chunk rest] & _ & Hr). destruct (negb _); [done|].
  apply bind_Done in Hr as (buf2 & _ & Hr). outcome_inv.
  eexists. split; [|exact Hout]. destruct Hp3 as [[] Hp3]. by split.
Qed.

(** [poll_flush] and [poll_shutdown] send nothing. *)
Lemma poll_flush_polled fuel st e r st' e' :
  poll_flush clock fuel st e = Done (r, st', e') ->
  polled st st' (env_socket e) (env_socket e') [].
Proof.
  unfold poll_flush. intros ([[term st1] e1] & (Hp & _)%process_packets_polled & Hr)%bind_Done.
  destruct (is_empty _); [by outcome_inv|]. destruct (is_shutdown _); by outcome_inv.
Qed.

Lemma poll_shutdown_flush fuel st e r st' e' :
  poll_shutdown clock fuel st e = Done (r, st', e') ->
  poll_flush clock fuel (set_shutdown true st) e = Done (r, st', e').
Proof.
  unfold poll_shutdown. intros ([[r1 st1] e1] & -> & Hr)%bind_Done.
  destruct r1 as [[[]|err]|]; by outcome_inv.
Qed.

Lemma poll_shutdown_polled fuel st e r st' e' :
  poll_shutdown clock fuel st e = Done (r, st', e') ->
  polled st st' (env_socket e) (env_socket e') [].
Proof.
  intros Hp%poll_shutdown_flush%poll_flush_polled. eapply polled_ids; [|exact Hp]. by split.
Qed.

(** The loop of [poll_write]: the chunks sent, in order, all of them unless the
    sender task is gone. *)
Lemma write_chunks_polled cs n st e r st' e' :
  write_chunks clock cs n st e = Done (r, st', e') ->
  exists out sent, polled st st' (env_socket e) (env_socket e') out /\
    Forall2 (stream_packet st Data) sent out /\ sent `prefix_of` cs /\
    match r with
    | Ready (Ok m) => sent = cs /\ m = (n + length (concat cs))%nat
    | Ready (Err _) => rx_alive (outgoing_channel (env_socket e)) = false
    | Pending => False
    end.
Proof.
  revert n st e. induction cs as [|c cs IH]; intros n st e.
  - cbn. intros. outcome_inv. exists [], []. split_and!; [|constructor|done|done|by rewrite Nat.add_0_r].
    split; [by split|]. exists []. apply touched_refl.
  - cbn [write_chunks]. unfold send_data.
    intros ([[r1 st1] e1] & ([r2 e2] & Hsp & Hs)%bind_Done & Hr)%bind_Done.
    pose proof Hsp as (now2 & _ & _ & Hdead)%(send_packet_Done clock (inbound_packets st)).
    apply send_packet_polled in Hsp as (now & Hnow & Hp).
    destruct r2 as [[]|err]; outcome_inv.
    + apply IH in Hr as (out & sent & Hp2 & Hf & Hpre & Hm).
      exists ((Packet_new Data 1 (connection_id_send st) now 0 0 (st_seq_number st)
        (st_ack_number st) [] c, remote_addr st) :: out), (c :: sent). split_and!.
      * eapply (polled_trans _ _ _ _ _ _ [_]); [exact Hp|]. eapply polled_ids; [|exact Hp2]. by split.
      * constructor; [|].
        -- split; [done|]. by exists now, (st_seq_number st), (st_ack_number st).
        -- eapply Forall2_impl; [exact Hf|]. intros d [p a] [Ha (now3 & seq & ack & ? & Hpk & Hu)].
           split; [done|]. exists now3, seq, ack. split_and!; [done|done|].
           intros ? ?. apply Hu; [apply wrapping_add16_u16|done].
      * by apply prefix_cons.
      * destruct r as [[m|err]|]; [|by rewrite <- (td_out_rx _ _ _ _ _ Hdead)|done].
        destruct Hm as [-> ->]. split; [done|]. cbn. rewrite length_app. lia.
    + exists [], []. split_and!; [done|constructor|apply prefix_nil|]. by destruct Hdead as (_ & _ & ?).
Qed.

Lemma poll_write_polled st e buf r st' e' :
  poll_write clock st e buf = Done (r, st', e') ->
  exists out sent, polled st st' (env_socket e) (env_socket e') out /\
    Forall2 (stream_packet st Data) sent out /\ concat sent `prefix_of` buf /\
    match r with
    | Ready (Ok m) => m = length (concat sent)
    | Ready (Err _) => rx_alive (outgoing_channel (env_socket e)) = false
    | Pending => False
    end.
Proof.
  unfold poll_write. destruct (is_shutdown st).
  - intros. outcome_inv. exists [], []. split_and!; [|constructor|apply prefix_nil|done].
    split; [by split|]. exists []. apply touched_refl.
  - intros (out & sent & Hp & Hf & [rest Hpre] & Hm)%write_chunks_polled.
    exists out, sent. split_and!; [done|done| |].
    + exists (concat rest). rewrite <- concat_app, <- Hpre, chunks_concat; [done|cbv; lia].
    + destruct r as [[m|err]|]; [|done..]. by destruct Hm as [<- ->].
Qed.

(** The payloads sent are pieces of the buffer that fit a datagram. *)
Lemma poll_write_payloads st e buf r st' e' :
  poll_write clock st e buf = Done (r, st', e') ->
  exists out sent, polled st st' (env_socket e) (env_socket e') out /\
    Forall2 (stream_packet st Data) sent out /\ concat sent `prefix_of` buf /\
    Forall (fun c => (length c <= MAX_DATA_SEGMENT_SIZE)%nat) sent /\
    (forall n, r = Ready (Ok n) -> n = length (concat sent)).
Proof.
  unfold poll_write. destruct (is_shutdown st).
  - intros. outcome_inv. exists [], [].
    split_and!; [|constructor|apply prefix_nil|constructor|by intros n [= <-]].
    split; [by split|]. exists []. apply touched_refl.
  - intros (out & sent & Hp & Hf & [rest Hpre] & Hm)%write_chunks_polled.
    exists out, sent. split_and!; [done|done| | |].
    + exists (concat rest). rewrite <- concat_app, <- Hpre, chunks_concat; [done|cbv; lia].
    + pose proof (chunks_sizes MAX_DATA_SEGMENT_SIZE buf ltac:(cbv; lia)) as Hs.
      rewrite Hpre in Hs. apply Forall_app in Hs as [Hs _].
      eapply Forall_impl; [exact Hs|]. cbn. lia.
    + intros n ->. by destruct Hm as [-> ->].
Qed.

(** ** Properties *)

(** C26. Whenever [poll_write] returns, on any branch, for a stream with 16-bit
    numbers and a buffer of bytes, each packet it has added to the outgoing queue is a data packet of the stream, addressed to its peer,
    that serialises to one datagram of at most 1472 bytes, which decodes to the
    same packet; and their payloads, in order, are a prefix of the buffer, of the
    length that [poll_write] reports. *)
Theorem poll_write_datagrams st e buf r st' e' :
  u16 (connection_id_send st) -> u16 (st_seq_number st) -> u16 (st_ack_number st) ->
  Forall u8 buf -> poll_write clock st e buf = Done (r, st', e') ->
  exists out,
    queued (outgoing_channel (env_socket e')) =
      queued (outgoing_channel (env_socket e)) ++ out /\
    Forall (fun o => o.2 = remote_addr st /\ packet_type o.1 = Data /\
      connection_id o.1 = connection_id_send st /\
      exists dgram, bytes_from_packet o.1 = Done dgram /\
        (length dgram <= MAX_DATAGRAM_SIZE)%nat /\
        Packet_try_from dgram = Done (Ok o.1)) out /\
    concat ((fun o => data o.1) <$> out) `prefix_of` buf /\
    forall n, r = Ready (Ok n) -> n = length (concat ((fun o => data o.1) <$> out)).
Proof.
  intros Hid Hseq Hack Hbuf
    (out & sent & [_ [popped Ht]] & Hf & Hpre & Hlen & Hn)%poll_write_payloads.
  assert (Hpay : (fun o => data o.1) <$> out = sent).
  { clear -Hf. induction Hf as [|d [p a] sent out (_ & now & seq & ack & _ & Hp & _) _ IH]; [done|].
    cbn in Hp. subst p. cbn. by f_equal. }
  exists out. rewrite Hpay. split_and!; [apply Ht| |done|done].
  assert (Hu8 : Forall (Forall u8) sent).
  { destruct Hpre as [k ->]. apply Forall_app in Hbuf as [Hbuf _]. by apply Forall_concat. }
  clear -Hf Hlen Hu8 Hid Hseq Hack.
  induction Hf as [|d [p a] sent out (Ha & now & seq & ack & Hnow & Hp & Hu) _ IH]; [done|].
  apply Forall_cons in Hlen as [Hd Hlen]. apply Forall_cons in Hu8 as [Hd8 Hu8].
  constructor; [|by apply IH]. cbn in Ha, Hp. subst p. destruct (Hu Hseq Hack) as [Hs Hk].
  split_and!; [done..|]. apply data_datagram; [|done..]. by split.
Qed.
End polls.

(** ** Witnesses *)

(** A write of 1500 bytes, which takes two packets. *)
Definition sample_long : bytes := replicate 1500 7.

Lemma sample_long_chunks : (0 + length (concat (chunks MAX_DATA_SEGMENT_SIZE sample_long)))%nat =
  length sample_long.
Proof. by vm_compute. Qed.

Lemma sample_long_u8 : Forall u8 sample_long.
Proof. by apply Forall_replicate. Qed.

Lemma poll_write_datagrams_witness : exists st' e' out,
  poll_write sample_clock sample_stream (sample_env []) sample_long =
    Done (Ready (Ok (length sample_long)), st', e') /\
  queued (outgoing_channel (env_socket e')) = out /\
  length sample_long = length (concat ((fun o => data o.1) <$> out)) /\
  Forall (fun o => exists dgram, bytes_from_packet o.1 = Done dgram /\
    (length dgram <= MAX_DATAGRAM_SIZE)%nat) out.
Proof.
  destruct (write_chunks_alive sample_clock (chunks MAX_DATA_SEGMENT_SIZE sample_long) 0
    sample_stream (sample_env []) sample_clock_nonneg) as (e' & Hw & _); [done..|].
  rewrite sample_long_chunks in Hw.
  destruct (poll_write_datagrams sample_clock sample_stream (sample_env []) sample_long _ _ e'
    ltac:(done) ltac:(done) ltac:(done)
    sample_long_u8 Hw)
    as (out & Hq & Hf & _ & Hn).
  eexists _, e', out. split; [exact Hw|]. split; [exact Hq|]. split; [by apply Hn|].
  eapply Forall_impl; [exact Hf|]. intros o (_ & _ & _ & dgram & H1 & H2 & _). by exists dgram.
Defined.
