(* ===== verification/Listener.v ===== *)
(** * The listener (src/src/listener.rs)

    [UtpListener::accept], and what a failed set-up leaves behind. A listener is
    its socket. *)

From S2P Require Import Prelude Crates CratesRef Errors Packet PacketWire.
From S2P Require Import Socket PacketReceiver Stream.

(** ** Definitions *)

Section listener.
Context `{Mp : MpscCrate, Dm : DashMapCrate}.

(** A poll of [accept] with the lock on the SYN queue held; [draw] is what
    [rand::random::<u16>] gives. On an early return of [send_to]'s error the
    receive half made by [insert_connection] is dropped. *)
Definition accept (s : UtpSocket) (draw : Z)
    : Outcome (Poll (Result UtpStream IoError) * UtpSocket) :=
  let '(r, s) := get_syn s in
  match r with
  | Pending => Done (Pending, s)
  | Ready None => Panic UnwrapNone
  | Ready (Some (packet, remote)) =>
      let id_recv := wrapping_add16 (connection_id packet) 1 in
      let id_send := connection_id packet in
      let seq := draw in
      let ack := seq_number packet in
      match insert_connection s id_recv remote with
      | (Ok receiver, s) =>
          let syn_ack := Packet_new State 1 id_send 0 0 0 seq ack [] [] in
          let seq := wrapping_add16 seq 1 in
          match send_to s syn_ack remote with
          | (Ok _, s) =>
              Done (Ready (Ok (UtpStream_new id_recv id_send remote receiver seq ack
                                 ∅ [] [])), s)
          | (Err err, s) => Done (Ready (Err err), mailbox_drop_rx s receiver)
          end
      | (Err _, s) => Panic Todo
      end
  end.

(** The answer to the SYN packet [syn], and the stream [accept] makes for it,
    with the mailbox [rx]. *)
Definition syn_ack_for (syn : Packet) (draw : Z) : Packet :=
  Packet_new State 1 (connection_id syn) 0 0 0 draw (seq_number syn) [] [].

Definition accepted (syn : Packet) (remote : SocketAddr) (rx : ChanId) (draw : Z)
    : UtpStream :=
  UtpStream_new (wrapping_add16 (connection_id syn) 1) (connection_id syn) remote rx
    (wrapping_add16 draw 1) (seq_number syn) ∅ [] [].

(** ** Helper lemmas *)

Lemma get_syn_prompt `{!PromptMpsc} s o rest :
  queued (syn_channel s) = o :: rest ->
  exists c, get_syn s = (Ready (Some o), set_syn_channel c s) /\ queued c = rest /\
    rx_alive c = rx_alive (syn_channel s).
Proof.
  intros Hq. unfold get_syn. destruct (poll_recv (syn_channel s)) as [r c] eqn:Hp.
  destruct r as [[o2|]|].
  - apply poll_recv_Some in Hp as (Hq2 & _ & Hrx). rewrite Hq in Hq2. injection Hq2 as <- Hrest.
    by exists c.
  - apply poll_recv_None in Hp as (Hnil & _). congruence.
  - apply poll_recv_prompt in Hp as [Hnil _]. congruence.
Qed.

Lemma get_syn_same s r s1 : get_syn s = (r, s1) ->
  routing_table s1 = routing_table s /\ mailboxes s1 = mailboxes s /\
  next_chan s1 = next_chan s /\ outgoing_channel s1 = outgoing_channel s.
Proof. unfold get_syn. destruct (poll_recv _). by intros [= <- <-]. Qed.

Lemma accept_wf s draw r s' : accept s draw = Done (r, s') ->
  wf_socket s -> wf_socket s'.
Proof.
  intros Ha Hs. unfold accept in Ha.
  destruct (get_syn s) as [r1 s1] eqn:Hg. pose proof (get_syn_wf _ _ _ Hg Hs) as Hs1.
  destruct r1 as [[[p remote]|]|]; outcome_inv; [|done].
  destruct (insert_connection _ _ _) as [[rx|e] s2] eqn:Hi; [|done].
  apply insert_connection_wf in Hi; [|apply wrapping_add16_u16|done].
  destruct (send_to _ _ _) as [[[]|err] s3] eqn:Hsend; outcome_inv;
    eapply send_to_wf in Hsend; [done|done| |done]. by apply mailbox_drop_rx_wf.
Qed.

Lemma accept_table s draw r s' : accept s draw = Done (r, s') ->
  table_alive s' = table_alive s.
Proof.
  unfold accept, get_syn. destruct (poll_recv _) as [[[[p remote]|]|] c];
    [|done|by intros; outcome_inv].
  unfold insert_connection. destruct (entry_occupied _ _); [done|]. cbn.
  unfold send_to. destruct (send _ _) as [oc|]; intros; outcome_inv; [done|].
  unfold mailbox_drop_rx. by destruct (_ !! _).
Qed.

(** A connection just inserted in the routing table, and after its receive half
    is dropped. *)
Lemma inserted_view s k rx s' : mailbox_inserted s k rx s' ->
  route s' k = Some rx /\ conn_view s' k = Some (true, []) /\
  exists q, conn_view (mailbox_drop_rx s' rx) k = Some (false, q).
Proof.
  intros Hi. assert (Hk : route s' k = Some rx)
    by (unfold route; by rewrite (mi_table _ _ _ _ Hi), lookup_insert_eq).
  assert (Hbox : mailboxes s' !! rx = Some (unbounded_channel Packet))
    by by rewrite (mi_heap _ _ _ _ Hi), lookup_insert_eq.
  split; [done|]. split.
  - rewrite (conn_view_Some _ _ _ _ Hk Hbox).
    by rewrite rx_alive_unbounded_channel, queued_unbounded_channel.
  - exists (queued (drop_rx (unbounded_channel Packet))). unfold mailbox_drop_rx. rewrite Hbox.
    erewrite conn_view_Some; [by rewrite rx_alive_drop_rx|exact Hk|cbn; apply lookup_insert_eq].
Qed.

(** Sending leaves the connections alone. *)
Lemma send_to_view s p a r s' k : send_to s p a = (r, s') ->
  conn_view s' k = conn_view s k /\ route s' k = route s k /\
  syn_channel s' = syn_channel s /\ table_alive s' = table_alive s.
Proof. unfold send_to. destruct (send _ _); by intros [= <- <-]. Qed.

Lemma send_to_alive s p a : rx_alive (outgoing_channel s) = true ->
  exists s', send_to s p a = (Ok tt, s') /\
    queued (outgoing_channel s') = queued (outgoing_channel s) ++ [(p, a)].
Proof.
  intros Hrx. unfold send_to.
  destruct (send_alive _ (p, a) _ Hrx) as (c & -> & Hq & _). by eexists.
Qed.

(** [accept] with a SYN packet waiting. *)
Lemma accept_ok_full `{!PromptMpsc} s draw syn remote rest :
  wf_socket s -> queued (syn_channel s) = (syn, remote) :: rest ->
  route s (wrapping_add16 (connection_id syn) 1, remote) = None ->
  rx_alive (outgoing_channel s) = true ->
  exists s', accept s draw =
      Done (Ready (Ok (accepted syn remote (next_chan s) draw)), s') /\
    wf_socket s' /\ mailboxes s !! next_chan s = None /\
    conn_view s' (wrapping_add16 (connection_id syn) 1, remote) = Some (true, []) /\
    route s' (wrapping_add16 (connection_id syn) 1, remote) = Some (next_chan s) /\
    queued (outgoing_channel s') =
      queued (outgoing_channel s) ++ [(syn_ack_for syn draw, remote)] /\
    queued (syn_channel s') = rest.
Proof.
  intros Hs Hq Hr Hout. unfold accept.
  destruct (get_syn_prompt s _ _ Hq) as (c & Hg & Hrest & _). rewrite Hg.
  pose proof (get_syn_wf _ _ _ Hg Hs) as Hs1. set (s1 := set_syn_channel c s) in *.
  set (k := (wrapping_add16 (connection_id syn) 1, remote)) in *.
  unfold insert_connection. fold k. rewrite (proj2 (occupied_false s1 k) Hr).
  pose proof (insert_mailbox_inserted s1 k Hr) as Hi. destruct (insert_mailbox s1 k) as [rx s2].
  cbn [fst snd] in Hi. pose proof (mi_rx _ _ _ _ Hi) as Hrx.
  assert (rx = next_chan s) as -> by exact Hrx.
  pose proof (mailbox_inserted_wf s1 k _ s2 Hs1 (wrapping_add16_u16 _ _) Hi) as Hs2.
  destruct (send_to_alive s2 (syn_ack_for syn draw) remote) as (s3 & Hsend & Hqo);
    [rewrite (mi_outgoing _ _ _ _ Hi); exact Hout|].
  unfold syn_ack_for in Hsend. rewrite Hsend. exists s3. split; [done|].
  destruct (inserted_view _ _ _ _ Hi) as (Hk & Hv & _).
  destruct (send_to_view _ _ _ _ _ k Hsend) as (Hv3 & Hk3 & Hsyn & _).
  split_and!; [by eapply send_to_wf|by apply mailboxes_fresh|congruence..| |].
  - by rewrite Hqo, (mi_outgoing _ _ _ _ Hi).
  - by rewrite Hsyn, (mi_syn _ _ _ _ Hi).
Qed.

Lemma accept_ok `{!PromptMpsc} s draw syn remote rest :
  wf_socket s -> queued (syn_channel s) = (syn, remote) :: rest ->
  route s (wrapping_add16 (connection_id syn) 1, remote) = None ->
  rx_alive (outgoing_channel s) = true ->
  exists s', accept s draw =
      Done (Ready (Ok (accepted syn remote (next_chan s) draw)), s') /\
    queued (outgoing_channel s') =
      queued (outgoing_channel s) ++ [(syn_ack_for syn draw, remote)].
Proof.
  intros Hs Hq Hr Hout.
  destruct (accept_ok_full s draw syn remote rest Hs Hq Hr Hout)
    as (s' & Ha & _ & _ & _ & _ & Ho & _). by exists s'.
Qed.

(** Polling a mailbox with a packet in it. *)
Lemma mailbox_recv_prompt `{!PromptMpsc} s rx c p q :
  mailboxes s !! rx = Some c -> queued c = p :: q ->
  exists s', mailbox_poll_recv s rx = Done (Ready (Some p), s').
Proof.
  intros Hc Hq. unfold mailbox_poll_recv. rewrite Hc. cbn.
  destruct (poll_recv c) as [r c'] eqn:Hp. destruct r as [[p2|]|].
  - apply poll_recv_Some in Hp as (Hq2 & _). rewrite Hq in Hq2. injection Hq2 as <- _. eauto.
  - apply poll_recv_None in Hp as (Hnil & _). congruence.
  - apply poll_recv_prompt in Hp as [Hnil _]. congruence.
Qed.

(** ** Properties *)

(** [accept] with a SYN packet waiting, on a live socket where the connection
    is not known: the stream it returns receives on the packet's identifier plus
    one, sends on the packet's identifier, has the packet's sequence number as
    its last received and an empty state; its mailbox is fresh and is the one
    the receiver task routes that identifier and address to; and exactly one
    packet is sent, the acknowledgement that carries the drawn number, one less
    than the number of the first packet the stream will send. *)
Theorem accept_fresh `{!PromptMpsc} s draw syn remote rest :
  wf_socket s -> queued (syn_channel s) = (syn, remote) :: rest ->
  route s (wrapping_add16 (connection_id syn) 1, remote) = None ->
  rx_alive (outgoing_channel s) = true ->
  exists s', accept s draw =
      Done (Ready (Ok (accepted syn remote (next_chan s) draw)), s') /\
    wf_socket s' /\ mailboxes s !! next_chan s = None /\
    conn_view s' (wrapping_add16 (connection_id syn) 1, remote) = Some (true, []) /\
    route s' (wrapping_add16 (connection_id syn) 1, remote) = Some (next_chan s) /\
    queued (outgoing_channel s') =
      queued (outgoing_channel s) ++ [(syn_ack_for syn draw, remote)] /\
    queued (syn_channel s') = rest.
Proof. apply accept_ok_full. Qed.

(** C38. A SYN packet for a connection that is already routed, as a
    retransmission of the one accepted is, makes [accept] panic. *)
Theorem accept_duplicate `{!PromptMpsc} s draw syn remote rest :
  queued (syn_channel s) = (syn, remote) :: rest ->
  is_Some (route s (wrapping_add16 (connection_id syn) 1, remote)) ->
  accept s draw = Panic Todo.
Proof.
  intros Hq Hr. unfold accept. destruct (get_syn_prompt s _ _ Hq) as (c & -> & _).
  unfold insert_connection.
  by rewrite (proj2 (occupied_true (set_syn_channel c s) _) Hr).
Qed.

(** [accept] with the sender task gone reports the error, and leaves the
    connection routed to a mailbox nobody holds, until a packet for it arrives. *)
Theorem accept_send_error `{!PromptMpsc} s draw syn remote rest :
  wf_socket s -> queued (syn_channel s) = (syn, remote) :: rest ->
  route s (wrapping_add16 (connection_id syn) 1, remote) = None ->
  rx_alive (outgoing_channel s) = false ->
  exists s' q, accept s draw = Done (Ready (Err send_error), s') /\ wf_socket s' /\
    conn_view s' (wrapping_add16 (connection_id syn) 1, remote) = Some (false, q).
Proof.
  intros Hs Hq Hr Hout. unfold accept.
  destruct (get_syn_prompt s _ _ Hq) as (c & Hg & _ & _). rewrite Hg.
  pose proof (get_syn_wf _ _ _ Hg Hs) as Hs1. set (s1 := set_syn_channel c s) in *.
  set (k := (wrapping_add16 (connection_id syn) 1, remote)) in *.
  unfold insert_connection. fold k. rewrite (proj2 (occupied_false s1 k) Hr).
  pose proof (insert_mailbox_inserted s1 k Hr) as Hi. destruct (insert_mailbox s1 k) as [rx s2].
  cbn [fst snd] in Hi.
  pose proof (mailbox_inserted_wf s1 k _ s2 Hs1 (wrapping_add16_u16 _ _) Hi) as Hs2.
  unfold send_to. rewrite send_dead; [|rewrite (mi_outgoing _ _ _ _ Hi); exact Hout].
  destruct (inserted_view _ _ _ _ Hi) as (_ & _ & q & Hv).
  exists (mailbox_drop_rx s2 rx), q. split; [done|]. by split; [apply mailbox_drop_rx_wf|].
Qed.
End listener.

(** ** Witnesses *)

Definition sample_syn : Packet := Packet_new Syn 1 77 0 0 0 1 0 [] [].
Definition sample_listening : UtpSocket :=
  set_syn_channel (mkRefChan [(sample_syn, sample_peer)] true true) sample_socket.

Lemma sample_listening_wf : wf_socket sample_listening.
Proof.
  apply (wf_socket_ext sample_socket); [done..|].
  by apply (UtpSocket_try_from_wf (Ok sample_addr)).
Qed.

Lemma accept_fresh_witness :
  exists s', accept sample_listening 500 =
      Done (Ready (Ok (accepted sample_syn sample_peer 0%nat 500)), s') /\
    conn_view s' (78, sample_peer) = Some (true, []).
Proof.
  destruct (accept_fresh sample_listening 500 sample_syn sample_peer []
    sample_listening_wf) as (s' & Ha & _ & _ & Hv & _); [done..|].
  exists s'. split; [exact Ha|exact Hv].
Defined.

Definition sample_relistening : UtpSocket :=
  set_syn_channel (mkRefChan [(sample_syn, sample_peer)] true true)
    (insert_connection sample_socket 78 sample_peer).2.

Lemma accept_duplicate_witness : accept sample_relistening 500 = Panic Todo.
Proof.
  apply (accept_duplicate sample_relistening 500 sample_syn sample_peer []);
    [done|by exists 0%nat].
Defined.
