(* ===== verification/Handshake.v ===== *)
(** * Connecting (src/src/stream.rs, src/src/listener.rs)

    The two halves of [UtpStream::connect], and the handshake it makes with
    [UtpListener::accept] through the two sockets. *)

From S2P Require Import Prelude Crates CratesRef Errors Time Packet.
From S2P Require Import PacketWire Socket PacketReceiver Stream Listener.

(** ** Definitions *)

(** The SYN packet of a [connect]. *)
Definition syn_for (id_recv : Z) : Packet := Packet_new Syn 1 id_recv 0 0 0 1 0 [] [].

(** The stream a [connect] makes once the answer [response] is there. *)
Definition connected (c : Connecting) (response : Packet) : UtpStream :=
  UtpStream_new (co_id_recv c) (co_id_send c) (co_remote_addr c) (co_receiver c)
    (co_seq_number c) (seq_number response) ∅ [] [].

(** The two ends of a connection that carried no data yet: each sends on the
    identifier the other receives on, to the other's address, and the first
    packet it will send is the one the other expects next. *)
Record matched (a b : UtpStream) (addr_a addr_b : SocketAddr) : Prop := {
  m_ids : connection_id_send a = connection_id_recv b /\
          connection_id_send b = connection_id_recv a;
  m_distinct : connection_id_recv a <> connection_id_recv b;
  m_addrs : remote_addr a = addr_b /\ remote_addr b = addr_a;
  m_next : st_seq_number a = wrapping_add16 (st_ack_number b) 1 /\
           st_seq_number b = wrapping_add16 (st_ack_number a) 1;
  m_empty : forall st, st = a \/ st = b -> inbound_data st = ∅ /\
    received_data st = [] /\ unacked_data st = [] /\ is_shutdown st = false;
}.

Section handshake.
Context `{By : BytesCrate, Mp : MpscCrate, Dm : DashMapCrate}.

(** ** Helper lemmas *)

(** A successful first half of [connect]: the identifier it drew was not in use
    towards the first address the name resolved to, the connection is routed to
    a fresh empty mailbox, and exactly the SYN packet was sent. *)
Lemma connect_start_Ok s resolved draws c s' rest :
  connect_start s resolved draws = Done (Ok c, s', rest) ->
  wf_socket s -> Forall u16 draws ->
  exists remote addrs id rx, resolved = Ok (remote :: addrs) /\ u16 id /\
    c = mkConnecting id (wrapping_add16 id 1) remote rx 2 /\
    route s (id, remote) = None /\ wf_socket s' /\
    route s' (id, remote) = Some rx /\ conn_view s' (id, remote) = Some (true, []) /\
    queued (outgoing_channel s') = queued (outgoing_channel s) ++ [(syn_for id, remote)] /\
    table_alive s' = table_alive s.
Proof.
  intros Hc Hs Hu. unfold connect_start in Hc.
  destruct resolved as [[|remote addrs]|]; [done| |done].
  apply bind_Done in Hc as ([[[id rx] s1] rest1] & Hr & Hc).
  pose proof (register_connection_wf _ _ _ _ _ _ _ Hr Hu Hs) as Hs1.
  apply register_connection_Done in Hr as (skipped & -> & _ & Hi).
  apply Forall_app in Hu as [_ [Hid _]%Forall_cons].
  destruct (send_to _ _ _) as [[[]|err] s2] eqn:Hsend; outcome_inv.
  exists remote, addrs, id, rx. destruct (inserted_view _ _ _ _ Hi) as (Hk & Hv & _).
  destruct (send_to_view _ _ _ _ _ (id, remote) Hsend) as (Hv2 & Hk2 & _ & Ht2).
  pose proof (proj1 (mi_alive _ _ _ _ Hi)) as Ht1.
  split_and!; try done; [apply Hi|by eapply send_to_wf|congruence..| |congruence].
  unfold send_to in Hsend. destruct (send _ _) eqn:Hd; [|done]. injection Hsend as <-.
  apply send_Some in Hd as (_ & Hq & _). cbn. rewrite Hq. by rewrite (mi_outgoing _ _ _ _ Hi).
Qed.

(** Routing a packet to a connection whose mailbox is open. *)
Lemma route_packet_mailbox s p addr rx q :
  packet_type p <> Syn -> table_alive s = true ->
  route s (connection_id p, addr) = Some rx ->
  conn_view s (connection_id p, addr) = Some (true, q) ->
  exists c s', route_packet p addr s = (false, s') /\
    mailboxes s' !! rx = Some c /\ queued c = q ++ [p].
Proof.
  intros Hp Ht Hk Hv. unfold conn_view in Hv. rewrite Hk in Hv. cbn in Hv.
  destruct (mailboxes s !! rx) as [c|] eqn:Hc; [|done]. cbn in Hv. injection Hv as Hrx Hq.
  destruct (route_packet_found s p addr rx c Hp Ht Hk Hc) as (Hstop & _ & _ & _ & _ & _ & Hd).
  destruct (send_alive _ p c Hrx) as (c' & Hsend & Hq' & _). rewrite Hsend in Hd.
  destruct Hd as [_ Hm]. destruct (route_packet p addr s) as [stop s'] eqn:Hr.
  cbn in *. subst stop. exists c', s'. rewrite Hm, lookup_insert_eq, Hq', Hq. done.
Qed.

(** ** Properties *)

(** The handshake. A [connect] whose SYN packet reaches a listening socket,
    an [accept] there, and its answer back at the first socket make two streams
    that match: identifiers and addresses are crossed, and each side's next
    sequence number is the one the other expects. Both packets survive the wire. *)
Theorem handshake `{!PromptMpsc} sc ss addr_c addr_s addrs draws draw c sc1 rest :
  wf_socket sc -> wf_socket ss -> table_alive sc = true -> table_alive ss = true ->
  rx_alive (syn_channel ss) = true -> queued (syn_channel ss) = [] ->
  rx_alive (outgoing_channel ss) = true -> Forall u16 draws -> u16 draw ->
  connect_start sc (Ok (addr_s :: addrs)) draws = Done (Ok c, sc1, rest) ->
  route ss (wrapping_add16 (co_id_recv c) 1, addr_c) = None ->
  exists syn syn_ack ss1 srv ss2 sc2 cli sc3,
    queued (outgoing_channel sc1) = queued (outgoing_channel sc) ++ [(syn, addr_s)] /\
    wf_Packet syn /\
    route_packet syn addr_c ss = (false, ss1) /\
    accept ss1 draw = Done (Ready (Ok srv), ss2) /\
    queued (outgoing_channel ss2) = queued (outgoing_channel ss) ++ [(syn_ack, addr_c)] /\
    wf_Packet syn_ack /\
    route_packet syn_ack addr_s sc1 = (false, sc2) /\
    connect_poll c sc2 = Done (Ready cli, sc3) /\
    matched cli srv addr_c addr_s.
Proof.
  intros Hsc Hss Htc Hts Hsyn Hq Hout Hu Hd Hc Hfree.
  destruct (connect_start_Ok _ _ _ _ _ _ Hc Hsc Hu)
    as (remote & addrs2 & id & rx & Haddr & Hid & -> & _ & _ & Hk & Hv & Hsent & Ht1).
  injection Haddr as <- <-. cbn in Hfree.
  exists (syn_for id), (syn_ack_for (syn_for id) draw).
  destruct (send_alive _ (syn_for id, addr_c) _ Hsyn) as (sync & Hs1 & Hq1 & _).
  rewrite Hq in Hq1. set (ss1 := set_syn_channel sync ss). exists ss1.
  destruct (accept_ok ss1 draw (syn_for id) addr_c []) as (ss2 & Hacc & Hout2);
    [by apply (wf_socket_ext ss)|done..|].
  exists (accepted (syn_for id) addr_c (next_chan ss) draw), ss2.
  destruct (route_packet_mailbox sc1 (syn_ack_for (syn_for id) draw) addr_s rx [])
    as (box & sc2 & Hr2 & Hbox & Hqbox); [done|congruence|done|done|].
  exists sc2. destruct (mailbox_recv_prompt sc2 rx box _ [] Hbox Hqbox) as [sc3 Hrecv].
  eexists _, sc3. split_and!; try done.
  - unfold route_packet. cbn. by rewrite Hs1.
  - unfold connect_poll. cbn. rewrite Hrecv. cbn. reflexivity.
  - split; cbn; try done; [int_lia|].
    intros st [->| ->]; done.
Qed.
End handshake.

(** ** Witnesses *)

Lemma sample_socket_wf : wf_socket sample_socket.
Proof. by apply (UtpSocket_try_from_wf (Ok sample_addr)). Qed.

(** A connect from [sample_peer] that draws the identifier 77. *)
Lemma sample_connect :
  exists s', connect_start sample_socket (Ok [sample_addr]) [77; 5] =
    Done (Ok (mkConnecting 77 78 sample_addr 0%nat 2), s', [5]).
Proof. by eexists. Qed.

Lemma handshake_witness :
  exists sc1 cli srv, connect_start sample_socket (Ok [sample_addr]) [77; 5] =
    Done (Ok (mkConnecting 77 78 sample_addr 0%nat 2), sc1, [5]) /\
    matched cli srv sample_peer sample_addr.
Proof.
  destruct sample_connect as [sc1 Hs].
  destruct (handshake sample_socket sample_socket sample_peer sample_addr [] [77; 5] 500
    _ _ _ sample_socket_wf sample_socket_wf eq_refl eq_refl eq_refl eq_refl eq_refl
    ltac:(by repeat apply Forall_cons_2) ltac:(done) Hs eq_refl)
    as (syn & syn_ack & ss1 & srv & ss2 & sc2 & cli & sc3 & _ & _ & _ & _ & _ & _ & _ & _ & Hm).
  exists sc1, cli, srv. by split.
Defined.
