(* ===== verification/Host.v ===== *)
(** * A socket and its tasks (src/src/socket.rs)

    Binding a socket and spawning its tasks, and everything that can then change
    the socket's shared state, as a step relation: calls of [connect] and
    [accept], polls of the two tasks and of the streams, and dropping a stream.
    Each step is atomic, as the polls of the source are: what they share is
    behind channels and the locks of the routing table. This file looks at the
    shared socket only; HostState.v adds who owns what, and the drop of the
    socket. *)

From S2P Require Import Prelude Crates CratesRef Errors Time Packet.
From S2P Require Import PacketWire Congestion Socket PacketSender PacketReceiver Stream.
From S2P Require Import StreamFacts StreamRead Polls Listener Handshake.

(** ** Definitions *)

Section host.
Context `{By : BytesCrate, Rb : ReadBufCrate, Mp : MpscCrate, Dm : DashMapCrate}.
Variable clock : nat -> SystemTime.

(** A bound UDP socket, of which only [local_addr()] matters here: the traffic
    through it is in the answers given to the tasks. *)
Definition UdpSocket : Type := Result SocketAddr IoError.

(** [spawn_sender] and [spawn_receiver]: the state each task starts with. *)
Definition spawn_sender (s : UtpSocket) : PacketSender := mkPacketSender (local_addr s) [].
Definition spawn_receiver (s : UtpSocket) : PacketReceiver := mkPacketReceiver (local_addr s).

(** [TryFrom<UdpSocket>], with the tasks. *)
Definition try_from_udp (udp : UdpSocket)
    : Result (UtpSocket * (PacketSender * PacketReceiver)) IoError :=
  match UtpSocket_try_from udp with
  | Ok s => Ok (s, (spawn_sender s, spawn_receiver s))
  | Err e => Err e
  end.

(** [TryFrom<std::net::UdpSocket>]: [nonblocking] is what [set_nonblocking]
    gives, [converted] what tokio's conversion gives. *)
Definition try_from_std (nonblocking : Result unit IoError)
    (converted : Result UdpSocket IoError)
    : Result (UtpSocket * (PacketSender * PacketReceiver)) IoError :=
  match nonblocking with
  | Err e => Err e
  | Ok _ =>
      match converted with
      | Err e => Err e
      | Ok udp => try_from_udp udp
      end
  end.

(** [UtpSocket::bind]: [bound] is what [UdpSocket::bind] gives. *)
Definition bind (bound : Result UdpSocket IoError)
    : Result (UtpSocket * (PacketSender * PacketReceiver)) IoError :=
  match bound with
  | Ok udp => try_from_udp udp
  | Err e => Err e
  end.

(** What changes the shared state of a socket. *)
Inductive socket_step (s : UtpSocket) : UtpSocket -> Prop :=
  | host_connect_start resolved draws r s' rest :
      Forall u16 draws -> connect_start s resolved draws = Done (r, s', rest) ->
      socket_step s s'
  | host_connect_poll c r s' :
      connect_poll c s = Done (r, s') -> socket_step s s'
  | host_accept draw r s' :
      accept s draw = Done (r, s') -> socket_step s s'
  | host_sender_task fuel answers task r task' s' sent rest :
      sender_poll fuel answers task s = Done (r, task', s', sent, rest) ->
      socket_step s s'
  | host_receiver_task answers r s' rest :
      receiver_poll answers s = Done (r, s', rest) -> socket_step s s'
  | host_stream_read fuel st n buf r st' e' buf' :
      poll_read clock fuel st (mkEnv s n) buf = Done (r, st', e', buf') ->
      socket_step s (env_socket e')
  | host_stream_write st n buf r st' e' :
      poll_write clock st (mkEnv s n) buf = Done (r, st', e') ->
      socket_step s (env_socket e')
  | host_stream_flush fuel st n r st' e' :
      poll_flush clock fuel st (mkEnv s n) = Done (r, st', e') ->
      socket_step s (env_socket e')
  | host_stream_dropped st :
      socket_step s (mailbox_drop_rx s (inbound_packets st)).

(** ** Helper lemmas *)

(** The socket's invariant, while its owner holds it. *)
Definition socket_ok (s : UtpSocket) : Prop := wf_socket s /\ table_alive s = true.

Lemma touched_ok rx popped out s s' :
  touched rx popped out s s' -> socket_ok s -> socket_ok s'.
Proof.
  intros Ht [Hs Ha]. split; [by eapply touched_wf|].
  by rewrite (td_table_alive _ _ _ _ _ Ht).
Qed.

Lemma polled_ok st st' s s' out :
  polled st st' s s' out -> socket_ok s -> socket_ok s'.
Proof. intros [_ [popped Ht]]. by eapply touched_ok. Qed.

Lemma sender_poll_socket fuel answers task s r task' s' sent rest :
  sender_poll fuel answers task s = Done (r, task', s', sent, rest) ->
  s' = s \/ exists c, s' = set_outgoing_channel c s.
Proof.
  unfold sender_poll. destruct (socket_alive s); cbn; [|intros; outcome_inv; by left].
  intros ([[closed c] buffer] & _ & Hr)%bind_Done. right. exists c.
  destruct closed; [by outcome_inv|].
  apply bind_Done in Hr as ([[buffer2 sent2] rest2] & _ & Hr). by outcome_inv.
Qed.

Lemma connect_start_ok s resolved draws r s' rest :
  connect_start s resolved draws = Done (r, s', rest) -> Forall u16 draws ->
  socket_ok s -> socket_ok s'.
Proof.
  intros Hc Hu [Hs Ha]. unfold connect_start in Hc.
  destruct resolved as [[|remote addrs]|]; [by outcome_inv| |by outcome_inv].
  apply bind_Done in Hc as ([[[id rx] s1] rest1] & Hr & Hc).
  pose proof (register_connection_wf _ _ _ _ _ _ _ Hr Hu Hs) as Hs1.
  apply register_connection_Done in Hr as (skipped & -> & _ & Hi).
  pose proof (proj1 (mi_alive _ _ _ _ Hi)) as Ht1.
  destruct (send_to _ _ _) as [res s2] eqn:Hsend.
  pose proof (send_to_wf _ _ _ _ _ Hsend Hs1) as Hs2.
  apply send_to_view with (k := (id, remote)) in Hsend as (_ & _ & _ & Ht2).
  destruct res; outcome_inv; (split; [|unfold mailbox_drop_rx; try destruct (_ !! _); cbn; congruence]);
    [done|by apply mailbox_drop_rx_wf].
Qed.

Lemma socket_step_ok s s' : socket_step s s' -> socket_ok s -> socket_ok s'.
Proof.
  intros Hstep [Hs Ha].
  destruct Hstep as [resolved draws r s' rest Hu Hr|c r s' Hr|draw r s' Hr
    |fuel answers task r task' s' sent rest Hr|answers r s' rest Hr
    |fuel st n buf r st' e' buf' Hr|st n buf r st' e' Hr|fuel st n r st' e' Hr|st].
  - by eapply connect_start_ok.
  - unfold connect_poll in Hr. apply bind_Done in Hr as ([r1 s1] & Hm & Hr).
    apply touched_recv in Hm as [Ht _].
    assert (s' = s1) as -> by
      (destruct r1 as [[p|]|]; [destruct (packet_type p)|..]; by outcome_inv).
    by eapply touched_ok.
  - split; [by eapply accept_wf|]. rewrite <- Ha. by eapply accept_table.
  - apply sender_poll_socket in Hr as [->|[c ->]]; [done|].
    split; [by apply (wf_socket_ext s)|done].
  - unfold receiver_poll in Hr. destruct (socket_alive s); cbn in Hr; [|by outcome_inv].
    apply recv_loop_Done in Hr as (used & _ & Hrv); [|done..].
    split; [apply Hrv|by rewrite (rv_table _ _ _ Hrv)].
  - apply poll_read_polled in Hr as (out & Hp & _). by eapply polled_ok.
  - apply poll_write_polled in Hr as (out & sent & Hp & _). by eapply polled_ok.
  - apply poll_flush_polled in Hr. by eapply polled_ok.
  - split; [by apply mailbox_drop_rx_wf|]. unfold mailbox_drop_rx. by destruct (_ !! _).
Qed.

(** ** Properties *)

(** Every state of a bound socket, whatever calls, tasks and streams did to
    it and in whatever order, satisfies the routing invariant: distinct
    connections have distinct mailboxes, a routed connection has a mailbox in
    the heap, and a mailbox's sender lives exactly while it is routed. *)
Theorem socket_invariant bound s0 tasks s :
  bind bound = Ok (s0, tasks) -> rtc socket_step s0 s ->
  wf_socket s /\
  (forall k1 k2 id, route s k1 = Some id -> route s k2 = Some id -> k1 = k2).
Proof.
  intros Hb Hr. enough (socket_ok s) as [Hs _] by (split; [done|apply Hs]).
  assert (socket_ok s0) as H0.
  { unfold bind, try_from_udp in Hb. destruct bound as [udp|]; [|done].
    destruct (UtpSocket_try_from udp) as [s1|] eqn:Ht; [|done]. injection Hb as <- _.
    split; [by eapply UtpSocket_try_from_wf|]. by destruct udp; simplify_eq/=. }
  clear Hb. induction Hr as [s|s1 s2 s3 Hstep _ IH]; [done|]. by eapply IH, socket_step_ok.
Qed.
End host.

(** ** Witnesses *)

Lemma socket_invariant_witness :
  exists s, rtc (socket_step sample_clock) sample_socket s /\ wf_socket s.
Proof.
  destruct sample_connect as [s' Hs'].
  assert (Hr : rtc (socket_step sample_clock) sample_socket s').
  { eapply rtc_once, host_connect_start; [|exact Hs']. by repeat apply Forall_cons_2. }
  exists s'. split; [exact Hr|].
  exact (proj1 (socket_invariant sample_clock (Ok (Ok sample_addr)) sample_socket _ s'
    eq_refl Hr)).
Defined.
