(* ===== verification/Boxes.v ===== *)
(** * The owners of mailboxes

    The routing invariant of Socket.v, extended to the other ends: which owner
    (a stream, or a [connect] under way) holds the receive half of which mailbox,
    and what waits in it. Every operation on the socket is shown to keep it,
    with its effect on the set of owners. *)

From S2P Require Import Prelude Crates CratesRef Errors Packet PacketWire.
From S2P Require Import Socket PacketReceiver Stream StreamFacts.

(** ** Definitions *)

(** A packet in the mailbox of the connection [k]. *)
Record delivered_to (k : ConnKey) (p : Packet) : Prop := {
  de_wf : wf_Packet p;
  de_type : packet_type p <> Syn;
  de_id : connection_id p = k.1;
}.

(** A packet in the SYN queue. *)
Definition queued_syn (o : Packet * SocketAddr) : Prop :=
  wf_Packet o.1 /\ packet_type o.1 = Syn.

Section boxes.
Context `{By : BytesCrate, Mp : MpscCrate, Dm : DashMapCrate}.
Implicit Types s : UtpSocket.

(** The mailbox [id] is that of the connection [k], and its receive half lives. *)
Definition holds s (k : ConnKey) (id : ChanId) : Prop :=
  route s k = Some id /\ exists q, conn_view s k = Some (true, q).

(** [owned] maps each mailbox whose receive half has an owner to the owner's
    connection. *)
Record boxes_ok s (owned : gmap ChanId ConnKey) : Prop := {
  bo_wf : wf_socket s;
  bo_owned : forall id k, owned !! id = Some k <-> holds s k id;
  bo_views : forall k q, conn_view s k = Some (true, q) -> Forall (delivered_to k) q;
  bo_syn : Forall queued_syn (queued (syn_channel s));
}.

(** ** Helper lemmas *)

Lemma conn_view_inv s k b q : conn_view s k = Some (b, q) ->
  exists id c, route s k = Some id /\ mailboxes s !! id = Some c /\
    rx_alive c = b /\ queued c = q.
Proof.
  unfold conn_view. destruct (route s k) as [id|]; cbn; [|done].
  destruct (mailboxes s !! id) as [c|] eqn:Hc; cbn; [|done].
  intros [= <- <-]. by exists id, c.
Qed.

Lemma boxes_view s owned id k : boxes_ok s owned -> owned !! id = Some k ->
  exists c, mailboxes s !! id = Some c /\ rx_alive c = true /\ tx_alive c = true /\
    route s k = Some id /\ Forall (delivered_to k) (queued c).
Proof.
  intros Hb [Hr [q Hv]]%(bo_owned _ _ Hb).
  pose proof (bo_views _ _ Hb _ _ Hv) as Hq.
  apply conn_view_inv in Hv as (id2 & c & Hr2 & Hc & Hrx & <-).
  rewrite Hr in Hr2. injection Hr2 as <-. exists c. split_and!; try done.
  destruct (wf_route_alive _ (bo_wf _ _ Hb) _ _ Hr) as (c2 & ? & ?). congruence.
Qed.

(** The mailbox of an owner, by its key. *)
Lemma boxes_owned_inj s owned id1 id2 k : boxes_ok s owned ->
  owned !! id1 = Some k -> owned !! id2 = Some k -> id1 = id2.
Proof.
  intros Hb [H1 _]%(bo_owned _ _ Hb) [H2 _]%(bo_owned _ _ Hb). congruence.
Qed.

(** Two sockets with the same connections. *)
Lemma boxes_ext s s' owned :
  wf_socket s' -> (forall k, route s' k = route s k) ->
  (forall k q', conn_view s' k = Some (true, q') ->
     exists q popped, conn_view s k = Some (true, q) /\ q = popped ++ q') ->
  (forall k q, conn_view s k = Some (true, q) -> exists q', conn_view s' k = Some (true, q')) ->
  (exists popped, queued (syn_channel s) = popped ++ queued (syn_channel s')) ->
  boxes_ok s owned -> boxes_ok s' owned.
Proof.
  intros Hwf Hr Hback Hforth [popped Hsyn] [_ Ho Hv Hq]. split; [done|..].
  - intros id k. rewrite Ho. unfold holds. rewrite Hr.
    split; intros [? [q Hk]]; (split; [done|]); [by eapply Hforth|].
    apply Hback in Hk as (q0 & _ & ? & _). by exists q0.
  - intros k q' (q & popped' & Hk & ->)%Hback. apply Hv, Forall_app in Hk. apply Hk.
  - rewrite Hsyn in Hq. by apply Forall_app in Hq as [_ ?].
Qed.

(** A stream's poll. *)
Lemma touched_views rx popped out s s' k : touched rx popped out s s' ->
  (forall q', conn_view s' k = Some (true, q') ->
     exists q popped, conn_view s k = Some (true, q) /\ q = popped ++ q') /\
  (forall q, conn_view s k = Some (true, q) -> exists q', conn_view s' k = Some (true, q')).
Proof.
  intros [_ _ _ Ht _ _ Ho Hno Hso Hbox _ _ _].
  assert (Hr : route s' k = route s k) by (unfold route; by rewrite Ht).
  unfold conn_view. rewrite Hr. destruct (route s k) as [id|]; cbn; [|done].
  destruct (decide (id = rx)) as [->|Hne].
  - unfold mailbox in Hbox. destruct (mailboxes s !! rx) as [c|] eqn:Hc.
    + destruct (Hso c eq_refl) as (c' & Hc' & _ & Hrx). rewrite Hc' in *. cbn in *.
      rewrite Hrx, Hbox. destruct (rx_alive c); [|done].
      split; intros q [= <-]; [by eexists _, _|by eexists].
    + by rewrite (Hno eq_refl).
  - rewrite Ho by done. destruct (mailboxes s !! id); cbn; [|done].
    split; intros q [= -> ->]; [exists q, []|exists q]; done.
Qed.

Lemma boxes_touched rx popped out s s' owned :
  touched rx popped out s s' -> boxes_ok s owned -> boxes_ok s' owned.
Proof.
  intros Ht Hb. apply (boxes_ext s); try done.
  - eapply touched_wf; [done|apply Hb].
  - intros k. unfold route. by rewrite (td_table _ _ _ _ _ Ht).
  - intros k. apply (touched_views _ _ _ _ _ k Ht).
  - intros k. apply (touched_views _ _ _ _ _ k Ht).
  - exists []. by rewrite (td_syn _ _ _ _ _ Ht).
Qed.

(** An operation on the other two channels. *)
Lemma boxes_channels s s' owned :
  routing_table s' = routing_table s -> mailboxes s' = mailboxes s ->
  next_chan s' = next_chan s ->
  (exists popped, queued (syn_channel s) = popped ++ queued (syn_channel s')) ->
  boxes_ok s owned -> boxes_ok s' owned.
Proof.
  intros Ht Hm Hn Hsyn Hb.
  assert (Hr : forall k, route s' k = route s k) by (intros k; unfold route; by rewrite Ht).
  assert (Hv : forall k, conn_view s' k = conn_view s k)
    by (intros k; unfold conn_view; by rewrite Hr, Hm).
  apply (boxes_ext s); try done.
  - by apply (wf_socket_ext s); [..|apply Hb].
  - intros k q. rewrite Hv. by exists q, [].
  - intros k q. rewrite Hv. eauto.
Qed.

(** A new connection. *)
Lemma inserted_other s k rx s' k' : wf_socket s -> mailbox_inserted s k rx s' -> k' <> k ->
  route s' k' = route s k' /\ conn_view s' k' = conn_view s k'.
Proof.
  intros Hs Hi Hne.
  assert (Hr : route s' k' = route s k')
    by (unfold route; by rewrite (mi_table _ _ _ _ Hi), lookup_insert_ne).
  split; [done|]. unfold conn_view. rewrite Hr, (mi_heap _ _ _ _ Hi).
  destruct (route s k') as [id|] eqn:Hk; cbn; [|done].
  rewrite lookup_insert_ne; [done|]. intros <-.
  destruct (wf_route_alive _ Hs _ _ Hk) as (c & Hc & _).
  pose proof (mailboxes_fresh s Hs) as Hf. rewrite <- (mi_rx _ _ _ _ Hi) in Hf. congruence.
Qed.

Lemma boxes_inserted s k rx s' owned : mailbox_inserted s k rx s' -> u16 k.1 ->
  boxes_ok s owned -> boxes_ok s' (<[rx := k]> owned).
Proof.
  intros Hi Hk Hb. pose proof (bo_wf _ _ Hb) as Hs.
  assert (Hkn : route s' k = Some rx /\ conn_view s' k = Some (true, [])).
  { assert (Hr : route s' k = Some rx)
      by (unfold route; by rewrite (mi_table _ _ _ _ Hi), lookup_insert_eq).
    split; [done|]. rewrite (conn_view_Some s' k rx (unbounded_channel Packet)); [|done|].
    - by rewrite rx_alive_unbounded_channel, queued_unbounded_channel.
    - by rewrite (mi_heap _ _ _ _ Hi), lookup_insert_eq. }
  assert (Hfresh : owned !! rx = None).
  { destruct (owned !! rx) as [k2|] eqn:Ho; [|done].
    destruct (boxes_view _ _ _ _ Hb Ho) as (c & Hc & _).
    rewrite (mi_rx _ _ _ _ Hi), mailboxes_fresh in Hc; done. }
  split.
  - by apply (mailbox_inserted_wf s k rx).
  - intros id k'. rewrite lookup_insert_Some. destruct (decide (k' = k)) as [->|Hne].
    + split.
      * intros [[<- _]|[_ Ho]]; [by split; [apply Hkn|exists []; apply Hkn]|exfalso].
        apply (bo_owned _ _ Hb) in Ho as [Ho _]. by rewrite (mi_vacant _ _ _ _ Hi) in Ho.
      * intros [Hr _]. left. destruct Hkn. split; congruence.
    + unfold holds. destruct (inserted_other s k rx s' k' Hs Hi Hne) as [-> ->].
      split; [intros [[_ ->]|[_ Ho]]; [done|by apply Hb]|].
      intros Ho. right. apply (bo_owned _ _ Hb) in Ho. split; [congruence|done].
  - intros k' q. destruct (decide (k' = k)) as [->|Hne].
    + destruct Hkn as [_ ->]. intros [= <-]. constructor.
    + destruct (inserted_other s k rx s' k' Hs Hi Hne) as [_ ->]. apply Hb.
  - rewrite (mi_syn _ _ _ _ Hi). apply Hb.
Qed.

(** The receive half of an owner is dropped. *)
Lemma dropped_view s id k : wf_socket s ->
  conn_view (mailbox_drop_rx s id) k =
    if decide (route s k = Some id)
    then (fun _ => (false, [])) <$> conn_view s k
    else conn_view s k.
Proof.
  intros Hs. unfold mailbox_drop_rx. destruct (mailboxes s !! id) as [c|] eqn:Hc.
  - unfold conn_view, route at 1. cbn.
    change (entries (routing_table s) !! k) with (route s k).
    destruct (route s k) as [id2|]; cbn; [|by case_decide]. rewrite lookup_insert.
    case_decide as Hid; [subst id2|].
    + rewrite decide_True by done. rewrite Hc. cbn. by rewrite rx_alive_drop_rx, queued_drop_rx.
    + by rewrite decide_False by congruence.
  - case_decide as Hr; [|done]. destruct (wf_route_alive _ Hs _ _ Hr) as (c & ? & _).
    congruence.
Qed.

Lemma boxes_dropped s owned id : boxes_ok s owned ->
  boxes_ok (mailbox_drop_rx s id) (delete id owned).
Proof.
  intros Hb. pose proof (bo_wf _ _ Hb) as Hs.
  assert (Hr : forall k, route (mailbox_drop_rx s id) k = route s k)
    by (intros k; unfold mailbox_drop_rx; by destruct (mailboxes s !! id)).
  assert (Hv : forall k q, conn_view (mailbox_drop_rx s id) k = Some (true, q) <->
    route s k <> Some id /\ conn_view s k = Some (true, q)).
  { intros k q. rewrite dropped_view by done. case_decide as Hk; [|naive_solver].
    split; [|naive_solver]. destruct (conn_view s k); naive_solver. }
  split.
  - by apply mailbox_drop_rx_wf.
  - intros id2 k. rewrite lookup_delete_Some, (bo_owned _ _ Hb). unfold holds. rewrite Hr.
    setoid_rewrite Hv. naive_solver congruence.
  - intros k q [_ Hk]%Hv. by apply Hb.
  - unfold mailbox_drop_rx. destruct (mailboxes s !! id); apply Hb.
Qed.

(** The receiver task. *)
Lemma view_foldl_true k v os q' : foldl (view_step k) v os = Some (true, q') ->
  exists q, v = Some (true, q) /\ q' = q ++ (filter (is_for k) os).*1.
Proof.
  destruct v as [[[] q]|].
  - rewrite view_foldl_alive. intros [= <-]. by exists q.
  - rewrite view_foldl_stale. by destruct (is_empty _).
  - by rewrite view_foldl_None.
Qed.

Lemma is_for_delivered k os : Forall (fun o => wf_Packet o.1) os ->
  Forall (delivered_to k) (filter (is_for k) os).*1.
Proof.
  intros Hos. apply Forall_fmap, Forall_forall.
  intros o [Hf Ho]%list_elem_of_filter. cbn. rewrite Forall_forall in Hos.
  unfold is_for, is_syn in Hf. apply Is_true_true, andb_true_iff in Hf as [Hs Hk].
  apply negb_true_iff, bool_decide_eq_false in Hs. apply bool_decide_eq_true in Hk as <-.
  split; auto.
Qed.

Lemma boxes_received s used s' owned :
  received s used s' -> rx_alive (syn_channel s) = true ->
  Forall (fun o => wf_Packet o.1) (arrivals used) ->
  boxes_ok s owned -> boxes_ok s' owned.
Proof.
  intros [Hwf Hv Hr Hsyn _ _ _ _ _] Hrx Hused [_ Ho Hq Hsq]. split.
  - done.
  - intros id k. rewrite Ho. unfold holds. rewrite Hv. split.
    + intros [Hk [q Hkq]]. rewrite Hkq, view_foldl_alive.
      split; [|by eexists]. destruct (Hr k) as [->|Hnone]; [done|].
      specialize (Hv k). by rewrite conn_view_None, Hkq, view_foldl_alive in Hv.
    + intros [Hk [q' (q & Hkq & _)%view_foldl_true]]. split; [|by exists q].
      destruct (Hr k) as [<-|?]; [done|congruence].
  - intros k q'. rewrite Hv. intros (q & Hkq & ->)%view_foldl_true.
    apply Forall_app. split; [by apply Hq|by apply is_for_delivered].
  - destruct (Hsyn Hrx) as [_ ->]. apply Forall_app. split; [done|].
    apply Forall_forall. intros o [Hf Hin]%list_elem_of_filter. rewrite Forall_forall in Hused.
    split; [auto|]. unfold is_syn in Hf. by apply Is_true_true, bool_decide_eq_true in Hf.
Qed.

(** What arrives in datagrams made of bytes is well-formed. *)
Lemma arrivals_wf answers :
  Forall (fun a => match recv_from a with
                   | Ready (Ok (bs, _)) => Forall u8 bs
                   | _ => True
                   end) answers ->
  Forall (fun o => wf_Packet o.1) (arrivals answers).
Proof.
  intros Ha. apply Forall_forall. intros [p addr] (a & Hin & Hp)%list_elem_of_omap.
  rewrite Forall_forall in Ha. specialize (Ha a Hin). unfold arrival in Hp.
  destruct (recv_ready a) as [[]|]; try done.
  destruct (recv_from a) as [[[bs from]|]|]; try done.
  destruct (Packet_try_from bs) as [[q|]| |] eqn:Ht; simplify_eq. cbn.
  apply Packet_try_from_iff, parses_Ok_wire in Ht; [by destruct Ht|done].
Qed.

(** The socket is dropped, when it has no owner left. *)
Lemma boxes_socket_drop s : boxes_ok s ∅ -> boxes_ok (socket_drop s) ∅.
Proof.
  intros Hb.
  assert (Hr : forall k, route (socket_drop s) k = None)
    by (intros k; unfold route; cbn; by rewrite entries_new, lookup_empty).
  split.
  - apply socket_drop_wf, Hb.
  - intros id k. rewrite lookup_empty. unfold holds. rewrite Hr. naive_solver.
  - intros k q. by rewrite conn_view_None.
  - cbn. rewrite queued_drop_rx. constructor.
Qed.
End boxes.
