(* ===== verification/HostState.v ===== *)
(** * A host: a socket, its tasks and its users

    The whole state behind one [UtpSocket]: the shared socket, its two tasks, the
    connections under way and the streams, and the handles ([Arc]s) the program
    and its listeners have to it; and everything that can happen to it, as a step
    relation labelled with the datagrams it emits and the poll it made. The
    invariant says that every part stays consistent with the others; its
    consequences are that a stream's mailbox never closes, that the tasks run
    exactly as long as the socket has an owner, and that nothing but unfinished
    code ([todo!()]) panics. *)

From S2P Require Import Prelude Crates CratesRef Errors Time Packet.
From S2P Require Import PacketWire Congestion Socket PacketSender PacketReceiver Stream.
From S2P Require Import StreamFacts StreamRead StreamWrite StreamInvariant Polls.
From S2P Require Import Listener Handshake Host Boxes.

(** ** Definitions *)

(** What holds the receive half of a mailbox: a [connect] that waits for its
    answer, or a stream. Each also holds an [Arc] to the socket. *)
Inductive Owner : Type :=
  | Awaiting (c : Connecting)
  | Streaming (st : UtpStream).

Definition owner_key (o : Owner) : ConnKey :=
  match o with
  | Awaiting c => (co_id_recv c, co_remote_addr c)
  | Streaming st => (connection_id_recv st, remote_addr st)
  end.

(** What a poll of a stream did for its user: the bytes it read, or the packets
    queued for the bytes it accepted. *)
Inductive Event : Type :=
  | Read (chunk : bytes)
  | Wrote (accepted : bytes) (packets : list Outgoing)
  | Flushed.

(** The datagrams a step hands to the network, and the poll of a stream it is. *)
Record Label : Type := mkLabel {
  l_emitted : list Datagram;
  l_event : option (ChanId * Event);
}.

Definition silent : Label := mkLabel [] None.
Definition emits (ds : list Datagram) : Label := mkLabel ds None.
Definition polls (id : ChanId) (ev : Event) : Label := mkLabel [] (Some (id, ev)).

Section host.
Context `{By : BytesCrate, Rb : ReadBufCrate, Mp : MpscCrate, Dm : DashMapCrate}.
Variable clock : nat -> SystemTime.

(** [h_owners] is indexed by mailbox; [h_handles] counts the [Arc]s held by the
    program itself: a [UtpListener] is one. A task that has ended is [None]. *)
Record Host : Type := mkHost {
  h_socket : UtpSocket;
  h_handles : nat;
  h_owners : gmap ChanId Owner;
  h_sender : option PacketSender;
  h_receiver : option PacketReceiver;
}.

Definition with_h_socket (s : UtpSocket) (h : Host) : Host :=
  mkHost s (h_handles h) (h_owners h) (h_sender h) (h_receiver h).
Definition with_owner (id : ChanId) (o : Owner) (h : Host) : Host :=
  mkHost (h_socket h) (h_handles h) (<[id := o]> (h_owners h)) (h_sender h) (h_receiver h).
Definition with_handles (n : nat) (h : Host) : Host :=
  mkHost (h_socket h) n (h_owners h) (h_sender h) (h_receiver h).

(** Somebody holds an [Arc] to the socket. *)
Definition alive (h : Host) : bool :=
  negb (bool_decide (h_handles h = 0%nat) && bool_decide (h_owners h = ∅)).

(** The socket is dropped with the last of them. *)
Definition release (h : Host) : Host :=
  if alive h then h else with_h_socket (socket_drop (h_socket h)) h.

(** Dropping an owner drops its receive half. *)
Definition drop_owner (id : ChanId) (h : Host) : Host :=
  release (mkHost (mailbox_drop_rx (h_socket h) id) (h_handles h)
    (delete id (h_owners h)) (h_sender h) (h_receiver h)).

(** A task after a poll: when it is [Ready] it is over, and its end of the
    channel to the socket is dropped. *)
Definition after_sender (r : Poll unit) (task : PacketSender) (s : UtpSocket) (h : Host)
    : Host :=
  match r with
  | Pending => mkHost s (h_handles h) (h_owners h) (Some task) (h_receiver h)
  | Ready _ =>
      mkHost (set_outgoing_channel (drop_rx (outgoing_channel s)) s) (h_handles h)
        (h_owners h) None (h_receiver h)
  end.
Definition after_receiver (r : Poll unit) (s : UtpSocket) (h : Host) : Host :=
  match r with
  | Pending => with_h_socket s h
  | Ready _ =>
      mkHost (set_syn_channel (drop_tx (syn_channel s)) s) (h_handles h)
        (h_owners h) (h_sender h) None
  end.

(** The answers of the UDP socket to the receiver task bring datagrams made of
    bytes, among those that may arrive. *)
Definition admissible (arrives : bytes -> SocketAddr -> Prop) (a : RecvAnswer) : Prop :=
  match recv_from a with
  | Ready (Ok (bs, from)) => Forall u8 bs /\ arrives bs from
  | _ => True
  end.

Definition accepted_bytes (r : Poll (Result nat IoError)) (buf : bytes) : bytes :=
  match r with Ready (Ok n) => take n buf | _ => [] end.

(** Everything that happens at a host. A poll of a stream that panics unwinds the
    task that made it, and drops the stream. *)
Inductive host_step (arrives : bytes -> SocketAddr -> Prop) (h : Host)
    : Label -> Host -> Prop :=
  | hs_connect resolved draws c s' rest :
      (0 < h_handles h)%nat -> Forall u16 draws ->
      connect_start (h_socket h) resolved draws = Done (Ok c, s', rest) ->
      host_step arrives h silent
        (with_owner (co_receiver c) (Awaiting c) (with_h_socket s' h))
  | hs_connect_fails resolved draws err s' rest :
      (0 < h_handles h)%nat -> Forall u16 draws ->
      connect_start (h_socket h) resolved draws = Done (Err err, s', rest) ->
      host_step arrives h silent (with_h_socket s' h)
  | hs_connected id c st s' :
      h_owners h !! id = Some (Awaiting c) ->
      connect_poll c (h_socket h) = Done (Ready st, s') ->
      host_step arrives h silent (with_owner id (Streaming st) (with_h_socket s' h))
  | hs_connect_pending id c s' :
      h_owners h !! id = Some (Awaiting c) ->
      connect_poll c (h_socket h) = Done (Pending, s') ->
      host_step arrives h silent (with_h_socket s' h)
  | hs_accept draw st s' :
      (0 < h_handles h)%nat -> u16 draw ->
      accept (h_socket h) draw = Done (Ready (Ok st), s') ->
      host_step arrives h silent
        (with_owner (inbound_packets st) (Streaming st) (with_h_socket s' h))
  | hs_accept_fails draw err s' :
      (0 < h_handles h)%nat -> accept (h_socket h) draw = Done (Ready (Err err), s') ->
      host_step arrives h silent (with_h_socket s' h)
  | hs_accept_pending draw s' :
      (0 < h_handles h)%nat -> accept (h_socket h) draw = Done (Pending, s') ->
      host_step arrives h silent (with_h_socket s' h)
  | hs_accept_panics draw reason :
      (0 < h_handles h)%nat -> accept (h_socket h) draw = Panic reason ->
      host_step arrives h silent (with_h_socket (get_syn (h_socket h)).2 h)
  | hs_read id st fuel n buf r st' e' buf' chunk :
      h_owners h !! id = Some (Streaming st) ->
      poll_read clock fuel st (mkEnv (h_socket h) n) buf = Done (r, st', e', buf') ->
      filled buf' = filled buf ++ chunk ->
      host_step arrives h (polls id (Read chunk))
        (with_owner id (Streaming st') (with_h_socket (env_socket e') h))
  | hs_write id st n buf r st' e' out :
      h_owners h !! id = Some (Streaming st) -> Forall u8 buf ->
      poll_write clock st (mkEnv (h_socket h) n) buf = Done (r, st', e') ->
      queued (outgoing_channel (env_socket e')) =
        queued (outgoing_channel (h_socket h)) ++ out ->
      host_step arrives h (polls id (Wrote (accepted_bytes r buf) out))
        (with_owner id (Streaming st') (with_h_socket (env_socket e') h))
  | hs_flush id st fuel n r st' e' :
      h_owners h !! id = Some (Streaming st) ->
      poll_flush clock fuel st (mkEnv (h_socket h) n) = Done (r, st', e') ->
      host_step arrives h (polls id Flushed)
        (with_owner id (Streaming st') (with_h_socket (env_socket e') h))
  | hs_shutdown id st fuel n r st' e' :
      h_owners h !! id = Some (Streaming st) ->
      poll_shutdown clock fuel st (mkEnv (h_socket h) n) = Done (r, st', e') ->
      host_step arrives h (polls id Flushed)
        (with_owner id (Streaming st') (with_h_socket (env_socket e') h))
  | hs_drop id :
      is_Some (h_owners h !! id) -> host_step arrives h silent (drop_owner id h)
  | hs_clone_handle :
      (0 < h_handles h)%nat -> host_step arrives h silent (with_handles (S (h_handles h)) h)
  | hs_drop_handle n :
      h_handles h = S n -> host_step arrives h silent (release (with_handles n h))
  | hs_sender fuel answers task r task' s' sent rest :
      h_sender h = Some task ->
      sender_poll fuel answers task (h_socket h) = Done (r, task', s', sent, rest) ->
      host_step arrives h (emits sent) (after_sender r task' s' h)
  | hs_receiver task answers r s' rest :
      h_receiver h = Some task -> Forall (admissible arrives) answers ->
      receiver_poll answers (h_socket h) = Done (r, s', rest) ->
      host_step arrives h silent (after_receiver r s' h).

(** [UtpListener::bind] (or [UtpSocket::bind] into an [Arc]): a host just bound,
    with its one handle. *)
Definition host_new (bound : Result UdpSocket IoError) : Result Host IoError :=
  match bind bound with
  | Ok (s, (task, receiver)) => Ok (mkHost s 1 ∅ (Some task) (Some receiver))
  | Err e => Err e
  end.

(** ** The invariant *)

Definition owner_ok (id : ChanId) (o : Owner) : Prop :=
  match o with
  | Awaiting c => co_receiver c = id /\
      co_id_send c = wrapping_add16 (co_id_recv c) 1 /\ co_seq_number c = 2
  | Streaming st =>
      inbound_packets st = id /\ u16 (connection_id_send st) /\ wf_stream st
  end.

(** Each end of each channel lives exactly as long as its owner. *)
Record ends_ok (h : Host) : Prop := {
  en_socket : socket_alive (h_socket h) = alive h;
  en_table : table_alive (h_socket h) = alive h;
  en_syn_rx : rx_alive (syn_channel (h_socket h)) = alive h;
  en_out_tx : tx_alive (outgoing_channel (h_socket h)) = alive h;
  en_syn_tx : tx_alive (syn_channel (h_socket h)) = bool_decide (is_Some (h_receiver h));
  en_out_rx : rx_alive (outgoing_channel (h_socket h)) = bool_decide (is_Some (h_sender h));
}.

Record host_ok (h : Host) : Prop := {
  ok_boxes : boxes_ok (h_socket h) (owner_key <$> h_owners h);
  ok_owners : map_Forall owner_ok (h_owners h);
  ok_ends : ends_ok h;
  ok_sender : alive h = true -> is_Some (h_sender h);
  ok_backlog : forall task, h_sender h = Some task ->
    Forall (fun o => wf_Packet o.1) (backlog task (h_socket h));
}.

(** ** Helper lemmas: ends *)

Lemma alive_true h : alive h = true <-> (0 < h_handles h)%nat \/ h_owners h <> ∅.
Proof.
  unfold alive. rewrite negb_true_iff, andb_false_iff, !bool_decide_eq_false.
  assert (h_handles h <> 0%nat <-> (0 < h_handles h)%nat) by lia. tauto.
Qed.

Lemma alive_owner h id o : h_owners h !! id = Some o -> alive h = true.
Proof. intros Ho. apply alive_true. right. intros He. by rewrite He, lookup_empty in Ho. Qed.

Lemma alive_handle h : (0 < h_handles h)%nat -> alive h = true.
Proof. intros. apply alive_true. by left. Qed.

(** Operations that change no end of a channel. *)
Record same_ends (s s' : UtpSocket) : Prop := {
  se_socket : socket_alive s' = socket_alive s;
  se_table : table_alive s' = table_alive s;
  se_syn_rx : rx_alive (syn_channel s') = rx_alive (syn_channel s);
  se_out_tx : tx_alive (outgoing_channel s') = tx_alive (outgoing_channel s);
  se_syn_tx : tx_alive (syn_channel s') = tx_alive (syn_channel s);
  se_out_rx : rx_alive (outgoing_channel s') = rx_alive (outgoing_channel s);
}.

Lemma same_ends_trans s1 s2 s3 : same_ends s1 s2 -> same_ends s2 s3 -> same_ends s1 s3.
Proof. intros [] []. split; congruence. Qed.

Lemma touched_ends rx popped out s s' : touched rx popped out s s' -> same_ends s s'.
Proof. intros [? ? ? ? Hsyn ? ? ? ? ? ? ? ?]. by split; rewrite ?Hsyn. Qed.

Lemma inserted_ends s k rx s' : mailbox_inserted s k rx s' -> same_ends s s'.
Proof. intros [? ? ? ? ? Hsyn Hout ? []]. by split; rewrite ?Hsyn, ?Hout. Qed.

Lemma get_syn_ends s r s' : get_syn s = (r, s') -> same_ends s s'.
Proof.
  unfold get_syn. destruct (poll_recv (syn_channel s)) as [r2 c] eqn:Hp.
  intros [= <- <-]. apply poll_recv_alive in Hp as []. by split.
Qed.

Lemma ends_same h h' : ends_ok h -> same_ends (h_socket h) (h_socket h') ->
  alive h' = alive h -> h_sender h' = h_sender h -> h_receiver h' = h_receiver h ->
  ends_ok h'.
Proof. intros [] [] Ha Hs Hr. split; rewrite ?Ha, ?Hs, ?Hr; congruence. Qed.

(** An operation on the socket that changes the owners and queues [new]. *)
Lemma host_ok_update h s' owners' new :
  host_ok h -> same_ends (h_socket h) s' ->
  boxes_ok s' (owner_key <$> owners') -> map_Forall owner_ok owners' ->
  queued (outgoing_channel s') = queued (outgoing_channel (h_socket h)) ++ new ->
  Forall (fun o => wf_Packet o.1) new ->
  alive (mkHost s' (h_handles h) owners' (h_sender h) (h_receiver h)) = alive h ->
  host_ok (mkHost s' (h_handles h) owners' (h_sender h) (h_receiver h)).
Proof.
  intros [Hb Ho He Hs Hl] Hse Hb' Ho' Hq Hnew Ha.
  split; try done; [by apply (ends_same h)|by rewrite Ha|].
  cbn. intros task Ht. specialize (Hl task Ht). unfold backlog in *. rewrite Hq.
  rewrite (assoc_L (++)). apply Forall_app. by split.
Qed.

(** ** Helper lemmas: packets sent *)

Lemma syn_for_wf id : u16 id -> wf_Packet (syn_for id).
Proof. by split. Qed.

Lemma syn_ack_for_wf syn draw : wf_Packet syn -> u16 draw -> wf_Packet (syn_ack_for syn draw).
Proof. intros [] ?. by split. Qed.

Lemma stream_packet_wf st t payload o : stream_packet st t payload o ->
  u16 (connection_id_send st) -> u16 (st_seq_number st) -> u16 (st_ack_number st) ->
  Forall u8 payload -> wf_Packet o.1.
Proof.
  intros [_ (now & seq & ack & Hnow & -> & Hu)] Hid Hs Ha Hp. destruct (Hu Hs Ha).
  by split.
Qed.

Lemma wf_Packet_wire p : wf_Packet p -> wire_packet p.
Proof. by intros []. Qed.

(** ** Helper lemmas: the polls of an owner *)

(** Owners have mailboxes that exist. *)
Lemma owner_below h id o : host_ok h -> h_owners h !! id = Some o ->
  (id < next_chan (h_socket h))%nat.
Proof.
  intros Hok Ho. assert ((owner_key <$> h_owners h) !! id = Some (owner_key o)) as Hk
    by by rewrite lookup_fmap, Ho.
  destruct (boxes_view _ _ _ _ (ok_boxes _ Hok) Hk) as (c & Hc & _).
  apply (wf_fresh _ (bo_wf _ _ (ok_boxes _ Hok))). by exists c.
Qed.

Lemma owned_key h id o : h_owners h !! id = Some o ->
  (owner_key <$> h_owners h) !! id = Some (owner_key o).
Proof. intros Ho. by rewrite lookup_fmap, Ho. Qed.

(** What a stream's mailbox is in a consistent host. *)
Lemma owner_box h id o : host_ok h -> h_owners h !! id = Some o ->
  exists c, mailboxes (h_socket h) !! id = Some c /\ rx_alive c = true /\
    tx_alive c = true /\ route (h_socket h) (owner_key o) = Some id /\
    Forall (delivered_to (owner_key o)) (mailbox (h_socket h) id).
Proof.
  intros Hok Ho. apply owned_key in Ho.
  destruct (boxes_view _ _ _ _ (ok_boxes _ Hok) Ho) as (c & Hc & ? & ? & ? & Hq).
  exists c. split_and!; try done. unfold mailbox. by rewrite Hc.
Qed.

(** An owner that keeps its key polls its mailbox. *)
Lemma host_ok_touched h id o o' s' popped out :
  host_ok h -> h_owners h !! id = Some o -> owner_key o' = owner_key o ->
  touched id popped out (h_socket h) s' -> owner_ok id o' ->
  Forall (fun p => wf_Packet p.1) out ->
  host_ok (with_owner id o' (with_h_socket s' h)).
Proof.
  intros Hok Ho Hk Ht Ho' Hout. apply (host_ok_update h _ _ out); try done.
  - by eapply touched_ends.
  - rewrite fmap_insert, Hk, insert_id by by apply owned_key.
    eapply boxes_touched; [done|apply Hok].
  - apply map_Forall_insert_2; [done|apply Hok].
  - apply Ht.
  - rewrite (alive_owner h id o) by done. eapply alive_owner. cbn. apply lookup_insert_eq.
Qed.

(** A poll that leaves the owners as they are. *)
Lemma host_ok_touched_same h id s' popped out :
  host_ok h -> touched id popped out (h_socket h) s' ->
  Forall (fun p => wf_Packet p.1) out -> host_ok (with_h_socket s' h).
Proof.
  intros Hok Ht Hout. apply (host_ok_update h _ _ out); try done.
  - by eapply touched_ends.
  - eapply boxes_touched; [done|apply Hok].
  - apply Hok.
  - apply Ht.
Qed.

Lemma host_ok_polled h id st st' s' out :
  host_ok h -> h_owners h !! id = Some (Streaming st) ->
  polled st st' (h_socket h) s' out -> wf_stream st' ->
  Forall (fun p => wf_Packet p.1) out ->
  host_ok (with_owner id (Streaming st') (with_h_socket s' h)).
Proof.
  intros Hok Ho [[Hrv Hsd Hrm Hrx] [popped Ht]] Hwf Hout.
  destruct (ok_owners _ Hok _ _ Ho) as (Hid & Hu & _). rewrite Hid in Ht.
  eapply host_ok_touched; try done; cbn; [congruence|].
  split_and!; [congruence..|done].
Qed.

Lemma stream_mailbox_wire h id st : host_ok h -> h_owners h !! id = Some (Streaming st) ->
  Forall wire_packet (mailbox (h_socket h) (inbound_packets st)).
Proof.
  intros Hok Ho. destruct (owner_box _ _ _ Hok Ho) as (_ & _ & _ & _ & _ & Hq).
  destruct (ok_owners _ Hok _ _ Ho) as (-> & _).
  eapply Forall_impl; [exact Hq|]. intros p [Hp _ _]. by apply wf_Packet_wire.
Qed.

Lemma host_ok_read h id st fuel n buf r st' e' buf' :
  host_ok h -> h_owners h !! id = Some (Streaming st) ->
  poll_read clock fuel st (mkEnv (h_socket h) n) buf = Done (r, st', e', buf') ->
  host_ok (with_owner id (Streaming st') (with_h_socket (env_socket e') h)).
Proof.
  intros Hok Ho Hr. pose proof (stream_mailbox_wire _ _ _ Hok Ho) as Hbox.
  destruct (ok_owners _ Hok _ _ Ho) as (_ & Hu & Hst).
  pose proof (poll_read_wf _ _ _ _ _ _ _ _ _ Hr Hbox Hst) as Hst'.
  apply poll_read_polled in Hr as (out & Hp & Hout & _).
  eapply host_ok_polled; try done. eapply Forall_impl; [exact Hout|].
  intros o Hso. eapply stream_packet_wf; [done|done|apply Hst|apply Hst|constructor].
Qed.

Lemma host_ok_write h id st n buf r st' e' :
  host_ok h -> h_owners h !! id = Some (Streaming st) -> Forall u8 buf ->
  poll_write clock st (mkEnv (h_socket h) n) buf = Done (r, st', e') ->
  host_ok (with_owner id (Streaming st') (with_h_socket (env_socket e') h)).
Proof.
  intros Hok Ho Hbuf Hr. destruct (ok_owners _ Hok _ _ Ho) as (_ & Hu & Hst).
  assert (wf_stream st') as Hst' by (eapply poll_step_wf; [by eapply step_write|done]).
  apply poll_write_polled in Hr as (out & sent & Hp & Hout & [rest ->] & _).
  eapply host_ok_polled; try done. apply Forall_app in Hbuf as [Hsent _].
  clear Hp. induction Hout as [|d o sent out Hd _ IH]; [constructor|].
  cbn in Hsent. apply Forall_app in Hsent as [? ?]. constructor; [|by apply IH].
  eapply stream_packet_wf; [done|done|apply Hst|apply Hst|done].
Qed.

Lemma host_ok_flush h id st st0 fuel n r st' e' :
  host_ok h -> h_owners h !! id = Some (Streaming st0) ->
  st = st0 \/ st = set_shutdown true st0 ->
  poll_flush clock fuel st (mkEnv (h_socket h) n) = Done (r, st', e') ->
  host_ok (with_owner id (Streaming st') (with_h_socket (env_socket e') h)).
Proof.
  intros Hok Ho Hst Hr. pose proof (stream_mailbox_wire _ _ _ Hok Ho) as Hbox.
  destruct (ok_owners _ Hok _ _ Ho) as (Hid & Hu & Hwf).
  assert (same_ids st0 st /\ wf_stream st) as [Hi Hwf']
    by (destruct Hst as [->| ->]; split; try done; by apply set_shutdown_wf).
  assert (wf_stream st').
  { eapply poll_step_wf; [|exact Hwf']. eapply step_flush; [|exact Hr].
    by rewrite (si_rx _ _ Hi). }
  apply poll_flush_polled in Hr.
  eapply host_ok_polled; [done..|by eapply polled_ids|done|constructor].
Qed.

(** ** Helper lemmas: new connections *)

(** A new connection, which then sends its first packet. *)
Lemma host_ok_new h s1 s2 s3 k rx o p addr :
  host_ok h -> (0 < h_handles h)%nat ->
  boxes_ok s1 (owner_key <$> h_owners h) -> same_ends (h_socket h) s1 ->
  outgoing_channel s1 = outgoing_channel (h_socket h) ->
  mailbox_inserted s1 k rx s2 -> u16 k.1 -> touched rx [] [(p, addr)] s2 s3 ->
  wf_Packet p -> owner_key o = k -> owner_ok rx o ->
  host_ok (with_owner rx o (with_h_socket s3 h)).
Proof.
  intros Hok Hh Hb1 Hs1 Ho1 Hi Hk Ht Hp Hkey Ho.
  apply (host_ok_update h _ _ [(p, addr)]); try done.
  - eapply same_ends_trans; [exact Hs1|]. eapply same_ends_trans;
      [by eapply inserted_ends|by eapply touched_ends].
  - rewrite fmap_insert, Hkey. eapply boxes_touched; [done|]. by eapply boxes_inserted.
  - apply map_Forall_insert_2; [done|apply Hok].
  - cbn. by rewrite (td_out _ _ _ _ _ Ht), (mi_outgoing _ _ _ _ Hi), Ho1.
  - by apply Forall_singleton.
  - by rewrite !alive_handle.
Qed.

Lemma host_out_alive h : host_ok h -> alive h = true ->
  rx_alive (outgoing_channel (h_socket h)) = true.
Proof.
  intros Hok Ha. rewrite (en_out_rx _ (ok_ends _ Hok)).
  apply bool_decide_eq_true. by apply Hok.
Qed.

Lemma connect_start_inserted s resolved draws r s' rest :
  connect_start s resolved draws = Done (r, s', rest) ->
  rx_alive (outgoing_channel s) = true -> Forall u16 draws ->
  match r with
  | Ok c => exists s1, u16 (co_id_recv c) /\
      mailbox_inserted s (co_id_recv c, co_remote_addr c) (co_receiver c) s1 /\
      touched (co_receiver c) [] [(syn_for (co_id_recv c), co_remote_addr c)] s1 s' /\
      co_id_send c = wrapping_add16 (co_id_recv c) 1 /\ co_seq_number c = 2
  | Err _ => s' = s
  end.
Proof.
  intros Hc Hrx Hu. unfold connect_start in Hc.
  destruct resolved as [[|remote addrs]|]; [by outcome_inv| |by outcome_inv].
  apply bind_Done in Hc as ([[[id rx] s1] rest1] & Hr & Hc).
  apply register_connection_Done in Hr as (skipped & -> & _ & Hi).
  apply Forall_app in Hu as [_ [Hid _]%Forall_cons].
  rewrite <- (mi_outgoing _ _ _ _ Hi) in Hrx.
  destruct (send_to_Ok s1 (syn_for id) remote Hrx) as [s2 Hs].
  unfold syn_for in Hs. rewrite Hs in Hc. outcome_inv.
  exists s1. cbn. split_and!; try done. by apply touched_send.
Qed.

Lemma host_ok_connect h resolved draws r s' rest :
  host_ok h -> (0 < h_handles h)%nat -> Forall u16 draws ->
  connect_start (h_socket h) resolved draws = Done (r, s', rest) ->
  match r with
  | Ok c => host_ok (with_owner (co_receiver c) (Awaiting c) (with_h_socket s' h))
  | Err _ => host_ok (with_h_socket s' h)
  end.
Proof.
  intros Hok Hh Hu Hc. apply connect_start_inserted in Hc;
    [|by apply host_out_alive; [|apply alive_handle]|done].
  destruct r as [c|err]; [|subst; by destruct h].
  destruct Hc as (s1 & Hid & Hi & Ht & Hsd & Hsq).
  eapply (host_ok_new h (h_socket h)); try done. apply Hok.
Qed.

Lemma get_syn_popped s r s1 : get_syn s = (r, s1) ->
  exists popped, queued (syn_channel s) = popped ++ queued (syn_channel s1) /\
    forall o, r = Ready (Some o) -> popped = [o].
Proof.
  unfold get_syn. destruct (poll_recv (syn_channel s)) as [r2 c] eqn:Hp.
  intros [= <- <-]. cbn. destruct r2 as [[o|]|].
  - exists [o]. apply poll_recv_Some in Hp as (-> & _). split; [done|]. by intros ? [= <-].
  - exists []. by apply poll_recv_None in Hp as (-> & _ & -> & _).
  - exists []. by apply poll_recv_Pending in Hp as (-> & _).
Qed.

Lemma get_syn_ok h r s1 : host_ok h -> get_syn (h_socket h) = (r, s1) ->
  boxes_ok s1 (owner_key <$> h_owners h) /\ same_ends (h_socket h) s1 /\
  outgoing_channel s1 = outgoing_channel (h_socket h) /\
  forall o, r = Ready (Some o) -> queued_syn o.
Proof.
  intros Hok Hg. destruct (get_syn_same _ _ _ Hg) as (Ht & Hm & Hn & Ho).
  pose proof (get_syn_ends _ _ _ Hg) as He.
  destruct (get_syn_popped _ _ _ Hg) as (popped & Hq & Hpop). split_and!; try done.
  - apply (boxes_channels (h_socket h)); [done..|by exists popped|apply Hok].
  - intros o Hr. pose proof (bo_syn _ _ (ok_boxes _ Hok)) as Hs.
    rewrite Hq, (Hpop o Hr) in Hs. by apply Forall_cons in Hs as [? _].
Qed.

Lemma host_ok_get_syn h : host_ok h -> host_ok (with_h_socket (get_syn (h_socket h)).2 h).
Proof.
  intros Hok. destruct (get_syn (h_socket h)) as [r s1] eqn:Hg.
  destruct (get_syn_ok _ _ _ Hok Hg) as (Hb & He & Ho & _).
  apply (host_ok_update h _ _ []); try done; [apply Hok|]. cbn. by rewrite Ho, app_nil_r.
Qed.

Lemma accept_Done s draw r s' : accept s draw = Done (r, s') ->
  match r with
  | Pending => s' = (get_syn s).2
  | Ready (Ok st) => exists syn remote s1 s2,
      get_syn s = (Ready (Some (syn, remote)), s1) /\
      mailbox_inserted s1 (wrapping_add16 (connection_id syn) 1, remote)
        (inbound_packets st) s2 /\
      touched (inbound_packets st) [] [(syn_ack_for syn draw, remote)] s2 s' /\
      st = accepted syn remote (inbound_packets st) draw
  | Ready (Err _) => rx_alive (outgoing_channel s) = false
  end.
Proof.
  unfold accept. destruct (get_syn s) as [r1 s1] eqn:Hg.
  pose proof (get_syn_same _ _ _ Hg) as (_ & _ & _ & Hout).
  destruct r1 as [[[syn remote]|]|]; [|done|intros; by outcome_inv].
  unfold insert_connection. destruct (entry_occupied _ _) eqn:Ho; [done|].
  apply occupied_false, insert_mailbox_inserted in Ho.
  destruct (insert_mailbox _ _) as [rx s2]. cbn [fst snd] in Ho.
  destruct (send_to _ _ _) as [[[]|err] s3] eqn:Hs; intros; outcome_inv.
  - exists syn, remote, s1, s2. cbn. split_and!; [done|done|by apply touched_send|done].
  - apply send_to_Err in Hs as (Hrx & _). by rewrite <- Hout, <- (mi_outgoing _ _ _ _ Ho).
Qed.

Lemma host_ok_accept h draw r s' :
  host_ok h -> (0 < h_handles h)%nat -> u16 draw ->
  accept (h_socket h) draw = Done (r, s') ->
  match r with
  | Ready (Ok st) =>
      host_ok (with_owner (inbound_packets st) (Streaming st) (with_h_socket s' h))
  | Ready (Err _) => False
  | Pending => host_ok (with_h_socket s' h)
  end.
Proof.
  intros Hok Hh Hu Ha%accept_Done. destruct r as [[st|err]|].
  - destruct Ha as (syn & remote & s1 & s2 & Hg & Hi & Ht & Hst).
    destruct (get_syn_ok _ _ _ Hok Hg) as (Hb & He & Ho & Hsyn).
    destruct (Hsyn _ eq_refl) as [Hwf _]. cbn in Hwf.
    eapply (host_ok_new h s1); try done.
    + apply wrapping_add16_u16.
    + by apply syn_ack_for_wf.
    + by rewrite Hst.
    + rewrite Hst. cbn. split_and!; [done|apply Hwf|].
      apply UtpStream_new_wf; [apply wrapping_add16_u16|apply Hwf].
  - by rewrite (host_out_alive h Hok (alive_handle h Hh)) in Ha.
  - subst. by apply host_ok_get_syn.
Qed.

(** The answer to a [connect]. *)
Lemma connect_poll_touched c s r s' : connect_poll c s = Done (r, s') ->
  exists popped, touched (co_receiver c) popped [] s s' /\
    match r with
    | Ready st => exists response, response ∈ mailbox s (co_receiver c) /\
        packet_type response = State /\ st = connected c response
    | Pending => True
    end.
Proof.
  unfold connect_poll. intros ([r1 s1] & [Ht _]%touched_recv & Hr)%bind_Done.
  destruct r1 as [[p|]|]; [|done|outcome_inv; by eexists].
  destruct (packet_type p) eqn:Hp; try done. outcome_inv. exists [p]. split; [done|].
  exists p. split; [|done]. rewrite (td_mailbox _ _ _ _ _ Ht). by left.
Qed.

Lemma host_ok_connect_poll h id c r s' :
  host_ok h -> h_owners h !! id = Some (Awaiting c) ->
  connect_poll c (h_socket h) = Done (r, s') ->
  match r with
  | Ready st => host_ok (with_owner id (Streaming st) (with_h_socket s' h))
  | Pending => host_ok (with_h_socket s' h)
  end.
Proof.
  intros Hok Ho (popped & Ht & Hr)%connect_poll_touched.
  destruct (ok_owners _ Hok _ _ Ho) as (Hid & Hsd & Hsq). rewrite Hid in *.
  destruct r as [st|]; [|by eapply host_ok_touched_same].
  destruct Hr as (p & Hp & _ & ->).
  destruct (owner_box _ _ _ Hok Ho) as (_ & _ & _ & _ & _ & Hbox).
  rewrite Forall_forall in Hbox. destruct (Hbox p Hp) as [Hwf _ _].
  eapply host_ok_touched; try done. cbn.
  split_and!; [done|rewrite Hsd; apply wrapping_add16_u16|].
  apply UtpStream_new_wf; [by rewrite Hsq|apply Hwf].
Qed.

(** ** Helper lemmas: the tasks *)

Lemma sender_poll_ends fuel answers task s r task' s' sent rest :
  sender_poll fuel answers task s = Done (r, task', s', sent, rest) ->
  same_ends s s' /\ routing_table s' = routing_table s /\ mailboxes s' = mailboxes s /\
  next_chan s' = next_chan s /\ syn_channel s' = syn_channel s /\
  (r = Ready tt -> socket_alive s = false \/ tx_alive (outgoing_channel s) = false).
Proof.
  unfold sender_poll. destruct (socket_alive s) eqn:Ha; cbn.
  2: { intros; outcome_inv. split_and!; auto. by split. }
  intros ([[closed c] buffer] & (_ & Htx & Hrx & Hc & _)%fetch_outgoing_Done & Hr)%bind_Done.
  assert (s' = set_outgoing_channel c s) as ->.
  { destruct closed; [by outcome_inv|].
    apply bind_Done in Hr as ([[b2 s2] r2] & _ & Hr). by outcome_inv. }
  split_and!; try done. intros ->. right. apply Hc. destruct closed; [done|].
  by apply bind_Done in Hr as ([[b2 s2] r2] & _ & Hr).
Qed.

Lemma host_ok_sender h fuel answers task r task' s' sent rest :
  host_ok h -> h_sender h = Some task ->
  sender_poll fuel answers task (h_socket h) = Done (r, task', s', sent, rest) ->
  host_ok (after_sender r task' s' h).
Proof.
  intros Hok Htask Hr. pose proof (ok_backlog _ Hok _ Htask) as Hl.
  pose proof (ok_ends _ Hok) as He.
  destruct (sender_poll_Done _ _ _ _ _ _ _ _ _ Hr) as (gone & Hb & _).
  apply sender_poll_ends in Hr as (Hse & Ht & Hm & Hn & Hsy & Hdead).
  rewrite Hb in Hl. apply Forall_app in Hl as [_ Hl].
  assert (Hboxes : boxes_ok s' (owner_key <$> h_owners h)).
  { apply (boxes_channels (h_socket h)); [done..|exists []; by rewrite Hsy|apply Hok]. }
  destruct r as [[]|]; cbn.
  - assert (Ha : alive h = false).
    { destruct (Hdead eq_refl) as [Hd|Hd]; [by rewrite (en_socket _ He) in Hd|].
      by rewrite (en_out_tx _ He) in Hd. }
    destruct Hok as [_ Hown _ _ _], He, Hse. split; try done.
    + by apply (boxes_channels s'); [..|exists []|].
    + split; cbn; change (alive (mkHost _ _ _ _ _)) with (alive h);
        rewrite ?tx_alive_drop_rx, ?rx_alive_drop_rx; congruence || done.
    + change (alive (mkHost _ _ _ _ _)) with (alive h). congruence.
  - destruct He, Hse. split; try done; [apply Hok| |].
    + split; cbn; change (alive (mkHost _ _ _ _ _)) with (alive h); try congruence.
      rewrite Htask in *. cbn in *. congruence.
    + cbn. by intros ? [= <-].
Qed.

Lemma host_ok_receiver h arrives task answers r s' rest :
  host_ok h -> h_receiver h = Some task -> Forall (admissible arrives) answers ->
  receiver_poll answers (h_socket h) = Done (r, s', rest) ->
  host_ok (after_receiver r s' h).
Proof.
  intros Hok Htask Hans Hr. pose proof (ok_ends _ Hok) as He.
  assert (Hrecv : same_ends (h_socket h) s' /\
    outgoing_channel s' = outgoing_channel (h_socket h) /\
    boxes_ok s' (owner_key <$> h_owners h)).
  { unfold receiver_poll in Hr. destruct (socket_alive (h_socket h)) eqn:Ha; cbn in Hr.
    2: { outcome_inv. split_and!; [by split|done|apply Hok]. }
    rewrite (en_socket _ He) in Ha.
    apply recv_loop_Done in Hr as (used & -> & Hrv); [|apply Hok|by rewrite (en_table _ He)].
    assert (Hrx : rx_alive (syn_channel (h_socket h)) = true) by by rewrite (en_syn_rx _ He).
    split_and!.
    - split; try apply Hrv; try by rewrite (rv_outgoing _ _ _ Hrv).
      rewrite Hrx. by apply (rv_syn _ _ _ Hrv).
    - apply Hrv.
    - eapply boxes_received; try done; [|apply Hok]. apply arrivals_wf.
      apply Forall_app in Hans as [Hans _]. eapply Forall_impl; [exact Hans|].
      intros a. unfold admissible. destruct (recv_from a) as [[[]|]|]; naive_solver. }
  destruct Hrecv as (Hse & Ho & Hb).
  destruct r as [[]|]; cbn.
  - destruct Hok as [_ Hown _ Hs Hl], He, Hse. split; try done.
    + by apply (boxes_channels s'); [..|exists []; cbn; by rewrite queued_drop_tx|].
    + split; cbn; change (alive (mkHost _ _ _ _ _)) with (alive h);
        rewrite ?tx_alive_drop_tx, ?rx_alive_drop_tx; congruence || done.
    + cbn. intros t Ht. specialize (Hl t Ht). unfold backlog in *. cbn. by rewrite Ho.
  - apply (host_ok_update h _ _ []); try done; [apply Hok|]. by rewrite Ho, app_nil_r.
Qed.

(** ** Helper lemmas: the end of owners, handles and the socket *)

(** The last owner or handle is gone: the socket is dropped, or somebody is left. *)
Lemma host_ok_release h : alive h = false ->
  boxes_ok (h_socket h) (owner_key <$> h_owners h) ->
  tx_alive (syn_channel (h_socket h)) = bool_decide (is_Some (h_receiver h)) ->
  rx_alive (outgoing_channel (h_socket h)) = bool_decide (is_Some (h_sender h)) ->
  (forall task, h_sender h = Some task ->
     Forall (fun o => wf_Packet o.1) (backlog task (h_socket h))) ->
  host_ok (with_h_socket (socket_drop (h_socket h)) h).
Proof.
  intros Ha Hb Hsy Hou Hl.
  assert (h_owners h = ∅) as He.
  { destruct (decide (h_owners h = ∅)) as [|Hne]; [done|].
    assert (alive h = true) by (apply alive_true; by right). congruence. }
  rewrite He, fmap_empty in Hb. apply boxes_socket_drop in Hb.
  split; cbn; rewrite ?He; try done.
  - split; cbn; rewrite ?rx_alive_drop_rx, ?tx_alive_drop_rx, ?tx_alive_drop_tx,
      ?rx_alive_drop_tx; done.
  - change (alive (with_h_socket _ h)) with (alive h). by rewrite Ha.
  - intros task Ht. specialize (Hl task Ht). unfold backlog in *. cbn.
    by rewrite queued_drop_tx.
Qed.

Lemma host_ok_drop_owner h id : host_ok h -> is_Some (h_owners h !! id) ->
  host_ok (drop_owner id h).
Proof.
  intros Hok [o Ho]. unfold drop_owner, release.
  set (s' := mailbox_drop_rx (h_socket h) id). set (h' := mkHost _ _ _ _ _).
  assert (Hse : same_ends (h_socket h) s' /\ outgoing_channel s' = outgoing_channel (h_socket h)).
  { unfold s', mailbox_drop_rx. destruct (mailboxes _ !! _); (split; [split|]); done. }
  destruct Hse as [Hse Hout].
  assert (Hb : boxes_ok s' (owner_key <$> delete id (h_owners h)))
    by (rewrite fmap_delete; apply boxes_dropped, Hok).
  pose proof (alive_owner _ _ _ Ho) as Ha. pose proof (ok_ends _ Hok) as He.
  assert (Hl : forall task, h_sender h = Some task ->
    Forall (fun o => wf_Packet o.1) (backlog task s')).
  { intros task Ht. pose proof (ok_backlog _ Hok _ Ht) as Hl. unfold backlog in *.
    by rewrite Hout. }
  destruct (alive h') eqn:Ha'.
  - apply (host_ok_update h _ _ []); try done; [|by rewrite Hout, app_nil_r|].
    + apply map_Forall_delete, Hok.
    + by rewrite Ha.
  - apply host_ok_release; try done; cbn.
    + by rewrite (se_syn_tx _ _ Hse), (en_syn_tx _ He).
    + by rewrite (se_out_rx _ _ Hse), (en_out_rx _ He).
Qed.

Lemma host_ok_handles h n : host_ok h -> (0 < h_handles h)%nat ->
  host_ok (release (with_handles n h)).
Proof.
  intros Hok Hh. unfold release. pose proof (ok_ends _ Hok) as He.
  destruct (alive (with_handles n h)) eqn:Ha.
  - destruct Hok as [Hb Ho _ Hs Hl]. split; try done.
    + apply (ends_same h); [done|by split| |done..]. by rewrite Ha, alive_handle.
    + intros _. by apply Hs, alive_handle.
  - apply host_ok_release; [done|apply Hok|apply He|apply He|apply Hok].
Qed.

(** ** The invariant is kept *)

Lemma host_step_ok arrives h l h' : host_step arrives h l h' -> host_ok h -> host_ok h'.
Proof.
  intros Hstep Hok.
  destruct Hstep as [resolved draws c s' rest Hh Hu Hr|resolved draws err s' rest Hh Hu Hr
    |id c st s' Ho Hr|id c s' Ho Hr|draw st s' Hh Hu Hr|draw err s' Hh Hr|draw s' Hh Hr
    |draw reason Hh Hr|id st fuel n buf r st' e' buf' chunk Ho Hr _
    |id st n buf r st' e' out Ho Hbuf Hr _|id st fuel n r st' e' Ho Hr
    |id st fuel n r st' e' Ho Hr|id Ho|Hh|n Hn|fuel answers task r task' s' sent rest Ht Hr
    |task answers r s' rest Ht Ha Hr].
  - exact (host_ok_connect h resolved draws (Ok c) s' rest Hok Hh Hu Hr).
  - exact (host_ok_connect h resolved draws (Err err) s' rest Hok Hh Hu Hr).
  - exact (host_ok_connect_poll h id c (Ready st) s' Hok Ho Hr).
  - exact (host_ok_connect_poll h id c Pending s' Hok Ho Hr).
  - exact (host_ok_accept h draw (Ready (Ok st)) s' Hok Hh Hu Hr).
  - apply accept_Done in Hr. by rewrite (host_out_alive h Hok (alive_handle h Hh)) in Hr.
  - apply accept_Done in Hr as ->. by apply host_ok_get_syn.
  - by apply host_ok_get_syn.
  - by eapply host_ok_read.
  - by eapply host_ok_write.
  - eapply host_ok_flush; [done|done|by left|done].
  - eapply host_ok_flush; [done|done|by right|by apply poll_shutdown_flush].
  - by apply host_ok_drop_owner.
  - assert (with_handles (S (h_handles h)) h = release (with_handles (S (h_handles h)) h)) as ->.
    { unfold release. rewrite alive_handle; [done|cbn; lia]. }
    by apply host_ok_handles.
  - apply host_ok_handles; [done|lia].
  - by eapply host_ok_sender.
  - by eapply host_ok_receiver.
Qed.

Lemma host_new_ok bound h : host_new bound = Ok h -> host_ok h.
Proof.
  clear clock. unfold host_new, bind, try_from_udp. destruct bound as [udp|]; [|done].
  destruct (UtpSocket_try_from udp) as [s|] eqn:Hs; [|done].
  intros [= <-]. pose proof (UtpSocket_try_from_wf _ _ Hs) as Hwf.
  destruct udp as [addr|]; [|done]. cbn in Hs. injection Hs as <-.
  assert (Hr : forall k, route (mkUtpSocket true true addr dm_new (unbounded_channel _)
    (unbounded_channel _) ∅ 0%nat) k = None)
    by (intros k; unfold route; cbn; by rewrite entries_new, lookup_empty).
  split; cbn; try done.
  - split; cbn; try done.
    + intros id k. rewrite fmap_empty, lookup_empty. unfold holds. rewrite Hr. naive_solver.
    + intros k q. by rewrite conn_view_None.
    + rewrite queued_unbounded_channel. constructor.
  - split; cbn; rewrite ?rx_alive_unbounded_channel, ?tx_alive_unbounded_channel; done.
  - intros task [= <-]. unfold backlog. cbn. by rewrite queued_unbounded_channel.
Qed.

(** ** Helper lemmas: how polls end *)

(** Done, or stopped by unfinished code. *)
Definition done_or_todo {A} (m : Outcome A) : Prop := (exists a, m = Done a) \/ m = Panic Todo.

Lemma done_or_todo_bind {A B} (m : Outcome A) (k : A -> Outcome B) :
  done_or_todo m -> (forall a, m = Done a -> done_or_todo (k a)) -> done_or_todo (m ≫= k).
Proof. intros [[a ->]| ->] Hk; [by apply Hk|by right]. Qed.

Lemma done_or_todo_Done {A} (a : A) : done_or_todo (Done a).
Proof. left. by exists a. Qed.

Lemma mailbox_recv_total s rx : is_Some (mailboxes s !! rx) ->
  exists r, mailbox_poll_recv s rx = Done r.
Proof. intros [c Hc]. unfold mailbox_poll_recv. rewrite Hc. cbn. destruct (poll_recv c). eauto. Qed.

Lemma poll_read_packet_ends fuel st e : (forall i, 0 <= clock i) ->
  is_Some (mailboxes (env_socket e) !! inbound_packets st) ->
  (length (mailbox (env_socket e) (inbound_packets st)) < fuel)%nat ->
  done_or_todo (poll_read_packet clock fuel st e).
Proof.
  intros Hc. revert e. induction fuel as [|fuel IH]; intros e Hbox Hf; [lia|]. cbn.
  destruct (mailbox_recv_total _ _ Hbox) as [[r s] Hr]. rewrite Hr. cbn.
  pose proof (touched_recv _ _ _ _ Hr) as [Ht _].
  destruct r as [[p|]|]; [|apply done_or_todo_Done..].
  destruct (read_clock_total clock (with_socket s e)) as [t ->]; [apply Hc|]. cbn.
  destruct Hbox as [c Hbox]. destruct (td_some _ _ _ _ _ Ht c Hbox) as (c' & Hc' & _).
  rewrite (td_mailbox _ _ _ _ _ Ht) in Hf. cbn in Hf.
  unfold is_suspicious. destruct (packet_type p); try (by right); cbn;
    (case_match; [apply IH; cbn; [by eauto|lia]|apply done_or_todo_Done]).
Qed.

Lemma process_packets_ends fuel st e : (forall i, 0 <= clock i) ->
  is_Some (mailboxes (env_socket e) !! inbound_packets st) ->
  (length (mailbox (env_socket e) (inbound_packets st)) < fuel)%nat ->
  done_or_todo (process_packets clock fuel st e).
Proof.
  intros Hc. revert st e. induction fuel as [|fuel IH]; intros st e Hbox Hf; [lia|].
  cbn [process_packets]. apply done_or_todo_bind; [by apply poll_read_packet_ends|].
  intros [[r st0] e0] (skipped & lst & [Ht _ _ Hres])%poll_read_packet_Done.
  destruct r as [[p|]|]; [|apply done_or_todo_Done..]. destruct Hres as (-> & Hrx & _).
  rewrite (td_mailbox _ _ _ _ _ Ht), !length_app in Hf. cbn in Hf.
  destruct Hbox as [c Hbox]. destruct (td_some _ _ _ _ _ Ht c Hbox) as (c' & Hc' & _).
  apply done_or_todo_bind.
  { unfold handle_packet. destruct (packet_type p); (by right) || apply done_or_todo_Done. }
  intros st2 [[_ _ _ Hrx2 _ _ _] _]%handle_packet_same.
  apply IH; rewrite Hrx2, Hrx; [by exists c'|lia].
Qed.

(** The loop of an owner's poll does not find its mailbox closed. *)
Lemma process_packets_not_closed h id st fuel n term st' e' :
  host_ok h -> h_owners h !! id = Some (Streaming st) ->
  process_packets clock fuel st (mkEnv (h_socket h) n) = Done (term, st', e') ->
  term = false /\ is_shutdown st' = is_shutdown st.
Proof.
  intros Hok Ho (popped & st1 & [_ _ Hr Hst Hcl])%process_packets_Done.
  destruct (owner_box _ _ _ Hok Ho) as (c & Hc & _ & Htx & _).
  destruct (ok_owners _ Hok _ _ Ho) as (Hid & _). cbn in Hcl. rewrite Hid in Hcl.
  destruct term; [|apply receive_all_same in Hr as [_ ?]; split; congruence].
  destruct (Hcl eq_refl) as (c2 & ? & ?). congruence.
Qed.
End host.
