(* ===== verification/Handles.v ===== *)
(** * Handles on a socket (src/src/listener.rs, src/src/socket.rs)

    Who holds an [Arc] to a socket apart from the streams: the program, and its
    listeners, each of which is such a handle. The ways to make a listener, as
    operations on the host. *)

From S2P Require Import Prelude Crates CratesRef Errors Packet Socket.
From S2P Require Import PacketSender PacketReceiver Stream Listener Host HostState.

(** ** Definitions *)

Section handles.
Context `{By : BytesCrate, Rb : ReadBufCrate, Mp : MpscCrate, Dm : DashMapCrate}.

(** [Arc::new] on a socket whose tasks were spawned: its only handle. *)
Definition arc_new (socket : UtpSocket * (PacketSender * PacketReceiver)) : Host :=
  mkHost socket.1 1 ∅ (Some socket.2.1) (Some socket.2.2).

(** [Arc::clone], and the drop of a handle. *)
Definition arc_clone (h : Host) : Host := with_handles (S (h_handles h)) h.
Definition arc_drop (h : Host) : Host := release (with_handles (pred (h_handles h)) h).

(** [UtpListener::new] takes a handle over. *)
Definition UtpListener_new (h : Host) : Host := h.

(** [UtpListener::bind]. *)
Definition UtpListener_bind (bound : Result UdpSocket IoError) : Result Host IoError :=
  match bind bound with
  | Ok socket => Ok (UtpListener_new (arc_new socket))
  | Err e => Err e
  end.

(** [From<UtpSocket>]. *)
Definition UtpListener_from_socket (socket : UtpSocket * (PacketSender * PacketReceiver))
    : Host :=
  UtpListener_new (arc_new socket).

(** [From<Arc<UtpSocket>>]: the listener gets a clone, and the argument is dropped
    at the end. *)
Definition UtpListener_from_arc (h : Host) : Host := arc_drop (UtpListener_new (arc_clone h)).

(** [local_addr] of a listener. *)
Definition UtpListener_local_addr (h : Host) : SocketAddr := local_addr (h_socket h).

(** ** Helper lemmas *)

(** Binding a listener gives the host of [host_new]. *)
Lemma UtpListener_bind_host bound : UtpListener_bind bound = host_new bound.
Proof. unfold UtpListener_bind, host_new. by destruct (bind bound) as [[s [t r]]|e]. Qed.

(** A listener made from a handle replaces it: nothing is dropped in between. *)
Lemma UtpListener_from_arc_same h : (0 < h_handles h)%nat -> UtpListener_from_arc h = h.
Proof.
  intros Hh. unfold UtpListener_from_arc, arc_drop, release. rewrite alive_handle by done.
  by destruct h.
Qed.
End handles.
