(* ===== verification/HostProps.v ===== *)
(** * What holds in every host

    The consequences of the invariant of HostState.v, for every state a host can
    reach: what its users' polls and its tasks can and cannot do. *)

From S2P Require Import Prelude Crates CratesRef Errors Time Packet.
From S2P Require Import PacketWire Congestion Socket PacketSender PacketReceiver Stream.
From S2P Require Import StreamFacts StreamRead StreamWrite StreamInvariant Polls.
From S2P Require Import Listener Handshake Host Boxes HostState.

(** ** Definitions *)

Section reach.
Context `{By : BytesCrate, Rb : ReadBufCrate, Mp : MpscCrate, Dm : DashMapCrate}.

Definition host_moves (clock : nat -> SystemTime) (arrives : bytes -> SocketAddr -> Prop)
    (h h' : Host) : Prop :=
  exists l, host_step clock arrives h l h'.

(** The states of a host from its binding on, under any traffic. *)
Definition reachable (clock : nat -> SystemTime) (h : Host) : Prop :=
  exists bound h0, host_new bound = Ok h0 /\ rtc (host_moves clock (fun _ _ => True)) h0 h.

End reach.

Section properties.
Context `{By : BytesCrate, Rb : ReadBufCrate, Mp : MpscCrate, Dm : DashMapCrate}.
Variable clock : nat -> SystemTime.

(** ** Helper lemmas *)

Lemma host_moves_ok arrives h h' : rtc (host_moves clock arrives) h h' -> host_ok h -> host_ok h'.
Proof. induction 1 as [|h1 h2 h3 [l Hs] _ IH]; eauto using host_step_ok. Qed.

Lemma reachable_ok h : reachable clock h -> host_ok h.
Proof. intros (bound & h0 & H0 & Hr). eapply host_moves_ok; [done|by eapply host_new_ok]. Qed.

Lemma poll_read_ends fuel st e buf : (forall i, 0 <= clock i) ->
  is_Some (mailboxes (env_socket e) !! inbound_packets st) ->
  (length (mailbox (env_socket e) (inbound_packets st)) < fuel)%nat ->
  u16 (st_ack_number st) -> done_or_todo (poll_read clock fuel st e buf).
Proof.
  intros Hc Hbox Hf Hu. unfold poll_read.
  apply done_or_todo_bind; [by apply process_packets_ends|].
  intros [[term st1] e1] (_ & _ & Hack)%process_packets_polled.
  destruct term; [apply done_or_todo_Done|].
  destruct (assemble_run st1) as (ds & m' & _ & ->); [by rewrite Hack|]. cbn [mbind Outcome_bind].
  unfold send_ack, send_packet.
  destruct (read_clock_total clock e1) as [t ->]; [apply Hc|]. cbn [mbind Outcome_bind].
  destruct (send_to _ _ _) as [[[]|err] s2]; cbn [mbind Outcome_bind]; [|apply done_or_todo_Done].
  destruct (is_empty _); [apply done_or_todo_Done|].
  destruct (deliver_chunk (received_data (assembled st1 ds m')) buf)
    as (chunk & rest & buf2 & -> & _ & _ & Hfit & Hput & _).
  cbn [mbind Outcome_bind]. rewrite Hfit, Hput. apply done_or_todo_Done.
Qed.

Lemma poll_flush_ends fuel st e : (forall i, 0 <= clock i) ->
  is_Some (mailboxes (env_socket e) !! inbound_packets st) ->
  (length (mailbox (env_socket e) (inbound_packets st)) < fuel)%nat ->
  done_or_todo (poll_flush clock fuel st e).
Proof.
  intros Hc Hbox Hf. unfold poll_flush.
  apply done_or_todo_bind; [by apply process_packets_ends|].
  intros [[term st1] e1] _. destruct (is_empty _); [apply done_or_todo_Done|].
  destruct (is_shutdown st1); [by right|apply done_or_todo_Done].
Qed.

Lemma poll_shutdown_ends fuel st e : (forall i, 0 <= clock i) ->
  is_Some (mailboxes (env_socket e) !! inbound_packets st) ->
  (length (mailbox (env_socket e) (inbound_packets st)) < fuel)%nat ->
  done_or_todo (poll_shutdown clock fuel st e).
Proof.
  intros Hc Hbox Hf. unfold poll_shutdown.
  apply done_or_todo_bind; [by apply poll_flush_ends|].
  intros [[[[[]|err]|] st1] e1] _; [by right|apply done_or_todo_Done..].
Qed.

Lemma send_buffered_no_panic answers buffer sent reason :
  Forall (fun o => wf_Packet o.1) buffer ->
  send_buffered answers buffer sent <> Panic reason.
Proof.
  revert buffer sent. induction answers as [|a answers IH]; intros [|[p addr] buffer] sent Hb;
    cbn; try done; apply Forall_cons in Hb as [Hp Hb]; rewrite bytes_from_packet_wf by done;
    cbn; [done|].
  destruct a as [[n|err]|]; [by apply IH| |done].
  apply IH. by constructor.
Qed.

Lemma fetch_outgoing_no_panic fuel c buffer reason :
  fetch_outgoing fuel c buffer <> Panic reason.
Proof.
  revert c buffer. induction fuel as [|fuel IH]; intros c buffer; cbn; [done|].
  destruct (poll_recv c) as [[[]|] c2]; [apply IH|done..].
Qed.

Lemma sender_poll_no_panic fuel answers task s reason :
  Forall (fun o => wf_Packet o.1) (backlog task s) ->
  sender_poll fuel answers task s <> Panic reason.
Proof.
  intros Hl. unfold sender_poll. destruct (socket_alive s); cbn; [|done].
  destruct (fetch_outgoing _ _ _) as [[[closed c] buffer]|r|] eqn:Hf; cbn; [..|done].
  - destruct closed; [done|]. unfold backlog in Hl.
    apply fetch_outgoing_Done in Hf as (Hb & _). rewrite Hb in Hl.
    apply Forall_app in Hl as [Hl _].
    destruct (send_buffered _ _ _) as [[[b2 s2] a2]|r|] eqn:Hs; cbn; [done| |done].
    by apply send_buffered_no_panic in Hs.
  - by apply fetch_outgoing_no_panic in Hf.
Qed.

Lemma accept_ends s draw : tx_alive (syn_channel s) = true -> done_or_todo (accept s draw).
Proof.
  intros Htx. unfold accept, get_syn. destruct (poll_recv (syn_channel s)) as [r c] eqn:Hp.
  destruct r as [[[p remote]|]|]; [| |apply done_or_todo_Done].
  - destruct (insert_connection _ _ _) as [[rx|err] s2]; [|by right].
    destruct (send_to _ _ _) as [[[]|err] s3]; apply done_or_todo_Done.
  - apply poll_recv_None in Hp as (_ & ? & _). congruence.
Qed.

(** Without the receiver task nobody holds the sender of the SYN queue. *)
Lemma accept_unwraps s draw : tx_alive (syn_channel s) = false ->
  done_or_todo (accept s draw) \/ accept s draw = Panic UnwrapNone.
Proof.
  intros Htx. unfold accept. destruct (get_syn s) as [[[[p remote]|]|] s1]; [|by right|].
  - left. destruct (insert_connection _ _ _) as [[rx|err] s2]; [|by right].
    destruct (send_to _ _ _) as [[[]|err] s3]; apply done_or_todo_Done.
  - left. apply done_or_todo_Done.
Qed.

Lemma accept_closed `{!PromptMpsc} s draw : tx_alive (syn_channel s) = false ->
  queued (syn_channel s) = [] -> accept s draw = Panic UnwrapNone.
Proof.
  intros Htx Hq. unfold accept, get_syn. destruct (poll_recv (syn_channel s)) as [r c] eqn:Hp.
  destruct r as [[o|]|]; [|done|].
  - apply poll_recv_Some in Hp as (Ho & _). congruence.
  - apply poll_recv_prompt in Hp as [_ ?]. congruence.
Qed.

Lemma connect_start_no_panic s resolved draws reason :
  connect_start s resolved draws <> Panic reason.
Proof.
  unfold connect_start. destruct resolved as [[|remote addrs]|err]; [done| |done].
  assert (Hreg : register_connection s remote draws <> Panic reason).
  { induction draws as [|draw draws IH]; cbn; [done|].
    by case_match. }
  destruct (register_connection s remote draws) as [[[[id rx] s1] rest]|r|]; cbn; [|intros [= ->]; by apply Hreg|done].
  by destruct (send_to _ _ _) as [[]].
Qed.

(** ** Properties *)

(** C14. The whole state of a host stays consistent, whatever its users, its tasks
    and the network do and in whatever order: the routing table, the heap of
    mailboxes and the owners agree (an owner holds the live receive half of
    exactly the mailbox its connection is routed to, and every live receive half
    has one owner); each end of each channel, and the socket and table the tasks
    refer to weakly, live exactly as long as their owners; what waits in a
    mailbox is a well-formed packet of its connection, in the SYN queue a SYN
    packet, and everything still to be sent has fields of the width of its
    type; and every stream is well-formed. *)
Theorem host_invariant arrives bound h0 h :
  host_new bound = Ok h0 -> rtc (host_moves clock arrives) h0 h -> host_ok h.
Proof. intros H0 Hr. eapply host_moves_ok; [done|by eapply host_new_ok]. Qed.

(** C22. A reader never sees the end of the stream. In every state a host can
    reach, a stream's mailbox is open (the stream keeps the socket, and so the
    sender of its mailbox, alive): a [poll_read] that returns with room in the
    reader's buffer either hands over some bytes or is pending; it does not fail,
    does not report the end and does not shut the stream down. *)
Theorem reads_never_end h id st fuel n buf r st' e' buf' :
  reachable clock h -> h_owners h !! id = Some (Streaming st) -> (0 < remaining buf)%nat ->
  poll_read clock fuel st (mkEnv (h_socket h) n) buf = Done (r, st', e', buf') ->
  is_shutdown st' = is_shutdown st /\
  match r with
  | Ready (Ok _) => exists chunk, chunk <> [] /\ filled buf' = filled buf ++ chunk
  | Ready (Err _) => False
  | Pending => buf' = buf
  end.
Proof.
  intros Hok%reachable_ok Ho Hroom. unfold poll_read.
  intros ([[term st1] e1] & Hp & Hr)%bind_Done.
  pose proof (process_packets_polled _ _ _ _ _ _ _ Hp) as ([_ [popped Ht]] & _ & Hack).
  destruct (process_packets_not_closed _ _ _ _ _ _ _ _ _ Hok Ho Hp) as [-> Hsh].
  destruct (ok_owners _ Hok _ _ Ho) as (_ & _ & Hst).
  destruct (assemble_run st1) as (ds & m' & _ & Ha); [rewrite Hack; apply Hst|].
  rewrite Ha in Hr. cbn [mbind Outcome_bind] in Hr.
  apply bind_Done in Hr as ([acked e2] & Hs & Hr).
  apply (send_packet_Done clock (inbound_packets st)) in Hs as (now & _ & _ & Hs).
  destruct acked as [[]|err].
  2: { destruct Hs as (_ & _ & Hdead). cbn in Ht.
    rewrite (td_out_rx _ _ _ _ _ Ht), (host_out_alive h Hok) in Hdead; [done|].
    by eapply alive_owner. }
  change (received_data (assembled st1 ds m')) with (received_data st1 ++ concat ds) in Hr.
  destruct (is_empty _) eqn:Hempty; [by outcome_inv|].
  destruct (deliver_chunk (received_data (assembled st1 ds m')) buf)
    as (chunk & rest & buf2 & Hd & _ & Hlen & Hfit & Hput & Hf).
  change (received_data (assembled st1 ds m')) with (received_data st1 ++ concat ds) in Hd, Hlen.
  rewrite Hd in Hr. cbn [mbind Outcome_bind] in Hr. rewrite Hfit, Hput in Hr. cbn in Hr.
  outcome_inv. split; [done|]. exists chunk. split; [|done]. intros ->.
  destruct (received_data st1 ++ concat ds); [done|]. cbn in Hlen. lia.
Qed.

(** C21. In every state a host can reach, with the clock past 1970 and fuel for
    what waits in the mailbox, which panics there are. The polls of a stream and of
    a [connect] return or reach a [todo!()] of unfinished code, and [poll_write]
    always returns; the first half of [connect] and the two tasks never panic,
    whatever arrives. [accept] returns or reaches a [todo!()] too while the
    receiver task runs; when that task is over, which an error of the UDP
    socket's readiness makes it, [accept] may also panic because it unwraps a
    [None], and it does so once no SYN packet is left in the queue. No other
    [unwrap], assertion or index fails, and no lookup dangles. *)
Theorem only_todo_panics h : reachable clock h -> (forall i, 0 <= clock i) ->
  (forall id st n fuel buf wbuf, h_owners h !! id = Some (Streaming st) ->
     (length (mailbox (h_socket h) id) < fuel)%nat ->
     done_or_todo (poll_read clock fuel st (mkEnv (h_socket h) n) buf) /\
     (exists r, poll_write clock st (mkEnv (h_socket h) n) wbuf = Done r) /\
     done_or_todo (poll_flush clock fuel st (mkEnv (h_socket h) n)) /\
     done_or_todo (poll_shutdown clock fuel st (mkEnv (h_socket h) n))) /\
  (forall id c, h_owners h !! id = Some (Awaiting c) ->
     done_or_todo (connect_poll c (h_socket h))) /\
  (forall task fuel answers reason, h_sender h = Some task ->
     sender_poll fuel answers task (h_socket h) <> Panic reason) /\
  (forall answers reason, receiver_poll answers (h_socket h) <> Panic reason) /\
  (forall resolved draws reason,
     connect_start (h_socket h) resolved draws <> Panic reason) /\
  (forall draw, done_or_todo (accept (h_socket h) draw) \/
     h_receiver h = None /\ accept (h_socket h) draw = Panic UnwrapNone) /\
  (forall `{!PromptMpsc} draw, h_receiver h = None ->
     queued (syn_channel (h_socket h)) = [] -> accept (h_socket h) draw = Panic UnwrapNone).
Proof.
  intros Hok%reachable_ok Hc. pose proof (en_syn_tx _ (ok_ends _ Hok)) as Hsyn. split_and!.
  - intros id st n fuel buf wbuf Ho Hf.
    destruct (owner_box _ _ _ Hok Ho) as (c & Hbox & _).
    destruct (ok_owners _ Hok _ _ Ho) as (Hid & _ & Hst).
    assert (Hb : is_Some (mailboxes (h_socket h) !! inbound_packets st)) by (rewrite Hid; by exists c).
    assert (Hrx : rx_alive (outgoing_channel (h_socket h)) = true)
      by (eapply host_out_alive, alive_owner; done).
    rewrite <- Hid in Hf. split_and!.
    + apply poll_read_ends; [done..|apply Hst].
    + unfold poll_write. destruct (is_shutdown st); [eauto|].
      destruct (write_chunks_alive clock (chunks MAX_DATA_SEGMENT_SIZE wbuf) 0 st
        (mkEnv (h_socket h) n) Hc Hrx (ws_seq _ Hst)) as (e' & -> & _). eauto.
    + by apply poll_flush_ends.
    + by apply poll_shutdown_ends.
  - intros id c Ho. destruct (owner_box _ _ _ Hok Ho) as (ch & Hbox & _ & Htx & _).
    destruct (ok_owners _ Hok _ _ Ho) as (Hid & _).
    unfold connect_poll, mailbox_poll_recv. rewrite Hid, Hbox. cbn.
    destruct (poll_recv ch) as [[[p|]|] ch2] eqn:Hp; cbn; [| |apply done_or_todo_Done].
    + destruct (packet_type p); (by right) || apply done_or_todo_Done.
    + apply poll_recv_None in Hp as (_ & ? & _). congruence.
  - intros task fuel answers reason Ht. apply sender_poll_no_panic. by apply Hok.
  - intros answers reason. unfold receiver_poll. destruct (socket_alive _); cbn; [|done].
    apply recv_loop_no_panic.
  - apply connect_start_no_panic.
  - intros draw. destruct (h_receiver h) as [task|].
    + left. by apply accept_ends.
    + destruct (accept_unwraps (h_socket h) draw Hsyn); auto.
  - intros ? draw Hnone Hq. apply accept_closed; [|done]. by rewrite Hsyn, Hnone.
Qed.

(** C23. The sender task lives exactly as long as the socket has an owner, and what
    is still queued then is lost. While the program holds a handle, a stream or
    a [connect], a poll that returns is pending, so that the task goes on; once
    the last of them is dropped, the next poll ends the task and emits nothing,
    whatever its backlog, even data for which [poll_write] returned and the last
    acknowledgements. The receiver task also ends at its next poll. *)
Theorem task_lifetime h task fuel answers r task' s' sent rest :
  reachable clock h -> h_sender h = Some task ->
  sender_poll fuel answers task (h_socket h) = Done (r, task', s', sent, rest) ->
  (r = Ready tt <-> alive h = false) /\
  (alive h = false -> sent = [] /\ backlog task' s' = backlog task (h_socket h) /\
     forall ranswers, receiver_poll ranswers (h_socket h) =
       Done (Ready tt, h_socket h, ranswers)).
Proof.
  intros Hok%reachable_ok Ht Hr. pose proof (ok_ends _ Hok) as He.
  destruct (alive h) eqn:Ha.
  - split; [|done]. split; [|done]. intros ->.
    apply sender_poll_ends in Hr as (_ & _ & _ & _ & _ & Hd).
    destruct (Hd eq_refl) as [Hd2|Hd2];
      [rewrite (en_socket _ He) in Hd2|rewrite (en_out_tx _ He) in Hd2]; congruence.
  - pose proof (en_socket _ He) as Hs. rewrite Ha in Hs.
    unfold sender_poll in Hr. rewrite Hs in Hr. cbn in Hr. outcome_inv.
    split; [done|]. intros _. split_and!; [done..|]. intros ranswers.
    unfold receiver_poll. by rewrite Hs.
Qed.
End properties.

(** ** Witnesses *)

Definition sample_host : Host :=
  mkHost sample_socket 1 ∅ (Some (mkPacketSender sample_addr []))
    (Some (mkPacketReceiver sample_addr)).

Lemma sample_host_reachable : reachable sample_clock sample_host.
Proof. exists (Ok (Ok sample_addr)), sample_host. split; [done|]. apply rtc_refl. Qed.

(** A SYN arrives. *)
Definition sample_syn_answers : list RecvAnswer :=
  [sample_arrival sample_syn; mkRecvAnswer Pending Pending].

Lemma sample_host_accepting :
  exists s', receiver_poll sample_syn_answers sample_socket = Done (Pending, s', []) /\
    received sample_socket sample_syn_answers s'.
Proof.
  destruct (receiver_waiting_true (receiver_poll sample_syn_answers sample_socket)) as [s' Hs'];
    [by vm_compute|]. exists s'. split; [done|].
  apply recv_loop_Done in Hs' as (used & Hu & Hrv); [|apply sample_socket_wf|done].
  rewrite app_nil_r in Hu. by subst used.
Qed.

(** A host with one stream, that has received nothing yet. *)
Lemma sample_stream_host : exists h id st, reachable sample_clock h /\
  h_owners h !! id = Some (Streaming st) /\ mailbox (h_socket h) id = [] /\
  h_receiver h = Some (mkPacketReceiver sample_addr).
Proof.
  destruct sample_host_accepting as (s1 & Hr & [Hwf Hv Hrt Hsyn _ _ Hout _ _]).
  destruct (Hsyn eq_refl) as [_ Hq].
  destruct (accept_ok_full s1 500 sample_syn sample_peer [] Hwf) as
    (s2 & Ha & _ & _ & Hv2 & Hr2 & _); [by rewrite Hq| | |].
  { by destruct (Hrt (wrapping_add16 (connection_id sample_syn) 1, sample_peer)) as [->|]. }
  { by rewrite Hout. }
  pose (h1 := with_h_socket s1 sample_host).
  exists (with_owner (next_chan s1) (Streaming (accepted sample_syn sample_peer (next_chan s1) 500))
    (with_h_socket s2 h1)), (next_chan s1), (accepted sample_syn sample_peer (next_chan s1) 500).
  split; [|split_and!].
  - exists (Ok (Ok sample_addr)), sample_host. split; [done|].
    eapply rtc_l; [|eapply rtc_once].
    + exists silent. eapply (hs_receiver _ _ sample_host (mkPacketReceiver sample_addr));
        [done| |exact Hr]. repeat apply Forall_cons_2; [|done|apply Forall_nil_2].
      split; [|done]. by apply (bool_decide_unpack (Forall u8 (wire sample_syn))).
    + exists silent. eapply (hs_accept _ _ h1 500); [cbn; lia|int_lia|exact Ha].
  - cbn. by rewrite lookup_insert_eq.
  - cbn. apply conn_view_inv in Hv2 as (id & c & Hid & Hc & _ & Hnil).
    rewrite Hr2 in Hid. injection Hid as <-. unfold mailbox. by rewrite Hc.
  - done.
Qed.

Lemma host_invariant_witness : exists h id st,
  h_owners h !! id = Some (Streaming st) /\ wf_stream st /\ host_ok h.
Proof.
  destruct sample_stream_host as (h & id & st & (udp & h0 & H0 & Hr) & Ho & _).
  pose proof (host_invariant sample_clock _ udp h0 h H0 Hr) as Hok.
  exists h, id, st. split; [exact Ho|]. split; [|exact Hok].
  exact (proj2 (proj2 (ok_owners _ Hok _ _ Ho))).
Defined.

Lemma reads_never_end_witness : exists h id st r st' e' buf',
  h_owners h !! id = Some (Streaming st) /\
  poll_read sample_clock 1 st (mkEnv (h_socket h) 0) sample_buf = Done (r, st', e', buf') /\
  is_shutdown st' = is_shutdown st.
Proof.
  destruct sample_stream_host as (h & id & st & Hreach & Ho & Hbox & _).
  pose proof (reachable_ok _ _ Hreach) as Hok.
  destruct (owner_box _ _ _ Hok Ho) as (c & Hc & _ & Htx & _).
  destruct (ok_owners _ Hok _ _ Ho) as (Hid & _ & Hst).
  destruct (poll_read_open sample_clock 1 st (mkEnv (h_socket h) 0) sample_buf)
    as (r & st' & e' & buf' & Hrest).
  { split; [split|]; rewrite ?Hid; cbn; rewrite ?Hbox.
    - apply sample_clock_nonneg.
    - apply Hst.
    - by exists c.
    - cbn. lia.
    - constructor.
    - exact (host_out_alive h Hok (alive_owner h id _ Ho)). }
  destruct Hrest as (popped & ds & chunk & now & Hr & _).
  exists h, id, st, r, st', e', buf'. split; [exact Ho|]. split; [exact Hr|].
  exact (proj1 (reads_never_end sample_clock h id st 1 0 sample_buf r st' e' buf' Hreach Ho
    ltac:(cbn; lia) Hr)).
Defined.

Lemma only_todo_panics_witness : exists h id st,
  h_owners h !! id = Some (Streaming st) /\
  done_or_todo (poll_read sample_clock 1 st (mkEnv (h_socket h) 0) sample_buf) /\
  done_or_todo (accept (h_socket h) 500).
Proof.
  destruct sample_stream_host as (h & id & st & Hreach & Ho & Hbox & Hrecv).
  destruct (only_todo_panics sample_clock h Hreach sample_clock_nonneg)
    as (Hpolls & _ & _ & _ & _ & Hacc & _).
  exists h, id, st. split; [exact Ho|]. split.
  - refine (proj1 (Hpolls id st 0%nat 1%nat sample_buf [] Ho _)). rewrite Hbox. cbn. lia.
  - destruct (Hacc 500) as [Hd|[Hnone _]]; [exact Hd|congruence].
Defined.

(** The same host after its one handle is dropped. *)
Definition sample_dropped : Host := release (with_handles 0 sample_host).

Lemma sample_dropped_reachable : reachable sample_clock sample_dropped.
Proof.
  exists (Ok (Ok sample_addr)), sample_host. split; [done|]. eapply rtc_once.
  exists silent. by eapply (hs_drop_handle _ _ sample_host 0).
Qed.

Lemma task_lifetime_witness :
  (Pending = Ready tt <-> alive sample_host = false) /\ alive sample_dropped = false.
Proof.
  split.
  - exact (proj1 (task_lifetime sample_clock sample_host (mkPacketSender sample_addr []) 1
      [] Pending (mkPacketSender sample_addr []) sample_socket [] [] sample_host_reachable
      eq_refl eq_refl)).
  - exact (proj1 (proj1 (task_lifetime sample_clock sample_dropped
      (mkPacketSender sample_addr []) 1 [] (Ready tt) (mkPacketSender sample_addr [])
      (h_socket sample_dropped) [] [] sample_dropped_reachable eq_refl eq_refl)) eq_refl).
Defined.
