(* ===== verification/HostEffect.v ===== *)
(** * The effect of a step of a host

    What a step of a host can do to its owners, to its outgoing packets and to
    the mailboxes, read off its label: a summary of the cases of [host_step] from
    which the transfer between two hosts is derived. *)

From S2P Require Import Prelude Crates CratesRef Errors Time Packet.
From S2P Require Import PacketWire Congestion Socket PacketSender PacketReceiver Stream.
From S2P Require Import StreamFacts StreamRead StreamWrite StreamInvariant Polls.
From S2P Require Import Listener Handshake Host Boxes HostState.

(** ** Definitions *)

(** The poll of [id] that a step is, if it is one. *)
Definition event_of (id : ChanId) (l : Label) : option Event :=
  match l_event l with
  | Some (i, ev) => if decide (i = id) then Some ev else None
  | None => None
  end.

(** The datagrams for one destination. *)
Definition to_peer (dest : SocketAddr) (ds : list Datagram) : list bytes :=
  (filter (fun d => d.2 = dest) ds).*1.

Section effect.
Context `{By : BytesCrate, Rb : ReadBufCrate, Mp : MpscCrate, Dm : DashMapCrate}.
Variable clock : nat -> SystemTime.

(** A poll of a stream on the socket [s], as its user sees it. *)
Definition stream_poll (s : UtpSocket) (st : UtpStream) (ev : Event) (st' : UtpStream)
    : Prop :=
  match ev with
  | Read chunk => exists fuel n buf r e' buf',
      poll_read clock fuel st (mkEnv s n) buf = Done (r, st', e', buf') /\
      filled buf' = filled buf ++ chunk
  | Wrote accepted packets => exists n buf r e',
      poll_write clock st (mkEnv s n) buf = Done (r, st', e') /\
      queued (outgoing_channel (env_socket e')) = queued (outgoing_channel s) ++ packets /\
      accepted = accepted_bytes r buf
  | Flushed => exists fuel n r e',
      poll_flush clock fuel st (mkEnv s n) = Done (r, st', e') \/
      poll_shutdown clock fuel st (mkEnv s n) = Done (r, st', e')
  end.

(** What becomes of the owner of a mailbox in a step. *)
Definition owner_evolves (h : Host) (l : Label) (id : ChanId) (o o' : option Owner) : Prop :=
  match event_of id l with
  | Some ev => exists st st', o = Some (Streaming st) /\ o' = Some (Streaming st') /\
      stream_poll (h_socket h) st ev st'
  | None => o' = o \/ o' = None \/
      exists c response, o = Some (Awaiting c) /\ packet_type response = State /\
        response ∈ mailbox (h_socket h) id /\ o' = Some (Streaming (connected c response))
  end.

(** A new owner: a [connect] that waits, or a stream accepted from a SYN packet
    that waited. *)
Definition new_owner (h : Host) (id : ChanId) (o : Owner) : Prop :=
  match o with
  | Awaiting _ => True
  | Streaming st => exists syn remote draw,
      (syn, remote) ∈ queued (syn_channel (h_socket h)) /\ st = accepted syn remote id draw
  end.

(** Where a packet added to the outgoing queue comes from: it carries no data, or
    it is one of those a stream wrote in this step. *)
Definition queued_by (h : Host) (l : Label) (o : Outgoing) : Prop :=
  packet_type o.1 = Data -> exists id accepted packets st,
    l_event l = Some (id, Wrote accepted packets) /\ o ∈ packets /\
    h_owners h !! id = Some (Streaming st) /\
    connection_id o.1 = connection_id_send st /\ o.2 = remote_addr st.

(** An acknowledgement added to the outgoing queue is that of a stream, for what
    it has. *)
Definition acked_by (h' : Host) (o : Outgoing) : Prop :=
  packet_type o.1 = State -> exists id st',
    h_owners h' !! id = Some (Streaming st') /\
    connection_id o.1 = connection_id_send st' /\ o.2 = remote_addr st' /\
    ack_number o.1 = st_ack_number st'.

(** A SYN packet added to the outgoing queue has the number 1. *)
Definition syn_first (o : Outgoing) : Prop := packet_type o.1 = Syn -> seq_number o.1 = 1.

Definition justified (h : Host) (l : Label) (h' : Host) (o : Outgoing) : Prop :=
  queued_by h l o /\ acked_by h' o /\ syn_first o.

(** A SYN packet that arrived. *)
Definition arrived_syn (arrives : bytes -> SocketAddr -> Prop) (o : Packet * SocketAddr) : Prop :=
  exists bs, arrives bs o.2 /\ Packet_try_from bs = Done (Ok o.1) /\ packet_type o.1 = Syn.

(** A packet that arrived for the connection [k]. *)
Definition arrived (arrives : bytes -> SocketAddr -> Prop) (k : ConnKey) (p : Packet) : Prop :=
  exists bs, arrives bs k.2 /\ Packet_try_from bs = Done (Ok p) /\ connection_id p = k.1.

Record step_effect (arrives : bytes -> SocketAddr -> Prop) (h : Host) (l : Label)
    (h' : Host) : Prop := {
  ef_next : (next_chan (h_socket h) <= next_chan (h_socket h'))%nat;
  ef_owners : forall id : ChanId, (id < next_chan (h_socket h))%nat ->
    owner_evolves h l id (h_owners h !! id) (h_owners h' !! id);
  ef_new : forall (id : ChanId) o, (next_chan (h_socket h) <= id)%nat ->
    h_owners h' !! id = Some o -> new_owner h id o;
  ef_syns : forall o, o ∈ queued (syn_channel (h_socket h')) ->
    o ∈ queued (syn_channel (h_socket h)) \/ arrived_syn arrives o;
  ef_emitted : forall task, h_sender h = Some task ->
    exists gone new after, backlog task (h_socket h) ++ new = gone ++ after /\
      Forall (fun o => wf_Packet o.1) gone /\ Forall2 serialises gone (l_emitted l) /\
      Forall (justified h l h') new /\
      (forall id accepted packets, l_event l = Some (id, Wrote accepted packets) ->
        packets = new) /\
      forall task', h_sender h' = Some task' -> backlog task' (h_socket h') = after;
  ef_sender : h_sender h = None -> h_sender h' = None /\ l_emitted l = [];
  ef_views : forall k q' p, conn_view (h_socket h') k = Some (true, q') -> p ∈ q' ->
    (exists q, conn_view (h_socket h) k = Some (true, q) /\ p ∈ q) \/ arrived arrives k p;
}.

(** ** Helper lemmas: the socket *)

(** More traffic allows more steps. *)
Lemma host_step_mono (P Q : bytes -> SocketAddr -> Prop) h l h' :
  (forall bs a, P bs a -> Q bs a) -> host_step clock P h l h' -> host_step clock Q h l h'.
Proof.
  intros HPQ Hstep. destruct Hstep;
    [by eapply hs_connect|by eapply hs_connect_fails|by eapply hs_connected
    |by eapply hs_connect_pending|by eapply hs_accept|by eapply hs_accept_fails
    |by eapply hs_accept_pending|by eapply hs_accept_panics|by eapply hs_read
    |by eapply hs_write|by eapply hs_flush|by eapply hs_shutdown|by apply hs_drop
    |by apply hs_clone_handle|by apply hs_drop_handle|by eapply hs_sender|].
  eapply hs_receiver; [done| |done]. eapply Forall_impl; [done|].
  intros a. unfold admissible. destruct (recv_from a) as [[[bs from]|]|]; naive_solver.
Qed.


(** The socket gained [out] at the end of its outgoing queue, and no mailbox
    gained a packet. *)
Record extends (s s' : UtpSocket) (out : list Outgoing) : Prop := {
  ex_next : (next_chan s <= next_chan s')%nat;
  ex_out : queued (outgoing_channel s') = queued (outgoing_channel s) ++ out;
  ex_views : forall k q' p, conn_view s' k = Some (true, q') -> p ∈ q' ->
    exists q, conn_view s k = Some (true, q) /\ p ∈ q;
  ex_syns : forall o, o ∈ queued (syn_channel s') -> o ∈ queued (syn_channel s);
}.

Lemma extends_trans s1 s2 s3 out1 out2 :
  extends s1 s2 out1 -> extends s2 s3 out2 -> extends s1 s3 (out1 ++ out2).
Proof.
  intros [Hn1 Ho1 Hv1 Hs1] [Hn2 Ho2 Hv2 Hs2].
  split; [lia|by rewrite Ho2, Ho1, (assoc_L (++))| |by auto].
  intros k q3 p Hk Hp. destruct (Hv2 k q3 p Hk Hp) as (q2 & Hk2 & Hp2). by eapply Hv1.
Qed.

Lemma extends_refl s : extends s s [].
Proof. split; [done|by rewrite app_nil_r|eauto|done]. Qed.

Lemma touched_extends rx popped out s s' : touched rx popped out s s' -> extends s s' out.
Proof.
  intros Ht. split; [by rewrite (td_next _ _ _ _ _ Ht)|apply Ht| |by rewrite (td_syn _ _ _ _ _ Ht)].
  intros k q' p Hk Hp. destruct (touched_views _ _ _ _ _ k Ht) as [Hv _].
  destruct (Hv q' Hk) as (q & popped2 & Hq & ->). eexists. split; [done|].
  apply elem_of_app. by right.
Qed.

Lemma inserted_extends s k rx s' : wf_socket s -> mailbox_inserted s k rx s' -> extends s s' [].
Proof.
  intros Hs Hi. split.
  - rewrite (mi_next _ _ _ _ Hi), (mi_rx _ _ _ _ Hi). lia.
  - by rewrite (mi_outgoing _ _ _ _ Hi), app_nil_r.
  - intros k' q' p. destruct (decide (k' = k)) as [->|Hne].
    + destruct (inserted_view _ _ _ _ Hi) as (_ & -> & _). intros [= <-] ?%elem_of_nil. done.
    + destruct (inserted_other _ _ _ _ _ Hs Hi Hne) as [_ ->]. eauto.
  - by rewrite (mi_syn _ _ _ _ Hi).
Qed.

Lemma get_syn_extends s r s' : get_syn s = (r, s') -> extends s s' [].
Proof.
  intros Hg. pose proof (get_syn_same _ _ _ Hg) as (Ht & Hm & Hn & Ho).
  split; [by rewrite Hn|by rewrite Ho, app_nil_r| |].
  - intros k q' p. unfold conn_view, route. rewrite Ht, Hm. eauto.
  - destruct (get_syn_popped _ _ _ Hg) as (popped & -> & _). intros o Hin.
    apply elem_of_app. by right.
Qed.

Lemma dropped_extends s id : wf_socket s -> extends s (mailbox_drop_rx s id) [].
Proof.
  intros Hs. split; try (unfold mailbox_drop_rx; destruct (mailboxes s !! id); cbn;
    rewrite ?app_nil_r; done || lia).
  intros k q' p. rewrite dropped_view by done. case_decide; [|by eauto].
  by destruct (conn_view s k).
Qed.

Lemma socket_drop_extends s : extends s (socket_drop s) [].
Proof.
  split; cbn; [done|by rewrite queued_drop_tx, app_nil_r| |].
  - intros k q' p. rewrite conn_view_None; [done|]. unfold route. cbn.
    by rewrite entries_new, lookup_empty.
  - intros o. rewrite queued_drop_rx. by intros ?%elem_of_nil.
Qed.

(** ** Helper lemmas: steps that leave the sender task alone *)

(** What becomes of the owners, old and new. *)
Definition owners_effect (h : Host) (l : Label) (h' : Host) : Prop :=
  (forall id : ChanId, (id < next_chan (h_socket h))%nat ->
    owner_evolves h l id (h_owners h !! id) (h_owners h' !! id)) /\
  (forall (id : ChanId) o, (next_chan (h_socket h) <= id)%nat ->
    h_owners h' !! id = Some o -> new_owner h id o).

Lemma effect_extends arrives h l h' out :
  extends (h_socket h) (h_socket h') out -> Forall (justified h l h') out ->
  h_sender h' = h_sender h -> l_emitted l = [] -> owners_effect h l h' ->
  (forall id accepted packets, l_event l = Some (id, Wrote accepted packets) ->
    packets = out) ->
  step_effect arrives h l h'.
Proof.
  intros [Hn Hq Hv Hs'] Hout Hs Hl [Ho Hnew] Hw. split; [done|done|done|by auto| | |].
  - intros task Ht. exists [], out, (backlog task (h_socket h')). split_and!; try done.
    + unfold backlog. cbn. by rewrite Hq, (assoc_L (++)).
    + rewrite Hl. constructor.
    + intros task' Ht'. congruence.
  - by rewrite Hs.
  - intros k q' p Hk Hp. left. by eapply Hv.
Qed.

(** Owners that are in the map have mailboxes below the next one. *)
Lemma no_owner_above h (id : ChanId) : host_ok h -> (next_chan (h_socket h) <= id)%nat ->
  h_owners h !! id = None.
Proof.
  intros Hok Hid. destruct (h_owners h !! id) as [o|] eqn:Ho; [|done].
  pose proof (owner_below _ _ _ Hok Ho). lia.
Qed.

Lemma owners_same h l h' : host_ok h -> l_event l = None -> h_owners h' = h_owners h ->
  owners_effect h l h'.
Proof.
  intros Hok Hl Ho. split.
  - intros id _. unfold owner_evolves, event_of. rewrite Hl, Ho. by left.
  - intros id o Hid. by rewrite Ho, no_owner_above.
Qed.

Lemma owners_new h l h' rx o : host_ok h -> l_event l = None ->
  rx = next_chan (h_socket h) -> h_owners h' = <[rx := o]> (h_owners h) ->
  new_owner h rx o -> owners_effect h l h'.
Proof.
  intros Hok Hl -> Ho Hnew. split.
  - intros id Hid. unfold owner_evolves, event_of. rewrite Hl, Ho.
    rewrite lookup_insert_ne by lia. by left.
  - intros id o' Hid. rewrite Ho. intros [[<- <-]|[_ Hin]]%lookup_insert_Some; [done|].
    by rewrite no_owner_above in Hin.
Qed.

(** A step that changes one owner that was there. *)
Lemma owners_insert h l h' id0 o0 o : host_ok h -> h_owners h !! id0 = Some o0 ->
  h_owners h' = <[id0 := o]> (h_owners h) ->
  (forall id, id <> id0 -> event_of id l = None) ->
  owner_evolves h l id0 (Some o0) (Some o) -> owners_effect h l h'.
Proof.
  intros Hok Hc Ho Hl He. split.
  - intros id Hid. rewrite Ho. destruct (decide (id = id0)) as [->|Hne].
    + by rewrite Hc, lookup_insert_eq.
    + unfold owner_evolves. rewrite Hl, lookup_insert_ne by done. by left.
  - intros id o' Hid. rewrite Ho. pose proof (owner_below _ _ _ Hok Hc).
    rewrite lookup_insert_ne by lia. by rewrite no_owner_above.
Qed.

Lemma owners_connected h h' id0 c response : host_ok h ->
  h_owners h !! id0 = Some (Awaiting c) -> packet_type response = State ->
  response ∈ mailbox (h_socket h) id0 ->
  h_owners h' = <[id0 := Streaming (connected c response)]> (h_owners h) ->
  owners_effect h silent h'.
Proof.
  intros Hok Hc Hp Hin Ho. eapply owners_insert; [done..|].
  right; right. by exists c, response.
Qed.

Lemma owners_polled h h' id0 ev st st' : host_ok h ->
  h_owners h !! id0 = Some (Streaming st) -> stream_poll (h_socket h) st ev st' ->
  h_owners h' = <[id0 := Streaming st']> (h_owners h) ->
  owners_effect h (polls id0 ev) h'.
Proof.
  intros Hok Hst Hp Ho. eapply owners_insert; [done..| |].
  - intros id Hne. unfold event_of. cbn. by rewrite decide_False.
  - unfold owner_evolves, event_of. cbn. rewrite decide_True by done. by exists st, st'.
Qed.

Lemma owners_deleted h h' id0 : host_ok h -> h_owners h' = delete id0 (h_owners h) ->
  owners_effect h silent h'.
Proof.
  intros Hok Ho. split.
  - intros id _. unfold owner_evolves. cbn. rewrite Ho, lookup_delete.
    case_decide; auto.
  - intros id o Hid. rewrite Ho. intros [_ Hin]%lookup_delete_Some.
    by rewrite no_owner_above in Hin.
Qed.

Lemma release_fields h : h_owners (release h) = h_owners h /\
  h_sender (release h) = h_sender h /\ extends (h_socket h) (h_socket (release h)) [].
Proof.
  unfold release. destruct (alive h); [|split_and!; [done..|apply socket_drop_extends]].
  split_and!; try done. apply extends_refl.
Qed.

(** ** The effect of each step *)

Lemma syn_justified h l h' id a : Forall (justified h l h') [(syn_for id, a)].
Proof. by apply Forall_singleton. Qed.

Lemma ack_justified h l h' id st' o : packet_type o.1 = State ->
  h_owners h' !! id = Some (Streaming st') ->
  connection_id o.1 = connection_id_send st' -> o.2 = remote_addr st' ->
  ack_number o.1 = st_ack_number st' -> justified h l h' o.
Proof.
  intros Hp Ho Hid Ha Hk. split_and!; [intros ?; congruence| |intros ?; congruence].
  intros _. by exists id, st'.
Qed.

Lemma effect_connect arrives h resolved draws r s' rest :
  host_ok h -> (0 < h_handles h)%nat -> Forall u16 draws ->
  connect_start (h_socket h) resolved draws = Done (r, s', rest) ->
  step_effect arrives h silent
    (match r with
     | Ok c => with_owner (co_receiver c) (Awaiting c) (with_h_socket s' h)
     | Err _ => with_h_socket s' h
     end).
Proof.
  intros Hok Hh Hu Hc. apply connect_start_inserted in Hc;
    [|by apply host_out_alive; [|apply alive_handle]|done].
  destruct r as [c|err].
  - destruct Hc as (s1 & _ & Hi & Ht & _).
    apply (effect_extends _ _ _ _ [(syn_for (co_id_recv c), co_remote_addr c)]); try done.
    + eapply (extends_trans _ s1 _ []); [eapply inserted_extends; [apply Hok|done]|].
      by eapply touched_extends.
    + apply syn_justified.
    + by eapply owners_new; [| |apply Hi|..].
  - subst. apply (effect_extends _ _ _ _ []); try done; [|by apply owners_same].
    apply extends_refl.
Qed.

Lemma effect_accept arrives h draw r s' :
  host_ok h -> (0 < h_handles h)%nat -> accept (h_socket h) draw = Done (r, s') ->
  step_effect arrives h silent
    (match r with
     | Ready (Ok st) => with_owner (inbound_packets st) (Streaming st) (with_h_socket s' h)
     | _ => with_h_socket s' h
     end).
Proof.
  intros Hok Hh Ha%accept_Done. destruct r as [[st|err]|].
  - destruct Ha as (syn & remote & s1 & s2 & Hg & Hi & Ht & Hst).
    destruct (get_syn_ok _ _ _ Hok Hg) as (Hb & _).
    apply (effect_extends _ _ _ _ [(syn_ack_for syn draw, remote)]); try done.
    + eapply (extends_trans _ s1 _ []); [by eapply get_syn_extends|].
      eapply (extends_trans _ s2 _ []); [eapply inserted_extends; [apply Hb|done]|].
      by eapply touched_extends.
    + apply Forall_singleton. rewrite Hst.
      by eapply ack_justified; [|apply lookup_insert_eq|..].
    + destruct (get_syn_popped _ _ _ Hg) as (popped & Hq & Hpop).
      apply get_syn_same in Hg as (_ & _ & Hn & _).
      eapply owners_new; [done|done|by rewrite <- Hn; apply Hi|done|].
      exists syn, remote, draw. split; [|done]. rewrite Hq, (Hpop _ eq_refl). by left.
  - by rewrite (host_out_alive h Hok (alive_handle h Hh)) in Ha.
  - subst. apply (effect_extends _ _ _ _ []); try done; [|by apply owners_same].
    destruct (get_syn (h_socket h)) as [r1 s1] eqn:Hg. by eapply get_syn_extends.
Qed.

Lemma effect_polled arrives h id ev st st' s' out :
  h_owners h !! id = Some (Streaming st) -> stream_poll (h_socket h) st ev st' ->
  host_ok h -> polled st st' (h_socket h) s' out ->
  Forall (justified h (polls id ev) (with_owner id (Streaming st') (with_h_socket s' h))) out ->
  (forall accepted packets, ev = Wrote accepted packets -> packets = out) ->
  step_effect arrives h (polls id ev) (with_owner id (Streaming st') (with_h_socket s' h)).
Proof.
  intros Ho Hp Hok [_ [popped Ht]] Hout Hw. apply (effect_extends _ _ _ _ out); try done.
  - by eapply touched_extends.
  - by eapply owners_polled.
  - intros id' acc packets [= _ ->]. by eapply Hw.
Qed.

Lemma effect_sender arrives h fuel answers task r task' s' sent rest :
  host_ok h -> h_sender h = Some task ->
  sender_poll fuel answers task (h_socket h) = Done (r, task', s', sent, rest) ->
  step_effect arrives h (emits sent) (after_sender r task' s' h).
Proof.
  intros Hok Ht Hr. destruct (sender_poll_Done _ _ _ _ _ _ _ _ _ Hr) as (gone & Hb & Hser).
  pose proof (sender_poll_ends _ _ _ _ _ _ _ _ _ Hr) as (_ & Htab & Hm & Hn & Hsyn & _).
  assert (Hsock : exists c, h_socket (after_sender r task' s' h) = set_outgoing_channel c s' /\
    h_owners (after_sender r task' s' h) = h_owners h).
  { destruct r as [[]|]; cbn; [by eexists|]. exists (outgoing_channel s'). by destruct s'. }
  destruct Hsock as (c & Hsock & Ho).
  destruct (owners_same _ (emits sent) _ Hok eq_refl Ho) as [Hevolve Hnewo]. split.
  - rewrite Hsock. cbn. by rewrite Hn.
  - exact Hevolve.
  - exact Hnewo.
  - intros o. rewrite Hsock. cbn. rewrite Hsyn. by left.
  - intros task2 Ht2. assert (task2 = task) as -> by congruence.
    exists gone, [], (backlog task' s'). rewrite app_nil_r. split_and!; try done.
    { pose proof (ok_backlog _ Hok _ Ht) as Hl. rewrite Hb in Hl.
      by apply Forall_app in Hl as [Hl _]. }
    destruct r as [[]|]; cbn; [done|]. by intros ? [= <-].
  - congruence.
  - intros k q' p. rewrite Hsock. unfold conn_view, route. cbn. rewrite Htab, Hm. eauto.
Qed.

Lemma arrivals_bytes arrives answers o : Forall (admissible arrives) answers ->
  o ∈ arrivals answers -> exists bs, arrives bs o.2 /\ Packet_try_from bs = Done (Ok o.1).
Proof.
  intros Ha (a & Hin & Hp)%list_elem_of_omap. rewrite Forall_forall in Ha.
  specialize (Ha a Hin). unfold arrival in Hp. unfold admissible in Ha.
  destruct (recv_ready a) as [[]|]; try done.
  destruct (recv_from a) as [[[bs from]|]|]; try done.
  destruct (Packet_try_from bs) as [[q|]| |] eqn:Ht; simplify_eq.
  exists bs. by split; [apply Ha|].
Qed.

Lemma arrivals_arrived arrives answers k o : Forall (admissible arrives) answers ->
  o ∈ arrivals answers -> is_for k o = true -> arrived arrives k o.1.
Proof.
  intros Ha Ho Hk. destruct (arrivals_bytes _ _ _ Ha Ho) as (bs & Harr & Hp).
  apply andb_true_iff in Hk as [_ Hk]. apply bool_decide_eq_true in Hk as <-. by exists bs.
Qed.

Lemma arrivals_syn arrives answers o : Forall (admissible arrives) answers ->
  o ∈ filter is_syn (arrivals answers) -> arrived_syn arrives o.
Proof.
  intros Ha [Hs Ho]%list_elem_of_filter.
  destruct (arrivals_bytes _ _ _ Ha Ho) as (bs & Harr & Hp).
  apply Is_true_true, bool_decide_eq_true in Hs. by exists bs.
Qed.

(** What the receiver task does to the socket, in any of its polls. *)
Lemma receiver_poll_effect arrives h answers r s' rest :
  host_ok h -> Forall (admissible arrives) answers ->
  receiver_poll answers (h_socket h) = Done (r, s', rest) ->
  next_chan s' = next_chan (h_socket h) /\
  outgoing_channel s' = outgoing_channel (h_socket h) /\
  (forall k q' p, conn_view s' k = Some (true, q') -> p ∈ q' ->
    (exists q, conn_view (h_socket h) k = Some (true, q) /\ p ∈ q) \/ arrived arrives k p) /\
  (forall o, o ∈ queued (syn_channel s') ->
    o ∈ queued (syn_channel (h_socket h)) \/ arrived_syn arrives o).
Proof.
  intros Hok Hans Hr. unfold receiver_poll in Hr.
  destruct (socket_alive (h_socket h)) eqn:Ha; cbn in Hr; [|outcome_inv; eauto 10].
  pose proof (ok_ends _ Hok) as He. rewrite (en_socket _ He) in Ha.
  apply recv_loop_Done in Hr as (used & -> & Hrv); [|apply Hok|by rewrite (en_table _ He)].
  apply Forall_app in Hans as [Hans _]. split_and!; [apply Hrv..| |].
  - intros k q' p. rewrite (rv_view _ _ _ Hrv).
    intros (q & Hk & ->)%view_foldl_true [Hp|Hp]%elem_of_app; [by left; eexists|right].
    apply list_elem_of_fmap in Hp as (o & -> & [Hf Hin]%list_elem_of_filter).
    eapply arrivals_arrived; [done..|]. by apply Is_true_true.
  - assert (Hrx : rx_alive (syn_channel (h_socket h)) = true) by by rewrite (en_syn_rx _ He).
    intros o. rewrite (proj2 (rv_syn _ _ _ Hrv Hrx)).
    intros [Ho|Ho]%elem_of_app; [by left|right]. by eapply arrivals_syn.
Qed.

Lemma effect_receiver arrives h task answers r s' rest :
  host_ok h -> h_receiver h = Some task -> Forall (admissible arrives) answers ->
  receiver_poll answers (h_socket h) = Done (r, s', rest) ->
  step_effect arrives h silent (after_receiver r s' h).
Proof.
  intros Hok Htask Hans Hr.
  destruct (receiver_poll_effect _ _ _ _ _ _ Hok Hans Hr) as (Hn & Ho & Hv & Hsy).
  assert (Hsock : exists c, h_socket (after_receiver r s' h) = set_syn_channel c s' /\
    queued c = queued (syn_channel s') /\ h_owners (after_receiver r s' h) = h_owners h /\
    h_sender (after_receiver r s' h) = h_sender h).
  { destruct r as [[]|]; cbn.
    - eexists. split; [done|]. by rewrite queued_drop_tx.
    - exists (syn_channel s'). by destruct s'. }
  destruct Hsock as (c & Hsock & Hc & Hown & Hsend).
  destruct (owners_same _ silent _ Hok eq_refl Hown) as [Hevolve Hnewo]. split.
  - rewrite Hsock. cbn. by rewrite Hn.
  - exact Hevolve.
  - exact Hnewo.
  - intros o. rewrite Hsock. cbn. rewrite Hc. apply Hsy.
  - intros t Ht. exists [], [], (backlog t (h_socket h)). rewrite app_nil_r.
    split_and!; try done. intros t' Ht'. rewrite Hsend in Ht'. rewrite Hsock.
    unfold backlog. cbn. rewrite Ho. congruence.
  - by rewrite Hsend.
  - intros k q' p. rewrite Hsock. apply Hv.
Qed.

Lemma effect_released arrives h h' : h_sender h' = h_sender h ->
  extends (h_socket h) (h_socket h') [] -> owners_effect h silent h' ->
  step_effect arrives h silent (release h').
Proof.
  intros Hs Hx Ho. destruct (release_fields h') as (Hro & Hrs & Hrx).
  apply (effect_extends _ _ _ _ []); try done; [|congruence|].
  - by apply (extends_trans _ _ _ [] []  Hx Hrx).
  - unfold owners_effect. by rewrite Hro.
Qed.

Lemma host_step_effect arrives h l h' :
  host_step clock arrives h l h' -> host_ok h -> step_effect arrives h l h'.
Proof.
  intros Hstep Hok.
  destruct Hstep as [resolved draws c s' rest Hh Hu Hr|resolved draws err s' rest Hh Hu Hr
    |id c st s' Ho Hr|id c s' Ho Hr|draw st s' Hh Hu Hr|draw err s' Hh Hr|draw s' Hh Hr
    |draw reason Hh Hr|id st fuel n buf r st' e' buf' chunk Ho Hr Hf
    |id st n buf r st' e' out Ho Hbuf Hr Hq|id st fuel n r st' e' Ho Hr
    |id st fuel n r st' e' Ho Hr|id Ho|Hh|n Hn|fuel answers task r task' s' sent rest Ht Hr
    |task answers r s' rest Ht Ha Hr].
  - exact (effect_connect arrives h resolved draws (Ok c) s' rest Hok Hh Hu Hr).
  - exact (effect_connect arrives h resolved draws (Err err) s' rest Hok Hh Hu Hr).
  - apply connect_poll_touched in Hr as (popped & Ht & p & Hin & Hp & ->).
    destruct (ok_owners _ Hok _ _ Ho) as (Hid & _).
    apply (effect_extends _ _ _ _ []); try done; [by eapply touched_extends|].
    eapply owners_connected; try done. by rewrite <- Hid.
  - apply connect_poll_touched in Hr as (popped & Ht & _).
    apply (effect_extends _ _ _ _ []); try done; [by eapply touched_extends|].
    by apply owners_same.
  - exact (effect_accept arrives h draw (Ready (Ok st)) s' Hok Hh Hr).
  - exact (effect_accept arrives h draw (Ready (Err err)) s' Hok Hh Hr).
  - exact (effect_accept arrives h draw Pending s' Hok Hh Hr).
  - apply (effect_extends _ _ _ _ []); try done; [|by apply owners_same].
    destruct (get_syn (h_socket h)) as [r1 s1] eqn:Hg. by eapply get_syn_extends.
  - pose proof Hr as (out & Hp & Hout & Hacks)%poll_read_polled. eapply effect_polled; try done.
    + by exists fuel, n, buf, r, e', buf'.
    + destruct Hp as [[_ Hid Hrm _] _]. rewrite Forall_forall in Hout, Hacks |- *.
      intros o Hin. destruct (Hout o Hin) as (Ha & ? & ? & ? & _ & Hpk & _).
      eapply ack_justified; [by rewrite Hpk|apply lookup_insert_eq| |congruence|by apply Hacks].
      rewrite Hpk. cbn. congruence.
  - pose proof Hr as (out2 & sent & Hp & Hout & _)%poll_write_polled.
    assert (out2 = out) as ->.
    { destruct Hp as [_ [popped Ht]]. pose proof (td_out _ _ _ _ _ Ht) as Hq2. cbn in Hq2.
      rewrite Hq in Hq2. by apply app_inv_head in Hq2. }
    eapply effect_polled; try done; [by exists n, buf, r, e'| |by intros ? ? [= _ ->]].
    apply Forall_forall. intros o Hin. apply list_elem_of_lookup in Hin as Hi.
    destruct Hi as [i Hi].
    destruct (Forall2_lookup_r _ _ _ _ _ Hout Hi) as (payload & _ & Hso & now & sq & ac & _ & Hpk & _).
    split_and!; [intros _|intros Hs; by rewrite Hpk in Hs|intros Hs; by rewrite Hpk in Hs].
    exists id, (accepted_bytes r buf), out, st. rewrite Hpk. by split_and!.
  - eapply effect_polled; try done; [|exact (poll_flush_polled _ _ _ _ _ _ _ Hr)].
    exists fuel, n, r, e'. by left.
  - eapply effect_polled; try done; [|exact (poll_shutdown_polled _ _ _ _ _ _ _ Hr)].
    exists fuel, n, r, e'. by right.
  - apply effect_released; [done|apply dropped_extends, Hok|by eapply owners_deleted].
  - apply (effect_extends _ _ _ _ []); try done; [|by apply owners_same].
    apply extends_refl.
  - apply effect_released; [done| |by apply owners_same].
    apply extends_refl.
  - by eapply effect_sender.
  - by eapply effect_receiver.
Qed.

(** ** Polls of a stream *)

Lemma stream_poll_ids s st ev st' : stream_poll s st ev st' -> same_ids st st'.
Proof.
  destruct ev as [chunk|acc ps|]; cbn.
  - intros (? & ? & ? & ? & ? & ? & (out & [Hi _] & _)%poll_read_polled & _). done.
  - intros (? & ? & ? & ? & (out & sent & [Hi _] & _)%poll_write_polled & _). done.
  - intros (? & ? & ? & ? & [[Hi _]%poll_flush_polled|[Hi _]%poll_shutdown_polled]); done.
Qed.

(** The packets a write queues carry the bytes it accepts. *)
Lemma stream_poll_wrote s st acc ps st' : rx_alive (outgoing_channel s) = true ->
  stream_poll s st (Wrote acc ps) st' -> concat (data <$> ps.*1) = acc.
Proof.
  intros Hrx (n & buf & r & e' & Hr & Hq & ->).
  apply poll_write_polled in Hr as (out & sent & [_ [popped Ht]] & Hout & [rest Hbuf] & Hm).
  pose proof (td_out _ _ _ _ _ Ht) as Hq2. cbn in Hq2, Hm.
  rewrite Hq in Hq2. apply app_inv_head in Hq2 as ->.
  assert (data <$> out.*1 = sent) as ->.
  { clear -Hout. induction Hout as [|d o sent out (_ & ? & ? & ? & _ & Ho & _) _ IH]; [done|].
    cbn. by rewrite IH, Ho. }
  destruct r as [[m|err]|]; [subst|congruence|done]. cbn. by rewrite take_app_length.
Qed.

(** They are data packets of the stream, for its peer. *)
Lemma stream_poll_packets s st acc ps st' : stream_poll s st (Wrote acc ps) st' ->
  Forall (fun o : Outgoing => packet_type o.1 = Data /\
    connection_id o.1 = connection_id_send st /\ o.2 = remote_addr st) ps.
Proof.
  intros (n & buf & r & e' & Hr & Hq & _).
  apply poll_write_polled in Hr as (out & sent & [_ [popped Ht]] & Hout & _).
  pose proof (td_out _ _ _ _ _ Ht) as Hq2. cbn in Hq2. rewrite Hq in Hq2.
  apply app_inv_head in Hq2 as ->.
  clear -Hout. induction Hout as [|d o sent out (Ha & ? & ? & ? & _ & Hp & _) _ IH]; [done|].
  apply Forall_cons. split; [by rewrite Hp|done].
Qed.

(** ** Outgoing traffic *)

(** A packet that left is a datagram emitted for its destination. *)
Lemma gone_emitted (gone : list Outgoing) ds p dest :
  Forall (fun o => wf_Packet o.1) gone -> Forall2 serialises gone ds ->
  (p, dest) ∈ gone -> wf_Packet p /\ wire p ∈ to_peer dest ds.
Proof.
  intros Hwf Hser Hin. rewrite Forall_forall in Hwf. pose proof (Hwf _ Hin) as Hw. cbn in Hw.
  split; [done|]. apply list_elem_of_lookup in Hin as [i Hi].
  destruct (Forall2_lookup_l _ _ _ _ _ Hser Hi) as ([bs to] & Hd & [Hb Hto]).
  cbn in Hb, Hto. subst to. rewrite bytes_from_packet_wf in Hb by done. injection Hb as <-.
  apply list_elem_of_fmap. exists (wire p, dest). split; [done|].
  apply list_elem_of_filter. split; [done|]. by eapply list_elem_of_lookup_2.
Qed.

(** Datagrams emitted for a destination carry packets that were queued. *)
Lemma to_peer_serialises dest gone ds bs p :
  Forall (fun o : Outgoing => wf_Packet o.1) gone -> Forall2 serialises gone ds ->
  bs ∈ to_peer dest ds -> Packet_try_from bs = Done (Ok p) -> (p, dest) ∈ gone.
Proof.
  intros Hwf Hser Hbs Hp. apply list_elem_of_fmap in Hbs as ([bs2 to] & -> & Hin).
  apply list_elem_of_filter in Hin as [Hto Hin]. cbn in *. subst to.
  apply list_elem_of_lookup in Hin as [i Hi].
  destruct (Forall2_lookup_r _ _ _ _ _ Hser Hi) as ([q a] & Ho & [Hq Ha]). cbn in *. subst a.
  apply list_elem_of_lookup_2 in Ho as Hin. rewrite Forall_forall in Hwf.
  pose proof (Hwf _ Hin) as Hw. cbn in Hw. rewrite bytes_from_packet_wf in Hq by done.
  injection Hq as <-. rewrite Packet_try_from_wire in Hp by done. by injection Hp as <-.
Qed.

(** What holds of the packets waiting and of those that a step adds holds of
    those that leave. *)
Lemma traffic_kept (P : Outgoing -> Prop) arrives h l h' dest :
  step_effect arrives h l h' ->
  (forall task, h_sender h = Some task -> Forall P (backlog task (h_socket h))) ->
  (forall o, justified h l h' o -> P o) ->
  (forall task', h_sender h' = Some task' -> Forall P (backlog task' (h_socket h'))) /\
  (forall bs p, bs ∈ to_peer dest (l_emitted l) -> Packet_try_from bs = Done (Ok p) ->
    P (p, dest)).
Proof.
  intros He Hq Hnew. destruct (h_sender h) as [task|] eqn:Ht.
  - destruct (ef_emitted _ _ _ _ He _ Ht) as (gone & new & after & Hb & Hwf & Hser & Hj & _ & Haf).
    assert (Forall P (gone ++ after)) as [Hg Ha]%Forall_app.
    { rewrite <- Hb. apply Forall_app. split; [by apply Hq|]. by eapply Forall_impl. }
    split; [by intros task' ->%Haf|]. intros bs p Hbs Hp.
    rewrite Forall_forall in Hg. apply Hg. by eapply to_peer_serialises.
  - destruct (ef_sender _ _ _ _ He Ht) as [-> ->]. split; [done|]. by intros bs p ?%elem_of_nil.
Qed.
End effect.
