(* ===== verification/Runs.v ===== *)
(** * Computed runs

    A host played by the kernel: an executable script of actions, and the proof
    that every step it makes is a step of the model. The concrete runs at the end
    of the files on two hosts (TwoWay.v, Opening.v, LateAnswer.v, StaleStream.v,
    Loss.v, Wakers.v, Progress.v, Settle.v and Fair.v) are scripts. *)

From S2P Require Import Prelude Crates CratesRef Errors Time Packet.
From S2P Require Import PacketWire Congestion Socket PacketSender PacketReceiver Stream.
From S2P Require Import StreamFacts StreamRead StreamWrite StreamInvariant Polls.
From S2P Require Import Listener Handshake Host Boxes HostState HostEffect.

(** ** Definitions *)

(** What the user, the network or the executor does at a host. *)
Inductive Action : Type :=
  | Connects (remote : SocketAddr) (draw : Z)
  | Completes (id : ChanId)
  | Accepts (draw : Z)
  | Reads (id : ChanId) (room : nat)
  | Writes (id : ChanId) (buf : bytes)
  | Flushes (id : ChanId)
  | Sends
  | Receives (bs : bytes) (from : SocketAddr)
  | Drops (id : ChanId).

(** Fuel and answers for the tasks' polls: scripts queue fewer packets. *)
Definition run_fuel : nat := 9.
Definition sends_ok : list SendAnswer := replicate run_fuel (Ready (Ok 0%nat)).
Definition receives_one (bs : bytes) (from : SocketAddr) : list RecvAnswer :=
  [mkRecvAnswer (Ready (Ok tt)) (Ready (Ok (bs, from))); mkRecvAnswer Pending Pending].

(** The items a queue gained. *)
Definition gained {A} (before after : list A) : list A := drop (length before) after.

Definition finished {T} (o : Outcome T) : option T :=
  match o with Done x => Some x | _ => None end.

Lemma finished_Some {T} (o : Outcome T) x : finished o = Some x -> o = Done x.
Proof. destruct o; [|done..]. by intros [= ->]. Qed.

Ltac performed :=
  repeat match goal with
  | H : (_ ≫= _) = Some _ |- _ => apply bind_Some in H as (? & ? & H)
  | H : guard _;; _ = Some _ |- _ => apply bind_Some in H as (? & ? & H)
  | H : finished _ = Some _ |- _ => apply finished_Some in H
  | H : (let '(_, _) := ?p in _) = Some _ |- _ => destruct p
  | H : Some _ = Some _ |- _ => injection H; clear H; intros; subst
  end.

Section perform.
Variable clock : nat -> SystemTime.

Definition perform_poll (a : Action) (st : UtpStream) (h : Host) : option (Event * Host) :=
  let e := mkEnv (h_socket h) 0 in
  match a with
  | Reads id room =>
      '(r, st', e', buf) ← finished (poll_read clock run_fuel st e (([], room) : bytes * nat));
      Some (Read (filled buf), with_owner id (Streaming st') (with_h_socket (env_socket e') h))
  | Writes id buf =>
      guard (Forall u8 buf);;
      '(r, st', e') ← finished (poll_write clock st e buf);
      let before := queued (outgoing_channel (h_socket h)) in
      let after := queued (outgoing_channel (env_socket e')) in
      guard (after = before ++ gained before after);;
      Some (Wrote (accepted_bytes r buf) (gained before after),
        with_owner id (Streaming st') (with_h_socket (env_socket e') h))
  | Flushes id =>
      '(r, st', e') ← finished (poll_flush clock run_fuel st e);
      Some (Flushed, with_owner id (Streaming st') (with_h_socket (env_socket e') h))
  | _ => None
  end.

Definition polled_id (a : Action) : option ChanId :=
  match a with Reads id _ | Writes id _ | Flushes id => Some id | _ => None end.

Definition perform (a : Action) (h : Host) : option (Label * Host) :=
  match a with
  | Connects remote draw =>
      guard (0 < h_handles h)%nat;; guard (u16 draw);;
      '(r, s, _) ← finished (connect_start (h_socket h) (Ok [remote]) [draw]);
      match r with
      | Ok c => Some (silent, with_owner (co_receiver c) (Awaiting c) (with_h_socket s h))
      | Err _ => Some (silent, with_h_socket s h)
      end
  | Completes id =>
      o ← h_owners h !! id;
      match o with
      | Awaiting c =>
          '(r, s) ← finished (connect_poll c (h_socket h));
          match r with
          | Ready st => Some (silent, with_owner id (Streaming st) (with_h_socket s h))
          | Pending => Some (silent, with_h_socket s h)
          end
      | Streaming _ => None
      end
  | Accepts draw =>
      guard (0 < h_handles h)%nat;; guard (u16 draw);;
      '(r, s) ← finished (accept (h_socket h) draw);
      match r with
      | Ready (Ok st) =>
          Some (silent, with_owner (inbound_packets st) (Streaming st) (with_h_socket s h))
      | _ => Some (silent, with_h_socket s h)
      end
  | Sends =>
      task ← h_sender h;
      '(r, task', s, sent, _) ← finished (sender_poll run_fuel sends_ok task (h_socket h));
      Some (emits sent, after_sender r task' s h)
  | Receives bs from =>
      _ ← h_receiver h;
      guard (Forall u8 bs);;
      '(r, s, _) ← finished (receiver_poll (receives_one bs from) (h_socket h));
      Some (silent, after_receiver r s h)
  | Drops id => guard (is_Some (h_owners h !! id));; Some (silent, drop_owner id h)
  | _ =>
      id ← polled_id a;
      o ← h_owners h !! id;
      match o with
      | Streaming st => '(ev, h') ← perform_poll a st h; Some (polls id ev, h')
      | Awaiting _ => None
      end
  end.

(** What an action needs the network to bring. *)
Definition brings (a : Action) (arrives : bytes -> SocketAddr -> Prop) : Prop :=
  match a with Receives bs from => arrives bs from | _ => True end.

(** ** Every action performed is a step *)

#[local] Arguments poll_read : simpl never.
#[local] Arguments poll_write : simpl never.
#[local] Arguments poll_flush : simpl never.
#[local] Arguments connect_start : simpl never.
#[local] Arguments connect_poll : simpl never.
#[local] Arguments accept : simpl never.
#[local] Arguments sender_poll : simpl never.
#[local] Arguments receiver_poll : simpl never.

Lemma perform_poll_step arrives a id st h ev h' :
  polled_id a = Some id -> h_owners h !! id = Some (Streaming st) ->
  perform_poll a st h = Some (ev, h') -> host_step clock arrives h (polls id ev) h'.
Proof.
  destruct a; cbn; try done; intros [= ->] Ho Hp; performed.
  - by eapply hs_read.
  - by eapply hs_write.
  - by eapply hs_flush.
Qed.

#[local] Arguments perform_poll : simpl never.

Lemma perform_step arrives a h l h' : brings a arrives -> perform a h = Some (l, h') ->
  host_step clock arrives h l h'.
Proof.
  intros Hb Hp. destruct a as [remote draw|id|draw|id room|id buf|id| |bs from|id].
  4-6: cbn in Hp; performed;
    match goal with o : Owner |- _ => destruct o end; [done|]; performed;
    eapply perform_poll_step; [|done..]; done.
  all: cbn in Hp; performed.
  - destruct r; performed; [eapply (hs_connect _ _ _ _ [draw])|
      eapply (hs_connect_fails _ _ _ _ [draw])]; try done; by apply Forall_singleton.
  - destruct x; [|done]. performed. destruct p; performed; [by eapply hs_connected|].
    by eapply hs_connect_pending.
  - destruct p as [[]|]; performed;
      [by eapply hs_accept|by eapply hs_accept_fails|by eapply hs_accept_pending].
  - by eapply hs_sender.
  - eapply hs_receiver; [done| |done]. repeat constructor; done.
  - by apply hs_drop.
Qed.
End perform.

(** ** Scripts *)

Section play.
Context {T S : Type} (turn : T -> S -> option S) (allowed : S -> S -> bool).

Fixpoint play (ts : list T) (s : S) : option S :=
  match ts with
  | [] => Some s
  | t :: ts => s' ← turn t s; if allowed s s' then play ts s' else None
  end.

Lemma play_run (R : S -> S -> Prop) ts s s' :
  (forall t s1 s2, turn t s1 = Some s2 -> allowed s1 s2 = true -> R s1 s2) ->
  play ts s = Some s' -> rtc R s s'.
Proof.
  intros HR. revert s. induction ts as [|t ts IH]; intros s; cbn; [by intros [= ->]|].
  intros (s1 & Ht & Hp)%bind_Some. destruct (allowed s s1) eqn:Ha; [|done].
  eapply rtc_l; [by eapply HR|by apply IH].
Qed.

(** The state that a script reaches, when it can be played. *)
Definition played (ts : list T) (s : S) : S := default s (play ts s).
Definition playable (ts : list T) (s : S) : bool := bool_decide (is_Some (play ts s)).

Lemma played_run (R : S -> S -> Prop) ts s :
  (forall t s1 s2, turn t s1 = Some s2 -> allowed s1 s2 = true -> R s1 s2) ->
  playable ts s = true -> rtc R s (played ts s).
Proof.
  intros HR Hp%bool_decide_eq_true. destruct Hp as [s' Hs]. unfold played.
  rewrite Hs. by eapply play_run.
Qed.

(** The states on the way: the script is played for [i] turns, and then left. *)
Definition path (ts : list T) (s : S) (i : nat) : S := played (take i ts) s.

Lemma play_app ts1 ts2 s : play (ts1 ++ ts2) s = play ts1 s ≫= play ts2.
Proof.
  revert s. induction ts1 as [|t ts1 IH]; intros s; [done|]. cbn.
  destruct (turn t s) as [s'|]; [|done]. cbn. by destruct (allowed s s').
Qed.

Lemma path_turn ts s i t : playable ts s = true -> ts !! i = Some t ->
  turn t (path ts s i) = Some (path ts s (Datatypes.S i)) /\
  allowed (path ts s i) (path ts s (Datatypes.S i)) = true.
Proof.
  intros Hp%bool_decide_eq_true Ht. unfold path, played.
  rewrite (take_S_r _ _ _ Ht), play_app. rewrite <- (take_drop i ts) in Hp.
  rewrite play_app in Hp. rewrite (drop_S _ _ _ Ht) in Hp.
  destruct (play (take i ts) s) as [s1|]; [cbn in Hp |- *|by destruct Hp].
  destruct (turn t s1) as [s2|]; [cbn in Hp |- *|by destruct Hp].
  destruct (allowed s1 s2) eqn:Ha; [done|by destruct Hp].
Qed.

Lemma path_step (R : S -> S -> Prop) ts s i :
  (forall t s1 s2, turn t s1 = Some s2 -> allowed s1 s2 = true -> R s1 s2) ->
  playable ts s = true -> path ts s (Datatypes.S i) = path ts s i \/
    R (path ts s i) (path ts s (Datatypes.S i)).
Proof.
  intros HR Hp. destruct (ts !! i) as [t|] eqn:Ht; [right|left].
  - destruct (path_turn _ _ _ _ Hp Ht). by eapply HR.
  - unfold path. apply lookup_ge_None in Ht. by rewrite !take_ge by lia.
Qed.

Lemma path_end ts s i : (length ts <= i)%nat -> path ts s i = played ts s.
Proof. intros Hi. unfold path. by rewrite take_ge. Qed.
End play.

(** Every stream of the host satisfies [f]. *)
Definition all_streams (f : ChanId -> UtpStream -> bool) (h : Host) : bool :=
  forallb (fun o : ChanId * Owner =>
    match o.2 with Streaming st => f o.1 st | Awaiting _ => true end)
    (map_to_list (h_owners h)).

Lemma all_streams_elim f h id st : all_streams f h = true ->
  h_owners h !! id = Some (Streaming st) -> f id st = true.
Proof.
  unfold all_streams. rewrite forallb_forall. intros Hf Ho.
  apply (Hf (id, Streaming st)), list_elem_of_In. by apply elem_of_map_to_list.
Qed.

Lemma default_Some {A} (d : A) (o : option A) : bool_decide (is_Some o) = true ->
  o = Some (default d o).
Proof. intros Ho%bool_decide_eq_true. by destruct Ho as [x ->]. Qed.

(** ** Two hosts taking turns *)

(** An action at one of two hosts, or the arrival there of the [i]-th datagram
    sent by the other. *)
Inductive Turn : Type :=
  | AtFirst (a : Action)
  | AtSecond (a : Action)
  | ToFirst (i : nat)
  | ToSecond (i : nat).

(** The host whose turn it is, the first or not, and its action; [out] is what
    the first host sent and [back] what the second did. *)
Definition turn_action (addr_1 addr_2 : SocketAddr) (out back : list bytes) (t : Turn)
    : option (bool * Action) :=
  match t with
  | AtFirst (Receives _ _) | AtSecond (Receives _ _) => None
  | AtFirst a => Some (true, a)
  | AtSecond a => Some (false, a)
  | ToFirst i => bs ← back !! i; Some (true, Receives bs addr_2)
  | ToSecond i => bs ← out !! i; Some (false, Receives bs addr_1)
  end.

Lemma turn_action_brings addr_1 addr_2 out back t first a :
  turn_action addr_1 addr_2 out back t = Some (first, a) ->
  brings a (fun bs from => from = (if first : bool then addr_2 else addr_1) ->
    bs ∈ (if first then back else out)).
Proof.
  destruct t as [[]|[]|i|i]; cbn; try (by intros [= <- <-]); try done;
    intros (bs & Hbs & [= <- <-])%bind_Some _; by eapply list_elem_of_lookup_2.
Qed.
