(* ===== verification/Delivery.v ===== *)
(** * Data from end to end

    How the components fit together when the network does its work: the packets
    in a host's outgoing queue reach the mailbox of their connection at the
    peer, and what is written to a stream is read at the other end, whole, and
    acknowledged. *)

From S2P Require Import Prelude Crates CratesRef Errors Time Packet.
From S2P Require Import PacketWire Congestion Socket PacketSender PacketReceiver Stream.
From S2P Require Import StreamFacts StreamRead StreamWrite.

(** ** Definitions *)

(** The UDP socket of a host when the datagrams [ds], sent from [from], wait in
    it: each is read in a round, and then the socket is not ready. *)
Definition arriving (from : SocketAddr) (ds : list Datagram) : list RecvAnswer :=
  map (fun d => mkRecvAnswer (Ready (Ok tt)) (Ready (Ok (d.1, from)))) ds ++
  [mkRecvAnswer Pending Pending].

Section delivery.
Context `{By : BytesCrate, Rb : ReadBufCrate, Mp : MpscCrate, Dm : DashMapCrate}.

(** ** Helper lemmas *)

(** What the datagrams of well-formed packets parse to. *)
Lemma arrivals_arriving from os ds :
  Forall (fun o => wf_Packet o.1) os -> Forall2 serialises os ds ->
  arrivals (arriving from ds) = map (fun o => (o.1, from)) os.
Proof.
  intros Hwf Hs. unfold arrivals, arriving. rewrite omap_app. cbn. rewrite app_nil_r.
  induction Hs as [|[p a] [bs a2] os ds [Hp _] _ IH]; [done|].
  apply Forall_cons in Hwf as [Hw Hwf]. cbn in *. unfold arrival at 1. cbn.
  rewrite bytes_from_packet_wf in Hp by done. injection Hp as <-.
  rewrite Packet_try_from_wire by done. f_equal. by apply IH.
Qed.

Lemma filter_is_for_all k from os :
  Forall (fun o : Outgoing => packet_type o.1 <> Syn /\ (connection_id o.1, from) = k) os ->
  filter (is_for k) (map (fun o => (o.1, from)) os) = map (fun o => (o.1, from)) os.
Proof.
  induction 1 as [|[p a] os [Hp Hk] _ IH]; [done|]. cbn in Hp, Hk. subst k.
  cbn [map fst]. rewrite filter_cons, is_for_same by done. cbn [map fst] in IH |- *.
  by rewrite IH.
Qed.
(** The receiver task reads everything that waits. *)
Lemma recv_loop_arriving from os ds s : wf_socket s -> table_alive s = true ->
  Forall (fun o => wf_Packet o.1 /\ packet_type o.1 <> Syn) os -> Forall2 serialises os ds ->
  exists s', recv_loop (arriving from ds) s = Done (Pending, s', []).
Proof.
  intros Hs Ht Hwf Hser. revert s Hs Ht. unfold arriving.
  induction Hser as [|[p a] [bs a2] os ds [Hp _] _ IH]; intros s Hs Ht; [by eexists|].
  apply Forall_cons in Hwf as [[Hw Hn] Hwf]. cbn in Hp, Hw, Hn |- *.
  rewrite bytes_from_packet_wf in Hp by done. injection Hp as <-.
  rewrite Packet_try_from_wire by done. cbn.
  destruct (route_packet p from s) as [stop s1] eqn:Hr.
  pose proof (route_packet_routed _ _ _ _ _ Hs Ht Hr) as Hrt.
  destruct stop.
  - pose proof (rt_stop _ _ _ _ _ Hrt eq_refl) as Hsyn. by apply bool_decide_eq_true in Hsyn.
  - apply IH; [done|apply Hrt|by rewrite (rt_table _ _ _ _ _ Hrt)].
Qed.

(** ** Properties *)

(** From one host's outgoing queue to the other's mailbox: what a poll of the
    sender task emits, if it arrives at the peer's UDP socket, is read, parsed
    and appended by one poll of the receiver task to the mailbox of the packets'
    connection, each packet as it was queued, in order; what was not emitted is
    still in the backlog. *)
Theorem queue_to_mailbox fuel answers task sa r task' sa' sent answers' sb from k q :
  sender_poll fuel answers task sa = Done (r, task', sa', sent, answers') ->
  Forall (fun o => wf_Packet o.1 /\ packet_type o.1 <> Syn /\ (connection_id o.1, from) = k)
    (backlog task sa) ->
  wf_socket sb -> socket_alive sb = true -> table_alive sb = true ->
  conn_view sb k = Some (true, q) ->
  exists gone sb', backlog task sa = gone ++ backlog task' sa' /\
    receiver_poll (arriving from sent) sb = Done (Pending, sb', []) /\
    conn_view sb' k = Some (true, q ++ gone.*1) /\ wf_socket sb'.
Proof.
  intros Hsend Hpk Hs Hal Ht Hv.
  apply sender_poll_Done in Hsend as (gone & Hb & Hser). rewrite Hb in Hpk.
  apply Forall_app in Hpk as [Hpk _]. exists gone.
  destruct (recv_loop_arriving from gone sent sb Hs Ht) as [sb' Hr]; [|done|].
  { eapply Forall_impl; [exact Hpk|]. by intros o (? & ? & ?). }
  exists sb'. split; [done|]. unfold receiver_poll. rewrite Hal. split; [exact Hr|].
  apply recv_loop_Done in Hr as (used & Hu & Hrv); [|done..]. rewrite app_nil_r in Hu. subst used.
  split; [|apply Hrv]. rewrite (rv_view _ _ _ Hrv), Hv, view_foldl_alive.
  rewrite (arrivals_arriving from gone sent); [|eapply Forall_impl; [exact Hpk|by intros o (? & ? & ?)]|done].
  rewrite filter_is_for_all by (eapply Forall_impl; [exact Hpk|by intros o (? & ? & ?)]).
  do 2 f_equal. by rewrite <- list_fmap_compose.
Qed.

(** ** Helper lemmas: acknowledgements on arrival *)

Lemma receive_ack clock n st p : 0 <= clock n -> packet_type p = State ->
  1 <= wrapping_sub16 (st_seq_number st) (ack_number p) <=
    Z.of_nat (length (unacked_data st)) + 3 ->
  exists st', receive_packet clock n st p = Done st' /\
    unacked_data st' = pop_acked (ack_number p) (unacked_data st).
Proof.
  intros Hc Hp Hd. unfold receive_packet. rewrite current_micros_eq by done. cbn.
  unfold is_suspicious. rewrite Hp. cbn.
  rewrite (proj2 (Z.eqb_neq _ _)), (proj2 (Z.ltb_ge _ _)) by lia. cbn.
  unfold handle_packet. rewrite Hp. eexists. split; [done|]. done.
Qed.

Lemma sends_genuine st now cs box : (forall p, p ∈ box -> p ∈ (sends st now cs).*1) ->
  Forall (genuine (st_seq_number st) cs) box.
Proof.
  intros Hbox. apply Forall_forall. intros p Hp _. apply Hbox in Hp.
  apply list_elem_of_lookup in Hp as [i Hi]. unfold sends in Hi.
  rewrite list_lookup_fmap, list_lookup_imap in Hi.
  destruct (cs !! i) as [c|] eqn:Hc; [|done]. cbn in Hi. simplify_eq. by exists i.
Qed.

Lemma sends_available st now cs m box i :
  (forall p, p ∈ (sends st now cs).*1 -> p ∈ box) -> (i < length cs)%nat -> (i < 128)%nat ->
  available m box (st_seq_number st) i.
Proof.
  intros Hbox Hi H128. right. split; [done|].
  destruct (lookup_lt_is_Some_2 cs i Hi) as [c Hc].
  exists (data_packet (connection_id_send st) (now i) (seq_at (st_seq_number st) i)
    (st_ack_number st) c). split_and!; try done. apply Hbox, list_elem_of_lookup. exists i.
  unfold sends. by rewrite list_lookup_fmap, list_lookup_imap, Hc.
Qed.

(** What [poll_read] hands over when the reader has room for everything. *)
Lemma read_done_all st e buf r st' e' buf' popped ds chunk now :
  read_done st e buf r st' e' buf' popped ds chunk now ->
  received_data st = [] -> concat ds <> [] ->
  (length (concat ds) <= remaining buf)%nat ->
  r = Ready (Ok tt) /\ filled buf' = filled buf ++ concat ds /\ received_data st' = [].
Proof.
  intros [_ _ _ _ Hb Hc Hf Hr] Hrec Hne Hroom. rewrite Hrec in *. cbn [app] in *.
  assert (chunk = concat ds /\ received_data st' = []) as [-> ->].
  { pose proof (f_equal length Hb) as Hlen. rewrite length_app in Hlen.
    destruct (received_data st') as [|b l]; [by rewrite app_nil_r in Hb|cbn in Hlen; lia]. }
  split_and!; [|done..]. by destruct (concat ds).
Qed.

(** C13. A write arrives, when its sequence numbers do not wrap around: the last
    packet of the write has a number of at most 65535. An open stream with
    nothing in flight, whose sender task is alive, writes [buf], not empty and of
    at most 128 packets; the packets reach the mailbox of an open stream that
    expects the first of them and has nothing buffered, in any order and any
    number of times, and nothing else does; then, channels being prompt, one [poll_read] there, with room enough, gives the
    reader exactly [buf] and sends one acknowledgement; and when that reaches the
    writer, and is all that waits in its mailbox, [poll_flush] is ready, with
    nothing left in flight. *)
Theorem write_read_flush `{!PromptMpsc} clock_s clock_r st_s e_s st_r buf :
  (forall i, 0 <= clock_s i) -> rx_alive (outgoing_channel (env_socket e_s)) = true ->
  u16 (st_seq_number st_s) -> is_shutdown st_s = false -> unacked_data st_s = [] ->
  st_seq_number st_s = wrapping_add16 (st_ack_number st_r) 1 ->
  inbound_data st_r = ∅ -> received_data st_r = [] -> buf <> [] ->
  (length buf <= 128 * 1452)%nat ->
  st_seq_number st_s + Z.of_nat (length (chunks MAX_DATA_SEGMENT_SIZE buf)) <= 2 ^ 16 ->
  exists new st_s' e_s',
    poll_write clock_s st_s e_s buf = Done (Ready (Ok (length buf)), st_s', e_s') /\
    queued (outgoing_channel (env_socket e_s')) =
      queued (outgoing_channel (env_socket e_s)) ++ new /\
    forall fuel e_r rbuf, pollable clock_r fuel st_r e_r ->
      (forall p, p ∈ mailbox (env_socket e_r) (inbound_packets st_r) <-> p ∈ new.*1) ->
      (length buf <= remaining rbuf)%nat ->
      exists st_r' e_r' rbuf' ack,
        poll_read clock_r fuel st_r e_r rbuf = Done (Ready (Ok tt), st_r', e_r', rbuf') /\
        filled rbuf' = filled rbuf ++ buf /\
        queued (outgoing_channel (env_socket e_r')) =
          queued (outgoing_channel (env_socket e_r)) ++ [(ack, remote_addr st_r)] /\
        forall fuel2 e2, receivable clock_s fuel2 st_s' e2 ->
          mailbox (env_socket e2) (inbound_packets st_s') = [ack] ->
          exists st_s2 e_s2,
            poll_flush clock_s fuel2 st_s' e2 = Done (Ready (Ok tt), st_s2, e_s2) /\
            unacked_data st_s2 = [].
Proof.
  intros Hc Hout Hu Hsh Hun Hseq Hin Hrec Hne Hlen Hwrap.
  set (cs := chunks MAX_DATA_SEGMENT_SIZE buf) in *.
  assert (Hcat : concat cs = buf) by (apply chunks_concat; cbv; lia).
  assert (Hcs : (length cs <= 128)%nat) by (apply chunks_length; [cbv; lia|exact Hlen]).
  destruct (write_chunks_alive clock_s cs 0 st_s e_s Hc Hout Hu) as (e_s' & Hw & _ & Ht).
  eexists _, (written st_s cs), e_s'. split_and!; [|apply Ht|].
  { unfold poll_write. rewrite Hsh. fold cs. rewrite Hw. by rewrite Hcat. }
  intros fuel e_r rbuf Ho Hbox Hroom.
  destruct (poll_read_genuine clock_r fuel st_r e_r rbuf cs (length cs) Ho)
    as (r & st_r' & e_r' & rbuf' & chunk & now & Hr & Hd); rewrite <- ?Hseq; try done.
  { rewrite Hin. apply genuine_buffer_empty. }
  { apply (sends_genuine st_s (fun i => micros_at clock_s (clock_reads e_s + i))).
    intros p. apply Hbox. }
  { lia. }
  { intros i Hi. apply (sends_available st_s
      (fun i => micros_at clock_s (clock_reads e_s + i)) cs); [|done|lia]. intros p. apply Hbox. }
  { lia. }
  rewrite firstn_all in Hd.
  destruct (read_done_all _ _ _ _ _ _ _ _ _ _ _ Hd Hrec) as (-> & Hf & _);
    [by rewrite Hcat|by rewrite Hcat|].
  exists st_r', e_r', rbuf', (ack_packet st_r' now). rewrite Hcat in Hf.
  split_and!; [done|done|apply Hd|]. intros fuel2 e2 Ho2 Hbox2.
  destruct (process_packets_whole clock_s fuel2 (written st_s cs) e2 Ho2)
    as (st2 & e3 & Hpp & Hrecv). rewrite Hbox2 in Hrecv. cbn [receive_all] in Hrecv.
  assert (Hack : ack_number (ack_packet st_r' now) =
    st_seq_number st_s + Z.of_nat (length cs) - 1).
  { cbn. rewrite (rd_ack _ _ _ _ _ _ _ _ _ _ _ Hd).
    pose proof (po_ack _ _ _ _ (po_receivable _ _ _ _ Ho)) as Har.
    assert (length cs <> 0)%nat by (destruct cs; [by rewrite <- Hcat in Hne|done]).
    rewrite Hseq in *. int_lia. }
  assert (Hflight : unacked_data (written st_s cs) = numbered (st_seq_number st_s) cs)
    by (cbn; by rewrite Hun).
  destruct (receive_ack clock_s (clock_reads e2) (written st_s cs) (ack_packet st_r' now))
    as (st3 & Hr3 & Hu3); [done|done| |].
  { rewrite Hack, Hflight, length_numbered. cbn. unfold seq_at. int_lia. }
  rewrite Hr3 in Hrecv. cbn in Hrecv. injection Hrecv as <-.
  assert (Hnil : unacked_data st3 = []).
  { rewrite Hu3, Hack, Hflight, pop_acked_no_wrap by (int_lia || done).
    apply drop_ge. rewrite length_numbered. lia. }
  exists st3, e3. split; [|done]. unfold poll_flush. rewrite Hpp. cbn. by rewrite Hnil.
Qed.
End delivery.

(** ** Witnesses *)

(** A data packet for connection 5, queued at the host of [sample_peer]. *)
Definition sample_queued : Packet := Packet_new Data 1 5 0 0 0 10 0 [] [1; 2].

Definition sample_sending : UtpSocket :=
  set_outgoing_channel (mkRefChan [(sample_queued, sample_addr)] true true) sample_socket.

Lemma queue_to_mailbox_witness :
  exists task' sa' sent answers' gone sb',
    sender_poll 5 [Ready (Ok 22%nat)] (mkPacketSender sample_peer []) sample_sending =
      Done (Pending, task', sa', sent, answers') /\
    receiver_poll (arriving sample_peer sent) sample_socket5 = Done (Pending, sb', []) /\
    conn_view sb' (5, sample_peer) = Some (true, gone).
Proof.
  destruct (sender_waiting_true (sender_poll 5 [Ready (Ok 22%nat)]
    (mkPacketSender sample_peer []) sample_sending)) as (task' & sa' & sent & answers' & Hp);
    [by vm_compute|].
  destruct (queue_to_mailbox _ _ _ _ _ _ _ _ _ sample_socket5 sample_peer (5, sample_peer) []
    Hp) as (gone & sb' & _ & Hr & Hv & _); [|exact sample_socket5_wf|done..|].
  - apply Forall_cons_2; [|apply Forall_nil_2]. cbn. split_and!; [|done..].
    split; cbn; try done. by repeat apply Forall_cons_2.
  - exists task', sa', sent, answers', (gone.*1), sb'. split_and!; [exact Hp|exact Hr|exact Hv].
Defined.

(** A stream that expects packet 101, and one about to send it. *)
Definition sample_writer : UtpStream := UtpStream_new 6 5 sample_addr 0%nat 101 1 ∅ [] [].

Lemma write_read_flush_witness :
  exists (new : list (Packet * SocketAddr)) st_s' e_s',
    poll_write sample_clock sample_writer (sample_env []) [1; 2; 3] =
      Done (Ready (Ok 3%nat), st_s', e_s') /\
    forall fuel e_r, pollable sample_clock fuel sample_stream e_r ->
      (forall p, p ∈ mailbox (env_socket e_r) 0%nat <-> p ∈ new.*1) ->
      exists st_r' e_r' rbuf',
        poll_read sample_clock fuel sample_stream e_r sample_buf =
          Done (Ready (Ok tt), st_r', e_r', rbuf') /\ filled rbuf' = [1; 2; 3].
Proof.
  destruct (write_read_flush sample_clock sample_clock sample_writer (sample_env [])
    sample_stream [1; 2; 3] sample_clock_nonneg)
    as (new & st_s' & e_s' & Hw & _ & Hread); [done|done|done|done|done|done|done|done| | |].
  - change (length [1; 2; 3]) with 3%nat. lia.
  - by vm_compute.
  - exists new, st_s', e_s'. split; [exact Hw|]. intros fuel e_r Ho Hbox.
    destruct (Hread fuel e_r sample_buf Ho Hbox) as (st_r' & e_r' & rbuf' & ack & Hr & Hf & _).
    + cbn. lia.
    + exists st_r', e_r', rbuf'. split; [exact Hr|exact Hf].
Defined.
