(* ===== verification/SocketTests.v ===== *)
(** * The tests of socket.rs, listener.rs and lib.rs

    The asynchronous tests of the source, as programs of the [Outcome] monad on
    the reference crates. The runtime is replaced by one schedule, the one in
    which each future is polled when what it waits for is there; the operating
    system's part (the addresses bound, the random numbers) is an argument. The
    [bind_test]s and the [local_addr_test] of the listener are left out: the
    first only test which address the system binds, the second compares a value
    with itself. *)

From S2P Require Import Prelude Crates CratesRef Errors Time Packet.
From S2P Require Import PacketWire Socket PacketSender PacketReceiver Stream.
From S2P Require Import StreamRead Listener Host HostState Delivery PacketTests.

(** ** The schedule *)

(** [.await]: the future is ready when it is polled. *)
Definition await {A} (r : Poll A) : Outcome A :=
  match r with Ready a => Done a | Pending => OutOfFuel end.

(** The sender task of one socket and the receiver task of the other run: what
    waits in the outgoing queue of [s] arrives at [s']. *)
Definition transmit (s : UtpSocket) (task : PacketSender) (s' : UtpSocket)
    : Outcome (UtpSocket * PacketSender * UtpSocket) :=
  let waiting := backlog task s in
  '(_, task, s, sent, _) ←
    sender_poll (S (length waiting)) (replicate (length waiting) (Ready (Ok 0%nat)))
      task s;
  '(_, s', _) ← receiver_poll (arriving (local_addr s) sent) s';
  Done (s, task, s').

(** Two sockets with their sender tasks. *)
Record Hosts : Type := mkHosts {
  socket_1 : UtpSocket;
  sender_1 : PacketSender;
  socket_2 : UtpSocket;
  sender_2 : PacketSender;
}.
Definition set_socket_1 (s : UtpSocket) (h : Hosts) : Hosts :=
  mkHosts s (sender_1 h) (socket_2 h) (sender_2 h).
Definition set_socket_2 (s : UtpSocket) (h : Hosts) : Hosts :=
  mkHosts (socket_1 h) (sender_1 h) s (sender_2 h).
Definition to_socket_2 (h : Hosts) : Outcome Hosts :=
  '(s, task, s') ← transmit (socket_1 h) (sender_1 h) (socket_2 h);
  Done (mkHosts s task s' (sender_2 h)).
Definition to_socket_1 (h : Hosts) : Outcome Hosts :=
  '(s, task, s') ← transmit (socket_2 h) (sender_2 h) (socket_1 h);
  Done (mkHosts s' (sender_1 h) s task).

(** ** Helpers (test_helper.rs, lib.rs) *)

(** [get_socket]; [addr] is the address the system binds. *)
Definition get_socket (addr : SocketAddr) : Outcome (UtpSocket * PacketSender) :=
  '(s, (task, _)) ← unwrap (bind (Ok (Ok addr)));
  Done (s, task).

Definition get_packet : Packet := Packet_new State 1 2 3 4 5 6 7 [] [].

Definition get_hosts (addr_1 addr_2 : SocketAddr) : Outcome Hosts :=
  '(s_1, t_1) ← get_socket addr_1;
  '(s_2, t_2) ← get_socket addr_2;
  Done (mkHosts s_1 t_1 s_2 t_2).

(** [get_connection_pair]. *)
Definition get_connection_pair (draws : list Z) (draw : Z) (h : Hosts)
    : Outcome (UtpStream * UtpStream * Hosts) :=
  '(connecting, s_1, _) ←
    connect_start (socket_1 h) (Ok [local_addr (socket_2 h)]) draws;
  c ← unwrap connecting;
  h ← to_socket_2 (set_socket_1 s_1 h);
  '(accepting, s_2) ← accept (socket_2 h) draw;
  accepting ← await accepting;
  conn_2 ← unwrap accepting;
  h ← to_socket_1 (set_socket_2 s_2 h);
  '(connecting, s_1) ← connect_poll c (socket_1 h);
  conn_1 ← await connecting;
  Done (conn_1, conn_2, set_socket_1 s_1 h).

(** [try_recv] on the receive half of a mailbox. *)
Definition try_recv (s : UtpSocket) (rx : ChanId) : Outcome (option Packet * UtpSocket) :=
  '(r, s) ← mailbox_poll_recv s rx;
  match r with
  | Ready (Some packet) => Done (Some packet, s)
  | _ => Done (None, s)
  end.

(** [socket.routing_table.get(&k).unwrap().send(packet).unwrap()]. *)
Definition table_send (s : UtpSocket) (k : ConnKey) (packet : Packet) : Outcome UtpSocket :=
  rx ← expect UnwrapNone (route s k);
  c ← expect Dangling (mailboxes s !! rx);
  c ← expect UnwrapErr (send packet c);
  Done (set_mailboxes (<[rx := c]> (mailboxes s)) s).

(** [127.0.0.x:port]. *)
Definition localhost (x port : Z) : SocketAddr := V4 (2130706432 + x) port.

(** ** socket.rs *)

(** [udp] is the UDP socket that the system binds, of which the field [socket]
    keeps a reference. *)
Definition local_addr_test (udp : UdpSocket) : Outcome unit :=
  '(s, _) ← unwrap (bind (Ok udp));
  udp_local_addr ← unwrap udp;
  assert_eq (local_addr s) udp_local_addr.

Definition send_and_recv_test (addr_1 addr_2 : SocketAddr) (draws : list Z) : Outcome unit :=
  h ← get_hosts addr_1 addr_2;
  '(connection_id, packet_rx, s_2, _) ←
    register_connection (socket_2 h) (local_addr (socket_1 h)) draws;
  let packet := Packet_new State 1 connection_id 3 4 5 6 7 [] [] in
  c ← expect UnwrapErr
        (send (packet, local_addr s_2) (outgoing_channel (socket_1 h)));
  h ← to_socket_2 (set_socket_2 s_2 (set_socket_1
        (set_outgoing_channel c (socket_1 h)) h));
  '(received, _) ← mailbox_poll_recv (socket_2 h) packet_rx;
  assert_eq received (Ready (Some packet)).

Definition init_connection_test (addr : SocketAddr) : Outcome unit :=
  '(s, _) ← get_socket addr;
  let connection_id := 1 in
  let remote_addr := localhost 2 8080 in
  let '(inserted, s) := insert_connection s connection_id remote_addr in
  receiver ← unwrap inserted;
  '(r, s) ← try_recv s receiver;
  _ ← assert_eq r None;
  assert (is_err (insert_connection s connection_id remote_addr).1).

Definition register_connection_test (local : SocketAddr) (draws : list Z) : Outcome unit :=
  '(s, _) ← get_socket local;
  let addr := localhost 1 8080 in
  '(id_1, receiver_1, s, draws) ← register_connection s addr draws;
  '(id_2, receiver_2, s, _) ← register_connection s addr draws;
  _ ← assert (bool_decide (id_1 <> id_2));
  '(r, s) ← try_recv s receiver_1; _ ← assert_eq r None;
  '(r, s) ← try_recv s receiver_2; _ ← assert_eq r None;
  (* add a packet to one queue; the other queue should be empty *)
  s ← table_send s (id_1, addr) get_packet;
  '(r, s) ← try_recv s receiver_1; _ ← assert (bool_decide (is_Some r));
  '(r, s) ← try_recv s receiver_2; assert_eq r None.

Definition conversions_test (addr : SocketAddr) : Outcome unit :=
  _ ← assert (is_ok (try_from_std (Ok tt) (Ok (Ok addr))));
  assert (is_ok (try_from_udp (Ok addr))).

(** ** listener.rs *)

Definition accept_test (addr_1 addr_2 : SocketAddr) (draws : list Z) (draw : Z)
    : Outcome unit :=
  (* socket 1 is the listener's *)
  h ← get_hosts addr_1 addr_2;
  '(conn_id, remote_receiver, s_2, _) ←
    register_connection (socket_2 h) (local_addr (socket_1 h)) draws;
  let packet := Packet_new Syn 1 conn_id 3 4 5 6 7 [] [] in
  let '(sent, s_2) := send_to s_2 packet (local_addr (socket_1 h)) in
  _ ← unwrap sent;
  h ← to_socket_1 (set_socket_2 s_2 h);
  '(accepting, s_1) ← accept (socket_1 h) draw;
  accepting ← await accepting;
  stream ← unwrap accepting;
  _ ← assert_eq (connection_id_send stream) (connection_id packet);
  _ ← assert_eq (connection_id_recv stream) (wrapping_add16 (connection_id packet) 1);
  _ ← assert_eq (local_addr s_1) (local_addr (socket_1 h));
  _ ← assert_eq (remote_addr stream) (local_addr (socket_2 h));
  (* SYN-ACK should have been sent to remote socket *)
  h ← to_socket_2 (set_socket_1 s_1 h);
  '(received, _) ← mailbox_poll_recv (socket_2 h) remote_receiver;
  received ← await received;
  syn_ack ← expect UnwrapNone received;
  _ ← assert_eq (packet_type syn_ack) State;
  _ ← assert_eq (connection_id syn_ack) (connection_id_send stream);
  assert_eq (ack_number syn_ack) (seq_number packet).

(** ** lib.rs *)

Definition basic_connection_test (addr_1 addr_2 : SocketAddr) (draws : list Z) (draw : Z)
    : Outcome unit :=
  h ← get_hosts addr_1 addr_2;
  '(conn_1, conn_2, _) ← get_connection_pair draws draw h;
  _ ← assert_eq (connection_id_send conn_1) (connection_id_recv conn_2);
  assert_eq (connection_id_recv conn_1) (connection_id_send conn_2).

Definition MAX_CONNS : nat := 200.

(** The connections of [routing_test], one after the other: connection [i] has
    the [i]-th list of draws. *)
Fixpoint local_conns (draws : list (list Z * Z)) (h : Hosts)
    : Outcome (list UtpStream * Hosts) :=
  match draws with
  | [] => Done ([], h)
  | (ds, d) :: draws =>
      '(conn, _, h) ← get_connection_pair ds d h;
      '(conns, h) ← local_conns draws h;
      Done (conn :: conns, h)
  end.

(** [send_tasks]: a packet from the remote socket to each connection. *)
Fixpoint send_tasks (conns : list UtpStream) (h : Hosts) : Outcome Hosts :=
  match conns with
  | [] => Done h
  | conn :: conns =>
      let packet := Packet_new State 1 (connection_id_recv conn) 20 0 30 1 0 [] [] in
      let '(sent, s_2) := send_to (socket_2 h) packet (local_addr (socket_1 h)) in
      _ ← unwrap sent;
      send_tasks conns (set_socket_2 s_2 h)
  end.

(** [recv_tasks]: each connection gets its own. *)
Fixpoint recv_tasks (conns : list UtpStream) (s : UtpSocket) : Outcome unit :=
  match conns with
  | [] => Done tt
  | conn :: conns =>
      '(received, s) ← mailbox_poll_recv s (inbound_packets conn);
      received ← await received;
      packet ← expect UnwrapNone received;
      _ ← assert_eq (connection_id packet) (connection_id_recv conn);
      recv_tasks conns s
  end.

Definition routing_test (addr_1 addr_2 : SocketAddr) (draws : list (list Z * Z))
    : Outcome unit :=
  h ← get_hosts addr_1 addr_2;
  '(conns, h) ← local_conns (take MAX_CONNS draws) h;
  h ← send_tasks conns h;
  h ← to_socket_1 h;
  recv_tasks conns (socket_1 h).

(** One message of [async_read_and_write_test], of bytes [1]: it is written,
    read at the other end, acknowledged and flushed. *)
Definition exchange (clock : nat -> SystemTime) (message : bytes)
    (stream_1 stream_2 : UtpStream) (h : Hosts)
    : Outcome (UtpStream * UtpStream * Hosts) :=
  '(written, stream_1, e) ← poll_write clock stream_1 (mkEnv (socket_1 h) 0%nat) message;
  written ← await written;
  written ← unwrap written;
  _ ← assert_eq written (length message);
  h ← to_socket_2 (set_socket_1 (env_socket e) h);
  '(read, stream_2, e, buf) ←
    poll_read clock (S (length message)) stream_2 (mkEnv (socket_2 h) 0%nat)
      ([], length message);
  read ← await read;
  _ ← unwrap read;
  _ ← assert_eq (filled buf) message;
  h ← to_socket_1 (set_socket_2 (env_socket e) h);
  '(flushed, stream_1, e) ←
    poll_flush clock (S (length message)) stream_1 (mkEnv (socket_1 h) 0%nat);
  flushed ← await flushed;
  _ ← unwrap flushed;
  Done (stream_1, stream_2, set_socket_1 (env_socket e) h).

Definition NUM_PACKETS : nat := 25.
Definition LEFTOVER : nat := 512.

Definition async_read_and_write_test (clock : nat -> SystemTime)
    (addr_1 addr_2 : SocketAddr) (draws : list Z) (draw : Z) : Outcome unit :=
  h ← get_hosts addr_1 addr_2;
  '(stream_1, stream_2, h) ← get_connection_pair draws draw h;
  (* send/receive 1 packet of data *)
  let message := replicate MAX_DATA_SEGMENT_SIZE 1 in
  '(stream_1, stream_2, h) ← exchange clock message stream_1 stream_2 h;
  (* send/receive multiple packets of data *)
  let large_message := replicate (MAX_DATA_SEGMENT_SIZE * NUM_PACKETS + LEFTOVER) 1 in
  '(_, _, _) ← exchange clock large_message stream_1 stream_2 h;
  Done tt.

(** ** They pass

    The tests are fixed inputs under one schedule: they say that the model agrees
    with what the authors expect of the code there, and no more. *)

Lemma local_addr_test_passes addr : local_addr_test (Ok addr) = Done tt.
Proof. unfold local_addr_test. cbn. unfold assert_eq. by rewrite bool_decide_eq_true_2. Qed.

Lemma tests_pass :
  Forall (eq (Done tt))
    [ send_and_recv_test sample_addr sample_peer [7];
      init_connection_test sample_addr;
      register_connection_test sample_addr [7; 7; 7; 9];
      conversions_test sample_addr;
      accept_test sample_addr sample_peer [65535] 65535;
      basic_connection_test sample_addr sample_peer [65535] 65535;
      routing_test sample_addr sample_peer
        ((fun i => ([i * 3], i * 5)) <$> seqZ 0 200);
      async_read_and_write_test sample_clock sample_addr sample_peer [77] 500 ].
Proof. repeat apply Forall_cons_2; try apply Forall_nil_2. all: by vm_compute. Qed.
