(* ===== verification/Transfer.v ===== *)
(** * A transfer over an unreliable network

    A sending stream, a receiving stream and a network that may lose, duplicate
    and reorder the data packets sent, and deliver them arbitrarily late, as a
    step relation. The two hosts run their other tasks in between: the socket
    each poll sees is arbitrary, except for the origin of the data packets in
    the receiver's mailbox. *)

From S2P Require Import Prelude Crates CratesRef Errors Time Packet.
From S2P Require Import PacketWire Congestion Socket Stream StreamFacts StreamRead.
From S2P Require Import StreamWrite Polls.

(** ** Definitions *)

(** The two streams, the data packets sent so far and the bytes handed to the
    reader so far. *)
Record Transfer : Type := mkTransfer {
  t_sender : UtpStream;
  t_sent : list Packet;
  t_receiver : UtpStream;
  t_delivered : bytes;
}.

(** The payloads sent, in order. *)
Definition payloads (t : Transfer) : list bytes := data <$> t_sent t.
#[global] Arguments payloads : simpl never.

Section transfer.
Context `{By : BytesCrate, Rb : ReadBufCrate, Mp : MpscCrate, Dm : DashMapCrate}.
Variables clock_s clock_r : nat -> SystemTime.

(** Every data packet in the mailbox of the stream was sent before. *)
Definition from_network (sent : list Packet) (st : UtpStream) (e : Env) : Prop :=
  Forall (fun p => packet_type p = Data -> p ∈ sent)
    (mailbox (env_socket e) (inbound_packets st)).

Inductive transfer_step (t : Transfer) : Transfer -> Prop :=
  | sender_writes e buf r st' e' new :
      poll_write clock_s (t_sender t) e buf = Done (r, st', e') ->
      queued (outgoing_channel (env_socket e')) =
        queued (outgoing_channel (env_socket e)) ++ new ->
      transfer_step t (mkTransfer st' (t_sent t ++ new.*1) (t_receiver t) (t_delivered t))
  | sender_reads fuel e buf r st' e' buf' :
      poll_read clock_s fuel (t_sender t) e buf = Done (r, st', e', buf') ->
      transfer_step t (mkTransfer st' (t_sent t) (t_receiver t) (t_delivered t))
  | sender_flushes fuel e r st' e' :
      poll_flush clock_s fuel (t_sender t) e = Done (r, st', e') ->
      transfer_step t (mkTransfer st' (t_sent t) (t_receiver t) (t_delivered t))
  | sender_shuts fuel e r st' e' :
      poll_shutdown clock_s fuel (t_sender t) e = Done (r, st', e') ->
      transfer_step t (mkTransfer st' (t_sent t) (t_receiver t) (t_delivered t))
  | receiver_reads fuel e buf r st' e' buf' chunk :
      from_network (t_sent t) (t_receiver t) e ->
      poll_read clock_r fuel (t_receiver t) e buf = Done (r, st', e', buf') ->
      filled buf' = filled buf ++ chunk ->
      transfer_step t (mkTransfer (t_sender t) (t_sent t) st' (t_delivered t ++ chunk))
  | receiver_flushes fuel e r st' e' :
      from_network (t_sent t) (t_receiver t) e ->
      poll_flush clock_r fuel (t_receiver t) e = Done (r, st', e') ->
      transfer_step t (mkTransfer (t_sender t) (t_sent t) st' (t_delivered t))
  | receiver_shuts fuel e r st' e' :
      from_network (t_sent t) (t_receiver t) e ->
      poll_shutdown clock_r fuel (t_receiver t) e = Done (r, st', e') ->
      transfer_step t (mkTransfer (t_sender t) (t_sent t) st' (t_delivered t))
  | receiver_writes e buf r st' e' :
      poll_write clock_r (t_receiver t) e buf = Done (r, st', e') ->
      transfer_step t (mkTransfer (t_sender t) (t_sent t) st' (t_delivered t)).

(** The start of a transfer: two fresh streams, the first packet the sender will
    send being the one the receiver expects. *)
Record transfer_start (t : Transfer) : Prop := {
  tr_seq : u16 (st_seq_number (t_sender t));
  tr_ack : u16 (st_ack_number (t_sender t));
  tr_next : st_ack_number (t_receiver t) = wrapping_sub16 (st_seq_number (t_sender t)) 1;
  tr_sent : t_sent t = [];
  tr_inbound : inbound_data (t_receiver t) = ∅;
  tr_received : received_data (t_receiver t) = [];
  tr_delivered : t_delivered t = [];
}.

(** The invariant: [n] is the number of the first packet; [k] packets have been
    reassembled, and acknowledged. *)
Record transfer_ok (n : Z) (t : Transfer) (k : nat) : Prop := {
  to_u16 : u16 n;
  to_sent : forall i p, t_sent t !! i = Some p ->
    packet_type p = Data /\ seq_number p = seq_at n i;
  to_sender_ack : u16 (st_ack_number (t_sender t));
  to_seq : st_seq_number (t_sender t) = seq_at n (length (t_sent t));
  to_buffer : genuine_buffer n (payloads t) (inbound_data (t_receiver t));
  to_ack : st_ack_number (t_receiver t) = wrapping_sub16 (seq_at n k) 1;
  to_k : (k <= length (payloads t))%nat;
  to_bytes : t_delivered t ++ received_data (t_receiver t) = concat (take k (payloads t));
}.

(** ** Helper lemmas: what each poll leaves alone *)

(** What a poll that returned did to the fields the transfer depends on. *)
Lemma poll_read_Done (clock : nat -> SystemTime) fuel st e buf r st' e' buf' :
  poll_read clock fuel st e buf = Done (r, st', e', buf') -> u16 (st_ack_number st) ->
  exists popped ds chunk,
    mailbox (env_socket e) (inbound_packets st) =
      popped ++ mailbox (env_socket e') (inbound_packets st) /\
    st_seq_number st' = st_seq_number st /\
    (run (buffer_data (st_ack_number st) (inbound_data st) popped)
         (wrapping_add16 (st_ack_number st) 1) ds (inbound_data st') \/
     ds = [] /\
     inbound_data st' = buffer_data (st_ack_number st) (inbound_data st) popped) /\
    st_ack_number st' = wrapping_add16 (st_ack_number st) (Z.of_nat (length ds)) /\
    received_data st ++ concat ds = chunk ++ received_data st' /\
    filled buf' = filled buf ++ chunk.
Proof.
  intros Hr Hu. unfold poll_read in Hr. apply bind_Done in Hr as ([[term st1] e1] & Hp & Hr).
  apply process_packets_Done in Hp as (popped & st2 & [Ht _ Hrecv Hst1 _]).
  pose proof (receive_all_same _ _ _ _ _ Hrecv) as [[Hi1 Hi2 Hi3 Hi4 Hi5 Hi6 Hi7] _].
  apply receive_all_buffers in Hrecv as [Hin _].
  pose proof (td_mailbox _ _ _ _ _ Ht) as Hbox. exists popped.
  destruct term; subst st1.
  - outcome_inv. exists [], []. cbn. rewrite !app_nil_r. split_and!; try done; [by right|].
    rewrite wrapping_add16_0; done.
  - destruct (assemble_run st2) as (ds & m' & Hrun & Ha); [congruence|]. rewrite Ha in Hr.
    rewrite Hin, Hi6 in Hrun. cbn [mbind Outcome_bind] in Hr.
    apply bind_Done in Hr as ([acked e2] & Hs & Hr). exists ds.
    apply (send_packet_Done clock (inbound_packets st)) in Hs as (now & _ & _ & Hs).
    assert (Hbox2 : mailbox (env_socket e1) (inbound_packets st) =
      mailbox (env_socket e2) (inbound_packets st))
      by (destruct acked; [apply (td_mailbox _ _ _ _ _ Hs)|by destruct Hs as (_ & -> & _)]).
    rewrite Hbox2 in Hbox. clear Hs Hbox2 Ht.
    assert (Hack : st_ack_number (assembled st2 ds m') =
      wrapping_add16 (st_ack_number st) (Z.of_nat (length ds))) by (cbn; congruence).
    destruct acked; [|outcome_inv; exists []; cbn; rewrite app_nil_r;
      split_and!; try done; [by left|congruence]].
    destruct (is_empty _); [outcome_inv; exists []; cbn; rewrite app_nil_r;
      split_and!; try done; [by left|congruence]|].
    destruct (deliver_chunk (received_data (assembled st2 ds m')) buf)
      as (chunk & rest & buf2 & Hd & Hl & _ & Hfit & Hput & Hf).
    rewrite Hd in Hr. cbn [mbind Outcome_bind] in Hr. rewrite Hfit, Hput in Hr.
    cbn in Hr. outcome_inv. exists chunk. cbn in *. split_and!; try done; [by left|congruence].
Qed.

Lemma poll_flush_Done (clock : nat -> SystemTime) fuel st e r st' e' :
  poll_flush clock fuel st e = Done (r, st', e') ->
  exists popped,
    mailbox (env_socket e) (inbound_packets st) =
      popped ++ mailbox (env_socket e') (inbound_packets st) /\
    st_seq_number st' = st_seq_number st /\ st_ack_number st' = st_ack_number st /\
    inbound_data st' = buffer_data (st_ack_number st) (inbound_data st) popped /\
    received_data st' = received_data st.
Proof.
  intros Hr. unfold poll_flush in Hr. apply bind_Done in Hr as ([[term st1] e1] & Hp & Hr).
  assert (st' = st1) as -> by (destruct (is_empty _); [|destruct (is_shutdown _)]; by outcome_inv).
  apply process_packets_Done in Hp as (popped & st2 & [Ht _ Hrecv Hst1 _]).
  pose proof (receive_all_same _ _ _ _ _ Hrecv) as [[] _].
  apply receive_all_buffers in Hrecv as [Hin _].
  pose proof (td_mailbox _ _ _ _ _ Ht).
  assert (e' = e1) as -> by (destruct (is_empty _); [|destruct (is_shutdown _)]; by outcome_inv).
  exists popped. destruct term; subst st1; cbn; by split_and!.
Qed.

Lemma poll_shutdown_Done (clock : nat -> SystemTime) fuel st e r st' e' :
  poll_shutdown clock fuel st e = Done (r, st', e') ->
  exists popped,
    mailbox (env_socket e) (inbound_packets st) =
      popped ++ mailbox (env_socket e') (inbound_packets st) /\
    st_seq_number st' = st_seq_number st /\ st_ack_number st' = st_ack_number st /\
    inbound_data st' = buffer_data (st_ack_number st) (inbound_data st) popped /\
    received_data st' = received_data st.
Proof.
  intros Hr%poll_shutdown_flush%poll_flush_Done. exact Hr.
Qed.

(** The packets a call of [poll_write] added to the outgoing queue. *)
Record wrote (st st' : UtpStream) (out : list (Packet * SocketAddr)) : Prop := {
  wr_seq : st_seq_number st' = seq_at (st_seq_number st) (length out);
  wr_out : forall i o, out !! i = Some o ->
    packet_type o.1 = Data /\ seq_number o.1 = seq_at (st_seq_number st) i;
  wr_ack : st_ack_number st' = st_ack_number st;
  wr_inbound : inbound_data st' = inbound_data st;
  wr_received : received_data st' = received_data st;
  wr_unacked : unacked_data st' =
    unacked_data st ++ numbered (st_seq_number st) (data <$> out.*1);
}.

Lemma wrote_nil st : u16 (st_seq_number st) -> wrote st st [].
Proof.
  intros Hu. split; try done; [by rewrite seq_at_0|]. cbn. by rewrite numbered_nil, app_nil_r.
Qed.

Lemma write_chunks_Done (clock : nat -> SystemTime) cs n st e r st' e' :
  write_chunks clock cs n st e = Done (r, st', e') -> u16 (st_seq_number st) ->
  exists out, queued (outgoing_channel (env_socket e')) =
      queued (outgoing_channel (env_socket e)) ++ out /\ wrote st st' out.
Proof.
  revert n st e. induction cs as [|c cs IH]; intros n st e; cbn.
  - intros Hr Hu. outcome_inv. exists []. by split; [rewrite app_nil_r|apply wrote_nil].
  - intros ([[r1 st1] e1] & Hs & Hr)%bind_Done Hu. unfold send_data in Hs.
    apply bind_Done in Hs as ([r2 e2] & Hsp & Hs).
    apply (send_packet_Done clock (inbound_packets st)) in Hsp as (now & _ & _ & Ht).
    destruct r2 as [[]|err]; outcome_inv.
    + apply IH in Hr as (out & Hq & [Hseq Hout Hack Hin Hrec Hun]); [|apply wrapping_add16_u16].
      cbn in *. eexists (_ :: out). split.
      { rewrite Hq, (td_out _ _ _ _ _ Ht), <- (assoc_L (++)). done. }
      split; try done.
      * by rewrite Hseq, seq_at_shift.
      * intros [|i] o Ho; cbn in Ho; [simplify_eq; by rewrite seq_at_0|].
        apply Hout in Ho as [? ->]. by rewrite seq_at_shift.
      * cbn. by rewrite Hun, numbered_cons, <- (assoc_L (++)).
    + exists []. destruct Ht as (_ & -> & _). by split; [rewrite app_nil_r|apply wrote_nil].
Qed.

Lemma poll_write_Done (clock : nat -> SystemTime) st e buf r st' e' :
  poll_write clock st e buf = Done (r, st', e') -> u16 (st_seq_number st) ->
  exists out, queued (outgoing_channel (env_socket e')) =
      queued (outgoing_channel (env_socket e)) ++ out /\ wrote st st' out.
Proof.
  unfold poll_write. destruct (is_shutdown st); [|apply write_chunks_Done].
  intros Hr Hu. outcome_inv. exists []. by split; [rewrite app_nil_r|apply wrote_nil].
Qed.

(** ** Helper lemmas: the invariant *)

Lemma length_payloads t : length (payloads t) = length (t_sent t).
Proof. unfold payloads. by rewrite length_fmap. Qed.

(** The number of packets reassembled is that of the receiver. *)
Lemma transfer_ok_same n t k t' k' : transfer_ok n t k -> transfer_ok n t' k' ->
  t_receiver t' = t_receiver t -> Z.of_nat (length (t_sent t)) < 2 ^ 16 ->
  Z.of_nat (length (t_sent t')) < 2 ^ 16 -> k' = k.
Proof.
  intros [_ _ _ _ _ Ha Hk _] [_ _ _ _ _ Ha' Hk' _] Hr Hl Hl'.
  rewrite length_payloads in *. rewrite Hr, Ha in Ha'.
  apply (seq_at_inj n); [lia..|]. pose proof (seq_at_u16 n k). pose proof (seq_at_u16 n k').
  int_lia.
Qed.

Lemma buffer_data_genuine n ds ack m ps : genuine_buffer n ds m ->
  Forall (genuine n ds) ps -> Z.of_nat (length ds) < 2 ^ 16 ->
  genuine_buffer n ds (buffer_data ack m ps).
Proof. intros Hm Hps Hl k d Hk. by apply (buffer_data_lookup n ds) in Hk as [? _]. Qed.

Lemma from_network_genuine n t k st e : transfer_ok n t k ->
  from_network (t_sent t) st e ->
  Forall (genuine n (payloads t)) (mailbox (env_socket e) (inbound_packets st)).
Proof.
  intros Hok Hn. eapply Forall_impl; [exact Hn|]. intros p Hp Hd. cbn in Hp.
  apply Hp, list_elem_of_lookup in Hd as [i Hi].
  destruct (to_sent _ _ _ Hok i p Hi) as [_ ->]. exists i. split; [|done].
  unfold payloads. by rewrite list_lookup_fmap, Hi.
Qed.

Lemma genuine_buffer_app n ds ds' m :
  genuine_buffer n ds m -> genuine_buffer n (ds ++ ds') m.
Proof.
  intros Hm k d Hk. destruct (Hm k d Hk) as (i & Hi & ->). exists i.
  by rewrite lookup_app_l by (by eapply lookup_lt_Some).
Qed.

(** The sender sends more packets. *)
Lemma transfer_ok_write n t k st' out :
  transfer_ok n t k -> wrote (t_sender t) st' out ->
  transfer_ok n (mkTransfer st' (t_sent t ++ out.*1) (t_receiver t) (t_delivered t)) k.
Proof.
  intros [Hn Hsent Hsack Hseq Hbuf Hack Hk Hb] [Hseq' Hout Hsack' _ _ _].
  assert (Hp : payloads (mkTransfer st' (t_sent t ++ out.*1) (t_receiver t) (t_delivered t)) =
    payloads t ++ (data <$> out.*1)) by (unfold payloads; cbn; by rewrite fmap_app).
  split; rewrite ?Hp; cbn; try done.
  - intros i p [Hi|[Hge Hi]]%lookup_app_Some; [by apply Hsent|].
    rewrite list_lookup_fmap in Hi. apply fmap_Some in Hi as (o & Ho & ->).
    apply Hout in Ho as [? Hs]. split; [done|]. rewrite Hs, Hseq, seq_at_add. f_equal. lia.
  - by rewrite Hsack'.
  - rewrite Hseq', Hseq, seq_at_add, length_app, length_fmap. done.
  - by apply genuine_buffer_app.
  - rewrite length_app. lia.
  - by rewrite take_app_le.
Qed.

(** The receiver takes packets from the network. *)
Lemma transfer_ok_receive n t k st' rs delivered popped :
  transfer_ok n t k -> Z.of_nat (length (t_sent t)) < 2 ^ 16 ->
  Forall (genuine n (payloads t)) popped ->
  (run (buffer_data (st_ack_number (t_receiver t)) (inbound_data (t_receiver t)) popped)
       (wrapping_add16 (st_ack_number (t_receiver t)) 1) rs (inbound_data st') \/
   rs = [] /\ inbound_data st' =
     buffer_data (st_ack_number (t_receiver t)) (inbound_data (t_receiver t)) popped) ->
  st_ack_number st' =
    wrapping_add16 (st_ack_number (t_receiver t)) (Z.of_nat (length rs)) ->
  delivered ++ received_data st' =
    t_delivered t ++ received_data (t_receiver t) ++ concat rs ->
  transfer_ok n (mkTransfer (t_sender t) (t_sent t) st' delivered) (k + length rs).
Proof.
  intros [Hn Hsent Hsack Hseq Hbuf Hack Hk Hb] Hl Hps Hrun Hack' Hb'.
  rewrite <- length_payloads in Hl.
  pose proof (buffer_data_genuine n (payloads t) (st_ack_number (t_receiver t)) _ _
    Hbuf Hps Hl) as Hbuf2.
  assert (Hnext : wrapping_add16 (st_ack_number (t_receiver t)) 1 = seq_at n k).
  { rewrite Hack. pose proof (seq_at_u16 n k). int_lia. }
  rewrite Hnext in Hrun.
  assert (exists rest, drop k (payloads t) = rs ++ rest) as [rest Hrest].
  { destruct Hrun as [Hr|[-> _]]; [by eapply run_genuine|by eexists]. }
  split; try done.
  - cbn. destruct Hrun as [Hr|[_ ->]]; [|done]. intros q d Hq.
    eapply run_rest in Hq as [Hq _]; [by apply Hbuf2|done|apply seq_at_u16].
  - cbn. rewrite Hack', Hack. unfold seq_at. int_lia.
  - change (payloads (mkTransfer _ _ _ _)) with (payloads t).
    pose proof (f_equal length Hrest) as Hlen.
    rewrite length_drop, length_app in Hlen. lia.
  - cbn. change (payloads (mkTransfer _ _ _ _)) with (payloads t).
    assert (take (k + length rs) (payloads t) = take k (payloads t) ++ rs) as ->.
    { rewrite <- (take_drop k (payloads t)) at 1. rewrite Hrest.
      rewrite take_app_add' by (by rewrite length_take_le). by rewrite take_app_length. }
    by rewrite Hb', (assoc_L (++)), Hb, <- concat_app.
Qed.

(** The sender takes packets out of its own mailbox. *)
Lemma transfer_ok_sender n t k st' : transfer_ok n t k ->
  st_seq_number st' = st_seq_number (t_sender t) -> u16 (st_ack_number st') ->
  transfer_ok n (mkTransfer st' (t_sent t) (t_receiver t) (t_delivered t)) k.
Proof. intros [] Hs Ha. split; try done. cbn. congruence. Qed.

(** The receiver changes, but not what it received. *)
Lemma transfer_ok_receiver n t k st' : transfer_ok n t k ->
  st_ack_number st' = st_ack_number (t_receiver t) ->
  received_data st' = received_data (t_receiver t) ->
  genuine_buffer n (payloads t) (inbound_data st') ->
  transfer_ok n (mkTransfer (t_sender t) (t_sent t) st' (t_delivered t)) k.
Proof. intros [] Hs Ha Hi. by split; cbn; rewrite ?Hs, ?Ha. Qed.

(** The polls of the sender that only receive. *)
Lemma transfer_ok_sender_polls n t k st' : transfer_ok n t k ->
  st_seq_number st' = st_seq_number (t_sender t) ->
  st_ack_number st' = st_ack_number (t_sender t) ->
  exists k', (k <= k')%nat /\
    transfer_ok n (mkTransfer st' (t_sent t) (t_receiver t) (t_delivered t)) k'.
Proof.
  intros Hok Hs Ha. exists k. split; [done|]. apply transfer_ok_sender; [done..|]. rewrite Ha. apply Hok.
Qed.

(** The polls of the receiver that only buffer what they receive. *)
Lemma transfer_ok_receiver_polls n t k e st' popped rest :
  transfer_ok n t k -> Z.of_nat (length (t_sent t)) < 2 ^ 16 ->
  from_network (t_sent t) (t_receiver t) e ->
  mailbox (env_socket e) (inbound_packets (t_receiver t)) = popped ++ rest ->
  st_ack_number st' = st_ack_number (t_receiver t) ->
  inbound_data st' =
    buffer_data (st_ack_number (t_receiver t)) (inbound_data (t_receiver t)) popped ->
  received_data st' = received_data (t_receiver t) ->
  exists k', (k <= k')%nat /\
    transfer_ok n (mkTransfer (t_sender t) (t_sent t) st' (t_delivered t)) k'.
Proof.
  intros Hok Hl Hnet Hbox Ha Hi Hd. pose proof (from_network_genuine n t k _ _ Hok Hnet) as Hg.
  rewrite Hbox in Hg. apply Forall_app in Hg as [Hg _]. exists k. split; [done|].
  apply transfer_ok_receiver; try done. rewrite Hi.
  apply buffer_data_genuine; [apply Hok|done|by rewrite length_payloads].
Qed.

Lemma transfer_step_ok n t k t' :
  transfer_step t t' -> Z.of_nat (length (t_sent t')) < 2 ^ 16 ->
  transfer_ok n t k -> u16 (st_seq_number (t_receiver t)) ->
  u16 (st_seq_number (t_receiver t')) /\ exists k', (k <= k')%nat /\ transfer_ok n t' k'.
Proof.
  intros Hstep Hl Hok Hru. pose proof (seq_at_u16 n (length (t_sent t))) as Hsu.
  rewrite <- (to_seq _ _ _ Hok) in Hsu.
  assert (Hau : u16 (st_ack_number (t_receiver t)))
    by (rewrite (to_ack _ _ _ Hok); apply wrapping_sub16_u16).
  destruct Hstep as [e buf r st' e' new Hr Hq|fuel e buf r st' e' buf' Hr|fuel e r st' e' Hr
    |fuel e r st' e' Hr|fuel e buf r st' e' buf' chunk Hnet Hr Hf|fuel e r st' e' Hnet Hr
    |fuel e r st' e' Hnet Hr|e buf r st' e' Hr]; cbn in Hl; cbn [t_receiver].
  - apply poll_write_Done in Hr as (out & Hq2 & Hw); [|done]. split; [done|]. exists k.
    split; [done|]. rewrite Hq in Hq2. apply app_inv_head in Hq2 as ->. by apply transfer_ok_write.
  - apply poll_read_Done in Hr as (? & ds & ? & _ & Hs & _ & Ha & _); [|apply Hok].
    split; [done|]. exists k. split; [done|]. apply transfer_ok_sender; [done..|].
    rewrite Ha. apply wrapping_add16_u16.
  - apply poll_flush_Done in Hr as (? & _ & Hs & Ha & _). split; [done|].
    by eapply transfer_ok_sender_polls.
  - apply poll_shutdown_Done in Hr as (? & _ & Hs & Ha & _). split; [done|].
    by eapply transfer_ok_sender_polls.
  - pose proof (from_network_genuine n t k _ _ Hok Hnet) as Hg.
    apply poll_read_Done in Hr as (popped & rs & chunk2 & Hbox & Hs & Hrun & Ha & Hb & Hf2);
      [|done].
    rewrite Hf in Hf2. apply app_inv_head in Hf2 as ->. rewrite Hbox in Hg.
    apply Forall_app in Hg as [Hg _]. split; [by rewrite Hs|]. exists (k + length rs)%nat. split; [lia|].
    apply (transfer_ok_receive n t k st' rs _ popped); try done.
    by rewrite <- (assoc_L (++)), <- Hb.
  - apply poll_flush_Done in Hr as (popped & Hbox & Hs & Ha & Hi & Hd).
    split; [by rewrite Hs|]. by eapply transfer_ok_receiver_polls.
  - apply poll_shutdown_Done in Hr as (popped & Hbox & Hs & Ha & Hi & Hd).
    split; [by rewrite Hs|]. by eapply transfer_ok_receiver_polls.
  - apply poll_write_Done in Hr as (out & _ & [Hs _ Ha Hi Hd _]); [|done].
    split; [rewrite Hs; apply seq_at_u16|]. exists k. split; [done|].
    apply transfer_ok_receiver; try done. rewrite Hi. apply Hok.
Qed.

Lemma transfer_step_sent t t' : transfer_step t t' ->
  exists new, t_sent t' = t_sent t ++ new.
Proof. destruct 1; cbn; try (by exists []; rewrite app_nil_r). by eexists. Qed.

Lemma transfer_start_ok t : transfer_start t ->
  transfer_ok (st_seq_number (t_sender t)) t 0.
Proof.
  intros [Hu Ha Hn Hs Hi Hr Hd]. split; try done.
  - by rewrite Hs.
  - by rewrite Hs, seq_at_0.
  - by rewrite Hi.
  - by rewrite seq_at_0.
  - lia.
  - by rewrite Hr, Hd.
Qed.

Lemma transfer_run_ok n t0 k0 t : rtc transfer_step t0 t ->
  Z.of_nat (length (t_sent t)) < 2 ^ 16 ->
  transfer_ok n t0 k0 -> u16 (st_seq_number (t_receiver t0)) ->
  u16 (st_seq_number (t_receiver t)) /\ exists k, (k0 <= k)%nat /\ transfer_ok n t k.
Proof.
  intros Hr Hl Hok Hu. revert t Hr Hl. refine (rtc_ind_r _ _ _ _);
    [|intros t1 t2 _ Hstep IH]; intros Hl.
  - split; [done|]. by exists k0.
  - destruct (transfer_step_sent _ _ Hstep) as [new Hnew].
    destruct IH as [Hu1 (k1 & Hk1 & Hok1)]; [rewrite Hnew, length_app in Hl; lia|].
    destruct (transfer_step_ok _ _ _ _ Hstep Hl Hok1 Hu1) as [Hu2 (k2 & Hk2 & Hok2)].
    split; [done|]. exists k2. split; [lia|done].
Qed.

Lemma transfer_reachable_ok t0 t : transfer_start t0 ->
  u16 (st_seq_number (t_receiver t0)) -> rtc transfer_step t0 t ->
  Z.of_nat (length (t_sent t)) < 2 ^ 16 ->
  u16 (st_seq_number (t_receiver t)) /\
  exists k, transfer_ok (st_seq_number (t_sender t0)) t k.
Proof.
  intros H0 Hu Hr Hl.
  destruct (transfer_run_ok _ _ _ _ Hr Hl (transfer_start_ok _ H0) Hu) as [? (k & _ & ?)].
  by eauto.
Qed.

(** ** Properties *)

(** A transfer is safe as long as fewer than 65536 packets are sent: however
    the network loses, repeats, delays and reorders them, and however the polls
    of the two streams alternate, the bytes the reader got and those waiting for
    it are the payloads of the first [k] packets sent, in order and without a
    gap, and the [k]-th packet is the one the receiver acknowledges. *)
Theorem transfer_safe t0 t : transfer_start t0 ->
  u16 (st_seq_number (t_receiver t0)) -> rtc transfer_step t0 t ->
  Z.of_nat (length (t_sent t)) < 2 ^ 16 ->
  exists k, (k <= length (t_sent t))%nat /\
    t_delivered t ++ received_data (t_receiver t) = concat (take k (payloads t)) /\
    st_ack_number (t_receiver t) =
      wrapping_add16 (wrapping_sub16 (st_seq_number (t_sender t0)) 1) (Z.of_nat k).
Proof.
  intros H0 Hu Hr Hl. destruct (transfer_reachable_ok t0 t H0 Hu Hr Hl) as [_ [k Hok]].
  exists k. destruct Hok as [? ? ? ? ? Hack Hk Hb]. rewrite length_payloads in Hk.
  split_and!; try done. rewrite Hack. unfold seq_at. int_lia.
Qed.
End transfer.

(** ** Witnesses *)

(** A transfer from a stream about to send packet 101. *)
Definition sample_transfer : Transfer :=
  mkTransfer (UtpStream_new 6 5 sample_addr 0%nat 101 1 ∅ [] []) [] sample_stream [].

Lemma sample_transfer_start : transfer_start sample_transfer.
Proof. by split. Qed.

Lemma transfer_safe_witness :
  exists t, rtc (transfer_step sample_clock sample_clock) sample_transfer t /\
    length (t_sent t) = 1%nat /\
    exists k, (k <= 1)%nat /\
      t_delivered t ++ received_data (t_receiver t) = concat (take k (payloads t)).
Proof.
  destruct (write_chunks_alive sample_clock [[1; 2; 3]] 0 (t_sender sample_transfer)
    (sample_env []) sample_clock_nonneg eq_refl ltac:(done)) as (e' & Hw & _ & Ht).
  pose proof (sender_writes sample_clock sample_clock sample_transfer (sample_env [])
    [1; 2; 3] _ _ e' _ Hw (td_out _ _ _ _ _ Ht)) as Hstep.
  eexists. split; [exact (rtc_once _ _ Hstep)|]. split; [done|].
  destruct (transfer_safe sample_clock sample_clock sample_transfer _ sample_transfer_start
    ltac:(done) (rtc_once _ _ Hstep) ltac:(done)) as (k & Hk & Hb & _).
  exists k. split; [exact Hk|exact Hb].
Defined.
