(* ===== verification/Acks.v ===== *)
(** * Acknowledgements

    The other direction of a transfer: the receiver acknowledges what it
    reassembled, the acknowledgements travel over the same unreliable network,
    and the sender forgets the packets they cover. An acknowledgement in flight
    is a lower bound on what the receiver has; so is, therefore, everything the
    sender has forgotten. *)

From S2P Require Import Prelude Crates CratesRef Errors Time Packet.
From S2P Require Import PacketWire Congestion Socket Stream StreamFacts StreamRead.
From S2P Require Import StreamWrite Polls HostState HostEffect Transfer.

(** ** Definitions *)

(** A transfer, and the acknowledgement numbers its receiver has had so far: the
    only ones its acknowledgements can carry. *)
Record Exchange : Type := mkExchange {
  x_transfer : Transfer;
  x_acks : list Z;
}.

(** The transfer after a poll of the sender, or of the receiver. *)
Definition sender_moved (t : Transfer) (ev : Event) (st' : UtpStream) : Transfer :=
  mkTransfer st' (t_sent t ++ match ev with Wrote _ packets => packets.*1 | _ => [] end)
    (t_receiver t) (t_delivered t).
Definition receiver_moved (t : Transfer) (ev : Event) (st' : UtpStream) : Transfer :=
  mkTransfer (t_sender t) (t_sent t) st'
    (t_delivered t ++ match ev with Read chunk => chunk | _ => [] end).

Section acks.
Context `{By : BytesCrate, Rb : ReadBufCrate, Mp : MpscCrate, Dm : DashMapCrate}.
Variables clock_s clock_r : nat -> SystemTime.

(** Every acknowledgement in the mailbox of the stream was sent before. *)
Definition acks_from (acks : list Z) (st : UtpStream) (s : UtpSocket) : Prop :=
  Forall (fun p => packet_type p = State -> ack_number p ∈ acks)
    (mailbox s (inbound_packets st)).

Inductive exchange_step (x : Exchange) : Exchange -> Prop :=
  | sender_polled s ev st' :
      acks_from (x_acks x) (t_sender (x_transfer x)) s ->
      stream_poll clock_s s (t_sender (x_transfer x)) ev st' ->
      exchange_step x (mkExchange (sender_moved (x_transfer x) ev st') (x_acks x))
  | receiver_polled s ev st' :
      from_network (t_sent (x_transfer x)) (t_receiver (x_transfer x)) (mkEnv s 0) ->
      stream_poll clock_r s (t_receiver (x_transfer x)) ev st' ->
      exchange_step x (mkExchange (receiver_moved (x_transfer x) ev st')
        (x_acks x ++ [st_ack_number st'])).

Record exchange_start (x : Exchange) : Prop := {
  xs_transfer : transfer_start (x_transfer x);
  xs_receiver : u16 (st_seq_number (t_receiver (x_transfer x)));
  xs_unacked : unacked_data (t_sender (x_transfer x)) = [];
  xs_acks : x_acks x = [st_ack_number (t_receiver (x_transfer x))];
}.

(** An acknowledgement that covers at most the first [k] packets, when the first
    one is numbered [n]. *)
Definition covers (n : Z) (k : nat) (a : Z) : Prop :=
  exists j, (j <= k)%nat /\ a = n + Z.of_nat j - 1.

(** What the sender keeps: all packets but the first [m], and those only when the
    receiver has them. *)
Definition keeps_unacked (n : Z) (ds : list bytes) (k : nat) (st : UtpStream) : Prop :=
  exists m, (m <= k)%nat /\ unacked_data st = drop m (numbered n ds).

Record exchange_ok (n : Z) (x : Exchange) (k : nat) : Prop := {
  xo_transfer : transfer_ok n (x_transfer x) k;
  xo_receiver : u16 (st_seq_number (t_receiver (x_transfer x)));
  xo_acks : Forall (covers n k) (x_acks x);
  xo_unacked : keeps_unacked n (payloads (x_transfer x)) k (t_sender (x_transfer x));
}.

(** ** Helper lemmas: what a poll forgets *)

Lemma covers_le n k k' a : covers n k a -> (k <= k')%nat -> covers n k' a.
Proof. intros (j & ? & ?) ?. exists j. split; [lia|done]. Qed.

Lemma receive_packet_unacked clock i st p st' : receive_packet clock i st p = Done st' ->
  unacked_data st' = unacked_data st \/
  packet_type p = State /\ unacked_data st' = pop_acked (ack_number p) (unacked_data st).
Proof.
  unfold receive_packet. intros (t & _ & (susp & _ & Hs)%bind_Done)%bind_Done.
  destruct susp; [outcome_inv; by left|]. unfold handle_packet in Hs.
  destruct (packet_type p) eqn:Hp; outcome_inv; cbn; [by left|by right].
Qed.

(** Popping the packets that an acknowledgement covers. *)
Lemma pop_acked_keeps n ds m k a : 0 <= n -> n + Z.of_nat (length ds) <= 2 ^ 16 ->
  (m <= k)%nat -> covers n k a ->
  exists m', (m' <= k)%nat /\ pop_acked a (drop m (numbered n ds)) = drop m' (numbered n ds).
Proof.
  intros Hn Hl Hm (j & Hj & ->). rewrite numbered_drop.
  destruct (decide (length ds <= m)%nat) as [Hge|Hlt].
  - exists m. split; [done|]. rewrite numbered_drop, drop_ge by done. by rewrite numbered_nil.
  - assert (seq_at n m = n + Z.of_nat m) as Hs by (unfold seq_at; int_lia).
    rewrite pop_acked_no_wrap by (rewrite ?Hs, ?length_drop; lia).
    rewrite <- numbered_drop, drop_drop. eexists. split; [|done]. lia.
Qed.

Lemma receive_all_keeps clock i st ps st' n ds k acks :
  receive_all clock i st ps = Done st' -> 0 <= n -> n + Z.of_nat (length ds) <= 2 ^ 16 ->
  Forall (fun p => packet_type p = State -> ack_number p ∈ acks) ps ->
  Forall (covers n k) acks -> keeps_unacked n ds k st -> keeps_unacked n ds k st'.
Proof.
  intros Hr Hn Hl Hps Hacks. rewrite Forall_forall in Hacks. revert i st Hr.
  induction Hps as [|p ps Hp _ IH]; intros i st; cbn; [intros; by outcome_inv|].
  intros (st1 & H1%receive_packet_unacked & Hr)%bind_Done (m & Hm & Hu).
  apply (IH _ _ Hr). unfold keeps_unacked. destruct H1 as [->|[Ht ->]]; [by exists m|]. rewrite Hu.
  apply pop_acked_keeps; auto.
Qed.

(** A poll that receives forgets what the packets it takes acknowledge. *)
Definition received_some (clock : nat -> SystemTime) (s : UtpSocket) (st st' : UtpStream)
    : Prop :=
  exists i popped rest st1, mailbox s (inbound_packets st) = popped ++ rest /\
    receive_all clock i st popped = Done st1 /\ unacked_data st' = unacked_data st1.

Lemma process_packets_some clock fuel st e term st' e' :
  process_packets clock fuel st e = Done (term, st', e') ->
  received_some clock (env_socket e) st st'.
Proof.
  intros (popped & st1 & [Ht _ Hr -> _])%process_packets_Done.
  eexists _, popped, _, st1. split_and!; [apply Ht|done|by destruct term].
Qed.

Lemma assemble_unacked fuel n st st' : assemble fuel n st = Done st' ->
  unacked_data st' = unacked_data st.
Proof.
  revert n st. induction fuel as [|fuel IH]; intros n st; [done|]. cbn.
  destruct (inbound_data st !! n); [by intros ->%IH|intros; by outcome_inv].
Qed.

Lemma poll_read_some clock fuel st e buf r st' e' buf' :
  poll_read clock fuel st e buf = Done (r, st', e', buf') ->
  received_some clock (env_socket e) st st'.
Proof.
  unfold poll_read. intros ([[term st1] e1] & Hp%process_packets_some & Hr)%bind_Done.
  destruct term; [by outcome_inv|].
  apply bind_Done in Hr as (st2 & Ha%assemble_unacked & Hr).
  apply bind_Done in Hr as ([acked e2] & _ & Hr).
  assert (received_some clock (env_socket e) st st2) as H2.
  { destruct Hp as (i & ps & rest & st3 & ? & ? & ?). exists i, ps, rest, st3.
    split_and!; [done|done|congruence]. }
  destruct acked; [|by outcome_inv]. destruct (is_empty _); [by outcome_inv|].
  apply bind_Done in Hr as ([chunk rest] & _ & Hr). destruct (negb _); [done|].
  apply bind_Done in Hr as (buf2 & _ & Hr). by outcome_inv.
Qed.

Lemma poll_flush_some clock fuel st e r st' e' :
  poll_flush clock fuel st e = Done (r, st', e') ->
  received_some clock (env_socket e) st st'.
Proof.
  unfold poll_flush. intros ([[term st1] e1] & Hp%process_packets_some & Hr)%bind_Done.
  destruct (is_empty _); [by outcome_inv|]. by destruct (is_shutdown _); outcome_inv.
Qed.

(** What the sender keeps after any poll. *)
Lemma stream_poll_keeps s st ev st' n ds k acks :
  stream_poll clock_s s st ev st' -> acks_from acks st s -> 0 <= n ->
  (k <= length ds)%nat -> n + Z.of_nat (length ds) <= 2 ^ 16 ->
  Forall (covers n k) acks -> st_seq_number st = seq_at n (length ds) ->
  keeps_unacked n ds k st ->
  keeps_unacked n (ds ++ match ev with Wrote _ ps => data <$> ps.*1 | _ => [] end) k st'.
Proof.
  intros Hp Hbox Hn Hk Hl Hacks Hseq Hun.
  assert (Hsome : forall st0, received_some clock_s s st0 st' ->
    unacked_data st0 = unacked_data st -> inbound_packets st0 = inbound_packets st ->
    keeps_unacked n ds k st').
  { intros st0 (i & popped & rest & st1 & Hm & Hr & Hu) Hu0 Hi. unfold acks_from in Hbox.
    rewrite <- Hi, Hm in Hbox. apply Forall_app in Hbox as [Hbox _]. unfold keeps_unacked.
    rewrite Hu. eapply receive_all_keeps; [done..|]. unfold keeps_unacked. by rewrite Hu0. }
  destruct ev as [chunk|acc ps|]; rewrite ?app_nil_r.
  - destruct Hp as (fuel & i & buf & r & e' & buf' & Hr%poll_read_some & _). eauto.
  - destruct Hp as (i & buf & r & e' & Hr & Hq & _).
    apply poll_write_Done in Hr as (out & Hq2 & [_ _ _ _ _ Hw]);
      [|rewrite Hseq; apply seq_at_u16].
    cbn in Hq2. rewrite Hq in Hq2. apply app_inv_head in Hq2 as ->.
    destruct Hun as (m & Hm & Hu). exists m. split; [done|].
    rewrite Hw, Hu, Hseq, numbered_app, drop_app_le; [done|]. rewrite length_numbered. lia.
  - destruct Hp as (fuel & i & r & e' & [Hr%poll_flush_some|Hr]); [eauto|].
    apply poll_shutdown_flush, poll_flush_some in Hr. eauto.
Qed.

(** ** Helper lemmas: an exchange is a transfer *)

Lemma sender_transfer s t ev st' : stream_poll clock_s s (t_sender t) ev st' ->
  transfer_step clock_s clock_r t (sender_moved t ev st').
Proof.
  unfold sender_moved. destruct ev as [chunk|acc packets|]; cbn; rewrite ?app_nil_r.
  - intros (fuel & n & buf & r & e' & buf' & Hr & _). by eapply sender_reads.
  - intros (n & buf & r & e' & Hr & Hq & _).
    by apply (sender_writes clock_s clock_r t _ _ _ _ _ packets Hr).
  - intros (fuel & n & r & e' & [Hr|Hr]); [by eapply sender_flushes|by eapply sender_shuts].
Qed.

Lemma receiver_transfer s t ev st' : from_network (t_sent t) (t_receiver t) (mkEnv s 0) ->
  stream_poll clock_r s (t_receiver t) ev st' ->
  transfer_step clock_s clock_r t (receiver_moved t ev st').
Proof.
  intros Hbox. unfold receiver_moved.
  destruct ev as [chunk|acc packets|]; cbn; rewrite ?app_nil_r.
  - intros (fuel & n & buf & r & e' & buf' & Hr & Hf).
    by apply (receiver_reads clock_s clock_r t fuel (mkEnv s n) buf r st' e' buf').
  - intros (n & buf & r & e' & Hr & _). by eapply receiver_writes.
  - intros (fuel & n & r & e' & [Hr|Hr]).
    + by apply (receiver_flushes clock_s clock_r t fuel (mkEnv s n) r st' e').
    + by apply (receiver_shuts clock_s clock_r t fuel (mkEnv s n) r st' e').
Qed.

Lemma exchange_transfer x x' : exchange_step x x' ->
  transfer_step clock_s clock_r (x_transfer x) (x_transfer x').
Proof. destruct 1; [by eapply sender_transfer|by eapply receiver_transfer]. Qed.

Lemma sender_moved_payloads t ev st' : payloads (sender_moved t ev st') =
  payloads t ++ match ev with Wrote _ ps => data <$> ps.*1 | _ => [] end.
Proof. unfold payloads. cbn. rewrite fmap_app. by destruct ev. Qed.

(** ** Helper lemmas: the invariant *)

Lemma keeps_unacked_le n ds k k' st : keeps_unacked n ds k st -> (k <= k')%nat ->
  keeps_unacked n ds k' st.
Proof. intros (m & ? & ?) ?. exists m. split; [lia|done]. Qed.

Lemma exchange_step_ok n x k x' :
  exchange_step x x' -> 1 <= n ->
  n + Z.of_nat (length (t_sent (x_transfer x'))) <= 2 ^ 16 ->
  exchange_ok n x k -> exists k', exchange_ok n x' k'.
Proof.
  intros Hstep Hn Hl [Ht Hu Hacks Hun]. pose proof (exchange_transfer _ _ Hstep) as Hts.
  destruct (transfer_step_ok _ _ n _ k _ Hts) as [Hu' (k' & Hk & Ht')]; [lia|done..|].
  assert (Hacks' : Forall (covers n k') (x_acks x))
    by (eapply Forall_impl; [exact Hacks|]; eauto using covers_le).
  exists k'. split; try done; destruct Hstep as [s ev st' Hbox Hp|s ev st' Hbox Hp]; cbn in *.
  - done.
  - apply Forall_app. split; [done|]. apply Forall_singleton. exists k'. split; [done|].
    pose proof (to_ack _ _ _ Ht') as Ha. cbn in Ha. rewrite Ha.
    pose proof (to_k _ _ _ Ht') as Hkl. rewrite length_payloads in Hkl. cbn in Hkl.
    unfold seq_at. int_lia.
  - rewrite sender_moved_payloads. eapply keeps_unacked_le; [|exact Hk].
    rewrite length_app in Hl.
    eapply stream_poll_keeps; [done..|lia|apply Ht|rewrite length_payloads; lia|done| |done].
    rewrite length_payloads. apply Ht.
  - by eapply keeps_unacked_le.
Qed.

Lemma exchange_start_ok x : exchange_start x ->
  1 <= st_seq_number (t_sender (x_transfer x)) ->
  exchange_ok (st_seq_number (t_sender (x_transfer x))) x 0.
Proof.
  intros [Ht Hu Hun Hacks] Hn. pose proof (tr_seq _ Ht). split; [|done|..].
  - by apply transfer_start_ok.
  - rewrite Hacks, (tr_next _ Ht). apply Forall_singleton. exists 0%nat. split; [done|]. int_lia.
  - exists 0%nat. split; [done|]. unfold payloads. by rewrite Hun, (tr_sent _ Ht).
Qed.

Lemma exchange_reachable_ok x0 x : exchange_start x0 -> rtc exchange_step x0 x ->
  1 <= st_seq_number (t_sender (x_transfer x0)) ->
  st_seq_number (t_sender (x_transfer x0)) +
    Z.of_nat (length (t_sent (x_transfer x))) <= 2 ^ 16 ->
  exists k, exchange_ok (st_seq_number (t_sender (x_transfer x0))) x k.
Proof.
  intros H0 Hr Hn. revert x Hr. refine (rtc_ind_r _ _ _ _);
    [|intros x1 x2 _ Hstep IH]; intros Hl.
  - exists 0%nat. by apply exchange_start_ok.
  - destruct (transfer_step_sent _ _ _ _ (exchange_transfer _ _ Hstep)) as [new Hnew].
    destruct IH as [k Hk]; [rewrite Hnew, length_app in Hl; lia|].
    by eapply exchange_step_ok.
Qed.

(** With nothing left in flight, the receiver has everything. *)
Lemma exchange_all n x k : exchange_ok n x k ->
  unacked_data (t_sender (x_transfer x)) = [] ->
  t_delivered (x_transfer x) ++ received_data (t_receiver (x_transfer x)) =
    concat (payloads (x_transfer x)).
Proof.
  intros [Ht _ _ (m & Hm & ->)] Hnil%(f_equal length).
  rewrite length_drop, length_numbered in Hnil. cbn in Hnil.
  rewrite (to_bytes _ _ _ Ht), take_ge; [done|lia].
Qed.

(** ** Properties *)

(** C12. What the sender forgets, the receiver has. As long as the sequence numbers
    do not wrap around, and however the network loses, repeats, delays and
    reorders packets and acknowledgements, the data in flight is the sequence of
    packets sent without its first [m], and the receiver has reassembled at
    least those; in particular, with nothing left in flight it has everything. *)
Theorem acked_is_received x0 x : exchange_start x0 -> rtc exchange_step x0 x ->
  1 <= st_seq_number (t_sender (x_transfer x0)) ->
  st_seq_number (t_sender (x_transfer x0)) +
    Z.of_nat (length (t_sent (x_transfer x))) <= 2 ^ 16 ->
  exists m k, (m <= k <= length (t_sent (x_transfer x)))%nat /\
    unacked_data (t_sender (x_transfer x)) =
      drop m (numbered (st_seq_number (t_sender (x_transfer x0))) (payloads (x_transfer x))) /\
    t_delivered (x_transfer x) ++ received_data (t_receiver (x_transfer x)) =
      concat (take k (payloads (x_transfer x))) /\
    (unacked_data (t_sender (x_transfer x)) = [] ->
      t_delivered (x_transfer x) ++ received_data (t_receiver (x_transfer x)) =
        concat (payloads (x_transfer x))).
Proof.
  intros H0 Hr Hn Hl. destruct (exchange_reachable_ok _ _ H0 Hr Hn Hl)
    as (k & Hok). pose proof Hok as [Ht _ _ (m & Hm & Hu)].
  pose proof (to_k _ _ _ Ht) as Hk. exists m, k. rewrite <- length_payloads.
  split_and!; [done..|apply Ht|]. by eapply exchange_all.
Qed.
End acks.

(** ** Witnesses *)

Definition sample_exchange : Exchange :=
  mkExchange sample_transfer [st_ack_number sample_stream].

Lemma sample_exchange_start : exchange_start sample_exchange.
Proof. split; [apply sample_transfer_start|done..]. Qed.

Lemma acked_is_received_witness : exists x,
  rtc (exchange_step sample_clock sample_clock) sample_exchange x /\
  payloads (x_transfer x) = [[1; 2; 3]] /\
  (unacked_data (t_sender (x_transfer x)) = [] ->
     t_delivered (x_transfer x) ++ received_data (t_receiver (x_transfer x)) = [1; 2; 3]).
Proof.
  destruct (write_chunks_alive sample_clock [[1; 2; 3]] 0 (t_sender sample_transfer)
    (sample_env []) sample_clock_nonneg eq_refl ltac:(done)) as (e' & Hw & _ & Ht).
  assert (Hr : rtc (exchange_step sample_clock sample_clock) sample_exchange
    (mkExchange (sender_moved sample_transfer (Wrote [1; 2; 3] (sends (t_sender sample_transfer)
          (fun i => micros_at sample_clock (0 + i)) [[1; 2; 3]]))
       (written (t_sender sample_transfer) [[1; 2; 3]])) (x_acks sample_exchange))).
  { eapply rtc_once, (sender_polled _ _ sample_exchange (env_socket (sample_env []))).
    - apply Forall_nil_2.
    - exists (clock_reads (sample_env [])), [1; 2; 3], (Ready (Ok 3%nat)), e'.
      split_and!; [exact Hw|exact (td_out _ _ _ _ _ Ht)|reflexivity]. }
  eexists. split; [exact Hr|].
  destruct (acked_is_received sample_clock sample_clock _ _ sample_exchange_start Hr)
    as (m & k & _ & _ & _ & Hall); [done..|].
  split; [reflexivity|exact Hall].
Defined.
