(* ===== verification/World.v ===== *)
(** * Two hosts and the network between them

    Host A sends to host B through a network that may lose, duplicate, delay and
    reorder datagrams, and carries anything else from and to anybody; a stream of
    A and a stream of B are the two ends of one connection, among any number of
    others. Everything else runs: the four tasks, the listeners, other streams,
    and users who connect, accept, write, read and drop as they like, but for two
    conditions: no other stream of A sends to B under the identifier of the
    connection, and a [connect] that makes B's end takes the right answer. Seen
    from the connection, this is a run of the abstract transfer of Transfer.v. *)

From S2P Require Import Prelude Crates CratesRef Errors Time Packet.
From S2P Require Import PacketWire Congestion Socket PacketSender PacketReceiver Stream.
From S2P Require Import StreamFacts StreamRead StreamWrite StreamInvariant Polls.
From S2P Require Import Listener Handshake Host Boxes HostState HostEffect Transfer Acks.

(** ** Definitions *)

(** What a step is for the stream of the mailbox [id]. *)
Definition sent_by (id : ChanId) (l : Label) : list Packet :=
  match event_of id l with Some (Wrote _ packets) => packets.*1 | _ => [] end.
Definition written_by (id : ChanId) (l : Label) : bytes :=
  match event_of id l with Some (Wrote accepted _) => accepted | _ => [] end.
Definition read_by (id : ChanId) (l : Label) : bytes :=
  match event_of id l with Some (Read chunk) => chunk | _ => [] end.

Section world.
Context `{By : BytesCrate, Rb : ReadBufCrate, Mp : MpscCrate, Dm : DashMapCrate}.
Variables clock_a clock_b : nat -> SystemTime.

(** The addresses of the two hosts, and the mailboxes of the two streams. *)
Variables addr_a addr_b : SocketAddr.
Variables ra rb : ChanId.

(** When the stream at B is still to come, B being the side that connects: the
    number of the answer it must take. *)
Variable first : Z.

(** The hosts; the datagrams A gave the network for B so far; and for the two
    streams, the data packets queued and the bytes written so far at A, and the
    bytes read so far at B. *)
Record World : Type := mkWorld {
  w_a : Host;
  w_b : Host;
  w_net : list bytes;
  w_sent : list Packet;
  w_written : bytes;
  w_read : bytes;
}.

(** Anything may arrive at A. What arrives at B from A's address was sent by A;
    from other addresses, anything may. *)
Definition from_net (net : list bytes) (bs : bytes) (from : SocketAddr) : Prop :=
  from = addr_a -> bs ∈ net.

(** The world after a step of one of the hosts. *)
Definition a_moved (w : World) (l : Label) (a' : Host) : World :=
  mkWorld a' (w_b w) (w_net w ++ to_peer addr_b (l_emitted l)) (w_sent w ++ sent_by ra l)
    (w_written w ++ written_by ra l) (w_read w).
Definition b_moved (w : World) (l : Label) (b' : Host) : World :=
  mkWorld (w_a w) b' (w_net w) (w_sent w) (w_written w) (w_read w ++ read_by rb l).

Inductive world_step (w : World) : World -> Prop :=
  | a_moves l a' :
      host_step clock_a (fun _ _ => True) (w_a w) l a' -> world_step w (a_moved w l a')
  | b_moves l b' :
      host_step clock_b (from_net (w_net w)) (w_b w) l b' -> world_step w (b_moved w l b').

(** No other stream of A sends to B under the identifier [cid]. *)
Definition only_stream (cid : Z) (w : World) : Prop :=
  forall id st, h_owners (w_a w) !! id = Some (Streaming st) ->
    connection_id_send st = cid -> remote_addr st = addr_b -> id = ra.

(** A [connect] at B that ends takes the right answer. *)
Definition answered (w w' : World) : Prop :=
  forall c st, h_owners (w_b w) !! rb = Some (Awaiting c) ->
    h_owners (w_b w') !! rb = Some (Streaming st) -> st_ack_number st = first.

Definition world_moves (cid : Z) (w w' : World) : Prop :=
  only_stream cid w /\ answered w w' /\ world_step w w'.

(** A data packet of the connection, on its way from A to B. *)
Definition data_for (cid : Z) (p : Packet) : Prop :=
  packet_type p = Data /\ connection_id p = cid.

(** The stream a pending [connect] makes of the right answer. *)
Definition awaited (c : Connecting) (st : UtpStream) : Prop :=
  exists answer, seq_number answer = first /\ st = connected c answer.

(** The end of a connection that is, or will be, the stream [st]. *)
Definition is_end (o : Owner) (st : UtpStream) : Prop :=
  match o with
  | Streaming st' => st' = st
  | Awaiting c => awaited c st
  end.

(** The start: in two consistent hosts, a stream of A and a stream of B (or the
    [connect] it comes from) that agree on the connection and on the number of
    the first packet, with nothing sent yet and no older data packet under the
    same identifier on its way. *)
Record world_start (cid : Z) (sa sb : UtpStream) (w : World) : Prop := {
  wo_a : host_ok (w_a w);
  wo_b : host_ok (w_b w);
  wo_sa : h_owners (w_a w) !! ra = Some (Streaming sa);
  wo_sb : exists o, h_owners (w_b w) !! rb = Some o /\ is_end o sb;
  wo_key_a : connection_id_send sa = cid /\ remote_addr sa = addr_b;
  wo_key_b : connection_id_recv sb = cid /\ remote_addr sb = addr_a;
  wo_next : st_ack_number sb = wrapping_sub16 (st_seq_number sa) 1;
  wo_empty : inbound_data sb = ∅ /\ received_data sb = [];
  wo_nothing : w_sent w = [] /\ w_written w = [] /\ w_read w = [];
  wo_queue : forall task, h_sender (w_a w) = Some task ->
    Forall (fun o => data_for cid o.1 -> o.2 <> addr_b) (backlog task (h_socket (w_a w)));
  wo_net : forall bs p, bs ∈ w_net w -> Packet_try_from bs = Done (Ok p) -> ~ data_for cid p;
  wo_box : Forall (fun p => ~ data_for cid p) (mailbox (h_socket (w_b w)) rb);
}.

(** The abstract transfer that the start is. *)
Definition transfer_of (sa sb : UtpStream) : Transfer := mkTransfer sa [] sb [].

(** ** The simulation *)

(** The tracked stream is [st], with the identifier and address [k], or gone. *)
Definition tracked (ends : Owner -> UtpStream -> Prop) (h : Host) (id : ChanId)
    (st : UtpStream) (key : UtpStream -> ConnKey) (k : ConnKey) : Prop :=
  (id < next_chan (h_socket h))%nat /\ key st = k /\
  forall o, h_owners h !! id = Some o -> ends o st.

Definition is_stream (o : Owner) (st : UtpStream) : Prop := o = Streaming st.

Definition send_key (st : UtpStream) : ConnKey := (connection_id_send st, remote_addr st).
Definition recv_key (st : UtpStream) : ConnKey := (connection_id_recv st, remote_addr st).

(** What the world and the transfer [t] have in common. *)
Record simulates (cid : Z) (w : World) (t : Transfer) : Prop := {
  sm_a : host_ok (w_a w);
  sm_b : host_ok (w_b w);
  sm_sender : tracked is_stream (w_a w) ra (t_sender t) send_key (cid, addr_b);
  sm_receiver : tracked is_end (w_b w) rb (t_receiver t) recv_key (cid, addr_a);
  sm_sent : t_sent t = w_sent w;
  sm_read : t_delivered t = w_read w;
  sm_written : concat (payloads t) = w_written w;
  sm_queue : forall task, h_sender (w_a w) = Some task ->
    Forall (fun o => data_for cid o.1 -> o.2 = addr_b -> o.1 ∈ w_sent w)
      (backlog task (h_socket (w_a w)));
  sm_net : forall bs p, bs ∈ w_net w -> Packet_try_from bs = Done (Ok p) ->
    data_for cid p -> p ∈ w_sent w;
  sm_box : forall q p, conn_view (h_socket (w_b w)) (cid, addr_a) = Some (true, q) ->
    p ∈ q -> data_for cid p -> p ∈ w_sent w;
}.

(** ** Helper lemmas *)

(** The mailbox of an owner is the view of its connection. *)
Lemma owner_view h id o : host_ok h -> h_owners h !! id = Some o ->
  conn_view (h_socket h) (owner_key o) = Some (true, mailbox (h_socket h) id).
Proof.
  intros Hok Ho. destruct (owner_box _ _ _ Hok Ho) as (c & Hc & Hrx & _ & Hr & _).
  rewrite (conn_view_Some _ _ _ _ Hr Hc). unfold mailbox. by rewrite Hc, Hrx.
Qed.

Lemma world_start_simulates cid sa sb w : world_start cid sa sb w ->
  simulates cid w (transfer_of sa sb).
Proof.
  intros [Ha Hb Hsa (o & Hsb & Hend) [Hka Hra] [Hkb Hrb] _ _ (Hs & Hw & Hr) Hq Hn Hbox].
  assert (Hkey : owner_key o = (cid, addr_a)).
  { rewrite <- Hkb, <- Hrb. destruct o as [c|st]; cbn in Hend; [|by subst].
    by destruct Hend as (p & _ & ->). }
  split; try done; rewrite ?Hs, ?Hw, ?Hr; try done.
  - split_and!; [by eapply owner_below|unfold send_key; cbn; congruence|].
    rewrite Hsa. by intros ? [= <-].
  - split_and!; [by eapply owner_below|unfold recv_key; cbn; congruence|].
    rewrite Hsb. by intros ? [= <-].
  - intros task Ht. eapply Forall_impl; [by apply Hq|]. intros x Hx Hd Hto. by apply Hx in Hd.
  - intros bs p Hbs Hp Hd. by apply Hn in Hp.
  - intros q p Hv Hp Hd. pose proof (owner_view _ _ _ Hb Hsb) as Hv2.
    rewrite Hkey, Hv in Hv2. injection Hv2 as ->. rewrite Forall_forall in Hbox.
    by apply Hbox in Hd.
Qed.

(** What a step is for the stream [st] of the mailbox [id]: a poll, or nothing. *)
Definition moved (clock : nat -> SystemTime) (h : Host) (id : ChanId) (l : Label)
    (st st' : UtpStream) : Prop :=
  match event_of id l with
  | Some ev => h_owners h !! id = Some (Streaming st) /\ stream_poll clock (h_socket h) st ev st'
  | None => st' = st
  end.

(** A tracked stream in a step: polled, left alone, made of an answer, or
    dropped. *)
Lemma tracked_step ends clock arrives h l h' id st key k :
  step_effect clock arrives h l h' -> tracked ends h id st key k ->
  (forall st', same_ids st st' -> key st' = key st) ->
  (forall st1 st2, ends (Streaming st1) st2 <-> st1 = st2) ->
  (forall c p, h_owners h !! id = Some (Awaiting c) -> ends (Awaiting c) st ->
     h_owners h' !! id = Some (Streaming (connected c p)) -> connected c p = st) ->
  exists st', tracked ends h' id st' key k /\ moved clock h id l st st'.
Proof.
  unfold moved.
  intros He (Hid & Hk & Ho) Hkey Hend Hans. pose proof (ef_owners _ _ _ _ _ He id Hid) as Hev.
  pose proof (ef_next _ _ _ _ _ He) as Hn. unfold owner_evolves in Hev.
  destruct (event_of id l) as [ev|].
  - destruct Hev as (st0 & st' & Hst & Hst' & Hp). pose proof (Ho _ Hst) as Heq.
    apply Hend in Heq. subst st0. exists st'. split; [|done].
    split_and!; [lia| |intros o; rewrite Hst'; intros [= <-]; by apply Hend].
    rewrite Hkey; [done|]. by eapply stream_poll_ids.
  - exists st. split; [|done]. split_and!; [lia|done|].
    destruct Hev as [->|[->|(c & p & Hc & _ & _ & Hst)]]; [done|done|].
    intros o. rewrite Hst. intros [= <-]. apply Hend. apply Hans; [done|by apply Ho|done].
Qed.

(** ** The steps of the sending host *)

(** Packets queued in a step: those of the connection are in the record. *)
Lemma queued_by_sent w cid l o t : simulates cid w t -> only_stream cid w ->
  queued_by (w_a w) l o -> data_for cid o.1 -> o.2 = addr_b -> o.1 ∈ sent_by ra l.
Proof.
  intros Hs Honly Hq [Hd Hid] Hto.
  destruct (Hq Hd) as (id & acc & packets & st & Hl & Hin & Ho & Hcid & Hrm).
  assert (id = ra) as -> by (eapply Honly; [done|congruence..]).
  unfold sent_by, event_of. rewrite Hl, decide_True by done.
  apply list_elem_of_fmap. by exists o.
Qed.

Lemma simulates_a cid w t l a' :
  simulates cid w t -> only_stream cid w ->
  host_step clock_a (fun _ _ => True) (w_a w) l a' ->
  exists st', moved clock_a (w_a w) ra l (t_sender t) st' /\
    simulates cid (a_moved w l a')
      (mkTransfer st' (t_sent t ++ sent_by ra l) (t_receiver t) (t_delivered t)).
Proof.
  intros Hsim Honly Hstep. pose proof Hsim as [Ha Hb Hsa Hsb Hse Hre Hwr Hq Hn Hbox].
  pose proof (host_step_effect _ _ _ _ _ Hstep Ha) as He.
  destruct (tracked_step _ _ _ _ _ _ _ _ _ _ He Hsa) as (st' & Htr & Hev).
  { intros st' []. unfold send_key. congruence. }
  { intros st1 st2. split; [by intros [= ->]|by intros ->]. }
  { intros c p _ [=]. }
  set (t' := mkTransfer st' (t_sent t ++ sent_by ra l) (t_receiver t) (t_delivered t)).
  assert (Hpay : concat (payloads t') = w_written w ++ written_by ra l).
  { unfold t', sent_by, written_by, payloads in *. cbn. rewrite fmap_app, concat_app, Hwr.
    f_equal. unfold moved in Hev. destruct (event_of ra l) as [ev|]; [|done].
    destruct Hev as [Ho Hp]. destruct ev as [chunk|acc packets|]; [done| |done].
    eapply stream_poll_wrote; [|done]. eapply host_out_alive, alive_owner; done. }
  destruct (traffic_kept clock_a (fun o => data_for cid o.1 -> o.2 = addr_b ->
    o.1 ∈ w_sent w ++ sent_by ra l) _ _ _ _ addr_b He) as [Hq' Hn'].
  { intros task Ht. eapply Forall_impl; [by apply Hq|]. intros o Ho Hd Hto.
    apply elem_of_app. left. auto. }
  { intros o [Ho _] Hd Hto. apply elem_of_app. right. by eapply queued_by_sent. }
  exists st'. split; [done|]. split; try done; cbn.
  - by eapply host_step_ok.
  - by rewrite Hse.
  - intros bs p [Hbs|Hbs]%elem_of_app Hp Hd; [apply elem_of_app; left; by eapply Hn|].
    by apply (Hn' bs p Hbs Hp).
  - intros q p Hv Hp Hd. apply elem_of_app. left. by eapply Hbox.
Qed.

(** ** The steps of the receiving host *)

(** What waits for the tracked receiver was sent. *)
Lemma tracked_mailbox cid w t : simulates cid w t ->
  h_owners (w_b w) !! rb = Some (Streaming (t_receiver t)) ->
  Forall (fun p => packet_type p = Data -> p ∈ t_sent t)
    (mailbox (h_socket (w_b w)) (inbound_packets (t_receiver t))).
Proof.
  intros [Ha Hb Hsa (_ & Hk & _) Hse Hre Hwr Hq Hn Hbox] Ho. unfold recv_key in Hk.
  destruct (ok_owners _ Hb _ _ Ho) as (-> & _).
  pose proof (owner_view _ _ _ Hb Ho) as Hv. unfold owner_key in Hv. rewrite Hk in Hv.
  destruct (owner_box _ _ _ Hb Ho) as (_ & _ & _ & _ & _ & Hdel).
  apply Forall_forall. intros p Hp Hd. rewrite Hse. apply (Hbox _ _ Hv Hp). split; [done|].
  rewrite Forall_forall in Hdel. destruct (Hdel p Hp) as [_ _ Hid]. rewrite Hid. cbn. congruence.
Qed.

Lemma simulates_b cid w t l b' :
  simulates cid w t -> answered w (b_moved w l b') ->
  host_step clock_b (from_net (w_net w)) (w_b w) l b' ->
  exists st', moved clock_b (w_b w) rb l (t_receiver t) st' /\
    simulates cid (b_moved w l b')
      (mkTransfer (t_sender t) (t_sent t) st' (t_delivered t ++ read_by rb l)).
Proof.
  intros [Ha Hb Hsa Hsb Hse Hre Hwr Hq Hn Hbox] Hans Hstep.
  pose proof (host_step_effect _ _ _ _ _ Hstep Hb) as He.
  destruct (tracked_step _ _ _ _ _ _ _ _ _ _ He Hsb) as (st' & Htr & Hev).
  { intros st' []. unfold recv_key. congruence. }
  { done. }
  { intros c p Hc (answer & Hfirst & ->) Hc'. pose proof (Hans _ _ Hc Hc') as Hp. cbn in Hp.
    unfold connected. by rewrite Hp, Hfirst. }
  exists st'. split; [done|]. split; try done; cbn.
  - by eapply host_step_ok.
  - by rewrite Hre.
  - intros q p Hv Hp Hd.
    destruct (ef_views _ _ _ _ _ He _ _ _ Hv Hp) as [(q0 & Hv0 & Hp0)|(bs & Harr & Hpk & _)].
    + by eapply Hbox.
    + eapply Hn; [by apply Harr|done..].
Qed.

(** ** The transfer that a run is *)

Lemma moved_a_transfer t l a st' : moved clock_a a ra l (t_sender t) st' ->
  rtc (transfer_step clock_a clock_b) t
    (mkTransfer st' (t_sent t ++ sent_by ra l) (t_receiver t) (t_delivered t)).
Proof.
  unfold moved, sent_by. destruct (event_of ra l) as [ev|].
  - intros [_ Hp]. by eapply rtc_once, sender_transfer.
  - intros ->. rewrite app_nil_r. by destruct t; apply rtc_refl.
Qed.

Lemma moved_b_transfer cid w t l st' : simulates cid w t ->
  moved clock_b (w_b w) rb l (t_receiver t) st' ->
  rtc (transfer_step clock_a clock_b) t
    (mkTransfer (t_sender t) (t_sent t) st' (t_delivered t ++ read_by rb l)).
Proof.
  unfold moved, read_by. intros Hsim. destruct (event_of rb l) as [ev|].
  - intros [Ho Hp]. eapply rtc_once, receiver_transfer; [|done]. by eapply tracked_mailbox.
  - intros ->. rewrite app_nil_r. by destruct t; apply rtc_refl.
Qed.

Lemma world_moves_simulates cid w t w' : world_moves cid w w' -> simulates cid w t ->
  exists t', rtc (transfer_step clock_a clock_b) t t' /\ simulates cid w' t'.
Proof.
  intros (Honly & Hans & Hstep) Hsim. destruct Hstep as [l a' Hh|l b' Hh].
  - destruct (simulates_a _ _ _ _ _ Hsim Honly Hh) as (st' & Hm & Hs2).
    eexists. split; [by eapply moved_a_transfer|exact Hs2].
  - destruct (simulates_b _ _ _ _ _ Hsim Hans Hh) as (st' & Hm & Hs2).
    eexists. split; [by eapply moved_b_transfer|exact Hs2].
Qed.

Lemma world_simulates cid w t w' : rtc (world_moves cid) w w' -> simulates cid w t ->
  exists t', rtc (transfer_step clock_a clock_b) t t' /\ simulates cid w' t'.
Proof.
  intros Hr. revert t. induction Hr as [w|w1 w2 w3 Hm _ IH]; intros t Hsim.
  - exists t. by split; [apply rtc_refl|].
  - destruct (world_moves_simulates _ _ _ _ Hm Hsim) as (t2 & Ht2 & Hs2).
    destruct (IH t2 Hs2) as (t3 & Ht3 & Hs3). exists t3. split; [by etrans|done].
Qed.

Lemma world_start_transfer cid sa sb w : world_start cid sa sb w ->
  transfer_start (transfer_of sa sb) /\ u16 (st_seq_number sb).
Proof.
  intros [Ha Hb Hsa (o & Hsb & Hend) _ _ Hnext [Hin Hrec] _ _ _ _].
  destruct (ok_owners _ Ha _ _ Hsa) as (_ & _ & Hwa).
  assert (u16 (st_seq_number sb)) as Hub.
  { pose proof (ok_owners _ Hb _ _ Hsb) as Ho. destruct o as [c|st]; cbn in *.
    - destruct Hend as (p & _ & ->). cbn. by destruct Ho as (_ & _ & ->).
    - subst. apply Ho. }
  split; [|done]. by split; [apply Hwa|apply Hwa|..].
Qed.

(** Bytes read are a prefix of those written. *)
Lemma world_safe cid sa sb w0 w :
  world_start cid sa sb w0 -> rtc (world_moves cid) w0 w ->
  Z.of_nat (length (w_sent w)) < 2 ^ 16 -> w_read w `prefix_of` w_written w.
Proof.
  intros H0 Hr Hl. destruct (world_simulates _ _ _ _ Hr (world_start_simulates _ _ _ _ H0))
    as (t & Ht & [_ _ _ _ Hse Hre Hwr _ _ _]).
  destruct (world_start_transfer _ _ _ _ H0) as [Hstart Hu].
  destruct (transfer_reachable_ok clock_a clock_b _ _ Hstart Hu Ht) as (_ & k & Hok);
    [by rewrite Hse|]. rewrite <- Hre, <- Hwr.
  exists (received_data (t_receiver t) ++ concat (drop k (payloads t))).
  rewrite (assoc_L (++)), (to_bytes _ _ _ Hok), <- concat_app. by rewrite take_drop.
Qed.

(** ** Properties *)

(** C5. Two whole hosts refine the abstract transfer. Whatever the two hosts'
    users, tasks and other connections do, and whatever the network loses,
    repeats, delays or brings from elsewhere, what happens to the two ends of
    one connection is a run of the two streams and the unreliable network of
    Transfer.v: the packets sent and the bytes read are those of that run, the
    payloads sent are the bytes written, and the streams, as long as they exist,
    are in the states it reaches. The run must not have another stream of A send
    to B under the same identifier; and when the connection is still being made
    at B, its [connect] must take the answer that A's [accept] sent. *)
Theorem world_refines_transfer cid sa sb w0 w :
  world_start cid sa sb w0 -> rtc (world_moves cid) w0 w ->
  exists t, transfer_start (transfer_of sa sb) /\
    rtc (transfer_step clock_a clock_b) (transfer_of sa sb) t /\
    t_sent t = w_sent w /\ concat (payloads t) = w_written w /\ t_delivered t = w_read w /\
    (forall st, h_owners (w_a w) !! ra = Some (Streaming st) -> t_sender t = st) /\
    (forall st, h_owners (w_b w) !! rb = Some (Streaming st) -> t_receiver t = st).
Proof.
  intros H0 Hr. destruct (world_simulates _ _ _ _ Hr (world_start_simulates _ _ _ _ H0))
    as (t & Ht & [_ _ (_ & _ & Ha) (_ & _ & Hb) ? ? ? _ _ _]).
  exists t. destruct (world_start_transfer _ _ _ _ H0). split_and!; try done.
  - intros st Ho. by injection (Ha _ Ho).
  - intros st Ho. by rewrite (Hb _ Ho).
Qed.

(** C3. Safety from end to end: two hosts start with the two ends of a connection
    ([world_start]), and then their users, tasks and other connections do
    anything, and the network loses, repeats, delays or reorders datagrams, or
    brings others from other addresses (what arrives at B with A's address was
    sent by A), with two exceptions ([world_moves]): no other
    stream of A sends to B under the identifier of the connection, and a
    [connect] at B that makes B's end takes the answer that A's [accept] sent.
    Then, before 65536 packets are sent, the bytes read from the stream at B are a
    prefix of the bytes written to the stream at A. The code enforces neither
    condition: StaleStream.v has a run without the first, and LateAnswer.v one
    without the second, in which it is not so. *)
Theorem world_transfer_safe cid sa sb w0 w :
  world_start cid sa sb w0 -> rtc (world_moves cid) w0 w ->
  Z.of_nat (length (w_sent w)) < 2 ^ 16 -> w_read w `prefix_of` w_written w.
Proof. apply world_safe. Qed.
End world.

(** ** Witnesses *)

(** A host at [local] with one stream, [st], which has the mailbox 0. *)
Definition sample_end (local : SocketAddr) (st : UtpStream) : Host :=
  mkHost (insert_mailbox (mkUtpSocket true true local dm_new (unbounded_channel _)
      (unbounded_channel _) ∅ 0%nat) (connection_id_recv st, remote_addr st)).2
    1 {[0%nat := Streaming st]} (Some (mkPacketSender local []))
    (Some (mkPacketReceiver local)).

Lemma sample_end_ok local st : inbound_packets st = 0%nat -> u16 (connection_id_recv st) ->
  u16 (connection_id_send st) -> wf_stream st -> host_ok (sample_end local st).
Proof.
  intros Hrx Hr Hs Hwf. pose proof (host_new_ok (Ok (Ok local)) _ eq_refl) as H0.
  set (h0 := mkHost _ _ _ _ _) in H0.
  set (k := (connection_id_recv st, remote_addr st)).
  assert (Hi : mailbox_inserted (h_socket h0) k 0%nat (h_socket (sample_end local st)))
    by (apply (insert_mailbox_inserted (h_socket h0) k); done).
  apply (host_ok_update h0 _ {[0%nat := Streaming st]} []); try done.
  - pose proof (boxes_inserted _ _ _ _ _ Hi Hr (ok_boxes _ H0)) as Hb.
    cbn [h_owners h0] in Hb. rewrite fmap_empty in Hb. rewrite map_fmap_singleton. exact Hb.
  - apply map_Forall_singleton. by split_and!.
Qed.

(** The two ends of connection 77, after the handshake of [sample_peer], which
    connected, and [sample_addr], which accepted and will send. *)
Definition sample_sender_end : UtpStream := accepted sample_syn sample_peer 0%nat 500.
Definition sample_receiver_end : UtpStream :=
  connected (mkConnecting 77 78 sample_addr 0%nat 2) (syn_ack_for sample_syn 500).

Definition sample_world : World :=
  mkWorld (sample_end sample_addr sample_sender_end)
    (sample_end sample_peer sample_receiver_end) [] [] [] [].

Lemma sample_world_start :
  world_start sample_addr sample_peer 0%nat 0%nat 500 77 sample_sender_end sample_receiver_end
    sample_world.
Proof.
  assert (wf_stream sample_sender_end /\ wf_stream sample_receiver_end) as [Hwa Hwb]
    by (split; apply UtpStream_new_wf; done).
  split; try done.
  - by apply sample_end_ok.
  - by apply sample_end_ok.
  - by exists (Streaming sample_receiver_end).
  - intros task [= <-]. constructor.
  - intros bs p ?%elem_of_nil. done.
Qed.

(** The accepting side writes. *)
Lemma sample_world_moves : exists w,
  rtc (world_moves sample_clock sample_clock sample_addr sample_peer 0%nat 0%nat 500 77)
    sample_world w /\
  length (w_sent w) = 1%nat /\ w_written w = [1; 2; 3].
Proof.
  destruct (write_chunks_alive sample_clock [[1; 2; 3]] 0 sample_sender_end
    (mkEnv (h_socket (w_a sample_world)) 0) sample_clock_nonneg eq_refl ltac:(done))
    as (e' & Hw & _ & Ht).
  eexists. split; [apply rtc_once; split_and!; [| |apply a_moves; eapply (hs_write _ _ _ 0%nat
    sample_sender_end 0 [1; 2; 3]); [done| |exact Hw|exact (td_out _ _ _ _ _ Ht)]]|].
  - intros id st Ho _ _. cbn in Ho. by apply lookup_singleton_Some in Ho as [<- _].
  - intros c st Ho. cbn in Ho. by rewrite lookup_singleton_eq in Ho.
  - by repeat apply Forall_cons_2.
  - done.
Qed.

Lemma world_refines_transfer_witness : exists t,
  rtc (transfer_step sample_clock sample_clock)
    (transfer_of sample_sender_end sample_receiver_end) t /\
  length (t_sent t) = 1%nat /\ concat (payloads t) = [1; 2; 3].
Proof.
  destruct sample_world_moves as (w & Hr & Hl & Hw).
  destruct (world_refines_transfer sample_clock sample_clock sample_addr sample_peer 0%nat 0%nat
    500 77 _ _ _ w sample_world_start Hr) as (t & _ & Ht & Hs & Hwr & _).
  exists t. split; [exact Ht|]. rewrite Hs, Hwr. split; [exact Hl|exact Hw].
Defined.

Lemma world_transfer_safe_witness : exists w,
  rtc (world_moves sample_clock sample_clock sample_addr sample_peer 0%nat 0%nat 500 77)
    sample_world w /\ w_read w `prefix_of` [1; 2; 3].
Proof.
  destruct sample_world_moves as (w & Hr & Hl & Hw).
  exists w. split; [exact Hr|]. rewrite <- Hw.
  apply (world_transfer_safe sample_clock sample_clock sample_addr sample_peer 0%nat 0%nat
    500 77 _ _ _ w sample_world_start Hr). rewrite Hl. reflexivity.
Defined.
