(* ===== verification/Mailbox.v ===== *)
(** * What stays in a mailbox

    A packet that reached the mailbox of a stream stays there until a poll of that
    stream takes it: whatever else happens at the host, the mailbox only gains
    packets, and every packet that a poll of the receiver task brings for the
    connection is among them. *)

From S2P Require Import Prelude Crates CratesRef Errors Time Packet.
From S2P Require Import PacketWire Congestion Socket PacketSender PacketReceiver Stream.
From S2P Require Import StreamFacts StreamRead StreamWrite StreamInvariant Polls.
From S2P Require Import Listener Handshake Host Boxes HostState HostEffect Transfer Acks.
From S2P Require Import World.

(** ** Definitions *)

(** A poll that takes packets out of the mailbox [id]. *)
Definition takes_packets (id : ChanId) (l : Label) : bool :=
  match event_of id l with Some (Read _) | Some Flushed => true | _ => false end.

Section mailbox.
Context `{By : BytesCrate, Rb : ReadBufCrate, Mp : MpscCrate, Dm : DashMapCrate}.
Variable clock : nat -> SystemTime.

(** The live mailbox of the connection [k] only gains packets. *)
Definition box_grows (k : ConnKey) (s s' : UtpSocket) : Prop :=
  forall q, conn_view s k = Some (true, q) ->
    exists q', conn_view s' k = Some (true, q') /\ q `prefix_of` q'.

#[export] Instance box_grows_preorder k : PreOrder (box_grows k).
Proof.
  split.
  - intros s q Hq. by exists q.
  - intros s1 s2 s3 H1 H2 q Hq. destruct (H1 q Hq) as (q2 & Hq2 & Hp).
    destruct (H2 q2 Hq2) as (q3 & Hq3 & Hp2). exists q3. split; [done|by etrans].
Qed.

(** What a poll does that takes packets: it buffers some of those in the mailbox,
    and reassembles the run [ds], or nothing. *)
Definition took (st st' : UtpStream) (box box' : list Packet) (ds : list bytes) : Prop :=
  exists popped, box = popped ++ box' /\
    (run (buffer_data (st_ack_number st) (inbound_data st) popped)
       (wrapping_add16 (st_ack_number st) 1) ds (inbound_data st') \/
     ds = [] /\ inbound_data st' = buffer_data (st_ack_number st) (inbound_data st) popped) /\
    st_ack_number st' = wrapping_add16 (st_ack_number st) (Z.of_nat (length ds)).

(** A datagram that a poll of the receiver task read, in a step from [h] to [h']. *)
Definition receives (h h' : Host) (bs : bytes) (from : SocketAddr) : Prop :=
  exists task used rest r s',
    h_receiver h = Some task /\
    receiver_poll (used ++ rest) (h_socket h) = Done (r, s', rest) /\
    h' = after_receiver r s' h /\
    exists a, a ∈ used /\ recv_ready a = Ready (Ok tt) /\ recv_from a = Ready (Ok (bs, from)).

(** ** Helper lemmas: operations on the socket *)

Lemma box_grows_view k s s' : conn_view s' k = conn_view s k -> box_grows k s s'.
Proof. intros Hv q Hq. exists q. by rewrite Hv. Qed.

Lemma box_grows_same k s s' : routing_table s' = routing_table s ->
  mailboxes s' = mailboxes s -> box_grows k s s'.
Proof. intros Ht Hm. apply box_grows_view. unfold conn_view, route. by rewrite Ht, Hm. Qed.

(** A poll of another stream, or one that takes nothing. *)
Lemma box_grows_touched k rx popped out s s' : touched rx popped out s s' ->
  (route s k = Some rx -> popped = []) -> box_grows k s s'.
Proof.
  intros Ht Hpop q Hq. pose proof (touched_views _ _ _ _ _ k Ht) as [Hback Hforth].
  destruct (Hforth q Hq) as [q' Hq']. exists q'. split; [done|].
  apply conn_view_inv in Hq as (id & c & Hr & Hc & _ & <-).
  apply conn_view_inv in Hq' as (id' & c' & Hr' & Hc' & _ & <-).
  assert (id' = id) as ->.
  { unfold route in Hr, Hr'. rewrite (td_table _ _ _ _ _ Ht) in Hr'. congruence. }
  destruct (decide (id = rx)) as [->|Hne].
  - pose proof (td_mailbox _ _ _ _ _ Ht) as Hm. unfold mailbox in Hm.
    rewrite Hc, Hc', Hpop in Hm by done. cbn in Hm. by rewrite Hm.
  - rewrite (td_other _ _ _ _ _ Ht id Hne), Hc in Hc'. by injection Hc' as ->.
Qed.

Lemma box_grows_inserted k k0 rx s s' : wf_socket s -> mailbox_inserted s k0 rx s' ->
  box_grows k s s'.
Proof.
  intros Hs Hi q Hq. destruct (decide (k = k0)) as [->|Hne].
  - apply conn_view_inv in Hq as (id & _ & Hr & _). by rewrite (mi_vacant _ _ _ _ Hi) in Hr.
  - destruct (inserted_other _ _ _ _ _ Hs Hi Hne) as [_ Hv]. by apply (box_grows_view k s s').
Qed.

Lemma box_grows_get_syn k s r s' : get_syn s = (r, s') -> box_grows k s s'.
Proof. intros (Ht & Hm & _)%get_syn_same. by apply box_grows_same. Qed.

(** ** Helper lemmas: steps of a host *)

(** A step that changes an owner's mailbox: it is not that of [id]. *)
Lemma polled_other h id id0 o o0 popped out s' : host_ok h -> h_owners h !! id = Some o ->
  h_owners h !! id0 = Some o0 -> id0 <> id -> touched id0 popped out (h_socket h) s' ->
  box_grows (owner_key o) (h_socket h) s'.
Proof.
  intros Hok Ho Ho0 Hne Ht. eapply box_grows_touched; [exact Ht|]. intros Hr.
  destruct (owner_box _ _ _ Hok Ho) as (_ & _ & _ & _ & Hr2 & _). congruence.
Qed.

(** A write takes nothing. *)
Lemma write_chunks_touched rx cs n st e r st' e' :
  write_chunks clock cs n st e = Done (r, st', e') ->
  exists out, touched rx [] out (env_socket e) (env_socket e').
Proof.
  revert n st e. induction cs as [|c cs IH]; intros n st e; cbn.
  - intros. outcome_inv. exists []. apply touched_refl.
  - unfold send_data. intros ([[r1 st1] e1] & ([r2 e2] & Hsp & Hs)%bind_Done & Hr)%bind_Done.
    apply (send_packet_Done clock rx) in Hsp as (now & _ & _ & Ht).
    destruct r2 as [[]|err]; outcome_inv.
    + apply IH in Hr as [out Ht2]. eexists. exact (touched_trans _ _ _ _ _ _ _ _ Ht Ht2).
    + destruct Ht as (_ & -> & _). exists []. apply touched_refl.
Qed.

Lemma poll_write_touched rx st e buf r st' e' : poll_write clock st e buf = Done (r, st', e') ->
  exists out, touched rx [] out (env_socket e) (env_socket e').
Proof.
  unfold poll_write. destruct (is_shutdown st); [|by apply write_chunks_touched].
  intros. outcome_inv. exists []. apply touched_refl.
Qed.

(** A poll of the stream [id0], which takes nothing if it is that of [id]. *)
Lemma box_grows_polled h id id0 o st st' s' out : host_ok h -> h_owners h !! id = Some o ->
  h_owners h !! id0 = Some (Streaming st) -> id0 <> id ->
  polled st st' (h_socket h) s' out -> box_grows (owner_key o) (h_socket h) s'.
Proof.
  intros Hok Ho Ho0 Hne [_ [popped Ht]]. destruct (ok_owners _ Hok _ _ Ho0) as (Hid & _).
  rewrite Hid in Ht. exact (polled_other _ _ _ _ _ _ _ _ Hok Ho Ho0 Hne Ht).
Qed.

Lemma takes_packets_other id id0 ev : takes_packets id (polls id0 ev) = false ->
  (forall accepted packets, ev <> Wrote accepted packets) -> id0 <> id.
Proof.
  intros Htp Hev ->. unfold takes_packets, event_of in Htp. cbn in Htp.
  rewrite decide_True in Htp by done. destruct ev; [done|by eapply Hev|done].
Qed.

(** The receiver task adds what it read for the connection. *)
Lemma receiver_poll_grows h used rest r s' k q : host_ok h ->
  receiver_poll (used ++ rest) (h_socket h) = Done (r, s', rest) ->
  conn_view (h_socket h) k = Some (true, q) -> alive h = true ->
  conn_view s' k = Some (true, q ++ (filter (is_for k) (arrivals used)).*1).
Proof.
  intros Hok Hr Hq Ha. pose proof (ok_ends _ Hok) as He. unfold receiver_poll in Hr.
  rewrite (en_socket _ He), Ha in Hr. cbn in Hr.
  apply recv_loop_Done in Hr as (used2 & Hu & Hrv); [|apply Hok|by rewrite (en_table _ He)].
  apply app_inv_tail in Hu as <-. by rewrite (rv_view _ _ _ Hrv), Hq, view_foldl_alive.
Qed.

Lemma receiver_poll_used h answers r s' rest : host_ok h ->
  receiver_poll answers (h_socket h) = Done (r, s', rest) -> exists used, answers = used ++ rest.
Proof.
  intros Hok Hr. unfold receiver_poll in Hr. pose proof (ok_ends _ Hok) as He.
  rewrite (en_socket _ He) in Hr. destruct (alive h) eqn:Ha; cbn in Hr; [|outcome_inv; by exists []].
  apply recv_loop_Done in Hr as (used & -> & _); [by exists used|apply Hok|].
  by rewrite (en_table _ He).
Qed.

Lemma after_receiver_view r s h k : conn_view (h_socket (after_receiver r s h)) k = conn_view s k.
Proof. by destruct r as [[]|]. Qed.

Lemma release_alive h : alive h = true -> release h = h.
Proof. unfold release. by intros ->. Qed.

Lemma connect_start_grows h resolved draws r s' rest k : host_ok h -> alive h = true ->
  Forall u16 draws -> connect_start (h_socket h) resolved draws = Done (r, s', rest) ->
  box_grows k (h_socket h) s'.
Proof.
  intros Hok Hal Hu Hr. apply connect_start_inserted in Hr; [|by apply host_out_alive|done].
  destruct r as [c|err]; [|by subst]. destruct Hr as (s1 & _ & Hi & Ht & _).
  etrans; [eapply box_grows_inserted; [apply Hok|exact Hi]|by eapply box_grows_touched].
Qed.

Lemma connect_poll_grows h id id0 st c r s' : host_ok h ->
  h_owners h !! id = Some (Streaming st) -> h_owners h !! id0 = Some (Awaiting c) ->
  connect_poll c (h_socket h) = Done (r, s') -> box_grows (owner_key (Streaming st)) (h_socket h) s'.
Proof.
  intros Hok Hid Ho (popped & Ht & _)%connect_poll_touched.
  destruct (ok_owners _ Hok _ _ Ho) as (Hc & _). rewrite Hc in Ht.
  assert (id0 <> id) as Hne by congruence.
  exact (polled_other _ _ _ _ _ _ _ _ Hok Hid Ho Hne Ht).
Qed.

(** Dropping another owner. *)
Lemma drop_owner_grows h id id0 st st' : host_ok h -> h_owners h !! id = Some (Streaming st) ->
  h_owners (drop_owner id0 h) !! id = Some (Streaming st') ->
  box_grows (owner_key (Streaming st)) (h_socket h) (h_socket (drop_owner id0 h)).
Proof.
  intros Hok Hid. unfold drop_owner. set (h0 := mkHost _ _ _ _ _).
  destruct (release_fields h0) as (-> & _). intros Hid'.
  rewrite (release_alive _ (alive_owner _ _ _ Hid')).
  cbn in Hid'. apply lookup_delete_Some in Hid' as [Hne _]. apply box_grows_view. cbn [h_socket h0].
  rewrite dropped_view by apply Hok. rewrite decide_False; [done|]. intros Hr0. apply Hne.
  destruct (owner_box _ _ _ Hok Hid) as (_ & _ & _ & _ & Hr & _).
  pose proof (eq_trans (eq_sym Hr0) Hr). congruence.
Qed.

Lemma host_step_grows arrives h l h' id st st' :
  host_step clock arrives h l h' -> host_ok h ->
  h_owners h !! id = Some (Streaming st) -> h_owners h' !! id = Some (Streaming st') ->
  takes_packets id l = false -> box_grows (owner_key (Streaming st)) (h_socket h) (h_socket h').
Proof.
  intros Hstep Hok Hid Hid' Htp.
  pose proof (alive_owner _ _ _ Hid) as Hal. pose proof (ok_boxes _ Hok) as Hb.
  destruct Hstep as [resolved draws c s' rest Hh Hu Hr|resolved draws err s' rest Hh Hu Hr
    |id0 c st0 s' Ho Hr|id0 c s' Ho Hr|draw st0 s' Hh Hu Hr|draw err s' Hh Hr|draw s' Hh Hr
    |draw reason Hh Hr|id0 st0 fuel n buf r st0' e' buf' chunk Ho Hr _
    |id0 st0 n buf r st0' e' out Ho Hbuf Hr _|id0 st0 fuel n r st0' e' Ho Hr
    |id0 st0 fuel n r st0' e' Ho Hr|id0 Ho|Hh|n Hn|fuel answers task r task' s' sent rest Ht Hr
    |task answers r s' rest Ht Ha Hr]; cbn [h_socket with_owner with_h_socket with_handles].
  - exact (connect_start_grows _ _ _ (Ok c) _ _ _ Hok Hal Hu Hr).
  - exact (connect_start_grows _ _ _ (Err err) _ _ _ Hok Hal Hu Hr).
  - by eapply connect_poll_grows.
  - by eapply connect_poll_grows.
  - apply accept_Done in Hr as (syn & remote & s1 & s2 & Hg & Hi & Ht & _).
    destruct (get_syn_ok _ _ _ Hok Hg) as (Hb1 & _).
    etrans; [by eapply box_grows_get_syn|].
    etrans; [eapply box_grows_inserted; [apply Hb1|exact Hi]|by eapply box_grows_touched].
  - apply accept_Done in Hr. by rewrite (host_out_alive h Hok Hal) in Hr.
  - apply accept_Done in Hr as ->. destruct (get_syn (h_socket h)) eqn:Hg.
    by eapply box_grows_get_syn.
  - destruct (get_syn (h_socket h)) eqn:Hg. by eapply box_grows_get_syn.
  - apply poll_read_polled in Hr as (out & Hp & _).
    refine (box_grows_polled _ _ _ _ _ _ _ _ Hok Hid Ho _ Hp). by eapply takes_packets_other.
  - destruct (decide (id0 = id)) as [->|Hne].
    + destruct (poll_write_touched id _ _ _ _ _ _ Hr) as [out2 Ht]. by eapply box_grows_touched.
    + apply poll_write_polled in Hr as (out2 & sent & Hp & _).
      exact (box_grows_polled _ _ _ _ _ _ _ _ Hok Hid Ho Hne Hp).
  - apply poll_flush_polled in Hr.
    refine (box_grows_polled _ _ _ _ _ _ _ _ Hok Hid Ho _ Hr). by eapply takes_packets_other.
  - apply poll_shutdown_polled in Hr.
    refine (box_grows_polled _ _ _ _ _ _ _ _ Hok Hid Ho _ Hr). by eapply takes_packets_other.
  - by eapply drop_owner_grows.
  - done.
  - rewrite (release_alive (with_handles n h)); [done|].
    by apply (alive_owner (with_handles n h) id (Streaming st)).
  - apply sender_poll_ends in Hr as (_ & Ht1 & Hm & _). destruct r as [[]|];
      by apply (box_grows_same _ (h_socket h)).
  - intros q Hq. rewrite after_receiver_view.
    destruct (receiver_poll_used _ _ _ _ _ Hok Hr) as [used ->].
    eexists. split; [by eapply receiver_poll_grows|]. by apply prefix_app_r.
Qed.

(** ** What stays *)

(** The mailboxes of a stream before and after a step that does not poll it for
    packets. *)
Lemma mailbox_kept arrives h l h' id st st' :
  host_step clock arrives h l h' -> host_ok h ->
  h_owners h !! id = Some (Streaming st) -> h_owners h' !! id = Some (Streaming st') ->
  same_ids st st' -> takes_packets id l = false ->
  mailbox (h_socket h) id `prefix_of` mailbox (h_socket h') id.
Proof.
  intros Hstep Hok Hid Hid' Hids Htp.
  pose proof (host_step_grows _ _ _ _ _ _ _ Hstep Hok Hid Hid' Htp) as Hg.
  pose proof (owner_view _ _ _ Hok Hid) as Hv.
  pose proof (owner_view _ _ _ (host_step_ok _ _ _ _ _ Hstep Hok) Hid') as Hv'.
  destruct (Hg _ Hv) as (q' & Hq' & Hp). destruct Hids as [Hr _ Ha _].
  cbn in Hq', Hv'. rewrite Hr, Ha, Hq' in Hv'. by injection Hv' as ->.
Qed.

(** A poll that takes packets. *)
Lemma took_flushed st st' e e' popped : u16 (st_ack_number st) ->
  mailbox (env_socket e) (inbound_packets st) =
    popped ++ mailbox (env_socket e') (inbound_packets st) ->
  st_ack_number st' = st_ack_number st ->
  inbound_data st' = buffer_data (st_ack_number st) (inbound_data st) popped ->
  took st st' (mailbox (env_socket e) (inbound_packets st))
    (mailbox (env_socket e') (inbound_packets st)) [].
Proof.
  intros Hu Hm Ha Hi. exists popped. split; [done|]. split; [by right|].
  by rewrite wrapping_add16_0.
Qed.

Lemma takes_packets_true id id0 ev : takes_packets id (polls id0 ev) = true -> id0 = id.
Proof. unfold takes_packets, event_of. cbn. by case_decide. Qed.

Lemma host_step_took arrives h l h' id st :
  host_step clock arrives h l h' -> host_ok h ->
  h_owners h !! id = Some (Streaming st) -> takes_packets id l = true ->
  exists st' ds, h_owners h' !! id = Some (Streaming st') /\
    took st st' (mailbox (h_socket h) id) (mailbox (h_socket h') id) ds.
Proof.
  intros Hstep Hok Hid Htp. destruct (ok_owners _ Hok _ _ Hid) as (<- & _ & Hwf).
  assert (Hu : u16 (st_ack_number st)) by apply Hwf.
  destruct Hstep as [| | | | | | | |id0 st0 fuel n buf r st' e' buf' chunk Ho Hr _
    |id0 st0 n buf r st' e' out Ho Hbuf Hr _|id0 st0 fuel n r st' e' Ho Hr
    |id0 st0 fuel n r st' e' Ho Hr| | | | |]; try done;
    pose proof (takes_packets_true _ _ _ Htp) as ->;
    try (unfold takes_packets, event_of in Htp; cbn in Htp; by rewrite decide_True in Htp);
    rewrite Hid in Ho; injection Ho as <-; exists st'; cbn; rewrite lookup_insert_eq.
  - apply poll_read_Done in Hr as (popped & ds & chunk2 & Hm & _ & Hrun & Ha & _); [|done].
    exists ds. split; [done|]. by exists popped.
  - apply poll_flush_Done in Hr as (popped & Hm & _ & Ha & Hi & _). exists [].
    split; [done|]. by eapply (took_flushed st st' (mkEnv (h_socket h) n) e').
  - apply poll_shutdown_Done in Hr as (popped & Hm & _ & Ha & Hi & _). exists [].
    split; [done|]. by eapply (took_flushed st st' (mkEnv (h_socket h) n) e').
Qed.

(** A datagram read by the receiver task is in the mailbox of its connection. *)
Lemma received_in_mailbox h h' id st p from : receives h h' (wire p) from -> host_ok h ->
  h_owners h !! id = Some (Streaming st) -> wf_Packet p -> packet_type p <> Syn ->
  recv_key st = (connection_id p, from) -> host_ok h' -> p ∈ mailbox (h_socket h') id.
Proof.
  intros (task & used & rest & r & s' & _ & Hr & -> & a & Ha & Hready & Hfrom)
    Hok Ho Hwf Hsyn Hkey Hok'.
  pose proof (receiver_poll_grows _ _ _ _ _ _ _ Hok Hr (owner_view _ _ _ Hok Ho)
    (alive_owner _ _ _ Ho)) as Hv.
  assert (Ho' : h_owners (after_receiver r s' h) !! id = Some (Streaming st))
    by by destruct r as [[]|].
  pose proof (owner_view _ _ _ Hok' Ho') as Hv'. rewrite after_receiver_view, Hv in Hv'.
  injection Hv' as <-. apply elem_of_app. right. apply list_elem_of_fmap.
  exists (p, from). split; [done|]. apply list_elem_of_filter. split.
  - cbn. change (connection_id_recv st, remote_addr st) with (recv_key st). rewrite Hkey.
    apply Is_true_true. by apply is_for_same.
  - apply list_elem_of_omap. exists a. split; [done|]. unfold arrival.
    by rewrite Hready, Hfrom, Packet_try_from_wire.
Qed.
End mailbox.
