(* ===== verification/TwoWay.v ===== *)
(** * Both directions between two hosts

    The world of World.v with the datagrams from B to A tracked as well: what
    arrives at A from B's address was sent by B. Seen from the connection, it is
    a run of the exchange of Acks.v, so that a successful flush at A means that
    B has everything. *)

From S2P Require Import Prelude Crates CratesRef Errors Time Packet.
From S2P Require Import PacketWire Congestion Socket PacketSender PacketReceiver Stream.
From S2P Require Import StreamFacts StreamRead StreamWrite StreamInvariant Polls.
From S2P Require Import Listener Handshake Host Boxes HostState HostEffect Transfer.
From S2P Require Import Acks Runs World.

(** ** Definitions *)

Section two_way.
Context `{By : BytesCrate, Rb : ReadBufCrate, Mp : MpscCrate, Dm : DashMapCrate}.
Variables clock_a clock_b : nat -> SystemTime.
Variables addr_a addr_b : SocketAddr.
Variables ra rb : ChanId.
Variable first : Z.

(** The datagrams B gave the network for A so far. *)
Record TwoWay : Type := mkTwoWay {
  tw_world : World;
  tw_back : list bytes;
}.

Inductive two_way_step (W : TwoWay) : TwoWay -> Prop :=
  | both_a l a' :
      host_step clock_a (from_net addr_b (tw_back W)) (w_a (tw_world W)) l a' ->
      two_way_step W (mkTwoWay (a_moved addr_b ra (tw_world W) l a') (tw_back W))
  | both_b l b' :
      host_step clock_b (from_net addr_a (w_net (tw_world W))) (w_b (tw_world W)) l b' ->
      two_way_step W (mkTwoWay (b_moved rb (tw_world W) l b')
        (tw_back W ++ to_peer addr_a (l_emitted l))).

(** No other stream of B sends to A under the identifier [cid']. *)
Definition only_answers (cid' : Z) (w : World) : Prop :=
  forall id st, h_owners (w_b w) !! id = Some (Streaming st) ->
    connection_id_send st = cid' -> remote_addr st = addr_a -> id = rb.

Definition two_way_moves (cid cid' : Z) (W W' : TwoWay) : Prop :=
  only_stream addr_b ra cid (tw_world W) /\ only_answers cid' (tw_world W') /\
  answered rb first (tw_world W) (tw_world W') /\ two_way_step W W'.

(** An acknowledgement of the connection, on its way from B to A, is for one of
    [acks]. *)
Definition acks_one (cid' : Z) (acks : list Z) (p : Packet) : Prop :=
  packet_type p = State -> connection_id p = cid' -> ack_number p ∈ acks.

(** Every acknowledgement waiting at B, in the network or at A is for one of
    [acks]. *)
Record answers (cid' : Z) (acks : list Z) (W : TwoWay) : Prop := {
  an_queue : forall task, h_sender (w_b (tw_world W)) = Some task ->
    Forall (fun o => o.2 = addr_a -> acks_one cid' acks o.1)
      (backlog task (h_socket (w_b (tw_world W))));
  an_net : forall bs p, bs ∈ tw_back W -> Packet_try_from bs = Done (Ok p) ->
    acks_one cid' acks p;
  an_box : forall q p,
    conn_view (h_socket (w_a (tw_world W))) (cid', addr_b) = Some (true, q) ->
    p ∈ q -> acks_one cid' acks p;
}.

(** The start: nothing in flight, and no acknowledgement on its way but for what
    came before the first packet (that of the handshake). *)
Record two_way_start (cid cid' : Z) (sa sb : UtpStream) (W : TwoWay) : Prop := {
  ts_world : world_start addr_a addr_b ra rb first cid sa sb (tw_world W);
  ts_ids : connection_id_recv sa = cid' /\ connection_id_send sb = cid';
  ts_unacked : unacked_data sa = [];
  ts_answers : answers cid' [st_ack_number sb] W;
}.

(** What the world and the exchange [x] have in common. *)
Record two_way_simulates (cid cid' : Z) (W : TwoWay) (x : Exchange) : Prop := {
  tm_world : simulates addr_a addr_b ra rb first cid (tw_world W) (x_transfer x);
  tm_key_a : recv_key (t_sender (x_transfer x)) = (cid', addr_b);
  tm_key_b : connection_id_send (t_receiver (x_transfer x)) = cid';
  tm_last : st_ack_number (t_receiver (x_transfer x)) ∈ x_acks x;
  tm_answers : answers cid' (x_acks x) W;
}.

(** ** Helper lemmas *)

Lemma moved_ids clock h id l st st' : moved clock h id l st st' -> same_ids st st'.
Proof.
  unfold moved. destruct (event_of id l); [intros [_ ?]; by eapply stream_poll_ids|].
  by intros ->.
Qed.

Lemma acks_one_more cid' acks acks' p : acks_one cid' acks p -> acks_one cid' (acks ++ acks') p.
Proof. intros Hp ? ?. apply elem_of_app. left. auto. Qed.

(** What waits for the sender was acknowledged. *)
Lemma tracked_acks cid cid' W x : two_way_simulates cid cid' W x ->
  h_owners (w_a (tw_world W)) !! ra = Some (Streaming (t_sender (x_transfer x))) ->
  acks_from (x_acks x) (t_sender (x_transfer x)) (h_socket (w_a (tw_world W))).
Proof.
  intros [Hw Hk _ _ [_ _ Hbox]] Ho. pose proof (sm_a _ _ _ _ _ _ _ _ Hw) as Ha.
  unfold recv_key in Hk. unfold acks_from.
  destruct (ok_owners _ Ha _ _ Ho) as (-> & _).
  pose proof (owner_view _ _ _ Ha Ho) as Hv. unfold owner_key in Hv. rewrite Hk in Hv.
  destruct (owner_box _ _ _ Ha Ho) as (_ & _ & _ & _ & _ & Hdel).
  apply Forall_forall. intros p Hp Hs. apply (Hbox _ _ Hv Hp Hs).
  rewrite Forall_forall in Hdel. destruct (Hdel p Hp) as [_ _ Hid]. rewrite Hid. cbn. congruence.
Qed.

Lemma two_way_a cid cid' W x l a' :
  two_way_simulates cid cid' W x -> only_stream addr_b ra cid (tw_world W) ->
  host_step clock_a (from_net addr_b (tw_back W)) (w_a (tw_world W)) l a' ->
  exists st', moved clock_a (w_a (tw_world W)) ra l (t_sender (x_transfer x)) st' /\
    let x' := mkExchange (mkTransfer st' (t_sent (x_transfer x) ++ sent_by ra l)
      (t_receiver (x_transfer x)) (t_delivered (x_transfer x))) (x_acks x) in
    rtc (exchange_step clock_a clock_b) x x' /\
    two_way_simulates cid cid' (mkTwoWay (a_moved addr_b ra (tw_world W) l a') (tw_back W)) x'.
Proof.
  intros Hsim Honly Hstep. pose proof Hsim as [Hw Hk Hkb Hlast [Hq Hn Hbox]].
  pose proof (host_step_effect _ _ _ _ _ Hstep (sm_a _ _ _ _ _ _ _ _ Hw)) as He.
  apply (host_step_mono clock_a _ (fun _ _ => True)) in Hstep; [|done].
  destruct (simulates_a clock_a addr_a addr_b ra rb first _ _ _ _ _ Hw Honly Hstep)
    as (st' & Hm & Hw').
  pose proof (moved_ids _ _ _ _ _ _ Hm) as Hids.
  exists st'. split; [done|]. split.
  2: { split; [exact Hw'| |exact Hkb|exact Hlast|].
    - destruct Hids. unfold recv_key in *. cbn. congruence.
    - split; [exact Hq|exact Hn|]. cbn. intros q p Hv Hp.
      destruct (ef_views _ _ _ _ _ He _ _ _ Hv Hp) as [(q0 & Hv0 & Hp0)|(bs & Harr & Hpk & _)].
      + by eapply Hbox.
      + eapply Hn; [by apply Harr|done]. }
  unfold moved in Hm. unfold sent_by. destruct (event_of ra l) as [ev|].
  - destruct Hm as [Ho Hp]. eapply rtc_once, sender_polled; [|exact Hp].
    by eapply tracked_acks.
  - subst st'. rewrite app_nil_r. destruct x as [[] ?]. apply rtc_refl.
Qed.

Lemma two_way_b cid cid' W x l b' :
  two_way_simulates cid cid' W x -> only_answers cid' (b_moved rb (tw_world W) l b') ->
  answered rb first (tw_world W) (b_moved rb (tw_world W) l b') ->
  host_step clock_b (from_net addr_a (w_net (tw_world W))) (w_b (tw_world W)) l b' ->
  exists st' acks, moved clock_b (w_b (tw_world W)) rb l (t_receiver (x_transfer x)) st' /\
    let x' := mkExchange (mkTransfer (t_sender (x_transfer x)) (t_sent (x_transfer x)) st'
      (t_delivered (x_transfer x) ++ read_by rb l)) acks in
    rtc (exchange_step clock_a clock_b) x x' /\
    two_way_simulates cid cid' (mkTwoWay (b_moved rb (tw_world W) l b')
      (tw_back W ++ to_peer addr_a (l_emitted l))) x'.
Proof.
  intros Hsim Honly Hans Hstep. pose proof Hsim as [Hw Hk Hkb Hlast [Hq Hn Hbox]].
  pose proof (host_step_effect _ _ _ _ _ Hstep (sm_b _ _ _ _ _ _ _ _ Hw)) as He.
  destruct (simulates_b clock_b addr_a addr_b ra rb first _ _ _ _ _ Hw Hans Hstep) as (st' & Hm & Hw').
  pose (new := match event_of rb l with Some _ => [st_ack_number st'] | None => [] end).
  assert (Hlast' : st_ack_number st' ∈ x_acks x ++ new).
  { unfold new, moved in *. apply elem_of_app. destruct (event_of rb l); [right|left; by subst].
    by apply list_elem_of_singleton. }
  destruct (traffic_kept clock_b (fun o => o.2 = addr_a ->
    acks_one cid' (x_acks x ++ new) o.1) _ _ _ _ addr_a He) as [Hq' Hn'].
  { intros task Ht. eapply Forall_impl; [by apply Hq|]. intros o Ho Hto.
    by apply acks_one_more, Ho. }
  { intros o (_ & Ho & _) Hto Hs Hid. destruct (Ho Hs) as (id & st2 & Ho2 & Hcid & Hrm & ->).
    assert (id = rb) as -> by (eapply Honly; [exact Ho2|congruence..]).
    destruct (sm_receiver _ _ _ _ _ _ _ _ Hw') as (_ & _ & Hown). cbn in Hown.
    by rewrite (Hown _ Ho2). }
  exists st', (x_acks x ++ new). split; [done|]. split.
  2: { split; [exact Hw'|exact Hk| |exact Hlast'|].
    { destruct (moved_ids _ _ _ _ _ _ Hm). cbn. congruence. }
    split; cbn; [exact Hq'| |].
    - intros bs p [Hbs|Hbs]%elem_of_app Hp; [by eapply acks_one_more, Hn|by apply (Hn' bs p)].
    - intros q p Hv Hp. by eapply acks_one_more, Hbox. }
  unfold moved in Hm. unfold new, read_by. destruct (event_of rb l) as [ev|].
  - destruct Hm as [Ho Hp]. eapply rtc_once, receiver_polled; [|exact Hp].
    by eapply tracked_mailbox.
  - subst st'. rewrite !app_nil_r. destruct x as [[] ?]. apply rtc_refl.
Qed.

Lemma two_way_run cid cid' W x W' :
  rtc (two_way_moves cid cid') W W' -> two_way_simulates cid cid' W x ->
  exists x', rtc (exchange_step clock_a clock_b) x x' /\ two_way_simulates cid cid' W' x'.
Proof.
  intros Hr. revert x. induction Hr as [W|W1 W2 W3 (Hs & Ha & Hans & Hstep) _ IH]; intros x Hsim.
  - exists x. by split; [apply rtc_refl|].
  - assert (exists x2, rtc (exchange_step clock_a clock_b) x x2 /\
      two_way_simulates cid cid' W2 x2) as (x2 & Hx2 & Hs2).
    { destruct Hstep as [l a' Hh|l b' Hh].
      - destruct (two_way_a _ _ _ _ _ _ Hsim Hs Hh) as (st' & _ & ? & ?). by eexists.
      - destruct (two_way_b _ _ _ _ _ _ Hsim Ha Hans Hh) as (st' & acks & _ & ? & ?). by eexists. }
    destruct (IH x2 Hs2) as (x3 & Hx3 & Hs3). exists x3. split; [by etrans|done].
Qed.

(** The exchange that the start is. *)
Definition exchange_of (sa sb : UtpStream) : Exchange :=
  mkExchange (transfer_of sa sb) [st_ack_number sb].

Lemma two_way_start_simulates cid cid' sa sb W : two_way_start cid cid' sa sb W ->
  two_way_simulates cid cid' W (exchange_of sa sb).
Proof.
  intros [Hw [Hid Hidb] _ Ha]. split; cbn.
  - by apply world_start_simulates.
  - destruct (wo_key_a _ _ _ _ _ _ _ _ _ Hw). unfold recv_key. congruence.
  - done.
  - by apply list_elem_of_singleton.
  - done.
Qed.

Lemma two_way_start_exchange cid cid' sa sb W : two_way_start cid cid' sa sb W ->
  exchange_start (exchange_of sa sb).
Proof.
  intros [Hw _ Hu _]. destruct (world_start_transfer _ _ _ _ _ _ _ _ _ Hw). by split.
Qed.

Lemma poll_flush_empty clock fuel st e st' e' :
  poll_flush clock fuel st e = Done (Ready (Ok tt), st', e') -> unacked_data st' = [].
Proof.
  unfold poll_flush. intros ([[term st1] e1] & _ & Hr)%bind_Done.
  destruct (is_empty (unacked_data st1)) eqn:He;
    [|destruct (is_shutdown st1); by outcome_inv].
  outcome_inv. by destruct (unacked_data st').
Qed.

(** The direction from A to B alone. *)
Lemma two_way_moves_world cid cid' W W' : two_way_moves cid cid' W W' ->
  world_moves clock_a clock_b addr_a addr_b ra rb first cid (tw_world W) (tw_world W').
Proof.
  intros (Honly & _ & Hans & Hstep). split_and!; [done|done|].
  destruct Hstep as [l a' Hs|l b' Hs]; cbn.
  - apply a_moves. by eapply (host_step_mono clock_a (from_net addr_b (tw_back W))).
  - by apply b_moves.
Qed.

Lemma two_way_world cid cid' W W' : rtc (two_way_moves cid cid') W W' ->
  rtc (world_moves clock_a clock_b addr_a addr_b ra rb first cid) (tw_world W) (tw_world W').
Proof. apply rtc_congruence. intros ? ?. apply two_way_moves_world. Qed.

Lemma two_way_safe cid cid' sa sb W0 W :
  two_way_start cid cid' sa sb W0 -> rtc (two_way_moves cid cid') W0 W ->
  Z.of_nat (length (w_sent (tw_world W))) < 2 ^ 16 ->
  w_read (tw_world W) `prefix_of` w_written (tw_world W).
Proof. intros H0 Hr%two_way_world. by eapply world_safe; [apply H0|]. Qed.

(** ** Properties *)

(** C4. A flush that succeeds means that everything written has arrived. Two hosts
    start with the two ends of a connection ([two_way_start]); what they do then is
    free, but for three conditions ([two_way_moves]): no other stream of A sends to
    B, nor of B to A, under the identifier of the connection in that direction,
    and a [connect] at B that makes B's end takes the answer that A's [accept]
    sent. The network may lose, repeat, delay or reorder datagrams, or bring others
    from other addresses; what arrives with the address of A or B was sent by it.
    When a [poll_flush] of the stream at A is then ready, the
    bytes read from the stream at B and those waiting there for its reader are
    all the bytes written at A; as long as the sequence numbers, which start at 1
    or later, do not wrap around. *)
Theorem flush_means_received cid cid' sa sb W0 W fuel n st st' e' :
  two_way_start cid cid' sa sb W0 -> rtc (two_way_moves cid cid') W0 W ->
  1 <= st_seq_number sa ->
  st_seq_number sa + Z.of_nat (length (w_sent (tw_world W))) <= 2 ^ 16 ->
  h_owners (w_a (tw_world W)) !! ra = Some (Streaming st) ->
  poll_flush clock_a fuel st (mkEnv (h_socket (w_a (tw_world W))) n) =
    Done (Ready (Ok tt), st', e') ->
  exists waiting, w_read (tw_world W) ++ waiting = w_written (tw_world W) /\
    forall stb, h_owners (w_b (tw_world W)) !! rb = Some (Streaming stb) ->
      received_data stb = waiting.
Proof.
  intros H0 Hr Hn Hl Ho Hf.
  destruct (two_way_run _ _ _ _ _ Hr (two_way_start_simulates _ _ _ _ _ H0))
    as (x & Hx & Hsim). pose proof (tm_world _ _ _ _ Hsim) as Hw.
  destruct Hw as [_ _ (_ & _ & Ha) (_ & _ & Hb) Hse Hre Hwr _ _ _].
  injection (Ha _ Ho) as ->.
  assert (Hstep : exchange_step clock_a clock_b x
    (mkExchange (sender_moved (x_transfer x) Flushed st') (x_acks x))).
  { eapply sender_polled; [by eapply tracked_acks|]. exists fuel, n, (Ready (Ok tt)), e'. by left. }
  destruct (exchange_reachable_ok clock_a clock_b (exchange_of sa sb) _
    (two_way_start_exchange _ _ _ _ _ H0) (rtc_r _ _ _ Hx Hstep)) as (k & Hok); [done| |].
  { cbn. by rewrite app_nil_r, Hse. }
  pose proof (exchange_all _ _ _ Hok (poll_flush_empty _ _ _ _ _ _ Hf)) as Hall.
  cbn [x_transfer] in Hall. rewrite sender_moved_payloads in Hall. cbn in Hall.
  rewrite !app_nil_r in Hall.
  exists (received_data (t_receiver (x_transfer x))). rewrite <- Hre, <- Hwr. split; [done|].
  intros stb Hob. by rewrite (Hb _ Hob).
Qed.
End two_way.

(** ** Playing a run *)

Section play.
Variables clock_a clock_b : nat -> SystemTime.
Variables addr_a addr_b : SocketAddr.
Variables ra rb : ChanId.
Variable first : Z.

Definition two_way_turn (t : Turn) (W : TwoWay) : option TwoWay :=
  let w := tw_world W in
  '(at_a, a) ← turn_action addr_a addr_b (w_net w) (tw_back W) t;
  if (at_a : bool) then
    '(l, a') ← perform clock_a a (w_a w);
    Some (mkTwoWay (a_moved addr_b ra w l a') (tw_back W))
  else
    '(l, b') ← perform clock_b a (w_b w);
    Some (mkTwoWay (b_moved rb w l b') (tw_back W ++ to_peer addr_a (l_emitted l))).

(** The conditions of [two_way_moves], decided. *)
Definition only_sends (cid : Z) (peer : SocketAddr) (rx : ChanId) : Host -> bool :=
  all_streams (fun id st => bool_decide
    (connection_id_send st = cid -> remote_addr st = peer -> id = rx)).

Definition is_answered (w w' : World) : bool :=
  match h_owners (w_b w) !! rb, h_owners (w_b w') !! rb with
  | Some (Awaiting _), Some (Streaming st) => bool_decide (st_ack_number st = first)
  | _, _ => true
  end.

Definition two_way_allowed (cid cid' : Z) (W W' : TwoWay) : bool :=
  only_sends cid addr_b ra (w_a (tw_world W)) &&
  only_sends cid' addr_a rb (w_b (tw_world W')) &&
  is_answered (tw_world W) (tw_world W').

Lemma only_sends_elim cid peer rx h id st : only_sends cid peer rx h = true ->
  h_owners h !! id = Some (Streaming st) -> connection_id_send st = cid ->
  remote_addr st = peer -> id = rx.
Proof. intros Hs Ho. by apply (all_streams_elim _ _ _ _ Hs), bool_decide_eq_true in Ho. Qed.

Lemma is_answered_elim w w' : is_answered w w' = true -> answered rb first w w'.
Proof.
  unfold is_answered. intros Hans c st Hc Hst. rewrite Hc, Hst in Hans.
  by apply bool_decide_eq_true in Hans.
Qed.

Lemma two_way_turn_step t W W' : two_way_turn t W = Some W' ->
  two_way_step clock_a clock_b addr_a addr_b ra rb W W'.
Proof.
  intros ([at_a a] & Hact & Ht)%bind_Some.
  pose proof (turn_action_brings _ _ _ _ _ _ _ Hact).
  destruct at_a; apply bind_Some in Ht as ([l h'] & Hp & [= <-]).
  - apply both_a. by eapply perform_step.
  - apply both_b. by eapply perform_step.
Qed.

Lemma two_way_turn_moves cid cid' t W W' : two_way_turn t W = Some W' ->
  two_way_allowed cid cid' W W' = true ->
  two_way_moves clock_a clock_b addr_a addr_b ra rb first cid cid' W W'.
Proof.
  intros Ht Hok. apply andb_true_iff in Hok as [[Ha Hb]%andb_true_iff Hans].
  split_and!; [intros ? ?; by eapply only_sends_elim|intros ? ?; by eapply only_sends_elim|
    by apply is_answered_elim|by eapply two_way_turn_step].
Qed.
End play.

(** ** Witnesses

    A whole round trip between the two hosts of [sample_world]: A writes three
    bytes, they reach B, B reads them, its acknowledgement reaches A, and the
    flush at A is ready. *)

Definition round_trip : list Turn :=
  [AtFirst (Writes 0%nat [1; 2; 3]); AtFirst Sends; ToSecond 0%nat;
   AtSecond (Reads 0%nat 3%nat); AtSecond Sends; ToFirst 0%nat].

Definition sample_turn : Turn -> TwoWay -> option TwoWay :=
  two_way_turn sample_clock sample_clock sample_addr sample_peer 0%nat 0%nat.
Definition sample_allowed : TwoWay -> TwoWay -> bool :=
  two_way_allowed sample_addr sample_peer 0%nat 0%nat 500 77 78.
Definition sample_moves : TwoWay -> TwoWay -> Prop :=
  two_way_moves sample_clock sample_clock sample_addr sample_peer 0%nat 0%nat 500 77 78.

Definition sample_two_way : TwoWay := mkTwoWay sample_world [].
Definition sample_trip : TwoWay := played sample_turn sample_allowed round_trip sample_two_way.

Lemma sample_trip_run : rtc sample_moves sample_two_way sample_trip.
Proof.
  apply played_run; [intros t W1 W2; apply two_way_turn_moves|]. by vm_compute.
Qed.

(** The stream of a host, and whether its flush is ready. *)
Definition stream_at (id : ChanId) (h : Host) : option UtpStream :=
  match h_owners h !! id with Some (Streaming st) => Some st | _ => None end.
Definition flush_at (id : ChanId) (h : Host)
    : option (Outcome (Poll (Result unit IoError) * UtpStream * Env)) :=
  st ← stream_at id h; Some (poll_flush sample_clock run_fuel st (mkEnv (h_socket h) 0)).
Definition flush_ready (id : ChanId) (h : Host) : bool :=
  match flush_at id h with Some (Done (Ready (Ok tt), _, _)) => true | _ => false end.

Lemma flush_ready_elim id h : flush_ready id h = true -> exists st st' e',
  h_owners h !! id = Some (Streaming st) /\
  poll_flush sample_clock run_fuel st (mkEnv (h_socket h) 0) = Done (Ready (Ok tt), st', e').
Proof.
  unfold flush_ready, flush_at, stream_at.
  destruct (h_owners h !! id) as [[c|st]|]; [done| |done]. cbn [mbind option_bind].
  destruct (poll_flush _ _ _ _) as [[[[[[]|]|] st'] e']| |] eqn:Hf; try done.
  intros _. by exists st, st', e'.
Qed.

Lemma sample_two_way_start :
  two_way_start sample_addr sample_peer 0%nat 0%nat 500 77 78 sample_sender_end
    sample_receiver_end sample_two_way.
Proof.
  split; [by apply sample_world_start|done|done|]. split.
  - intros task [= <-]. apply Forall_nil_2.
  - intros bs p ?%elem_of_nil. done.
  - intros q p Hv Hp. exfalso.
    assert (conn_view (h_socket (w_a sample_world)) (78, sample_peer) = Some (true, [])) as He
      by (by vm_compute).
    change (w_a _) with (w_a sample_world) in Hv. rewrite He in Hv. injection Hv as <-.
    by apply elem_of_nil in Hp.
Qed.

(** The facts about the trip that are computed. *)
Lemma sample_trip_facts :
  flush_ready 0%nat (w_a (tw_world sample_trip)) = true /\
  length (w_sent (tw_world sample_trip)) = 1%nat /\
  w_written (tw_world sample_trip) = [1; 2; 3].
Proof. split_and!; by vm_compute. Qed.

Lemma flush_means_received_witness : exists W, rtc sample_moves sample_two_way W /\
  w_written (tw_world W) = [1; 2; 3] /\
  exists waiting, w_read (tw_world W) ++ waiting = [1; 2; 3].
Proof.
  destruct sample_trip_facts as (Hf & Hl & Hw).
  destruct (flush_ready_elim _ _ Hf) as (st & st' & e' & Ho & Hr).
  exists sample_trip. split; [exact sample_trip_run|]. split; [exact Hw|].
  destruct (flush_means_received sample_clock sample_clock sample_addr sample_peer 0%nat 0%nat
    500 77 78 _ _ _ sample_trip run_fuel 0%nat st st' e' sample_two_way_start sample_trip_run)
    as (waiting & Hall & _); [vm_compute; discriminate| |exact Ho|exact Hr|].
  - rewrite Hl. vm_compute. discriminate.
  - exists waiting. rewrite <- Hw. exact Hall.
Defined.
