(* ===== verification/Opening.v ===== *)
(** * Opening a connection

    From two hosts just bound to a connection between them. While one connects
    and the other accepts, nothing of the connection's own traffic is under way
    yet, as long as no other stream uses the identifiers of the connection to send,
    whatever else the two hosts do and whatever the network loses, repeats or
    brings from elsewhere; so the two ends start as TwoWay.v assumes, in both
    directions. *)

From S2P Require Import Prelude Crates CratesRef Errors Time Packet.
From S2P Require Import PacketWire Congestion Socket PacketSender PacketReceiver Stream.
From S2P Require Import StreamFacts StreamRead StreamWrite StreamInvariant Polls.
From S2P Require Import Listener Handshake Host Boxes HostState HostEffect Transfer.
From S2P Require Import Acks Runs World TwoWay.

(** ** Definitions *)

Section opening.
Context `{By : BytesCrate, Rb : ReadBufCrate, Mp : MpscCrate, Dm : DashMapCrate}.
Variables clock_c clock_s : nat -> SystemTime.

(** The addresses of the side that connects, the client, and of the side that
    accepts, the server. *)
Variables addr_c addr_s : SocketAddr.

(** Two hosts, and the datagrams each gave the network for the other so far. *)
Record Pair : Type := mkPair {
  p_client : Host;
  p_server : Host;
  p_out : list bytes;
  p_back : list bytes;
}.

Definition client_moved (P : Pair) (l : Label) (c' : Host) : Pair :=
  mkPair c' (p_server P) (p_out P ++ to_peer addr_s (l_emitted l)) (p_back P).
Definition server_moved (P : Pair) (l : Label) (s' : Host) : Pair :=
  mkPair (p_client P) s' (p_out P) (p_back P ++ to_peer addr_c (l_emitted l)).

Inductive pair_step (P : Pair) : Pair -> Prop :=
  | client_moves l c' :
      host_step clock_c (from_net addr_s (p_back P)) (p_client P) l c' ->
      pair_step P (client_moved P l c')
  | server_moves l s' :
      host_step clock_s (from_net addr_c (p_out P)) (p_server P) l s' ->
      pair_step P (server_moved P l s').

(** Two hosts just bound. *)
Definition just_bound (P : Pair) : Prop :=
  exists bound_c bound_s client server, host_new bound_c = Ok client /\
    host_new bound_s = Ok server /\ P = mkPair client server [] [].

(** The pair as the start of a transfer from the client, and of one from the
    server. *)
Definition up (P : Pair) : TwoWay :=
  mkTwoWay (mkWorld (p_client P) (p_server P) (p_out P) [] [] []) (p_back P).
Definition down (P : Pair) : TwoWay :=
  mkTwoWay (mkWorld (p_server P) (p_client P) (p_back P) [] [] []) (p_out P).

(** The connection: the identifier the client drew, under which the server sends,
    and the one under which the client sends. *)
Variable id : Z.
#[local] Notation "'cid'" := (wrapping_add16 id 1).

(** A stream that sends under [i] to [peer]. *)
Definition sends_as (i : Z) (peer : SocketAddr) (st : UtpStream) : Prop :=
  connection_id_send st = i /\ remote_addr st = peer.

(** No stream of the host does. *)
Definition none_sends (i : Z) (peer : SocketAddr) (h : Host) : Prop :=
  forall rx st, h_owners h !! rx = Some (Streaming st) -> ~ sends_as i peer st.

(** A stream of the server under the identifier of the connection is that of an
    [accept]: the server did not draw the same identifier for a [connect] to the
    client. *)
Definition accepts_only (h : Host) : Prop :=
  forall rx st, h_owners h !! rx = Some (Streaming st) -> sends_as id addr_c st ->
    connection_id_recv st = cid.

(** Before the client's stream is there, it has no other stream that sends to the
    server under the same identifier. *)
Definition opening_up (P P' : Pair) : Prop :=
  none_sends cid addr_s (p_client P) /\ accepts_only (p_server P') /\ pair_step P P'.

(** Before the server's stream is there, it has no other stream that sends to the
    client under the same identifier, and the client sends nothing under its
    own. *)
Definition opening_down (P P' : Pair) : Prop :=
  none_sends id addr_c (p_server P) /\ none_sends cid addr_s (p_client P') /\
  pair_step P P'.

(** ** Packets that cross *)

(** Every packet waiting at [h] for [dest], in [net], or arrived from [source] at
    [peer] satisfies [P]; the SYN queue there holds SYN packets. *)
Record crossing (P : Packet -> Prop) (h : Host) (dest : SocketAddr) (net : list bytes)
    (peer : Host) (source : SocketAddr) : Prop := {
  cr_queue : forall task, h_sender h = Some task ->
    Forall (fun o => o.2 = dest -> P o.1) (backlog task (h_socket h));
  cr_net : forall bs p, bs ∈ net -> Packet_try_from bs = Done (Ok p) -> P p;
  cr_box : forall k q p, k.2 = source -> conn_view (h_socket peer) k = Some (true, q) ->
    p ∈ q -> P p;
  cr_syns : forall p, (p, source) ∈ queued (syn_channel (h_socket peer)) ->
    packet_type p = Syn /\ P p;
}.

(** The invariant before the client's stream is there: no data packet of the
    connection is on its way to the server, where SYN packets of the client have
    the number 1; the streams of the connection at the server received nothing,
    and acknowledge that SYN. *)
Definition untouched (st : UtpStream) : Prop :=
  st_ack_number st = 1 /\ inbound_data st = ∅ /\ received_data st = [].

Definition no_data_up (p : Packet) : Prop :=
  ~ data_for cid p /\ (packet_type p = Syn -> seq_number p = 1).

Record before_up (P : Pair) : Prop := {
  bu_client : host_ok (p_client P);
  bu_server : host_ok (p_server P);
  bu_out : crossing no_data_up (p_client P) addr_s (p_out P) (p_server P) addr_c;
  bu_back : crossing (acks_one id [1]) (p_server P) addr_c (p_back P) (p_client P) addr_s;
  bu_ends : forall rx st, h_owners (p_server P) !! rx = Some (Streaming st) ->
    sends_as id addr_c st -> connection_id_recv st = cid -> untouched st;
}.

(** The invariant before the server's stream is there: no data packet of the
    connection is on its way to the client, and no acknowledgement of it to the
    server. *)
Record before_down (P : Pair) : Prop := {
  bd_client : host_ok (p_client P);
  bd_server : host_ok (p_server P);
  bd_out : crossing (acks_one cid []) (p_client P) addr_s (p_out P) (p_server P) addr_c;
  bd_back : crossing (fun p => ~ data_for id p) (p_server P) addr_c (p_back P)
    (p_client P) addr_s;
}.

(** ** Helper lemmas: what a step does to the packets that cross *)

Lemma crossing_new (P : Packet -> Prop) bound_h bound_p h peer dest source :
  host_new bound_h = Ok h -> host_new bound_p = Ok peer -> crossing P h dest [] peer source.
Proof.
  intros Hh Hp. unfold host_new, bind, try_from_udp in *.
  destruct bound_h as [[local_h|]|]; [|done..]. destruct bound_p as [[local_p|]|]; [|done..].
  cbn in *. injection Hh as <-. injection Hp as <-. split; cbn.
  - intros task [= <-]. unfold backlog. cbn. by rewrite queued_unbounded_channel.
  - intros bs p ?%elem_of_nil. done.
  - intros k q p _ Hv. rewrite conn_view_None in Hv; [done|]. unfold route. cbn.
    by rewrite entries_new, lookup_empty.
  - intros p. rewrite queued_unbounded_channel. by intros ?%elem_of_nil.
Qed.

Lemma crossing_sends (P : Packet -> Prop) clock arrives h l h' dest net peer source :
  crossing P h dest net peer source -> step_effect clock arrives h l h' ->
  (forall o, justified h l h' o -> o.2 = dest -> P o.1) ->
  crossing P h' dest (net ++ to_peer dest (l_emitted l)) peer source.
Proof.
  intros [Hq Hn Hb Hs] He Hnew.
  destruct (traffic_kept clock (fun o => o.2 = dest -> P o.1) _ _ _ _ dest He Hq Hnew)
    as [Hq' Hn'].
  split; [done| |done|done].
  intros bs p [Hbs|Hbs]%elem_of_app Hp; [by eapply Hn|by eapply Hn'].
Qed.

Lemma crossing_arrives (P : Packet -> Prop) clock h dest net peer source l peer' :
  crossing P h dest net peer source -> step_effect clock (from_net source net) peer l peer' ->
  crossing P h dest net peer' source.
Proof.
  intros [Hq Hn Hb Hs] He. split; [done|done| |].
  - intros k q p Hk Hv Hp.
    destruct (ef_views _ _ _ _ _ He _ _ _ Hv Hp) as [(q0 & Hv0 & Hp0)|(bs & Harr & Hpk & _)].
    + by eapply Hb.
    + by eapply Hn; [apply Harr|].
  - intros p Hp. destruct (ef_syns _ _ _ _ _ He _ Hp) as [Ho|(bs & Harr & Hpk & Hsyn)].
    + by apply Hs.
    + split; [done|]. by eapply Hn; [apply Harr|].
Qed.

(** ** Helper lemmas: the server's stream before any data *)

(** A poll of a stream that received nothing, with no data packet in its mailbox. *)
Lemma untouched_poll clock s st ev st' : stream_poll clock s st ev st' ->
  u16 (st_seq_number st) -> untouched st ->
  Forall (fun p => packet_type p <> Data) (mailbox s (inbound_packets st)) -> untouched st'.
Proof.
  intros Hp Hu (Hack & Hin & Hrec) Hbox.
  set (t := mkTransfer (UtpStream_new 0 0 addr_c 0%nat 2 0 ∅ [] []) [] st []).
  assert (Hok : transfer_ok 2 t 0).
  { apply (transfer_start_ok t). by split. }
  assert (Hstep : transfer_step clock clock t (receiver_moved t ev st')).
  { apply (receiver_transfer clock clock s); [|done]. eapply Forall_impl; [exact Hbox|].
    by intros p. }
  apply transfer_step_ok with (n := 2) (k := 0%nat) in Hstep as (_ & k & _ & Hok'); [|done..].
  assert (Hs : payloads (receiver_moved t ev st') = [] /\
    t_receiver (receiver_moved t ev st') = st') by by destruct ev.
  destruct Hs as [Hs Hr]. destruct Hok' as [_ _ _ _ Hbuf Ha Hk Hb].
  rewrite Hs in *. rewrite Hr in *. cbn in Hk. assert (k = 0%nat) as -> by lia.
  split_and!; [by rewrite Ha| |by apply app_nil in Hb as [_ ?]].
  apply map_empty. intros q. destruct (inbound_data st' !! q) as [d|] eqn:Hq; [|done].
  by apply Hbuf in Hq as (i & Hi & _).
Qed.

(** The mailbox of the server's end holds none of its data. *)
Lemma end_mailbox P rx st : before_up P -> h_owners (p_server P) !! rx = Some (Streaming st) ->
  connection_id_recv st = cid -> remote_addr st = addr_c ->
  Forall (fun p => packet_type p <> Data) (mailbox (h_socket (p_server P)) rx).
Proof.
  intros [_ Hok Hout _ _] Ho Hid Hrm. pose proof (owner_view _ _ _ Hok Ho) as Hv.
  destruct (owner_box _ _ _ Hok Ho) as (_ & _ & _ & _ & _ & Hdel).
  apply Forall_forall. intros p Hp Hd. rewrite Forall_forall in Hdel.
  destruct (Hdel p Hp) as [_ _ Hpid]. cbn in Hpid.
  destruct (cr_box _ _ _ _ _ _ Hout (owner_key (Streaming st)) _ _ Hrm Hv Hp) as [Hno _]. apply Hno. split; congruence.
Qed.

(** The streams of the connection at the server, after a step there. *)
Lemma ends_step P l s' rx st : before_up P ->
  step_effect clock_s (from_net addr_c (p_out P)) (p_server P) l s' ->
  h_owners s' !! rx = Some (Streaming st) -> sends_as id addr_c st ->
  connection_id_recv st = cid -> untouched st.
Proof.
  intros Hb He Ho [Hsend Hrm] Hrecv. pose proof Hb as [_ Hok Hout _ Hends].
  destruct (decide (rx < next_chan (h_socket (p_server P)))%nat) as [Hlt|Hge].
  - pose proof (ef_owners _ _ _ _ _ He rx Hlt) as Hev. unfold owner_evolves in Hev.
    rewrite Ho in Hev. destruct (event_of rx l) as [ev|].
    + destruct Hev as (st0 & st1 & Hst0 & [= <-] & Hp).
      pose proof (stream_poll_ids _ _ _ _ _ Hp) as [].
      destruct (ok_owners _ Hok _ _ Hst0) as (Hrx & _ & Hwf).
      eapply untouched_poll; [exact Hp|apply Hwf| |].
      * eapply Hends; [exact Hst0|split; congruence|congruence].
      * rewrite Hrx. eapply end_mailbox; [done|exact Hst0|congruence..].
    + destruct Hev as [Hst|[Hst|(c & p & Hc & _ & _ & Hst)]]; [|done|].
      * symmetry in Hst. by eapply Hends.
      * exfalso. injection Hst as ->. destruct (ok_owners _ Hok _ _ Hc) as (_ & Hids & _).
        cbn in *. rewrite Hrecv in Hids. revert Hids. rewrite Hsend. int_lia.
  - destruct (ef_new _ _ _ _ _ He rx _ ltac:(lia) Ho) as (syn & remote & draw & Hin & ->).
    cbn in *. subst remote. split_and!; [|done..].
    destruct (cr_syns _ _ _ _ _ _ Hout syn Hin) as [Hsyn [_ Hone]]. by apply Hone.
Qed.

(** ** Helper lemmas: the invariants hold *)

Lemma just_bound_up P : just_bound P -> before_up P.
Proof.
  intros (bc & bs & c & s & Hc & Hs & ->). split; cbn.
  1,2: by eapply host_new_ok.
  1,2: by eapply crossing_new.
  intros rx st Ho. unfold host_new in Hs. destruct (bind bs) as [[? [? ?]]|]; [|done].
  injection Hs as <-. cbn in Ho. by rewrite lookup_empty in Ho.
Qed.

Lemma just_bound_down P : just_bound P -> before_down P.
Proof.
  intros (bc & bs & c & s & Hc & Hs & ->). split; cbn.
  1,2: by eapply host_new_ok.
  all: by eapply crossing_new.
Qed.

Lemma opening_up_ok P P' : opening_up P P' -> before_up P -> before_up P'.
Proof.
  intros (Hnone & Honly & Hstep) Hb. pose proof Hb as [Hc Hs Hout Hback Hends].
  destruct Hstep as [l c' Hstep|l s' Hstep]; cbn in *.
  - pose proof (host_step_effect _ _ _ _ _ Hstep Hc) as He.
    split; cbn; [by eapply host_step_ok|done| |by eapply crossing_arrives|done].
    eapply crossing_sends; [done..|]. intros o (Hq & _ & Hsyn) Hto. split; [|done].
    intros [Hd Hid]. destruct (Hq Hd) as (rx & _ & _ & st & _ & _ & Ho & Hid2 & Hrm).
    apply (Hnone rx st Ho). split; congruence.
  - pose proof (host_step_effect _ _ _ _ _ Hstep Hs) as He.
    split; cbn; [done|by eapply host_step_ok|by eapply crossing_arrives| |].
    2: { intros rx st Ho Hk Hr. by eapply ends_step. }
    eapply crossing_sends; [done..|]. intros o (_ & Ha & _) Hto Hp Hid.
    destruct (Ha Hp) as (rx & st & Ho & Hid2 & Hrm & ->).
    assert (sends_as id addr_c st) as Hk by (split; congruence).
    destruct (ends_step _ _ _ _ _ Hb He Ho Hk (Honly _ _ Ho Hk)) as [-> _].
    by apply list_elem_of_singleton.
Qed.

Lemma opening_down_ok P P' : opening_down P P' -> before_down P -> before_down P'.
Proof.
  intros (Hnone & Hquiet & Hstep) [Hc Hs Hout Hback].
  destruct Hstep as [l c' Hstep|l s' Hstep]; cbn in *.
  - pose proof (host_step_effect _ _ _ _ _ Hstep Hc) as He.
    split; cbn; [by eapply host_step_ok|done| |by eapply crossing_arrives].
    eapply crossing_sends; [done..|]. intros o (_ & Ha & _) Hto Hp Hid.
    destruct (Ha Hp) as (rx & st & Ho & Hid2 & Hrm & _).
    exfalso. apply (Hquiet rx st Ho). split; congruence.
  - pose proof (host_step_effect _ _ _ _ _ Hstep Hs) as He.
    split; cbn; [done|by eapply host_step_ok|by eapply crossing_arrives|].
    eapply crossing_sends; [done..|]. intros o (Hq & _) Hto [Hd Hid].
    destruct (Hq Hd) as (rx & _ & _ & st & _ & _ & Ho & Hid2 & Hrm).
    apply (Hnone rx st Ho). split; congruence.
Qed.

Lemma opening_up_run P P' : rtc opening_up P P' -> before_up P -> before_up P'.
Proof. induction 1; [done|]. intros. by eauto using opening_up_ok. Qed.

Lemma opening_down_run P P' : rtc opening_down P P' -> before_down P -> before_down P'.
Proof. induction 1; [done|]. intros. by eauto using opening_down_ok. Qed.

(** The stream that a pending [connect] became. *)
Lemma connects P P' rx c st : pair_step P P' -> host_ok (p_client P) ->
  h_owners (p_client P) !! rx = Some (Awaiting c) ->
  h_owners (p_client P') !! rx = Some (Streaming st) ->
  exists response, st = connected c response.
Proof.
  intros Hstep Hok Hc Hst. destruct Hstep as [l c' Hstep|l s' Hstep]; cbn in *; [|congruence].
  pose proof (host_step_effect _ _ _ _ _ Hstep Hok) as He.
  pose proof (ef_owners _ _ _ _ _ He rx (owner_below _ _ _ Hok Hc)) as Hev.
  unfold owner_evolves in Hev. rewrite Hc, Hst in Hev. destruct (event_of rx l).
  - destruct Hev as (? & ? & [=] & _).
  - destruct Hev as [[=]|[[=]|(c2 & p & [= <-] & _ & _ & [= ->])]]. by exists p.
Qed.

(** The stream that an [accept] made. *)
Lemma accepts P P' rx st : pair_step P P' -> host_ok (p_server P) ->
  h_owners (p_server P) !! rx = None -> h_owners (p_server P') !! rx = Some (Streaming st) ->
  exists syn remote draw, st = accepted syn remote rx draw /\ p_client P' = p_client P.
Proof.
  intros Hstep Hok Hno Hst. destruct Hstep as [l c' Hstep|l s' Hstep]; cbn in *; [congruence|].
  pose proof (host_step_effect _ _ _ _ _ Hstep Hok) as He.
  destruct (decide (rx < next_chan (h_socket (p_server P)))%nat) as [Hlt|Hge].
  - pose proof (ef_owners _ _ _ _ _ He rx Hlt) as Hev. unfold owner_evolves in Hev.
    rewrite Hno, Hst in Hev. destruct (event_of rx l).
    + destruct Hev as (? & ? & [=] & _).
    + by destruct Hev as [[=]|[[=]|(c2 & p & [=] & _)]].
  - destruct (ef_new _ _ _ _ _ He rx _ ltac:(lia) Hst) as (syn & remote & draw & _ & ->).
    by exists syn, remote, draw.
Qed.

(** ** Helper lemmas: the starts *)

Lemma up_start first P P' ra rb c sa sb : before_up P -> opening_up P P' ->
  h_owners (p_client P) !! ra = Some (Awaiting c) ->
  co_id_recv c = id -> co_remote_addr c = addr_s ->
  h_owners (p_client P') !! ra = Some (Streaming sa) ->
  h_owners (p_server P') !! rb = Some (Streaming sb) -> sends_as id addr_c sb ->
  two_way_start addr_c addr_s ra rb first cid id sa sb (up P').
Proof.
  intros Hb Ho Hc Hid Hrm Hsa Hsb Hk.
  pose proof (opening_up_ok _ _ Ho Hb) as Hb'. destruct Ho as (_ & Honly & Hstep).
  destruct (connects _ _ _ _ _ Hstep (bu_client _ Hb) Hc Hsa) as [response ->].
  destruct (ok_owners _ (bu_client _ Hb) _ _ Hc) as (_ & Hsend & Hseq).
  pose proof (Honly _ _ Hsb Hk) as Hrecv.
  pose proof (bu_ends _ Hb' _ _ Hsb Hk Hrecv) as (Hack & Hin & Hrec).
  pose proof (end_mailbox _ _ _ Hb' Hsb Hrecv (proj2 Hk)) as Hbox.
  destruct Hb' as [Hc' Hs' Hout Hback _]. destruct Hk as [Hk Hrb].
  split; [split| |done|]; cbn; try done.
  - by exists (Streaming sb).
  - by rewrite Hsend, Hid.
  - by rewrite Hack, Hseq.
  - intros task Ht. eapply Forall_impl; [exact (cr_queue _ _ _ _ _ _ Hout _ Ht)|].
    intros o Hno Hd Hto. by apply Hno.
  - intros bs p Hbs Hp. apply (cr_net _ _ _ _ _ _ Hout bs p Hbs Hp).
  - eapply Forall_impl; [exact Hbox|]. by intros p Hp [].
  - rewrite Hack. split; [apply Hback|apply Hback|].
    intros q p Hv Hp. by eapply (cr_box _ _ _ _ _ _ Hback (id, addr_s)).
Qed.

(** The end that the client will have once it takes the answer numbered [first]. *)
Definition client_end (c : Connecting) (first : Z) : UtpStream :=
  connected c (syn_ack_for (syn_for id) first).

Lemma down_start P P' ra rb c sa : before_down P -> opening_down P P' ->
  h_owners (p_client P') !! ra = Some (Awaiting c) ->
  co_id_recv c = id -> co_remote_addr c = addr_s ->
  h_owners (p_server P) !! rb = None ->
  h_owners (p_server P') !! rb = Some (Streaming sa) -> sends_as id addr_c sa ->
  let first := wrapping_sub16 (st_seq_number sa) 1 in
  two_way_start addr_s addr_c rb ra first id cid sa (client_end c first) (down P').
Proof.
  intros Hb Ho Hc Hid Hrm Hno Hsa Hk first.
  pose proof (opening_down_ok _ _ Ho Hb) as [Hc' Hs' Hout Hback].
  destruct Ho as (_ & _ & Hstep).
  destruct (accepts _ _ _ _ Hstep (bd_server _ Hb) Hno Hsa) as (syn & remote & draw & -> & _).
  destruct (ok_owners _ Hc' _ _ Hc) as (_ & Hsend & _). destruct Hk as [Hk Hrb]. cbn in Hk, Hrb.
  split; [split| |done|]; cbn; try done.
  - exists (Awaiting c). split; [done|]. by exists (syn_ack_for (syn_for id) first).
  - intros task Ht. eapply Forall_impl; [exact (cr_queue _ _ _ _ _ _ Hback _ Ht)|].
    intros o Hnd Hd Hto. by apply Hnd.
  - intros bs p Hbs Hp. apply (cr_net _ _ _ _ _ _ Hback bs p Hbs Hp).
  - apply Forall_forall. intros p Hp.
    eapply (cr_box _ _ _ _ _ _ Hback (owner_key (Awaiting c))); [done| |exact Hp].
    by apply owner_view.
  - rewrite Hsend, Hid, Hk. done.
  - split; cbn.
    + intros task Ht. eapply Forall_impl; [exact (cr_queue _ _ _ _ _ _ Hout _ Ht)|].
      intros o Ha Hto. by apply (acks_one_more _ []), Ha.
    + intros bs p Hbs Hp. apply (acks_one_more _ []), (cr_net _ _ _ _ _ _ Hout bs p Hbs Hp).
    + intros q p Hv Hp.
      apply (acks_one_more _ []), (cr_box _ _ _ _ _ _ Hout (cid, addr_c) q p); done.
Qed.

(** ** Properties *)

(** C1. From two hosts just bound to a transfer by the side that connected: when
    a pending [connect] of the client to the server, which drew the identifier
    [id], becomes a stream while the server has its end of the connection, the
    two streams start as both directions of TwoWay.v assume; so from then on the
    bytes read from the server's stream are a prefix of those written to the
    client's, before 65536 packets are sent. The network may lose, repeat, delay or
    reorder datagrams or bring others from other addresses (what arrives with the
    address of one of the hosts was sent by it), and the two hosts may do anything,
    with one exception, which the code does not exclude: the identifiers of the
    connection are its own. Until then the client has no
    other stream that sends to the server under [id + 1], and the server's
    streams that send to the client under [id] come from an [accept]
    ([opening_up]); from then on no other stream of the client sends to the
    server under [id + 1], and no other of the server to the client under [id]
    ([two_way_moves]). StaleStream.v shows a run that violates this, and what it
    leads to. *)
Theorem opened_up first P0 P P' ra rb c sa sb :
  just_bound P0 -> rtc opening_up P0 P -> opening_up P P' ->
  h_owners (p_client P) !! ra = Some (Awaiting c) ->
  co_id_recv c = id -> co_remote_addr c = addr_s ->
  h_owners (p_client P') !! ra = Some (Streaming sa) ->
  h_owners (p_server P') !! rb = Some (Streaming sb) -> sends_as id addr_c sb ->
  two_way_start addr_c addr_s ra rb first cid id sa sb (up P') /\
  forall W, rtc (two_way_moves clock_c clock_s addr_c addr_s ra rb first cid id) (up P') W ->
    Z.of_nat (length (w_sent (tw_world W))) < 2 ^ 16 ->
    w_read (tw_world W) `prefix_of` w_written (tw_world W).
Proof.
  intros H0 Hr Ho Hc Hid Hrm Hsa Hsb Hk.
  pose proof (opening_up_run _ _ Hr (just_bound_up _ H0)) as Hb.
  pose proof (up_start first _ _ _ _ _ _ _ Hb Ho Hc Hid Hrm Hsa Hsb Hk) as Hstart.
  split; [done|]. intros W. by apply two_way_safe with (sa := sa) (sb := sb).
Qed.

(** C2. From two hosts just bound to a transfer by the side that accepted: when an
    [accept] of the server makes its end while the client's [connect] waits, the
    two start as TwoWay.v assumes; so from then on the bytes read from the
    client's stream are a prefix of those written to the server's, before 65536
    packets are sent. This supposes that the client takes the answer of that
    [accept], and not a later packet, for the answer to its SYN packet
    ([answered]; LateAnswer.v has a run in which it does not), and that the
    identifiers of the connection are its own, at both hosts, before
    ([opening_down]) and after ([two_way_moves]). *)
Theorem opened_down P0 P P' ra rb c sa :
  just_bound P0 -> rtc opening_down P0 P -> opening_down P P' ->
  h_owners (p_client P') !! ra = Some (Awaiting c) ->
  co_id_recv c = id -> co_remote_addr c = addr_s ->
  h_owners (p_server P) !! rb = None ->
  h_owners (p_server P') !! rb = Some (Streaming sa) -> sends_as id addr_c sa ->
  let first := wrapping_sub16 (st_seq_number sa) 1 in
  two_way_start addr_s addr_c rb ra first id cid sa (client_end c first) (down P') /\
  forall W, rtc (two_way_moves clock_s clock_c addr_s addr_c rb ra first id cid) (down P') W ->
    Z.of_nat (length (w_sent (tw_world W))) < 2 ^ 16 ->
    w_read (tw_world W) `prefix_of` w_written (tw_world W).
Proof.
  intros H0 Hr Ho Hc Hid Hrm Hno Hsa Hk first.
  pose proof (opening_down_run _ _ Hr (just_bound_down _ H0)) as Hb.
  pose proof (down_start _ _ _ _ _ _ Hb Ho Hc Hid Hrm Hno Hsa Hk) as Hstart.
  split; [done|]. intros W. by eapply two_way_safe.
Qed.
End opening.

(** ** Playing a run *)

Section play.
Variables clock_c clock_s : nat -> SystemTime.
Variables addr_c addr_s : SocketAddr.

Definition pair_turn (t : Turn) (P : Pair) : option Pair :=
  '(at_client, a) ← turn_action addr_c addr_s (p_out P) (p_back P) t;
  if (at_client : bool) then
    '(l, c') ← perform clock_c a (p_client P); Some (client_moved addr_s P l c')
  else
    '(l, s') ← perform clock_s a (p_server P); Some (server_moved addr_c P l s').

Lemma pair_turn_step t P P' : pair_turn t P = Some P' ->
  pair_step clock_c clock_s addr_c addr_s P P'.
Proof.
  intros ([at_c a] & Hact & Ht)%bind_Some. pose proof (turn_action_brings _ _ _ _ _ _ _ Hact).
  destruct at_c; apply bind_Some in Ht as ([l h'] & Hp & [= <-]).
  - apply client_moves. by eapply perform_step.
  - apply server_moves. by eapply perform_step.
Qed.

(** The conditions on the streams, decided. *)
Definition quiet (i : Z) (peer : SocketAddr) : Host -> bool :=
  all_streams (fun _ st => bool_decide (~ sends_as i peer st)).
Definition accepting (id : Z) : Host -> bool :=
  all_streams (fun _ st => bool_decide
    (sends_as id addr_c st -> connection_id_recv st = wrapping_add16 id 1)).

Definition up_allowed (id : Z) (P P' : Pair) : bool :=
  quiet (wrapping_add16 id 1) addr_s (p_client P) && accepting id (p_server P').
Definition down_allowed (id : Z) (P P' : Pair) : bool :=
  quiet id addr_c (p_server P) && quiet (wrapping_add16 id 1) addr_s (p_client P').

Lemma quiet_none i peer h : quiet i peer h = true -> none_sends i peer h.
Proof. intros Hq rx st Ho. by apply (all_streams_elim _ _ _ _ Hq), bool_decide_eq_true in Ho. Qed.

Lemma up_turn id t P P' : pair_turn t P = Some P' -> up_allowed id P P' = true ->
  opening_up clock_c clock_s addr_c addr_s id P P'.
Proof.
  intros Ht [Hq Ha]%andb_true_iff. split_and!; [by apply quiet_none| |by eapply pair_turn_step].
  intros rx st Ho. by apply (all_streams_elim _ _ _ _ Ha), bool_decide_eq_true in Ho.
Qed.

Lemma down_turn id t P P' : pair_turn t P = Some P' -> down_allowed id P P' = true ->
  opening_down clock_c clock_s addr_c addr_s id P P'.
Proof.
  intros Ht [Hq Ha]%andb_true_iff.
  split_and!; [by apply quiet_none..|by eapply pair_turn_step].
Qed.
End play.

(** ** Witnesses

    [sample_peer] connects to [sample_addr]: the SYN packet crosses, the server
    accepts with the number 500, its answer crosses, and the [connect] ends. *)

Definition fresh_host (local : SocketAddr) : Host :=
  mkHost (mkUtpSocket true true local dm_new (unbounded_channel _) (unbounded_channel _) ∅ 0%nat)
    1 ∅ (Some (mkPacketSender local [])) (Some (mkPacketReceiver local)).
Definition sample_pair : Pair := mkPair (fresh_host sample_peer) (fresh_host sample_addr) [] [].

Lemma sample_just_bound : just_bound sample_pair.
Proof. by eexists (Ok (Ok sample_peer)), (Ok (Ok sample_addr)), _, _. Qed.

Definition pair_sample_turn : Turn -> Pair -> option Pair :=
  pair_turn sample_clock sample_clock sample_peer sample_addr.
Definition up_sample_allowed : Pair -> Pair -> bool := up_allowed sample_peer sample_addr 77.
Definition down_sample_allowed : Pair -> Pair -> bool := down_allowed sample_peer sample_addr 77.

Definition syn_crosses : list Turn :=
  [AtFirst (Connects sample_addr 77); AtFirst Sends; ToSecond 0%nat].
Definition answer_crosses : list Turn :=
  syn_crosses ++ [AtSecond (Accepts 500); AtSecond Sends; ToFirst 0%nat].

Definition offered : Pair := played pair_sample_turn down_sample_allowed syn_crosses sample_pair.
Definition taken : Pair :=
  default offered (pair_sample_turn (AtSecond (Accepts 500)) offered).
Definition answered_pair : Pair :=
  played pair_sample_turn up_sample_allowed answer_crosses sample_pair.
Definition joined : Pair :=
  default answered_pair (pair_sample_turn (AtFirst (Completes 0%nat)) answered_pair).

(** The ends of the connection. *)
Definition sample_connecting : Connecting := mkConnecting 77 78 sample_addr 0%nat 2.
Definition sample_client_end : UtpStream :=
  connected sample_connecting (syn_ack_for (syn_for 77) 500).
Definition sample_server_end : UtpStream := accepted (syn_for 77) sample_peer 0%nat 500.

(** The number of the answer. *)
Definition sample_first : Z := wrapping_sub16 (st_seq_number sample_server_end) 1.

Lemma offered_run :
  rtc (opening_down sample_clock sample_clock sample_peer sample_addr 77) sample_pair offered.
Proof. apply played_run; [intros t P1 P2; apply down_turn|]. by vm_compute. Qed.

Lemma taken_step :
  opening_down sample_clock sample_clock sample_peer sample_addr 77 offered taken.
Proof.
  apply (down_turn _ _ _ _ 77 (AtSecond (Accepts 500))); [|by vm_compute].
  exact (default_Some offered (pair_sample_turn (AtSecond (Accepts 500)) offered)
    ltac:(by vm_compute)).
Qed.

Lemma answered_run :
  rtc (opening_up sample_clock sample_clock sample_peer sample_addr 77) sample_pair answered_pair.
Proof. apply played_run; [intros t P1 P2; apply up_turn|]. by vm_compute. Qed.

Lemma joined_step :
  opening_up sample_clock sample_clock sample_peer sample_addr 77 answered_pair joined.
Proof.
  apply (up_turn _ _ _ _ 77 (AtFirst (Completes 0%nat))); [|by vm_compute].
  exact (default_Some answered_pair (pair_sample_turn (AtFirst (Completes 0%nat)) answered_pair)
    ltac:(by vm_compute)).
Qed.

(** Then the client writes three bytes, and the server reads them. *)
Definition data_crosses : list Turn :=
  [AtFirst (Writes 0%nat [1; 2; 3]); AtFirst Sends; ToSecond 1%nat;
   AtSecond (Reads 0%nat 3%nat)].
Definition sample_up : TwoWay :=
  played (two_way_turn sample_clock sample_clock sample_peer sample_addr 0%nat 0%nat)
    (two_way_allowed sample_peer sample_addr 0%nat 0%nat 500 (wrapping_add16 77 1) 77) data_crosses (up joined).

Lemma sample_up_run : rtc (two_way_moves sample_clock sample_clock sample_peer sample_addr
  0%nat 0%nat 500 (wrapping_add16 77 1) 77) (up joined) sample_up.
Proof. apply played_run; [intros t W1 W2; apply two_way_turn_moves|]. by vm_compute. Qed.

Lemma sample_up_facts : length (w_sent (tw_world sample_up)) = 1%nat /\
  w_written (tw_world sample_up) = [1; 2; 3] /\ w_read (tw_world sample_up) = [1; 2; 3].
Proof. split_and!; by vm_compute. Qed.

Lemma opened_up_witness :
  w_read (tw_world sample_up) `prefix_of` w_written (tw_world sample_up) /\
  length (w_read (tw_world sample_up)) = 3%nat.
Proof.
  destruct sample_up_facts as (Hl & Hw & Hr). split; [|by rewrite Hr].
  refine (proj2 (opened_up sample_clock sample_clock sample_peer sample_addr 77 500 sample_pair
    answered_pair joined 0%nat 0%nat sample_connecting sample_client_end sample_server_end
    sample_just_bound answered_run joined_step _ eq_refl eq_refl _ _ _) _ sample_up_run _).
  - by vm_compute.
  - by vm_compute.
  - by vm_compute.
  - by split.
  - by rewrite Hl.
Defined.

(** The other way: the answer crosses, the client takes it, and reads what the
    server wrote after it. *)
Definition answer_data_crosses : list Turn :=
  [AtFirst Sends; ToSecond 0%nat; AtSecond (Completes 0%nat);
   AtFirst (Writes 0%nat [4; 5]); AtFirst Sends; ToSecond 1%nat; AtSecond (Reads 0%nat 3%nat)].
Definition sample_down : TwoWay :=
  played (two_way_turn sample_clock sample_clock sample_addr sample_peer 0%nat 0%nat)
    (two_way_allowed sample_addr sample_peer 0%nat 0%nat sample_first 77 (wrapping_add16 77 1)) answer_data_crosses
    (down taken).

Lemma sample_down_run : rtc (two_way_moves sample_clock sample_clock sample_addr sample_peer
  0%nat 0%nat sample_first 77 (wrapping_add16 77 1)) (down taken) sample_down.
Proof. apply played_run; [intros t W1 W2; apply two_way_turn_moves|]. by vm_compute. Qed.

Lemma sample_down_facts : length (w_sent (tw_world sample_down)) = 1%nat /\
  w_written (tw_world sample_down) = [4; 5] /\ w_read (tw_world sample_down) = [4; 5].
Proof. split_and!; by vm_compute. Qed.

Lemma opened_down_witness :
  w_read (tw_world sample_down) `prefix_of` w_written (tw_world sample_down) /\
  length (w_read (tw_world sample_down)) = 2%nat.
Proof.
  destruct sample_down_facts as (Hl & Hw & Hr). split; [|by rewrite Hr].
  refine (proj2 (opened_down sample_clock sample_clock sample_peer sample_addr 77 sample_pair
    offered taken 0%nat 0%nat sample_connecting sample_server_end
    sample_just_bound offered_run taken_step _ eq_refl eq_refl _ _ _) _ sample_down_run _).
  - by vm_compute.
  - by vm_compute.
  - by vm_compute.
  - by split.
  - by rewrite Hl.
Defined.
