(* ===== verification/LateAnswer.v ===== *)
(** * A late answer (src/src/stream.rs)

    [UtpStream::connect] takes the first [State] packet of its connection as the
    answer to its SYN packet, and expects the data to begin after its number. When
    the answer of [accept] is lost or overtaken by an acknowledgement, which
    carries the number of the first data packet, the connecting side never waits
    for that packet: what it reads is not what was written. This is why World.v,
    TwoWay.v and Opening.v speak of a [connect] that takes the right answer. *)

From S2P Require Import Prelude Crates CratesRef Errors Time Packet.
From S2P Require Import PacketWire Congestion Socket PacketSender PacketReceiver Stream.
From S2P Require Import StreamFacts StreamRead StreamWrite StreamInvariant Polls.
From S2P Require Import Listener Handshake Host Boxes HostState HostEffect Transfer.
From S2P Require Import Acks Runs World TwoWay Opening.

(** ** Definitions *)

(** The steps of [two_way_moves], whatever answer the [connect] takes. *)
Definition any_answer_moves (clock_a clock_b : nat -> SystemTime) (addr_a addr_b : SocketAddr)
    (ra rb : ChanId) (cid cid' : Z) (W W' : TwoWay) : Prop :=
  only_stream addr_b ra cid (tw_world W) /\ only_answers addr_a rb cid' (tw_world W') /\
  two_way_step clock_a clock_b addr_a addr_b ra rb W W'.

Definition any_answer_allowed (addr_a addr_b : SocketAddr) (ra rb : ChanId) (cid cid' : Z)
    (W W' : TwoWay) : bool :=
  only_sends cid addr_b ra (w_a (tw_world W)) &&
  only_sends cid' addr_a rb (w_b (tw_world W')).

(** After the SYN packet of [offered] the server accepts, and polls its stream
    for data before anything arrives, which queues an acknowledgement. Only that
    arrives at the client, whose [connect] ends; the server writes twice, and
    both packets arrive. *)
Definition late_answer : list Turn :=
  [AtFirst (Reads 0%nat 3%nat); AtFirst Sends; ToSecond 1%nat; AtSecond (Completes 0%nat);
   AtFirst (Writes 0%nat [1]); AtFirst (Writes 0%nat [2]); AtFirst Sends;
   ToSecond 2%nat; ToSecond 3%nat; AtSecond (Reads 0%nat 3%nat)].

Definition late_end : TwoWay :=
  played (two_way_turn sample_clock sample_clock sample_addr sample_peer 0%nat 0%nat)
    (any_answer_allowed sample_addr sample_peer 0%nat 0%nat 77 78) late_answer (down taken).

(** ** Helper lemmas *)

Lemma any_answer_turn t W W' :
  two_way_turn sample_clock sample_clock sample_addr sample_peer 0%nat 0%nat t W = Some W' ->
  any_answer_allowed sample_addr sample_peer 0%nat 0%nat 77 78 W W' = true ->
  any_answer_moves sample_clock sample_clock sample_addr sample_peer 0%nat 0%nat 77 78 W W'.
Proof.
  intros Ht [Ha Hb]%andb_true_iff.
  split_and!; [intros ? ?; by eapply only_sends_elim|intros ? ?; by eapply only_sends_elim|].
  by eapply two_way_turn_step.
Qed.

(** ** Properties *)

(** C33. A [connect] that takes a later acknowledgement for the answer loses data.
    There is a run of two hosts just bound in which the answer to the SYN packet
    is lost, an acknowledgement of the accepting stream ends the [connect], the
    bytes 1 and 2 are written to that stream, and the connecting side reads 2
    alone. *)
Theorem late_answer_loses_data : exists P P' W,
  just_bound P /\
  rtc (opening_down sample_clock sample_clock sample_peer sample_addr 77) P P' /\
  rtc (any_answer_moves sample_clock sample_clock sample_addr sample_peer 0%nat 0%nat 77 78)
    (down P') W /\
  w_written (tw_world W) = [1; 2] /\ w_read (tw_world W) = [2].
Proof.
  exists sample_pair, taken, late_end. split_and!.
  - exact sample_just_bound.
  - eapply rtc_r; [exact offered_run|exact taken_step].
  - apply played_run; [apply any_answer_turn|]. by vm_compute.
  - by vm_compute.
  - by vm_compute.
Qed.
