(* ===== verification/StaleStream.v ===== *)
(** * A stale stream (src/src/socket.rs, src/src/listener.rs)

    [register_connection] and [insert_connection] look at the identifiers a socket
    receives under, and nobody at those it sends under. A host can so have two
    streams that send to the same peer under one identifier: one it accepted, which
    the peer has dropped since, and one it connected later. The packets of the
    first go to the peer's end of the second. This is why World.v, TwoWay.v and
    Opening.v suppose that the identifiers of a connection are its own. *)

From S2P Require Import Prelude Crates CratesRef Errors Time Packet.
From S2P Require Import PacketWire Congestion Socket PacketSender PacketReceiver Stream.
From S2P Require Import StreamFacts StreamRead StreamWrite StreamInvariant Polls.
From S2P Require Import Listener Handshake Host Boxes HostState HostEffect Transfer.
From S2P Require Import Acks Runs World TwoWay Opening.

(** ** Definitions *)

(** The steps of [two_way_moves], whatever other streams of A there are. *)
Definition any_stream_moves (clock_a clock_b : nat -> SystemTime) (addr_a addr_b : SocketAddr)
    (ra rb : ChanId) (first cid' : Z) (W W' : TwoWay) : Prop :=
  only_answers addr_a rb cid' (tw_world W') /\
  answered rb first (tw_world W) (tw_world W') /\
  two_way_step clock_a clock_b addr_a addr_b ra rb W W'.

Definition any_stream_allowed (addr_a : SocketAddr) (rb : ChanId) (first cid' : Z)
    (W W' : TwoWay) : bool :=
  only_sends cid' addr_a rb (w_b (tw_world W')) && is_answered rb first (tw_world W) (tw_world W').

(** The server connects to the client under 78 and drops its stream; a read of
    the client's stream, which sends an acknowledgement, makes the server forget
    the route. *)
Definition grows_stale : list Turn :=
  [AtSecond (Connects sample_peer 78); AtSecond Sends; ToFirst 0%nat; AtFirst (Accepts 1);
   AtFirst Sends; ToSecond 0%nat; AtSecond (Completes 0%nat); AtSecond (Drops 0%nat);
   AtFirst (Reads 0%nat 3%nat); AtFirst Sends; ToSecond 1%nat].

(** Then the client connects to the server, under 77 and so to send under 78. *)
Definition connects_again : list Turn :=
  [AtFirst (Connects sample_addr 77); AtFirst Sends; ToSecond 2%nat; AtSecond (Accepts 500);
   AtSecond Sends; ToFirst 1%nat; AtFirst (Completes 1%nat)].

Definition reconnected : Pair :=
  played pair_sample_turn (fun _ _ => true) (grows_stale ++ connects_again) sample_pair.

(** The two ends of the new connection. *)
Definition new_client_end : UtpStream :=
  connected (mkConnecting 77 78 sample_addr 1%nat 2) (syn_ack_for (syn_for 77) 500).
Definition new_server_end : UtpStream := accepted (syn_for 77) sample_peer 1%nat 500.

(** The client's old stream writes a byte, which crosses, and the server reads
    from the new connection. *)
Definition stale_write : list Turn :=
  [AtFirst (Writes 0%nat [7]); AtFirst Sends; ToSecond 3%nat; AtSecond (Reads 1%nat 3%nat)].

Definition stale_end : TwoWay :=
  played (two_way_turn sample_clock sample_clock sample_peer sample_addr 1%nat 1%nat)
    (any_stream_allowed sample_peer 1%nat 500 77) stale_write (up reconnected).

(** ** Helper lemmas *)

Lemma any_stream_turn t W W' :
  two_way_turn sample_clock sample_clock sample_peer sample_addr 1%nat 1%nat t W = Some W' ->
  any_stream_allowed sample_peer 1%nat 500 77 W W' = true ->
  any_stream_moves sample_clock sample_clock sample_peer sample_addr 1%nat 1%nat 500 77 W W'.
Proof.
  intros Ht [Hb Hans]%andb_true_iff.
  split_and!; [intros ? ?; by eapply only_sends_elim|by apply is_answered_elim|].
  by eapply two_way_turn_step.
Qed.

Lemma pair_run_ok P P' : rtc (pair_step sample_clock sample_clock sample_peer sample_addr) P P' ->
  host_ok (p_client P) -> host_ok (p_server P) -> host_ok (p_client P') /\ host_ok (p_server P').
Proof.
  induction 1 as [|P1 P2 P3 Hs _ IH]; [done|]. intros Hc Hv.
  destruct Hs as [l c' Hs|l s' Hs]; (apply IH; [|]); cbn; try done; by eapply host_step_ok.
Qed.

(** All the packets in the network satisfy [f]. *)
Definition net_all (f : Packet -> bool) (net : list bytes) : bool :=
  forallb (fun bs => match Packet_try_from bs with Done (Ok p) => f p | _ => true end) net.

Lemma net_all_elim f net bs p : net_all f net = true -> bs ∈ net ->
  Packet_try_from bs = Done (Ok p) -> f p = true.
Proof.
  unfold net_all. rewrite forallb_forall. intros Hf Hbs%list_elem_of_In Hp.
  specialize (Hf bs Hbs). by rewrite Hp in Hf.
Qed.

(** No packet waits at [h] for its sender task. *)
Definition idle (h : Host) : bool :=
  match h_sender h with
  | Some task => is_empty (backlog task (h_socket h))
  | None => true
  end.

Lemma idle_elim h task : idle h = true -> h_sender h = Some task ->
  backlog task (h_socket h) = [].
Proof. unfold idle. intros Hi Ht. rewrite Ht in Hi. by apply is_empty_nil. Qed.

Lemma reconnected_run :
  rtc (pair_step sample_clock sample_clock sample_peer sample_addr) sample_pair reconnected.
Proof. apply played_run; [intros t P1 P2 Ht _; by eapply pair_turn_step|]. by vm_compute. Qed.

(** The second connection starts as TwoWay.v assumes. *)
Lemma reconnected_start :
  two_way_start sample_peer sample_addr 1%nat 1%nat 500 78 77 new_client_end new_server_end
    (up reconnected).
Proof.
  destruct (pair_run_ok _ _ reconnected_run) as [Hc Hs];
    [by eapply (host_new_ok (Ok (Ok sample_peer)))|by eapply (host_new_ok (Ok (Ok sample_addr)))|].
  assert (Hic : idle (p_client reconnected) = true) by by vm_compute.
  assert (His : idle (p_server reconnected) = true) by by vm_compute.
  split; [split|split; reflexivity|reflexivity|split]; cbn [tw_world up w_a w_b w_net w_sent w_written w_read tw_back].
  - exact Hc.
  - exact Hs.
  - by vm_compute.
  - exists (Streaming new_server_end). split; [by vm_compute|reflexivity].
  - split; reflexivity.
  - split; reflexivity.
  - reflexivity.
  - split; reflexivity.
  - split_and!; reflexivity.
  - intros task Ht. by rewrite (idle_elim _ _ Hic Ht).
  - intros bs p Hbs Hp Hd.
    assert (Hf : net_all (fun p => bool_decide (~ data_for 78 p)) (p_out reconnected) = true)
      by by vm_compute.
    by apply (bool_decide_unpack _ (Is_true_true_2 _ (net_all_elim _ _ _ _ Hf Hbs Hp))).
  - by vm_compute.
  - intros task Ht. by rewrite (idle_elim _ _ His Ht).
  - intros bs p Hbs Hp.
    assert (Hf : net_all (fun p => bool_decide (acks_one 77 [1] p)) (p_back reconnected) = true)
      by by vm_compute.
    by apply (bool_decide_unpack _ (Is_true_true_2 _ (net_all_elim _ _ _ _ Hf Hbs Hp))).
  - intros q p Hv.
    assert (Hq : conn_view (h_socket (p_client reconnected)) (77, sample_addr) = Some (true, []))
      by by vm_compute.
    rewrite Hq in Hv. injection Hv as <-. intros Hp%elem_of_nil. destruct Hp.
Qed.

(** ** Properties *)

(** C34. A stream receives the data of another connection. There is a run of two
    hosts just bound in which the server connects to the client and drops its
    stream, and then the client connects to the server, so that the two ends of
    this second connection start as TwoWay.v assumes; nothing is written to the
    client's end of it, but the client's end of the first connection, which nobody
    told that it is over, writes the byte 7, and the server reads it from the
    second connection. The run keeps all the conditions of TwoWay.v except that
    the client has no other stream that sends to the server under the identifier
    of the connection: without that one the transfer is not safe. *)
Theorem stale_stream_injects_data : exists P P' W,
  just_bound P /\
  rtc (pair_step sample_clock sample_clock sample_peer sample_addr) P P' /\
  two_way_start sample_peer sample_addr 1%nat 1%nat 500 78 77 new_client_end new_server_end
    (up P') /\
  rtc (any_stream_moves sample_clock sample_clock sample_peer sample_addr 1%nat 1%nat 500 77)
    (up P') W /\
  w_written (tw_world W) = [] /\ w_read (tw_world W) = [7].
Proof.
  exists sample_pair, reconnected, stale_end. split_and!.
  - exact sample_just_bound.
  - exact reconnected_run.
  - exact reconnected_start.
  - apply played_run; [apply any_stream_turn|]. by vm_compute.
  - by vm_compute.
  - by vm_compute.
Qed.
