(* ===== verification/Loss.v ===== *)
(** * A lost packet (src/src/stream.rs)

    A data packet is queued once, by the [poll_write] that makes it, and nothing
    sends it again: the bytes kept in [unacked_data] are only ever dropped. So
    when the network loses a data packet of a connection, in the world of
    TwoWay.v, the reader stops before it, and no flush succeeds, until the numbers
    come round. *)

From S2P Require Import Prelude Crates CratesRef Errors Time Packet.
From S2P Require Import PacketWire Congestion Socket PacketSender PacketReceiver Stream.
From S2P Require Import StreamFacts StreamRead StreamWrite StreamInvariant Polls.
From S2P Require Import Listener Handshake Host Boxes HostState HostEffect Transfer.
From S2P Require Import Acks Runs World TwoWay.

(** ** Definitions *)

Section loss.
Context `{By : BytesCrate, Rb : ReadBufCrate, Mp : MpscCrate, Dm : DashMapCrate}.
Variables clock_a clock_b : nat -> SystemTime.
Variables addr_a addr_b : SocketAddr.
Variables ra rb : ChanId.
Variable first : Z.

(** What arrives at B when no data packet [lost] of the connection does. *)
Definition lets_through (cid lost : Z) (net : list bytes) (bs : bytes) (from : SocketAddr)
    : Prop :=
  from_net addr_a net bs from /\
  (from = addr_a -> forall p, Packet_try_from bs = Done (Ok p) -> data_for cid p ->
    seq_number p <> lost).

Inductive lossy_step (cid lost : Z) (W : TwoWay) : TwoWay -> Prop :=
  | lossy_a l a' :
      host_step clock_a (from_net addr_b (tw_back W)) (w_a (tw_world W)) l a' ->
      lossy_step cid lost W (mkTwoWay (a_moved addr_b ra (tw_world W) l a') (tw_back W))
  | lossy_b l b' :
      host_step clock_b (lets_through cid lost (w_net (tw_world W))) (w_b (tw_world W)) l b' ->
      lossy_step cid lost W (mkTwoWay (b_moved rb (tw_world W) l b')
        (tw_back W ++ to_peer addr_a (l_emitted l))).

Definition lossy_moves (cid cid' lost : Z) (W W' : TwoWay) : Prop :=
  only_stream addr_b ra cid (tw_world W) /\ only_answers addr_a rb cid' (tw_world W') /\
  answered rb first (tw_world W) (tw_world W') /\ lossy_step cid lost W W'.

(** No packet that waits in the mailbox of the connection is the lost one. *)
Definition never_arrived (cid lost : Z) (w : World) : Prop :=
  forall q p, conn_view (h_socket (w_b w)) (cid, addr_a) = Some (true, q) ->
    p ∈ q -> data_for cid p -> seq_number p <> lost.

(** The receiver is before the [i]-th packet, of which it has nothing. *)
Definition stuck (n : Z) (i : nat) (t : Transfer) : Prop :=
  u16 (st_seq_number (t_receiver t)) /\
  inbound_data (t_receiver t) !! seq_at n i = None /\
  exists k, (k <= i)%nat /\ transfer_ok n t k.

(** ** Helper lemmas *)

Lemma buffer_data_none ack m ps q : m !! q = None ->
  Forall (fun p => packet_type p = Data -> seq_number p <> q) ps ->
  buffer_data ack m ps !! q = None.
Proof.
  intros Hm Hps. revert m Hm. induction Hps as [|p ps Hp _ IH]; intros m Hm; [done|].
  rewrite buffer_data_cons. destruct (keeps ack p) eqn:Hk; [|by apply IH].
  apply IH. rewrite lookup_insert_ne; [done|]. by apply Hp, keeps_Data with (ack := ack).
Qed.

(** A run does not get past a number that the buffer does not have. *)
Lemma run_stops m n k rs m' i : run m (seq_at n k) rs m' -> (k <= i)%nat ->
  m !! seq_at n i = None -> (k + length rs <= i)%nat /\ m' !! seq_at n i = None.
Proof.
  intros Hr Hk Hm. pose proof (seq_at_u16 n k) as Hu. split.
  - destruct (decide (k + length rs <= i)%nat) as [|Hlt]; [done|exfalso].
    destruct (lookup_lt_is_Some_2 rs (i - k)) as [d Hd]; [lia|].
    pose proof (run_lookup _ _ _ _ _ _ Hr Hd Hu) as Hl.
    replace (seq_at (seq_at n k) (i - k)) with (seq_at n i) in Hl; [congruence|].
    unfold seq_at. rewrite wrapping_add16_assoc. f_equal. lia.
  - destruct (m' !! seq_at n i) as [d|] eqn:Hd; [|done].
    apply (run_rest _ _ _ _ _ _ Hr Hu) in Hd as [Hd _]. congruence.
Qed.

Lemma receiver_moved_fields t ev st' :
  t_receiver (receiver_moved t ev st') = st' /\ t_sent (receiver_moved t ev st') = t_sent t.
Proof. by destruct ev. Qed.

(** A poll of the receiver without the lost packet in its mailbox. *)
Lemma stuck_poll n i t s ev st' : stuck n i t -> Z.of_nat (length (t_sent t)) < 2 ^ 16 ->
  from_network (t_sent t) (t_receiver t) (mkEnv s 0) ->
  Forall (fun p => packet_type p = Data -> seq_number p <> seq_at n i)
    (mailbox s (inbound_packets (t_receiver t))) ->
  stream_poll clock_b s (t_receiver t) ev st' -> stuck n i (receiver_moved t ev st').
Proof.
  intros (Hu & Hnone & k & Hk & Hok) Hl Hnet Hbox Hp.
  assert (Hau : u16 (st_ack_number (t_receiver t)))
    by (rewrite (to_ack _ _ _ Hok); apply wrapping_sub16_u16).
  pose proof (from_network_genuine n t k _ _ Hok Hnet) as Hg. cbn [env_socket] in Hg.
  assert (Hkeep : forall popped rest, mailbox s (inbound_packets (t_receiver t)) = popped ++ rest ->
    st_ack_number st' = st_ack_number (t_receiver t) ->
    received_data st' = received_data (t_receiver t) ->
    inbound_data st' = buffer_data (st_ack_number (t_receiver t))
      (inbound_data (t_receiver t)) popped ->
    u16 (st_seq_number st') -> stuck n i (mkTransfer (t_sender t) (t_sent t) st' (t_delivered t))).
  { intros popped rest Hm Ha Hd Hi Hu'. rewrite Hm in Hbox, Hg.
    apply Forall_app in Hbox as [Hbox _]. apply Forall_app in Hg as [Hg _].
    split_and!; [done|cbn; rewrite Hi; by apply buffer_data_none|].
    exists k. split; [done|]. apply transfer_ok_receiver; try done. rewrite Hi.
    apply buffer_data_genuine; [apply Hok|done|by rewrite length_payloads]. }
  destruct ev as [chunk|acc packets|].
  - destruct Hp as (fuel & j & buf & r & e' & buf' & Hr & Hf).
    apply poll_read_Done in Hr as (popped & rs & chunk2 & Hm & Hs & Hrun & Ha & Hb & Hf2);
      [|done].
    rewrite Hf in Hf2. apply app_inv_head in Hf2 as ->. cbn [env_socket] in Hm.
    rewrite Hm in Hbox, Hg.
    apply Forall_app in Hbox as [Hbox _]. apply Forall_app in Hg as [Hg _].
    pose proof (buffer_data_none (st_ack_number (t_receiver t)) _ _ _ Hnone Hbox) as Hnone2.
    assert ((k + length rs <= i)%nat /\ inbound_data st' !! seq_at n i = None) as [Hle Hnone3].
    { destruct Hrun as [Hrun|[-> Hi]]; [|cbn; by rewrite Hi, Nat.add_0_r].
      assert (Hnext : wrapping_add16 (st_ack_number (t_receiver t)) 1 = seq_at n k).
      { rewrite (to_ack _ _ _ Hok). by apply wrapping_add16_sub16, seq_at_u16. }
      rewrite Hnext in Hrun. by eapply run_stops. }
    split_and!; [cbn; by rewrite Hs|done|]. exists (k + length rs)%nat. split; [done|].
    apply transfer_ok_receive with (popped := popped); try done. cbn.
    by rewrite <- (assoc_L (++)), <- Hb.
  - destruct Hp as (j & buf & r & e' & Hr & _).
    apply poll_write_Done in Hr as (out & _ & [Hs _ Ha Hi Hd _]); [|done].
    unfold receiver_moved. rewrite app_nil_r. apply (Hkeep [] (mailbox s (inbound_packets (t_receiver t)))); try done.
    rewrite Hs. apply seq_at_u16.
  - destruct Hp as (fuel & j & r & e' & [Hr%poll_flush_Done|Hr%poll_shutdown_Done]);
      destruct Hr as (popped & Hm & Hs & Ha & Hi & Hd);
      unfold receiver_moved; rewrite app_nil_r; apply (Hkeep popped _ Hm); by rewrite ?Hs.
Qed.

(** The world and the exchange it simulates, before the [i]-th packet. *)
Definition stalls (cid cid' n : Z) (i : nat) (W : TwoWay) (x : Exchange) : Prop :=
  two_way_simulates addr_a addr_b ra rb first cid cid' W x /\
  never_arrived cid (seq_at n i) (tw_world W) /\ stuck n i (x_transfer x).

(** What waits for the receiver is not the lost packet. *)
Lemma stuck_mailbox cid n i w t : simulates addr_a addr_b ra rb first cid w t ->
  never_arrived cid (seq_at n i) w ->
  h_owners (w_b w) !! rb = Some (Streaming (t_receiver t)) ->
  Forall (fun p => packet_type p = Data -> seq_number p <> seq_at n i)
    (mailbox (h_socket (w_b w)) (inbound_packets (t_receiver t))).
Proof.
  intros [_ Hb _ (_ & Hk & _) _ _ _ _ _ _] Hna Ho. unfold recv_key in Hk.
  destruct (ok_owners _ Hb _ _ Ho) as (-> & _).
  pose proof (owner_view _ _ _ Hb Ho) as Hv. unfold owner_key in Hv. rewrite Hk in Hv.
  destruct (owner_box _ _ _ Hb Ho) as (_ & _ & _ & _ & _ & Hdel).
  apply Forall_forall. intros p Hp Hd. apply (Hna _ _ Hv Hp). split; [done|].
  rewrite Forall_forall in Hdel. destruct (Hdel p Hp) as [_ _ Hid]. rewrite Hid. cbn. congruence.
Qed.

(** No two packets sent have the same number. *)
Lemma sent_numbers_differ n t k : transfer_ok n t k -> Z.of_nat (length (t_sent t)) < 2 ^ 16 ->
  NoDup (seq_number <$> t_sent t).
Proof.
  intros Hok Hl. apply NoDup_alt. intros j1 j2 q Hj1 Hj2.
  rewrite list_lookup_fmap in Hj1, Hj2.
  apply fmap_Some in Hj1 as (p1 & Hp1 & Hq1). apply fmap_Some in Hj2 as (p2 & Hp2 & Hq2).
  pose proof (lookup_lt_Some _ _ _ Hp1). pose proof (lookup_lt_Some _ _ _ Hp2).
  apply (to_sent _ _ _ Hok) in Hp1 as [_ Hn1]. apply (to_sent _ _ _ Hok) in Hp2 as [_ Hn2].
  apply (seq_at_inj n); [lia..|congruence].
Qed.

(** A poll of the sender. *)
Lemma stuck_sender n i t h l st' : stuck n i t ->
  moved clock_a h ra l (t_sender t) st' ->
  Z.of_nat (length (t_sent t ++ sent_by ra l)) < 2 ^ 16 ->
  stuck n i (mkTransfer st' (t_sent t ++ sent_by ra l) (t_receiver t) (t_delivered t)).
Proof.
  intros (Hu & Hnone & k & Hk & Hok) Hm Hl. split_and!; [exact Hu|exact Hnone|].
  exists k. split; [done|]. unfold moved, sent_by in *. destruct (event_of ra l) as [ev|].
  2: { subst st'. rewrite app_nil_r. by destruct t. }
  destruct Hm as [_ Hp].
  pose proof (sender_transfer clock_a clock_b _ _ _ _ Hp) as Ht. unfold sender_moved in Ht.
  destruct (transfer_step_ok _ _ n t k _ Ht Hl Hok Hu) as (_ & k' & _ & Hok').
  rewrite <- (transfer_ok_same clock_a clock_b n t k _ k' Hok Hok') at 1; [done|done| |done].
  rewrite length_app in Hl. lia.
Qed.

Lemma stalls_step cid cid' n i W x W' :
  stalls cid cid' n i W x -> lossy_moves cid cid' (seq_at n i) W W' ->
  Z.of_nat (length (w_sent (tw_world W'))) < 2 ^ 16 ->
  exists x', rtc (exchange_step clock_a clock_b) x x' /\ stalls cid cid' n i W' x'.
Proof.
  intros (Hsim & Hna & Hst) (Honly & Hans & Hansd & Hstep) Hl.
  pose proof (tm_world _ _ _ _ _ _ _ _ _ Hsim) as Hw.
  pose proof (sm_sent _ _ _ _ _ _ _ _ Hw) as Hse.
  destruct Hstep as [l a' Hh|l b' Hh]; cbn [tw_world] in *.
  - destruct (two_way_a clock_a clock_b _ _ _ _ _ _ _ _ _ _ _ Hsim Honly Hh)
      as (st' & Hm & Hx & Hsim').
    eexists. split; [exact Hx|]. split; [exact Hsim'|]. split; [exact Hna|].
    eapply stuck_sender; [exact Hst|exact Hm|]. by rewrite Hse.
  - pose proof (host_step_effect _ _ _ _ _ Hh (sm_b _ _ _ _ _ _ _ _ Hw)) as He.
    apply (host_step_mono clock_b _ (from_net addr_a (w_net (tw_world W)))) in Hh; [|by intros ? ? []].
    destruct (two_way_b clock_a clock_b _ _ _ _ _ _ _ _ _ _ _ Hsim Hans Hansd Hh)
      as (st' & acks & Hm & Hx & Hsim').
    eexists. split; [exact Hx|]. split; [exact Hsim'|]. split; cbn [tw_world x_transfer].
    + intros q p Hv Hp Hd.
      destruct (ef_views _ _ _ _ _ He _ _ _ Hv Hp) as [(q0 & Hv0 & Hp0)|(bs & Harr & Hpk & _)];
        [by eapply Hna|by apply (proj2 Harr eq_refl)].
    + unfold moved, read_by in *. destruct (event_of rb l) as [ev|].
      * destruct Hm as [Ho Hp]. cbn in Hl. rewrite <- Hse in Hl.
        apply (stuck_poll n i _ (h_socket (w_b (tw_world W))) ev st' Hst Hl); [|..|exact Hp].
        -- by eapply tracked_mailbox.
        -- by eapply stuck_mailbox.
      * subst st'. rewrite app_nil_r. by destruct x as [[] ?].
Qed.

Lemma two_way_start_stalls cid cid' sa sb W i :
  two_way_start addr_a addr_b ra rb first cid cid' sa sb W ->
  stalls cid cid' (st_seq_number sa) i W (exchange_of sa sb).
Proof.
  intros H0. pose proof (two_way_start_simulates _ _ _ _ _ _ _ _ _ _ H0) as Hsim.
  pose proof (ts_world _ _ _ _ _ _ _ _ _ _ H0) as Hw0.
  destruct (world_start_transfer _ _ _ _ _ _ _ _ _ Hw0) as [Hstart Hu].
  split; [done|]. split.
  - intros q p Hv Hp Hd.
    pose proof (sm_box _ _ _ _ _ _ _ _ (tm_world _ _ _ _ _ _ _ _ _ Hsim) _ _ Hv Hp Hd) as Hin.
    destruct (wo_nothing _ _ _ _ _ _ _ _ _ Hw0) as (Hs & _). rewrite Hs in Hin.
    by apply elem_of_nil in Hin.
  - split_and!; [exact Hu|cbn; by rewrite (proj1 (wo_empty _ _ _ _ _ _ _ _ _ Hw0))|].
    exists 0%nat. split; [lia|]. by apply (transfer_start_ok (transfer_of sa sb)).
Qed.

Lemma lossy_sent cid cid' lost W W' : lossy_moves cid cid' lost W W' ->
  exists new, w_sent (tw_world W') = w_sent (tw_world W) ++ new.
Proof.
  intros (_ & _ & _ & [l a' _|l b' _]); cbn; [by eexists|]. exists []. by rewrite app_nil_r.
Qed.

Lemma lossy_run cid cid' sa sb W0 W i :
  two_way_start addr_a addr_b ra rb first cid cid' sa sb W0 ->
  rtc (lossy_moves cid cid' (seq_at (st_seq_number sa) i)) W0 W ->
  Z.of_nat (length (w_sent (tw_world W))) < 2 ^ 16 ->
  exists x, rtc (exchange_step clock_a clock_b) (exchange_of sa sb) x /\
    stalls cid cid' (st_seq_number sa) i W x.
Proof.
  intros H0 Hr. revert W Hr. refine (rtc_ind_r _ _ _ _); [|intros W1 W2 _ Hm IH]; intros Hl.
  - eexists. split; [done|]. by eapply two_way_start_stalls.
  - destruct (lossy_sent _ _ _ _ _ Hm) as [new Hnew].
    assert (Hl1 : Z.of_nat (length (w_sent (tw_world W1))) < 2 ^ 16)
      by (rewrite Hnew, length_app in Hl; lia).
    destruct (IH Hl1) as (x & Hx & Hst). destruct (stalls_step _ _ _ _ _ _ _ Hst Hm Hl)
      as (x' & Hx' & Hst'). exists x'. split; [by etrans|done].
Qed.

(** A flush that is ready would mean that the receiver is past every packet. *)
Lemma stalls_flush cid cid' n i W x x0 sta fuel c st' e' : exchange_start x0 ->
  rtc (exchange_step clock_a clock_b) x0 x -> n = st_seq_number (t_sender (x_transfer x0)) ->
  stalls cid cid' n i W x -> 1 <= n ->
  n + Z.of_nat (length (w_sent (tw_world W))) <= 2 ^ 16 ->
  h_owners (w_a (tw_world W)) !! ra = Some (Streaming sta) ->
  poll_flush clock_a fuel sta (mkEnv (h_socket (w_a (tw_world W))) c) =
    Done (Ready (Ok tt), st', e') ->
  (length (w_sent (tw_world W)) <= i)%nat.
Proof.
  intros H0 Hx -> (Hsim & _ & _ & _ & k & Hk & Hok) Hn Hl Ho Hf.
  pose proof (tm_world _ _ _ _ _ _ _ _ _ Hsim) as Hw.
  pose proof (sm_sent _ _ _ _ _ _ _ _ Hw) as Hse. rewrite <- Hse in *.
  destruct (sm_sender _ _ _ _ _ _ _ _ Hw) as (_ & _ & Ha). injection (Ha _ Ho) as ->.
  assert (Hstep : exchange_step clock_a clock_b x
    (mkExchange (sender_moved (x_transfer x) Flushed st') (x_acks x))).
  { eapply sender_polled; [by eapply tracked_acks|]. exists fuel, c, (Ready (Ok tt)), e'. by left. }
  destruct (exchange_reachable_ok clock_a clock_b _ _ H0 (rtc_r _ _ _ Hx Hstep) Hn)
    as (k1 & [Hok1 _ _ (m & Hm & Hun)]); [cbn; by rewrite app_nil_r|].
  cbn [x_transfer] in Hok1, Hun. rewrite sender_moved_payloads in Hun. cbn in Hun.
  rewrite app_nil_r, (poll_flush_empty _ _ _ _ _ _ Hf) in Hun.
  apply (f_equal length) in Hun. rewrite length_drop, length_numbered, length_payloads in Hun.
  pose proof (to_k _ _ _ Hok1) as Hk1. rewrite length_payloads in Hk1. cbn in Hun, Hk1.
  rewrite app_nil_r in Hk1.
  assert (k1 = k) as ->; [|lia].
  apply (transfer_ok_same clock_a clock_b _ _ _ _ _ Hok Hok1); [done|lia|].
  cbn. rewrite app_nil_r. lia.
Qed.

(** ** Properties *)

(** C7. A lost data packet is lost for good: in the world of TwoWay.v, under its
    conditions on identifiers and on the answer a [connect] takes, when the
    [i]-th data packet of the connection never arrives, then as long as fewer than
    65536 packets have been sent the reader does not get past the bytes of the
    [i] packets before it, and no data packet is sent twice, every one having a
    number of its own. Once that packet is sent, a [poll_flush] at A does not
    succeed, as long as the sequence numbers, which start at 1 or later, do not
    wrap around. After the wrap-around an acknowledgement may empty the queue of
    data in flight although the packet was lost. *)
Theorem lost_packet_stalls cid cid' sa sb W0 W i :
  two_way_start addr_a addr_b ra rb first cid cid' sa sb W0 ->
  rtc (lossy_moves cid cid' (seq_at (st_seq_number sa) i)) W0 W ->
  Z.of_nat (length (w_sent (tw_world W))) < 2 ^ 16 ->
  w_read (tw_world W) `prefix_of` concat (take i (data <$> w_sent (tw_world W))) /\
  NoDup (seq_number <$> w_sent (tw_world W)) /\
  ((i < length (w_sent (tw_world W)))%nat -> 1 <= st_seq_number sa ->
   st_seq_number sa + Z.of_nat (length (w_sent (tw_world W))) <= 2 ^ 16 ->
   forall fuel c sta st' e', h_owners (w_a (tw_world W)) !! ra = Some (Streaming sta) ->
     poll_flush clock_a fuel sta (mkEnv (h_socket (w_a (tw_world W))) c) <>
       Done (Ready (Ok tt), st', e')).
Proof.
  intros H0 Hr Hl. destruct (lossy_run _ _ _ _ _ _ _ H0 Hr Hl) as (x & Hx & Hst).
  pose proof Hst as (Hsim & _ & _ & _ & k & Hk & Hok).
  pose proof (tm_world _ _ _ _ _ _ _ _ _ Hsim) as Hw.
  pose proof (sm_sent _ _ _ _ _ _ _ _ Hw) as Hse. split_and!.
  - rewrite <- (sm_read _ _ _ _ _ _ _ _ Hw), <- Hse.
    etrans; [by exists (received_data (t_receiver (x_transfer x))); symmetry;
      apply (to_bytes _ _ _ Hok)|].
    fold (payloads (x_transfer x)). replace i with (k + (i - k))%nat by lia.
    rewrite <- take_take_drop, concat_app. by apply prefix_app_r.
  - rewrite <- Hse in *. by eapply sent_numbers_differ.
  - intros Hi Hn Hwrap fuel c sta st' e' Ho Hf.
    pose proof (two_way_start_exchange _ _ _ _ _ _ _ _ _ _ H0) as Hx0.
    pose proof (stalls_flush _ _ _ _ _ _ _ _ _ _ _ _ Hx0 Hx eq_refl Hst Hn Hwrap Ho Hf). lia.
Qed.
End loss.

(** ** Playing a run *)

(** An action that does not bring the lost packet. *)
Definition goes_through (cid lost : Z) (a : Action) : bool :=
  match a with
  | Receives bs _ =>
      match Packet_try_from bs with
      | Done (Ok p) => bool_decide (data_for cid p -> seq_number p <> lost)
      | _ => true
      end
  | _ => true
  end.

Definition lossy_turn (cid lost : Z) (t : Turn) (W : TwoWay) : option TwoWay :=
  '(at_a, a) ← turn_action sample_addr sample_peer (w_net (tw_world W)) (tw_back W) t;
  guard ((at_a : bool) || goes_through cid lost a = true);; sample_turn t W.

Lemma lossy_turn_moves cid cid' lost t W W' : lossy_turn cid lost t W = Some W' ->
  two_way_allowed sample_addr sample_peer 0%nat 0%nat 500 cid cid' W W' = true ->
  lossy_moves sample_clock sample_clock sample_addr sample_peer 0%nat 0%nat 500 cid cid' lost W W'.
Proof.
  intros ([at_a a] & Hact & Ht)%bind_Some [[Ha Hb]%andb_true_iff Hans]%andb_true_iff.
  apply bind_Some in Ht as (Hg & _ & Ht).
  split_and!; [intros ? ?; by eapply only_sends_elim|intros ? ?; by eapply only_sends_elim|
    by apply is_answered_elim|].
  pose proof (turn_action_brings _ _ _ _ _ _ _ Hact) as Hbr.
  unfold sample_turn, two_way_turn in Ht. rewrite Hact in Ht. cbn [mbind option_bind] in Ht.
  destruct at_a; apply bind_Some in Ht as ([l h'] & Hp & Heq); injection Heq as <-.
  - apply lossy_a. by eapply perform_step.
  - apply lossy_b. eapply perform_step; [|exact Hp]. destruct a; try done.
    split; [exact Hbr|]. intros _ p Hpk. cbn in Hg. rewrite Hpk in Hg.
    by apply bool_decide_eq_true in Hg.
Qed.

(** ** Witnesses

    A writes twice; the first packet, numbered 501, is lost, the second arrives,
    and B reads nothing. *)

Definition losing : list Turn :=
  [AtFirst (Writes 0%nat [1]); AtFirst (Writes 0%nat [2]); AtFirst Sends; ToSecond 1%nat;
   AtSecond (Reads 0%nat 3%nat)].
Definition lost_end : TwoWay :=
  played (lossy_turn 77 (seq_at (st_seq_number sample_sender_end) 0)) sample_allowed losing
    sample_two_way.

Lemma lost_end_run : rtc (lossy_moves sample_clock sample_clock sample_addr sample_peer
  0%nat 0%nat 500 77 78 (seq_at (st_seq_number sample_sender_end) 0)) sample_two_way lost_end.
Proof. apply played_run; [intros t W1 W2; apply lossy_turn_moves|]. by vm_compute. Qed.

Lemma lost_end_facts :
  length (w_sent (tw_world lost_end)) = 2%nat /\ w_written (tw_world lost_end) = [1; 2].
Proof. split; by vm_compute. Qed.

Lemma lost_packet_stalls_witness :
  w_written (tw_world lost_end) = [1; 2] /\ w_read (tw_world lost_end) `prefix_of` [] /\
  forall fuel c sta st' e', h_owners (w_a (tw_world lost_end)) !! 0%nat = Some (Streaming sta) ->
    poll_flush sample_clock fuel sta (mkEnv (h_socket (w_a (tw_world lost_end))) c) <>
      Done (Ready (Ok tt), st', e').
Proof.
  destruct lost_end_facts as [Hl Hw]. split; [exact Hw|].
  destruct (lost_packet_stalls sample_clock sample_clock sample_addr sample_peer 0%nat 0%nat 500
    77 78 _ _ _ lost_end 0 sample_two_way_start lost_end_run) as (Hread & _ & Hflush).
  - rewrite Hl. reflexivity.
  - split; [exact Hread|]. apply Hflush; [rewrite Hl; lia|vm_compute; discriminate|].
    rewrite Hl. vm_compute. discriminate.
Defined.
