(* ===== verification/Wakers.v ===== *)
(** * Tasks that wait for a stream (src/src/stream.rs)

    [poll_read] and [poll_flush] pass the context of the task that polls them to
    the [poll_recv] of the stream's mailbox. A channel remembers one waker, that
    of the last task to find it empty, and wakes it when a packet comes. The model
    adds this to a host: the waker that the mailbox of one stream holds, and the
    tasks that wait for that stream, each with the poll that was not ready. A
    stream that one task polls never leaves it waiting for nothing; with two, as
    after [tokio::io::split], one can take the packets the other waits for. *)

From S2P Require Import Prelude Crates CratesRef Errors Time Packet.
From S2P Require Import PacketWire Congestion Socket PacketSender PacketReceiver Stream.
From S2P Require Import StreamFacts StreamRead StreamWrite StreamInvariant Polls.
From S2P Require Import Listener Handshake Host Boxes HostState HostEffect Runs Transfer World.
From S2P Require Import Mailbox TwoWay.

(** ** Definitions *)

(** A task of the executor, and the poll it waits for. *)
Definition Task : Type := nat.
Inductive Wait : Type := Reading | Flushing.

#[export] Instance Wait_eq_dec : EqDecision Wait.
Proof. solve_decision. Defined.

Section wakers.
Context `{By : BytesCrate, Rb : ReadBufCrate, Mp : MpscCrate, Dm : DashMapCrate}.
Variable clock : nat -> SystemTime.

(** The mailbox of the stream, the tasks that poll it, and what may arrive. *)
Variable id : ChanId.
Variable users : Task -> Prop.
Variable arrives : bytes -> SocketAddr -> Prop.

Record Watched : Type := mkWatched {
  wd_host : Host;
  wd_waker : option Task;
  wd_waiting : gmap Task Wait;
}.

(** After a poll by [t]: the mailbox was found empty with the waker of [t], and
    [t] waits if the poll was not ready. *)
Definition polled_by {A} (t : Task) (what : Wait) (r : Poll A) (h' : Host) (w : Watched)
    : Watched :=
  mkWatched h' (Some t)
    (match r with Pending => <[t := what]> (wd_waiting w) | Ready _ => wd_waiting w end).

(** After anything else: if a packet reached the mailbox, its waker is used. *)
Definition woken (h' : Host) (w : Watched) : Watched :=
  if decide (length (mailbox (h_socket (wd_host w)) id) < length (mailbox (h_socket h') id))%nat
  then mkWatched h' None
         (match wd_waker w with Some t => delete t (wd_waiting w) | None => wd_waiting w end)
  else mkWatched h' (wd_waker w) (wd_waiting w).

(** The polls of the stream are made by tasks that do not wait ([poll_shutdown]
    never returns); everything else happens as in [host_step]. *)
Inductive watched_step (w : Watched) : Watched -> Prop :=
  | wk_reads t st fuel n buf r st' e' buf' :
      users t -> wd_waiting w !! t = None ->
      h_owners (wd_host w) !! id = Some (Streaming st) ->
      poll_read clock fuel st (mkEnv (h_socket (wd_host w)) n) buf = Done (r, st', e', buf') ->
      watched_step w (polled_by t Reading r
        (with_owner id (Streaming st') (with_h_socket (env_socket e') (wd_host w))) w)
  | wk_flushes t st fuel n r st' e' :
      users t -> wd_waiting w !! t = None ->
      h_owners (wd_host w) !! id = Some (Streaming st) ->
      poll_flush clock fuel st (mkEnv (h_socket (wd_host w)) n) = Done (r, st', e') ->
      watched_step w (polled_by t Flushing r
        (with_owner id (Streaming st') (with_h_socket (env_socket e') (wd_host w))) w)
  | wk_other l h' :
      host_step clock arrives (wd_host w) l h' -> takes_packets id l = false ->
      watched_step w (woken h' w).

(** ** Specification *)

(** The next packet that [poll_read] would reassemble is buffered. *)
Definition next_buffered (st : UtpStream) : option bytes :=
  inbound_data st !! wrapping_add16 (st_ack_number st) 1.

(** There is nothing to do for a task that waits. *)
Definition must_wait (what : Wait) (st : UtpStream) : Prop :=
  match what with
  | Reading => received_data st = [] /\ next_buffered st = None
  | Flushing => unacked_data st <> []
  end.

Record waits_rightly (w : Watched) (t : Task) (what : Wait) : Prop := {
  wr_waker : wd_waker w = Some t;
  wr_stream : forall st, h_owners (wd_host w) !! id = Some (Streaming st) ->
    mailbox (h_socket (wd_host w)) id = [] /\ must_wait what st;
}.

(** ** Helper lemmas: polls that are not ready *)

Lemma poll_read_pending `{!PromptMpsc} fuel st e buf st' e' buf' :
  u16 (st_ack_number st) -> poll_read clock fuel st e buf = Done (Pending, st', e', buf') ->
  mailbox (env_socket e') (inbound_packets st) = [] /\ must_wait Reading st'.
Proof.
  intros Hu Hr. unfold poll_read in Hr. apply bind_Done in Hr as ([[term st1] e1] & Hp & Hr).
  destruct term; [by outcome_inv|].
  destruct (process_packets_drained clock _ _ _ _ _ Hp) as [Hnil _].
  apply process_packets_Done in Hp as (popped & st2 & [_ _ Hrecv -> _]).
  pose proof (receive_all_same _ _ _ _ _ Hrecv) as [[_ _ _ Hrx _ Hack _] _].
  destruct (assemble_run st2) as (ds & m' & Hrun & Ha); [congruence|]. rewrite Ha in Hr.
  cbn [mbind Outcome_bind] in Hr. apply bind_Done in Hr as ([acked e2] & Hs & Hr).
  apply (send_packet_Done clock (inbound_packets st)) in Hs as (now & _ & _ & Ht).
  destruct acked; [|by outcome_inv].
  destruct (is_empty (received_data (assembled st2 ds m'))) eqn:Hempty.
  2: { apply bind_Done in Hr as ([chunk rest] & _ & Hr). destruct (negb _); [done|].
    apply bind_Done in Hr as (buf2 & _ & Hr). by outcome_inv. }
  outcome_inv. split.
  - pose proof (td_mailbox _ _ _ _ _ Ht) as Hm. by rewrite Hnil in Hm.
  - split; [by apply is_empty_nil|]. unfold next_buffered. cbn.
    rewrite wrapping_add16_assoc, Z.add_comm, <- wrapping_add16_assoc.
    apply (run_end _ _ _ _ Hrun), wrapping_add16_u16.
Qed.

Lemma poll_flush_pending `{!PromptMpsc} fuel st e st' e' :
  poll_flush clock fuel st e = Done (Pending, st', e') ->
  mailbox (env_socket e') (inbound_packets st) = [] /\ must_wait Flushing st'.
Proof.
  intros Hr. unfold poll_flush in Hr. apply bind_Done in Hr as ([[term st1] e1] & Hp & Hr).
  destruct (is_empty (unacked_data st1)) eqn:Hempty; [by outcome_inv|].
  destruct (is_shutdown st1) eqn:Hsd; [done|]. outcome_inv.
  destruct term.
  - apply process_packets_Done in Hp as (popped & st2 & [_ _ _ -> _]). done.
  - destruct (process_packets_drained clock _ _ _ _ _ Hp) as [Hnil _].
    split; [done|]. cbn. by intros Hn%is_empty_nil; rewrite Hn in Hempty.
Qed.

(** Writing leaves a task that waits without anything to do. *)
Lemma must_wait_written what s st acc packets st' : u16 (st_seq_number st) ->
  stream_poll clock s st (Wrote acc packets) st' -> must_wait what st -> must_wait what st'.
Proof.
  intros Hu (n & buf & r & e' & Hr & _). apply poll_write_Done in Hr as (out & _ & Hw); [|done].
  destruct Hw as [_ _ Ha Hi Hrec Hun], what; cbn.
  - unfold next_buffered. by rewrite Hrec, Hi, Ha.
  - rewrite Hun. by intros Hne [? _]%app_nil.
Qed.

(** ** Helper lemmas: one task *)

Lemma woken_host h' w : wd_host (woken h' w) = h'.
Proof. unfold woken. by case_decide. Qed.

Lemma watched_host w w' : watched_step w w' -> host_ok (wd_host w) ->
  exists l, host_step clock arrives (wd_host w) l (wd_host w').
Proof.
  intros Hs Hok. destruct Hs as [t st fuel n buf r st' e' buf' _ _ Ho Hr
    |t st fuel n r st' e' _ _ Ho Hr|l h' Hs _].
  - pose proof Hr as (_ & _ & chunk & _ & _ & _ & _ & _ & Hf)%poll_read_Done;
      [|apply (ok_owners _ Hok _ _ Ho)]. eexists. by eapply hs_read.
  - eexists. by eapply hs_flush.
  - exists l. by rewrite woken_host.
Qed.

(** What a step other than a poll leaves of a stream that is waited for. *)
Lemma other_stream l h h' st' : host_step clock arrives h l h' -> host_ok h ->
  takes_packets id l = false -> (id < next_chan (h_socket h))%nat ->
  (forall c, h_owners h !! id <> Some (Awaiting c)) ->
  h_owners h' !! id = Some (Streaming st') ->
  exists st, h_owners h !! id = Some (Streaming st) /\
    forall what, must_wait what st -> must_wait what st'.
Proof.
  intros Hs Hok Htp Hid Hna Ho. pose proof (host_step_effect _ _ _ _ _ Hs Hok) as He.
  pose proof (ef_owners _ _ _ _ _ He id Hid) as Hev. unfold owner_evolves in Hev.
  unfold takes_packets in Htp. destruct (event_of id l) as [[chunk|acc packets|]|]; try done.
  - destruct Hev as (st & st2 & Hst & Hst2 & Hp). rewrite Ho in Hst2. injection Hst2 as <-.
    exists st. split; [done|]. intros what.
    eapply must_wait_written; [apply (ok_owners _ Hok _ _ Hst)|exact Hp].
  - destruct Hev as [Hsame|[Hn|(c & p & Hc & _)]]; [|congruence|by apply Hna in Hc].
    exists st'. rewrite <- Hsame. by split.
Qed.

(** The invariant of a stream that only [t] polls. *)
Record sole_ok (t : Task) (w : Watched) : Prop := {
  so_host : host_ok (wd_host w);
  so_id : (id < next_chan (h_socket (wd_host w)))%nat;
  so_stream : forall c, h_owners (wd_host w) !! id <> Some (Awaiting c);
  so_waits : forall t' what, wd_waiting w !! t' = Some what -> t' = t /\ waits_rightly w t' what;
}.

(** The part of the invariant that holds of any host with the stream. *)
Lemma watched_stays w w' : watched_step w w' -> host_ok (wd_host w) ->
  (id < next_chan (h_socket (wd_host w)))%nat ->
  (forall c, h_owners (wd_host w) !! id <> Some (Awaiting c)) ->
  host_ok (wd_host w') /\ (id < next_chan (h_socket (wd_host w')))%nat /\
  (forall c, h_owners (wd_host w') !! id <> Some (Awaiting c)).
Proof.
  intros Hs Hok Hid Hna. destruct (watched_host _ _ Hs Hok) as [l Hl].
  pose proof (host_step_effect _ _ _ _ _ Hl Hok) as He.
  split; [by eapply host_step_ok|].
  pose proof (ef_next _ _ _ _ _ He). split; [lia|]. intros c Hc.
  pose proof (ef_owners _ _ _ _ _ He id Hid) as Hev. unfold owner_evolves in Hev.
  destruct (event_of id l) as [ev|].
  - by destruct Hev as (st & st' & _ & Hst' & _); congruence.
  - destruct Hev as [Hsame|[Hn|(c' & p & Hc' & _)]]; [|congruence|by apply Hna in Hc'].
    rewrite Hsame in Hc. by apply Hna in Hc.
Qed.

(** After a poll by the only task. *)
Lemma sole_polled {A} t what (r : Poll A) st' s' w :
  (forall t' what, wd_waiting w !! t' = Some what -> t' = t) -> wd_waiting w !! t = None ->
  (r = Pending -> mailbox s' id = [] /\ must_wait what st') ->
  let w' := polled_by t what r (with_owner id (Streaming st') (with_h_socket s' (wd_host w))) w in
  forall t' what', wd_waiting w' !! t' = Some what' -> t' = t /\ waits_rightly w' t' what'.
Proof.
  intros Hsole Hnone Hp w' t' what'. cbn. destruct r as [a|].
  - intros Hw. pose proof (Hsole _ _ Hw). congruence.
  - intros [[<- <-]|[Hne Hw]]%lookup_insert_Some; [|pose proof (Hsole _ _ Hw); congruence].
    split; [done|]. split; [done|]. cbn. intros st. rewrite lookup_insert_eq.
    intros [= <-]. by apply Hp.
Qed.

Lemma sole_step `{!PromptMpsc} t w w' : (forall t', users t' -> t' = t) ->
  watched_step w w' -> sole_ok t w -> sole_ok t w'.
Proof.
  intros Husers Hs [Hok Hid Hna Hw].
  destruct (watched_stays _ _ Hs Hok Hid Hna) as (Hok' & Hid' & Hna'). split; try done.
  assert (Hsole : forall t' what, wd_waiting w !! t' = Some what -> t' = t)
    by (intros ? ? ?%Hw; tauto).
  destruct Hs as [t1 st fuel n buf r st' e' buf' Hu Hn Ho Hr
    |t1 st fuel n r st' e' Hu Hn Ho Hr|l h' Hs Htp].
  - rewrite (Husers _ Hu) in *. apply sole_polled; [done..|]. intros ->.
    destruct (ok_owners _ Hok _ _ Ho) as (<- & _ & Hwf).
    by eapply poll_read_pending; [apply Hwf|].
  - rewrite (Husers _ Hu) in *. apply sole_polled; [done..|]. intros ->.
    destruct (ok_owners _ Hok _ _ Ho) as (<- & _ & Hwf).
    by eapply poll_flush_pending.
  - intros t' what. rewrite woken_host in *. unfold woken. case_decide as Hlen; cbn.
    + destruct (wd_waker w) as [t1|] eqn:Hwk; intros Hw'.
      * apply lookup_delete_Some in Hw' as [Hne Hw']. destruct (Hw _ _ Hw') as [_ [Hwk' _]].
        congruence.
      * destruct (Hw _ _ Hw') as [_ [Hwk' _]]. congruence.
    + intros Hw'. destruct (Hw _ _ Hw') as [Ht [Hwk Hst]]. split; [done|]. split; [done|]. cbn.
      intros st' Ho'. destruct (other_stream _ _ _ _ Hs Hok Htp Hid Hna Ho') as (st & Ho & Hmw).
      destruct (Hst _ Ho) as [Hnil Hm]. split; [|by apply Hmw].
      rewrite Hnil in Hlen. cbn in Hlen. destruct (mailbox (h_socket h') id); [done|cbn in Hlen; lia].
Qed.

(** ** Helper lemmas: two tasks *)

(** A task that waits without its waker in the mailbox waits for ever. *)
Lemma starved_step t what w w' : watched_step w w' -> wd_waiting w !! t = Some what ->
  wd_waker w <> Some t -> wd_waiting w' !! t = Some what /\ wd_waker w' <> Some t.
Proof.
  intros Hs Hw Hwk.
  assert (Hpoll : forall A t1 what1 (r : Poll A) h', wd_waiting w !! t1 = None ->
    wd_waiting (polled_by t1 what1 r h' w) !! t = Some what /\
    wd_waker (polled_by t1 what1 r h' w) <> Some t).
  { intros A t1 what1 r h' Hn. assert (t1 <> t) by congruence. cbn.
    split; [|congruence]. destruct r; [done|]. by rewrite lookup_insert_ne. }
  destruct Hs as [t1 st fuel n buf r st' e' buf' _ Hn _ _|t1 st fuel n r st' e' _ Hn _ _|l h' _ _];
    [by apply Hpoll|by apply Hpoll|].
  unfold woken. case_decide; cbn; [|done]. split; [|done].
  destruct (wd_waker w) as [t1|]; [|done]. rewrite lookup_delete_ne; [done|congruence].
Qed.

Lemma starved_forever t what w w' : rtc watched_step w w' -> wd_waiting w !! t = Some what ->
  wd_waker w <> Some t -> wd_waiting w' !! t = Some what.
Proof.
  induction 1 as [w|w1 w2 w3 Hs _ IH]; [done|]. intros Hw Hwk.
  destruct (starved_step _ _ _ _ Hs Hw Hwk). by apply IH.
Qed.

(** ** Properties *)

(** C31. No wake-up is lost when one task polls a stream: whatever happens to the
    host in between, whenever that task waits, its waker is in the stream's mailbox,
    the mailbox is empty, and there is nothing it could do: no byte to read and no
    next packet buffered, if it reads, or packets in flight, if it flushes. *)
Theorem sole_task_waits_rightly `{!PromptMpsc} t w0 w st0 :
  (forall t', users t' -> t' = t) -> host_ok (wd_host w0) ->
  h_owners (wd_host w0) !! id = Some (Streaming st0) -> wd_waiting w0 = ∅ ->
  rtc watched_step w0 w ->
  forall t' what, wd_waiting w !! t' = Some what -> t' = t /\ waits_rightly w t' what.
Proof.
  intros Husers Hok Ho Hnone Hr.
  assert (sole_ok t w0) as H0.
  { split; [done|by eapply owner_below|congruence|]. intros t' what. by rewrite Hnone, lookup_empty. }
  assert (sole_ok t w) as [_ _ _ Hw]; [|done].
  clear Ho Hnone Hok. induction Hr as [w|w1 w2 w3 Hs _ IH]; [done|].
  by eapply IH, sole_step.
Qed.
End wakers.

(** ** Playing a run

    Tasks 1 and 2 share the stream of mailbox 0. *)

Definition sharers (t : Task) : Prop := t = 1%nat \/ t = 2%nat.

#[export] Instance sharers_dec t : Decision (sharers t).
Proof. unfold sharers. apply _. Defined.

(** A poll of the stream, with room for 9 bytes if it reads, or something else. *)
Inductive Moment : Type :=
  | Polls (t : Task) (what : Wait)
  | Happens (a : Action).

Definition poll_stream (t : Task) (what : Wait) (st : UtpStream) (w : Watched) : option Watched :=
  let e := mkEnv (h_socket (wd_host w)) 0 in
  let after st' e' := with_owner 0%nat (Streaming st') (with_h_socket (env_socket e') (wd_host w)) in
  match what with
  | Reading =>
      '(r, st', e', _) ← finished (poll_read sample_clock run_fuel st e (([], 9%nat) : bytes * nat));
      Some (polled_by t Reading r (after st' e') w)
  | Flushing =>
      '(r, st', e') ← finished (poll_flush sample_clock run_fuel st e);
      Some (polled_by t Flushing r (after st' e') w)
  end.

Definition watch_turn (m : Moment) (w : Watched) : option Watched :=
  match m with
  | Polls t what =>
      guard (sharers t);; guard (wd_waiting w !! t = None);;
      st ← stream_at 0%nat (wd_host w); poll_stream t what st w
  | Happens a =>
      '(l, h') ← perform sample_clock a (wd_host w);
      guard (takes_packets 0%nat l = false);; Some (woken 0%nat h' w)
  end.

Definition watching (users : Task -> Prop) : Watched -> Watched -> Prop :=
  watched_step sample_clock 0%nat users (fun _ _ => True).
Definition sharing : Watched -> Watched -> Prop := watching sharers.

Lemma stream_at_Some id h st : stream_at id h = Some st -> h_owners h !! id = Some (Streaming st).
Proof. unfold stream_at. destruct (h_owners h !! id) as [[]|]; intros; by simplify_eq. Qed.

#[local] Arguments poll_read : simpl never.
#[local] Arguments poll_flush : simpl never.
#[local] Arguments perform : simpl never.
#[local] Arguments poll_stream : simpl never.

Lemma poll_stream_step (users : Task -> Prop) t what st w w' :
  users t -> wd_waiting w !! t = None -> h_owners (wd_host w) !! 0%nat = Some (Streaming st) ->
  poll_stream t what st w = Some w' -> watching users w w'.
Proof.
  intros Ht Hn Ho Hp. unfold poll_stream in Hp. destruct what; performed.
  - by eapply wk_reads.
  - by eapply wk_flushes.
Qed.

Lemma watch_turn_step m w w' : watch_turn m w = Some w' -> sharing w w'.
Proof.
  destruct m as [t what|a]; cbn; intros; performed.
  - eapply poll_stream_step; [done|done| |done]. by apply stream_at_Some.
  - eapply wk_other; [|done]. eapply perform_step; [|done]. by destruct a.
Qed.

(** ** Properties *)

Definition sample_watched : Watched :=
  mkWatched (sample_end sample_addr sample_sender_end) None ∅.

Definition sample_next_data : Packet :=
  data_packet 78 0 (wrapping_add16 (st_ack_number sample_sender_end) 1) 500 [7].
Definition sample_last_ack : Packet := Packet_new State 1 78 0 0 0 1 501 [] [].

(** Task 1 reads, task 2 flushes what it wrote, a data packet arrives, and the
    flush takes it. *)
Definition flush_takes : list Moment :=
  [Happens (Writes 0%nat [9]); Polls 1%nat Reading; Polls 2%nat Flushing;
   Happens (Receives (wire sample_next_data) sample_peer); Polls 2%nat Flushing].
(** The acknowledgement arrives, and the read takes it. *)
Definition read_takes : list Moment :=
  [Happens (Writes 0%nat [9]); Polls 2%nat Flushing; Polls 1%nat Reading;
   Happens (Receives (wire sample_last_ack) sample_peer); Polls 1%nat Reading].

Definition watched_after (ms : list Moment) : Watched :=
  played watch_turn (fun _ _ => true) ms sample_watched.

Lemma watched_after_run ms : playable watch_turn (fun _ _ => true) ms sample_watched = true ->
  rtc sharing sample_watched (watched_after ms).
Proof. apply played_run. intros m w1 w2 Hw _. by eapply watch_turn_step. Qed.

(** A task waits without its waker in the mailbox, for the stream as [f] sees it. *)
Definition starves (f : UtpStream -> bool) (t : Task) (what : Wait) (w : Watched) : bool :=
  bool_decide (wd_waiting w !! t = Some what) && bool_decide (wd_waker w <> Some t) &&
  match stream_at 0%nat (wd_host w) with Some st => f st | None => false end.

Lemma starves_elim f t what w : starves f t what w = true ->
  exists st, h_owners (wd_host w) !! 0%nat = Some (Streaming st) /\ f st = true /\
    forall w', rtc sharing w w' -> wd_waiting w' !! t = Some what.
Proof.
  unfold starves. rewrite !andb_true_iff, !bool_decide_eq_true. intros [[Hw Hwk] Hf].
  destruct (stream_at 0%nat (wd_host w)) as [st|] eqn:Hst; [|done].
  exists st. split; [by apply stream_at_Some|]. split; [done|].
  intros w' Hr. by eapply starved_forever.
Qed.

Lemma flush_takes_facts : playable watch_turn (fun _ _ => true) flush_takes sample_watched = true /\
  starves (fun st => bool_decide (next_buffered st = Some [7])) 1%nat Reading
    (watched_after flush_takes) = true.
Proof. split; by vm_compute. Qed.

Lemma read_takes_facts : playable watch_turn (fun _ _ => true) read_takes sample_watched = true /\
  starves (fun st => bool_decide (unacked_data st = [])) 2%nat Flushing
    (watched_after read_takes) = true.
Proof. split; by vm_compute. Qed.

(** C32. Two tasks that share a stream can starve each other: a flush takes the data
    packet out of the mailbox that another task's read waits for, and the reader,
    whose bytes are there, is never woken again, whatever happens; and a read takes
    the acknowledgement that another task's flush waits for, and the flush, which
    has nothing left in flight, is never polled again. *)
Theorem halves_starve_each_other :
  (exists w st, rtc sharing sample_watched w /\
     h_owners (wd_host w) !! 0%nat = Some (Streaming st) /\ next_buffered st = Some [7] /\
     forall w', rtc sharing w w' -> wd_waiting w' !! 1%nat = Some Reading) /\
  (exists w st, rtc sharing sample_watched w /\
     h_owners (wd_host w) !! 0%nat = Some (Streaming st) /\ unacked_data st = [] /\
     forall w', rtc sharing w w' -> wd_waiting w' !! 2%nat = Some Flushing).
Proof.
  split.
  - destruct flush_takes_facts as [Hp Hs]. apply starves_elim in Hs as (st & Ho & Hf & Hw).
    apply bool_decide_eq_true in Hf. exists (watched_after flush_takes), st.
    split_and!; [exact (watched_after_run _ Hp)|exact Ho|exact Hf|exact Hw].
  - destruct read_takes_facts as [Hp Hs]. apply starves_elim in Hs as (st & Ho & Hf & Hw).
    apply bool_decide_eq_true in Hf. exists (watched_after read_takes), st.
    split_and!; [exact (watched_after_run _ Hp)|exact Ho|exact Hf|exact Hw].
Qed.

(** ** Witnesses *)

Definition sample_poll : option Watched :=
  poll_stream 1%nat Reading sample_sender_end sample_watched.
Definition sample_waiting : Watched := default sample_watched sample_poll.

Lemma sample_waiting_facts : bool_decide (is_Some sample_poll) = true /\
  wd_waiting sample_waiting !! 1%nat = Some Reading.
Proof. split; by vm_compute. Qed.

Lemma sole_task_waits_rightly_witness : exists w, rtc (watching (eq 1%nat)) sample_watched w /\
  wd_waiting w !! 1%nat = Some Reading /\ waits_rightly 0%nat w 1%nat Reading.
Proof.
  destruct sample_waiting_facts as [Hp%(default_Some sample_watched) Hw].
  fold sample_waiting in Hp. set (w := sample_waiting) in *.
  assert (Hr : rtc (watching (eq 1%nat)) sample_watched w).
  { apply rtc_once. by eapply (poll_stream_step (eq 1%nat) 1%nat Reading sample_sender_end). }
  exists w. split; [exact Hr|]. split; [exact Hw|].
  apply (sole_task_waits_rightly sample_clock 0%nat (eq 1%nat) (fun _ _ => True) 1%nat
    sample_watched w sample_sender_end); [done|apply sample_world_start|reflexivity|reflexivity|
    exact Hr|exact Hw].
Defined.
