(* ===== verification/Progress.v ===== *)
(** * No deadlock

    From whatever state two hosts have got into, as long as the connection is up
    and running there, a network that delivers lets it finish: everything written
    can still be read. What the network
    lost can only be delivered if it has another copy: the packets the sender
    task handed over stay in [w_net], from which the network may deliver again. *)

From S2P Require Import Prelude Crates CratesRef Errors Time Packet.
From S2P Require Import PacketWire Congestion Socket PacketSender PacketReceiver Stream.
From S2P Require Import StreamFacts StreamRead StreamWrite StreamInvariant Polls.
From S2P Require Import Listener Handshake Host Boxes HostState HostEffect Delivery Transfer.
From S2P Require Import Acks Runs World TwoWay.

(** ** A host whose tasks are served *)

Section served.
Context `{By : BytesCrate, Rb : ReadBufCrate, Mp : MpscCrate, Dm : DashMapCrate}.
Variable clock : nat -> SystemTime.

(** A datagram that arrives for an owner reaches its mailbox. *)
Lemma host_receives arrives h id o p from : host_ok h -> is_Some (h_receiver h) ->
  h_owners h !! id = Some o -> wf_Packet p -> packet_type p <> Syn ->
  owner_key o = (connection_id p, from) -> arrives (wire p) from ->
  exists s', host_step clock arrives h silent (with_h_socket s' h) /\
    mailbox s' id = mailbox (h_socket h) id ++ [p] /\
    outgoing_channel s' = outgoing_channel (h_socket h).
Proof.
  intros Hok [task Ht] Ho Hwf Hsyn Hkey Harr. pose proof (ok_ends _ Hok) as He.
  pose proof (alive_owner _ _ _ Ho) as Hal.
  assert (Htab : table_alive (h_socket h) = true) by by rewrite (en_table _ He).
  assert (Hs : Forall2 serialises [(p, from)] [(wire p, from)]).
  { constructor; [|constructor]. split; [|done]. by apply bytes_from_packet_wf. }
  destruct (recv_loop_arriving from [(p, from)] [(wire p, from)] (h_socket h)) as [s' Hr];
    [apply Hok|done|by apply Forall_singleton|done|]. exists s'.
  assert (Hstep : host_step clock arrives h silent (with_h_socket s' h)).
  { apply (hs_receiver clock arrives h task (arriving from [(wire p, from)]) Pending s' []).
    - done.
    - apply Forall_cons_2; [split; [by apply wf_wire_u8|done]|by apply Forall_singleton].
    - unfold receiver_poll. by rewrite (en_socket _ He), Hal. }
  pose proof (owner_view _ _ _ Hok Ho) as Hv.
  pose proof (owner_view (with_h_socket s' h) id o (host_step_ok _ _ _ _ _ Hstep Hok) Ho) as Hv'.
  apply recv_loop_Done in Hr as (used & Hu & Hrv); [|apply Hok|done].
  rewrite app_nil_r in Hu. subst used. cbn [h_socket with_h_socket] in Hv'.
  rewrite (rv_view _ _ _ Hrv), Hv, view_foldl_alive in Hv'.
  rewrite (arrivals_arriving from [(p, from)]) in Hv' by (done || by apply Forall_singleton).
  rewrite filter_is_for_all in Hv' by by apply Forall_singleton.
  injection Hv' as <-. split_and!; [done|done|apply Hrv].
Qed.

(** A sender task whose UDP socket takes everything empties its backlog. *)
Lemma host_sends `{!PromptMpsc} arrives h : host_ok h -> alive h = true ->
  exists task task' s' sent, h_sender h = Some task /\
    host_step clock arrives h (emits sent)
      (mkHost s' (h_handles h) (h_owners h) (Some task') (h_receiver h)) /\
    backlog task' s' = [] /\ mailboxes s' = mailboxes (h_socket h) /\
    Forall (fun o => wf_Packet o.1) (backlog task (h_socket h)) /\
    Forall2 serialises (backlog task (h_socket h)) sent.
Proof.
  intros Hok Hal. destruct (ok_sender _ Hok Hal) as [task Ht].
  pose proof (ok_ends _ Hok) as He. pose proof (ok_backlog _ Hok _ Ht) as Hwf.
  set (b := backlog task (h_socket h)) in *.
  destruct (sender_poll_drains (S (length (queued (outgoing_channel (h_socket h)))))
    (replicate (length b) (Ready (Ok 0%nat))) task (h_socket h))
    as (task' & s' & sent & rest & Hp & Hb & Hser).
  - by rewrite (en_socket _ He).
  - by rewrite (en_out_tx _ He).
  - lia.
  - eapply Forall_impl; [exact Hwf|]. intros o. apply wf_Packet_encodable.
  - by apply Forall_replicate.
  - by rewrite length_replicate.
  - exists task, task', s', sent. split_and!; try done.
    + by eapply (hs_sender clock arrives h _ _ task Pending).
    + by apply sender_poll_ends in Hp as (_ & _ & ? & _).
Qed.

(** A stream with packets of the expected types in its mailbox can be polled. *)
Lemma owner_pollable h id st : (forall i, 0 <= clock i) -> host_ok h ->
  h_owners h !! id = Some (Streaming st) ->
  Forall (fun p => is_expected p = true) (mailbox (h_socket h) id) ->
  inbound_packets st = id /\
  pollable clock (S (length (mailbox (h_socket h) id))) st (mkEnv (h_socket h) 0).
Proof.
  intros Hc Hok Ho Hex. destruct (ok_owners _ Hok _ _ Ho) as (Hid & _ & Hwf). cbn in Hid.
  split; [done|]. destruct (owner_box _ _ _ Hok Ho) as (c & Hbox & _ & Htx & _).
  split; [split|]; cbn [env_socket]; rewrite ?Hid; try done.
  - apply Hwf.
  - by exists c.
  - lia.
  - by eapply host_out_alive, alive_owner.
Qed.
End served.

(** ** Definitions *)

Section progress.
Context `{By : BytesCrate, Rb : ReadBufCrate, Mp : MpscCrate, Dm : DashMapCrate}.
Variables clock_a clock_b : nat -> SystemTime.
Variables addr_a addr_b : SocketAddr.
Variables ra rb : ChanId.
Variable first : Z.

(** While A's sender task runs, every data packet of the connection is in its
    backlog or has been handed to the network. *)
Definition under_way (cid : Z) (w : World) : Prop :=
  Forall (data_for cid) (w_sent w) /\
  forall task p, h_sender (w_a w) = Some task -> p ∈ w_sent w ->
    (p, addr_b) ∈ backlog task (h_socket (w_a w)) \/
    (wf_Packet p /\ wire p ∈ w_net w).

(** ** Helper lemmas: packets under way *)

(** The packets that a step adds to the record are queued, for B. *)
Lemma sent_by_queued cid w t l st' p :
  simulates addr_a addr_b ra rb first cid w t -> moved clock_a (w_a w) ra l (t_sender t) st' ->
  p ∈ sent_by ra l -> data_for cid p /\
  exists accepted packets, l_event l = Some (ra, Wrote accepted packets) /\ (p, addr_b) ∈ packets.
Proof.
  intros Hsim. destruct (sm_sender _ _ _ _ _ _ _ _ Hsim) as (_ & Hk & _).
  unfold moved, sent_by, event_of.
  destruct (l_event l) as [[id ev]|]; [|by intros _ ?%elem_of_nil].
  case_decide; [subst id|by intros _ ?%elem_of_nil].
  intros [_ Hp]. destruct ev as [|acc packets|]; [by intros ?%elem_of_nil| |by intros ?%elem_of_nil].
  apply stream_poll_packets in Hp. rewrite Forall_forall in Hp.
  intros ([q to] & -> & Hin)%list_elem_of_fmap. destruct (Hp _ Hin) as (Hd & Hid & Hto).
  unfold send_key in Hk. cbn in *. split; [split; [done|congruence]|].
  exists acc, packets. split; [done|]. by simplify_eq.
Qed.

Lemma under_way_a cid w t l a' :
  simulates addr_a addr_b ra rb first cid w t -> only_stream addr_b ra cid w ->
  host_step clock_a (fun _ _ => True) (w_a w) l a' ->
  under_way cid w -> under_way cid (a_moved addr_b ra w l a').
Proof.
  intros Hsim Honly Hstep [Hdata Hway].
  destruct (simulates_a clock_a addr_a addr_b ra rb first _ _ _ _ _ Hsim Honly Hstep)
    as (st' & Hm & _).
  pose proof (host_step_effect _ _ _ _ _ Hstep (sm_a _ _ _ _ _ _ _ _ Hsim)) as He.
  pose proof (fun p => sent_by_queued _ _ _ _ _ p Hsim Hm) as Hnew. split; cbn.
  { apply Forall_app. split; [done|]. apply Forall_forall. intros p Hp. by apply Hnew. }
  intros task' p Ht' Hp. destruct (h_sender (w_a w)) as [task|] eqn:Ht.
  2: { destruct (ef_sender _ _ _ _ _ He Ht). congruence. }
  destruct (ef_emitted _ _ _ _ _ He _ Ht) as (gone & new & after & Hb & Hwf & Hser & _ & Hw & Haf).
  rewrite (Haf _ Ht').
  assert (Hin : (p, addr_b) ∈ gone ++ after -> (p, addr_b) ∈ after \/
    wf_Packet p /\ wire p ∈ w_net w ++ to_peer addr_b (l_emitted l)).
  { intros [Hg|Ha]%elem_of_app; [right|by left].
    destruct (gone_emitted _ _ _ _ Hwf Hser Hg). split; [done|]. apply elem_of_app. by right. }
  rewrite <- Hb in Hin. apply elem_of_app in Hp as [Hp|Hp].
  - destruct (Hway task p eq_refl Hp) as [Hq|[Hwp Hn]].
    + apply Hin, elem_of_app. by left.
    + right. split; [done|]. apply elem_of_app. by left.
  - destruct (Hnew p Hp) as (_ & acc & packets & Hl & Hpk). rewrite (Hw _ _ _ Hl) in Hpk.
    apply Hin, elem_of_app. by right.
Qed.

Lemma under_way_reachable cid sa sb w0 w :
  world_start addr_a addr_b ra rb first cid sa sb w0 ->
  rtc (world_moves clock_a clock_b addr_a addr_b ra rb first cid) w0 w -> under_way cid w.
Proof.
  intros H0 Hr. revert w Hr. refine (rtc_ind_r _ _ _ _).
  - destruct (wo_nothing _ _ _ _ _ _ _ _ _ H0) as (Hs & _). unfold under_way. rewrite Hs.
    split; [done|]. by intros task p _ ?%elem_of_nil.
  - intros w1 w2 Hr (Honly & _ & Hstep) IH.
    destruct (world_simulates _ _ _ _ _ _ _ _ _ _ _ Hr (world_start_simulates _ _ _ _ _ _ _ _ _ H0))
      as (t & _ & Hsim).
    destruct Hstep as [l a' Hs|l b' Hs]; [by eapply under_way_a|exact IH].
Qed.

(** ** Helper lemmas: a receiver that can go on *)

(** Every data packet of the connection has been handed to the network. *)
Definition all_out (cid : Z) (w : World) : Prop :=
  Forall (fun p => data_for cid p /\ wf_Packet p /\ wire p ∈ w_net w) (w_sent w).

(** A state from which B alone can read on: [k] packets are reassembled. *)
Record receiving (cid cid' n : Z) (W : TwoWay) (x : Exchange) (k : nat) : Prop := {
  rc_sim : two_way_simulates addr_a addr_b ra rb first cid cid' W x;
  rc_ok : transfer_ok n (x_transfer x) k;
  rc_seq : u16 (st_seq_number (t_receiver (x_transfer x)));
  rc_few : Z.of_nat (length (t_sent (x_transfer x))) < 2 ^ 16;
  rc_only : only_stream addr_b ra cid (tw_world W);
  rc_answers : only_answers addr_a rb cid' (tw_world W);
  rc_owner : h_owners (w_b (tw_world W)) !! rb = Some (Streaming (t_receiver (x_transfer x)));
  rc_task : is_Some (h_receiver (w_b (tw_world W)));
  rc_expected : Forall (fun p => is_expected p = true)
    (mailbox (h_socket (w_b (tw_world W))) rb);
  rc_out : all_out cid (tw_world W);
}.

(** The world after a step of B. *)
Definition after_b (W : TwoWay) (l : Label) (b' : Host) : TwoWay :=
  mkTwoWay (b_moved rb (tw_world W) l b') (tw_back W ++ to_peer addr_a (l_emitted l)).

(** A step of B that keeps its owners, but for the stream of the connection. *)
Lemma receiving_moved cid cid' n W x k l b' st' :
  receiving cid cid' n W x k ->
  host_step clock_b (from_net addr_a (w_net (tw_world W))) (w_b (tw_world W)) l b' ->
  h_owners b' = <[rb := Streaming st']> (h_owners (w_b (tw_world W))) ->
  is_Some (h_receiver b') ->
  Forall (fun p => is_expected p = true) (mailbox (h_socket b') rb) ->
  exists x' k',
    two_way_moves clock_a clock_b addr_a addr_b ra rb first cid cid' W (after_b W l b') /\
    receiving cid cid' n (after_b W l b') x' k' /\ (k <= k')%nat /\
    t_receiver (x_transfer x') = st' /\ t_sent (x_transfer x') = t_sent (x_transfer x) /\
    t_delivered (x_transfer x') = t_delivered (x_transfer x) ++ read_by rb l.
Proof.
  intros [Hsim Hok Hseq Hfew Honly Hans Hown Htask Hexp Hout] Hstep Ho Ht Hex.
  assert (Hb' : h_owners b' !! rb = Some (Streaming st')) by by rewrite Ho, lookup_insert_eq.
  assert (Hans' : only_answers addr_a rb cid' (b_moved rb (tw_world W) l b')).
  { intros id st. cbn. rewrite Ho. destruct (decide (id = rb)) as [->|Hne]; [done|].
    rewrite lookup_insert_ne by done. apply Hans. }
  assert (Hansd : answered rb first (tw_world W) (b_moved rb (tw_world W) l b'))
    by (intros c st Hc; congruence).
  destruct (two_way_b clock_a clock_b addr_a addr_b ra rb first _ _ _ _ _ _ Hsim Hans' Hansd Hstep)
    as (st0 & acks & _ & Hx & Hsim'). fold (after_b W l b') in Hsim'.
  set (x' := mkExchange _ _) in Hx, Hsim'. clearbody x'.
  pose proof (tm_world _ _ _ _ _ _ _ _ _ Hsim) as Hw.
  pose proof (tm_world _ _ _ _ _ _ _ _ _ Hsim') as Hw'.
  assert (Hsent : t_sent (x_transfer x') = t_sent (x_transfer x))
    by by rewrite (sm_sent _ _ _ _ _ _ _ _ Hw'), (sm_sent _ _ _ _ _ _ _ _ Hw).
  assert (Hrecv : t_receiver (x_transfer x') = st').
  { destruct (sm_receiver _ _ _ _ _ _ _ _ Hw') as (_ & _ & Hend). by rewrite (Hend _ Hb'). }
  destruct (transfer_run_ok clock_a clock_b n _ k _
    (rtc_congruence x_transfer _ _ _ (exchange_transfer clock_a clock_b) Hx))
    as [Hseq' (k' & Hk & Hok')]; [by rewrite Hsent|done..|].
  exists x', k'. split_and!; [|split|done|done|done|]; try done.
  - by split_and!; [..|apply both_b].
  - by rewrite Hsent.
  - by rewrite Hrecv.
  - by rewrite (sm_read _ _ _ _ _ _ _ _ Hw'), (sm_read _ _ _ _ _ _ _ _ Hw).
Qed.

(** The stream of the connection can be polled. *)
Lemma receiving_pollable cid cid' n W x k : (forall i, 0 <= clock_b i) ->
  receiving cid cid' n W x k ->
  inbound_packets (t_receiver (x_transfer x)) = rb /\
  pollable clock_b (S (length (mailbox (h_socket (w_b (tw_world W))) rb)))
    (t_receiver (x_transfer x)) (mkEnv (h_socket (w_b (tw_world W))) 0).
Proof.
  intros Hc Hrc. apply owner_pollable; [done| |apply Hrc..].
  apply (sm_b _ _ _ _ _ _ _ _ (tm_world _ _ _ _ _ _ _ _ _ (rc_sim _ _ _ _ _ _ Hrc))).
Qed.

(** What is taken from the mailbox was sent. *)
Lemma receiving_genuine cid cid' n W x k : receiving cid cid' n W x k ->
  Forall (genuine n (payloads (x_transfer x)))
    (mailbox (h_socket (w_b (tw_world W))) (inbound_packets (t_receiver (x_transfer x)))).
Proof.
  intros [Hsim Hok _ _ _ _ Hown _ _ _].
  eapply (from_network_genuine n _ k _ (mkEnv _ 0)); [done|].
  eapply tracked_mailbox; [by apply Hsim|done].
Qed.

(** A packet that is expected next is reassembled by the next read. *)
Lemma run_next n t k ps rs m' p : transfer_ok n t k ->
  Z.of_nat (length (t_sent t)) < 2 ^ 16 -> Forall (genuine n (payloads t)) ps ->
  run (buffer_data (st_ack_number (t_receiver t)) (inbound_data (t_receiver t)) ps)
    (wrapping_add16 (st_ack_number (t_receiver t)) 1) rs m' ->
  (k + length rs <= length (t_sent t))%nat /\
  (p ∈ ps -> packet_type p = Data -> seq_number p = seq_at n k -> rs <> []).
Proof.
  intros Hok Hl Hps Hr. pose proof (to_ack _ _ _ Hok) as Hack.
  pose proof (seq_at_u16 n k) as Hu.
  assert (Hnext : wrapping_add16 (st_ack_number (t_receiver t)) 1 = seq_at n k)
    by (rewrite Hack; by apply wrapping_add16_sub16).
  rewrite <- length_payloads in Hl |- *.
  pose proof (buffer_data_genuine n (payloads t) (st_ack_number (t_receiver t)) _ _
    (to_buffer _ _ _ Hok) Hps Hl) as Hbuf. split.
  - rewrite Hnext in Hr.
    destruct (run_genuine _ _ _ _ _ _ Hbuf Hl (to_k _ _ _ Hok) Hr) as [rest Hrest].
    pose proof (f_equal length Hrest) as Hlen. rewrite length_drop, length_app in Hlen.
    pose proof (to_k _ _ _ Hok). lia.
  - intros Hp Hd Hs ->. inversion Hr as [m q Hnone|]; subst.
    rewrite Forall_forall in Hps. pose proof (Hps p Hp Hd) as Hsent.
    rewrite Hnext, <- Hs in Hnone.
    apply eq_None_not_Some in Hnone. apply Hnone. exists (data p).
    apply (buffer_data_lookup n (payloads t)); [apply Hok|by apply Forall_forall|done|].
    split; [done|]. right. exists p. split_and!; [done| |done].
    apply (keeps_seq_at clock_b _ _ 0);
      [rewrite Hack; apply wrapping_sub16_u16|done| |lia|lia].
    rewrite Hnext, Hs. by rewrite seq_at_0.
Qed.

(** B moved, and A did not. *)
Definition b_only (W W' : TwoWay) : Prop :=
  w_a (tw_world W') = w_a (tw_world W) /\ w_sent (tw_world W') = w_sent (tw_world W) /\
  w_written (tw_world W') = w_written (tw_world W).

(** A read at B: it empties the mailbox, hands over a byte if there is one, gets
    past the next packet if that is there, and queues an acknowledgement. *)
Record read_step (cid cid' n : Z) (W : TwoWay) (x : Exchange) (k : nat)
    (W' : TwoWay) (x' : Exchange) (k' : nat) : Prop := {
  rs_moves : two_way_moves clock_a clock_b addr_a addr_b ra rb first cid cid' W W';
  rs_next : receiving cid cid' n W' x' k';
  rs_b_only : b_only W W';
  rs_k : (k <= k')%nat;
  rs_mailbox : mailbox (h_socket (w_b (tw_world W'))) rb = [];
  rs_bytes : received_data (t_receiver (x_transfer x')) = [] \/
    (length (t_delivered (x_transfer x)) < length (t_delivered (x_transfer x')))%nat;
  rs_passes : forall p, p ∈ mailbox (h_socket (w_b (tw_world W))) rb ->
    packet_type p = Data -> seq_number p = seq_at n k -> (k < k')%nat;
  rs_ack : exists now, (ack_packet (t_receiver (x_transfer x')) now, addr_a) ∈
    queued (outgoing_channel (h_socket (w_b (tw_world W'))));
}.

Lemma receiving_reads `{!PromptMpsc} cid cid' n W x k buf : (forall i, 0 <= clock_b i) ->
  (0 < remaining buf)%nat -> receiving cid cid' n W x k ->
  exists W' x' k', read_step cid cid' n W x k W' x' k'.
Proof.
  intros Hc Hroom Hrc.
  destruct (receiving_pollable _ _ _ _ _ _ Hc Hrc) as [Hrb Hpoll].
  pose proof (receiving_genuine _ _ _ _ _ _ Hrc) as Hgen.
  destruct (poll_read_open clock_b _ _ _ buf Hpoll)
    as (r & st' & e' & buf' & popped & ds & chunk & now & Hr & Hd).
  destruct (poll_read_popped clock_b _ _ _ _ _ _ _ _ _ _ _ _ Hpoll Hr Hd) as [Hpop Hnil].
  cbn [env_socket] in Hpop. rewrite <- Hpop in Hgen.
  destruct Hd as [_ Ht Hrun Hack Hb Hch Hf _]. cbn [env_socket] in Ht.
  destruct (run_next _ _ _ _ _ _ (sample_queued) (rc_ok _ _ _ _ _ _ Hrc)
    (rc_few _ _ _ _ _ _ Hrc) Hgen Hrun) as [Hle _].
  set (b' := with_owner rb (Streaming st') (with_h_socket (env_socket e') (w_b (tw_world W)))).
  destruct (receiving_moved _ _ _ _ _ _ (polls rb (Read chunk)) b' st' Hrc)
    as (x' & k' & Hm & Hrc' & Hk & Hst & Hsent & Hdel); [|done|apply Hrc|..].
  { eapply hs_read; [apply Hrc|exact Hr|exact Hf]. }
  { cbn. rewrite <- Hrb, Hnil. constructor. }
  exists (after_b W (polls rb (Read chunk)) b'), x', k'. split; try done.
  - cbn. by rewrite <- Hrb.
  - rewrite Hst, Hdel, length_app. unfold read_by, event_of. cbn. rewrite decide_True by done.
    destruct chunk as [|b chunk]; [left|right; cbn; lia]. cbn in Hch, Hb. rewrite Hb in Hch.
    destruct (received_data st'); [done|]. cbn in Hch. lia.
  - intros p Hp Hpd Hps. rewrite <- Hrb, <- Hpop in Hp.
    destruct (run_next _ _ _ _ _ _ p (rc_ok _ _ _ _ _ _ Hrc)
      (rc_few _ _ _ _ _ _ Hrc) Hgen Hrun) as [_ Hne].
    specialize (Hne Hp Hpd Hps). destruct (decide (k = k')) as [<-|]; [exfalso|lia].
    pose proof (to_ack _ _ _ (rc_ok _ _ _ _ _ _ Hrc')) as Ha'.
    rewrite Hst, Hack, (to_ack _ _ _ (rc_ok _ _ _ _ _ _ Hrc)) in Ha'.
    pose proof (rc_few _ _ _ _ _ _ Hrc) as Hfew. destruct ds as [|d ds]; [done|]. cbn in *.
    pose proof (seq_at_u16 n k). int_lia.
  - exists now. cbn. rewrite (td_out _ _ _ _ _ Ht), Hst. apply elem_of_app. right.
    apply list_elem_of_singleton.
    destruct (sm_receiver _ _ _ _ _ _ _ _ (tm_world _ _ _ _ _ _ _ _ _ (rc_sim _ _ _ _ _ _ Hrc)))
      as (_ & [= _ ->] & _). done.
Qed.

(** A step of the connection's world in which only B moves, and may get further. *)
Record b_step (cid cid' n : Z) (W : TwoWay) (x : Exchange) (k : nat)
    (W' : TwoWay) (x' : Exchange) (k' : nat) : Prop := {
  bs_run : rtc (two_way_moves clock_a clock_b addr_a addr_b ra rb first cid cid') W W';
  bs_next : receiving cid cid' n W' x' k';
  bs_b_only : b_only W W';
  bs_k : (k <= k')%nat;
}.

Lemma b_step_trans cid cid' n W1 x1 k1 W2 x2 k2 W3 x3 k3 :
  b_step cid cid' n W1 x1 k1 W2 x2 k2 -> b_step cid cid' n W2 x2 k2 W3 x3 k3 ->
  b_step cid cid' n W1 x1 k1 W3 x3 k3.
Proof.
  intros [Hr1 _ (Ha1 & Hs1 & Hw1) Hk1] [Hr2 Hn (Ha2 & Hs2 & Hw2) Hk2].
  split; [by etrans|done|split_and!; congruence|lia].
Qed.

Lemma read_b_step cid cid' n W x k W' x' k' : read_step cid cid' n W x k W' x' k' ->
  b_step cid cid' n W x k W' x' k'.
Proof. intros []. split; [by apply rtc_once|done..]. Qed.

(** What B read, within what A wrote. *)
Lemma transfer_bytes n t k : transfer_ok n t k ->
  (length (t_delivered t) <= length (concat (payloads t)))%nat.
Proof.
  intros Hok. rewrite <- (take_drop k (payloads t)), concat_app, length_app.
  rewrite <- (to_bytes _ _ _ Hok), length_app. lia.
Qed.

Lemma b_step_sent cid cid' n W x k W' x' k' : b_step cid cid' n W x k W' x' k' ->
  receiving cid cid' n W x k -> t_sent (x_transfer x') = t_sent (x_transfer x).
Proof.
  intros [_ [Hs' _ _ _ _ _ _ _ _ _] (_ & Hw & _) _] [Hs _ _ _ _ _ _ _ _ _].
  rewrite (sm_sent _ _ _ _ _ _ _ _ (tm_world _ _ _ _ _ _ _ _ _ Hs)).
  by rewrite (sm_sent _ _ _ _ _ _ _ _ (tm_world _ _ _ _ _ _ _ _ _ Hs')).
Qed.

(** Reading until nothing is left to hand over. *)
Lemma receiving_drains `{!PromptMpsc} cid cid' n W x k buf : (forall i, 0 <= clock_b i) ->
  (0 < remaining buf)%nat -> receiving cid cid' n W x k ->
  exists W1 x1 k1 W' x' k', b_step cid cid' n W x k W1 x1 k1 /\
    read_step cid cid' n W1 x1 k1 W' x' k' /\ received_data (t_receiver (x_transfer x')) = [].
Proof.
  intros Hc Hroom. remember (length (concat (payloads (x_transfer x))) -
    length (t_delivered (x_transfer x)))%nat as m eqn:Hm.
  revert W x k Hm. induction m as [m IH] using lt_wf_ind. intros W x k -> Hrc.
  destruct (receiving_reads _ _ _ _ _ _ _ Hc Hroom Hrc) as (W2 & x2 & k2 & Hrd).
  destruct (rs_bytes _ _ _ _ _ _ _ _ _ Hrd) as [Hnil|Hmore].
  { exists W, x, k, W2, x2, k2. split_and!; [|done|done]. split; [done|done|done|lia]. }
  pose proof (read_b_step _ _ _ _ _ _ _ _ _ Hrd) as Hb.
  assert (Hpay : payloads (x_transfer x2) = payloads (x_transfer x))
    by (unfold payloads; by rewrite (b_step_sent _ _ _ _ _ _ _ _ _ Hb Hrc)).
  pose proof (transfer_bytes _ _ _ (rc_ok _ _ _ _ _ _ (bs_next _ _ _ _ _ _ _ _ _ Hb))) as Hle.
  destruct (IH (length (concat (payloads (x_transfer x2))) -
    length (t_delivered (x_transfer x2)))%nat) with (W := W2) (x := x2) (k := k2)
    as (W3 & x3 & k3 & W' & x' & k' & Hb3 & Hrd3 & Hnil);
    [rewrite Hpay in *; lia|done|apply Hb|].
  exists W3, x3, k3, W', x', k'. split_and!; [by eapply b_step_trans|done|done].
Qed.

(** The arrival of a packet of the connection. *)
Lemma receiving_arrives cid cid' n W x k p :
  receiving cid cid' n W x k -> p ∈ t_sent (x_transfer x) ->
  exists W' x' k', b_step cid cid' n W x k W' x' k' /\
    p ∈ mailbox (h_socket (w_b (tw_world W'))) rb.
Proof.
  intros Hrc Hp. pose proof (tm_world _ _ _ _ _ _ _ _ _ (rc_sim _ _ _ _ _ _ Hrc)) as Hw.
  rewrite (sm_sent _ _ _ _ _ _ _ _ Hw) in Hp.
  pose proof (rc_out _ _ _ _ _ _ Hrc) as Hout. unfold all_out in Hout.
  rewrite Forall_forall in Hout. destruct (Hout p Hp) as ([Hd Hid] & Hwf & Hnet).
  destruct (sm_receiver _ _ _ _ _ _ _ _ Hw) as (_ & Hk & _). unfold recv_key in Hk.
  pose proof (rc_owner _ _ _ _ _ _ Hrc) as Hown.
  destruct (host_receives clock_b (from_net addr_a (w_net (tw_world W))) (w_b (tw_world W)) rb
    _ p addr_a (sm_b _ _ _ _ _ _ _ _ Hw) (rc_task _ _ _ _ _ _ Hrc) Hown Hwf)
    as (s' & Hstep & Hbox & _); [congruence|cbn; congruence|by intros _|].
  destruct (receiving_moved _ _ _ _ _ _ silent _ (t_receiver (x_transfer x)) Hrc Hstep)
    as (x' & k' & Hm & Hrc' & Hk' & _).
  - cbn. symmetry. by apply insert_id.
  - apply Hrc.
  - cbn. rewrite Hbox. apply Forall_app. split; [apply Hrc|].
    apply Forall_singleton. unfold is_expected. by rewrite Hd.
  - exists (after_b W silent (with_h_socket s' (w_b (tw_world W)))), x', k'. split.
    + split; [by apply rtc_once|done|done|done].
    + cbn. rewrite Hbox. apply elem_of_app. right. by apply list_elem_of_singleton.
Qed.

(** The next packet arrives and is read. *)
Lemma receiving_next `{!PromptMpsc} cid cid' n W x k buf : (forall i, 0 <= clock_b i) ->
  (0 < remaining buf)%nat -> receiving cid cid' n W x k ->
  (k < length (t_sent (x_transfer x)))%nat ->
  exists W' x' k', b_step cid cid' n W x k W' x' k' /\ (k < k')%nat.
Proof.
  intros Hc Hroom Hrc Hlt. destruct (lookup_lt_is_Some_2 _ _ Hlt) as [p Hp].
  destruct (to_sent _ _ _ (rc_ok _ _ _ _ _ _ Hrc) _ _ Hp) as [Hd Hs].
  destruct (receiving_arrives _ _ _ _ _ _ p Hrc) as (W1 & x1 & k1 & Hb1 & Hin);
    [by eapply list_elem_of_lookup_2|].
  pose proof (bs_k _ _ _ _ _ _ _ _ _ Hb1) as Hk1.
  destruct (decide (k < k1)%nat) as [Hlt1|Hge]; [by eauto|].
  assert (k1 = k) as -> by lia.
  destruct (receiving_reads _ _ _ _ _ _ _ Hc Hroom (bs_next _ _ _ _ _ _ _ _ _ Hb1))
    as (W2 & x2 & k2 & Hrd).
  exists W2, x2, k2. split; [eapply b_step_trans; [done|by apply read_b_step]|].
  by eapply (rs_passes _ _ _ _ _ _ _ _ _ Hrd).
Qed.

(** All of them. *)
Lemma receiving_all `{!PromptMpsc} cid cid' n W x k buf : (forall i, 0 <= clock_b i) ->
  (0 < remaining buf)%nat -> receiving cid cid' n W x k ->
  exists W' x' k', b_step cid cid' n W x k W' x' k' /\ k' = length (t_sent (x_transfer x')).
Proof.
  intros Hc Hroom. remember (length (t_sent (x_transfer x)) - k)%nat as m eqn:Hm.
  revert W x k Hm. induction m as [m IH] using lt_wf_ind. intros W x k -> Hrc.
  pose proof (to_k _ _ _ (rc_ok _ _ _ _ _ _ Hrc)) as Hk. rewrite length_payloads in Hk.
  destruct (decide (k = length (t_sent (x_transfer x)))) as [Heq|Hne].
  { exists W, x, k. split; [|done]. split; [done|done|done|lia]. }
  destruct (receiving_next _ _ _ _ _ _ _ Hc Hroom Hrc) as (W2 & x2 & k2 & Hb & Hlt); [lia|].
  pose proof (b_step_sent _ _ _ _ _ _ _ _ _ Hb Hrc) as Hsent.
  destruct (IH (length (t_sent (x_transfer x2)) - k2)%nat) with (W := W2) (x := x2) (k := k2)
    as (W' & x' & k' & Hb' & Hk'); [rewrite Hsent; lia|done|apply Hb|].
  exists W', x', k'. split; [by eapply b_step_trans|done].
Qed.

(** Everything is read, and the last read acknowledges it. *)
Lemma receiving_everything `{!PromptMpsc} cid cid' n W x k buf : (forall i, 0 <= clock_b i) ->
  (0 < remaining buf)%nat -> receiving cid cid' n W x k ->
  exists W' x', b_step cid cid' n W x k W' x' (length (t_sent (x_transfer x'))) /\
    w_read (tw_world W') = w_written (tw_world W) /\
    exists now, (ack_packet (t_receiver (x_transfer x')) now, addr_a) ∈
      queued (outgoing_channel (h_socket (w_b (tw_world W')))).
Proof.
  intros Hc Hroom Hrc.
  destruct (receiving_all _ _ _ _ _ _ _ Hc Hroom Hrc) as (W1 & x1 & k1 & Hb1 & Hk1).
  pose proof (bs_next _ _ _ _ _ _ _ _ _ Hb1) as Hrc1.
  destruct (receiving_drains _ _ _ _ _ _ _ Hc Hroom Hrc1)
    as (W2 & x2 & k2 & W' & x' & k' & Hb2 & Hrd & Hnil).
  pose proof (b_step_trans _ _ _ _ _ _ _ _ _ _ _ _ Hb2 (read_b_step _ _ _ _ _ _ _ _ _ Hrd)) as Hb3.
  pose proof (b_step_trans _ _ _ _ _ _ _ _ _ _ _ _ Hb1 Hb3) as Hb.
  pose proof (rc_ok _ _ _ _ _ _ (bs_next _ _ _ _ _ _ _ _ _ Hb)) as Hok.
  assert (k' = length (t_sent (x_transfer x'))) as Hk'.
  { pose proof (to_k _ _ _ Hok) as Hle. rewrite length_payloads in Hle.
    pose proof (bs_k _ _ _ _ _ _ _ _ _ Hb3) as Hge.
    rewrite Hk1, <- (b_step_sent _ _ _ _ _ _ _ _ _ Hb3 Hrc1) in Hge. lia. }
  exists W', x'. rewrite <- Hk'. split_and!; [done| |apply Hrd].
  pose proof (tm_world _ _ _ _ _ _ _ _ _ (rc_sim _ _ _ _ _ _ (bs_next _ _ _ _ _ _ _ _ _ Hb)))
    as Hw.
  destruct (bs_b_only _ _ _ _ _ _ _ _ _ Hb) as (_ & _ & <-).
  rewrite <- (sm_read _ _ _ _ _ _ _ _ Hw), <- (sm_written _ _ _ _ _ _ _ _ Hw).
  pose proof (to_bytes _ _ _ Hok) as Hbytes. rewrite Hnil, app_nil_r in Hbytes.
  rewrite Hbytes, take_ge; [done|]. by rewrite length_payloads, Hk'.
Qed.

(** ** Helper lemmas: reaching such a receiver *)

(** A connection that can go on: A's socket has an owner, B's end is a stream with
    only data and acknowledgements in its mailbox, B's receiver task runs, and no
    other streams of the two hosts have the identifiers of the connection. *)
Record up_and_running (cid cid' : Z) (W : TwoWay) : Prop := {
  ur_only : only_stream addr_b ra cid (tw_world W);
  ur_answers : only_answers addr_a rb cid' (tw_world W);
  ur_alive : alive (w_a (tw_world W)) = true;
  ur_owner : exists st, h_owners (w_b (tw_world W)) !! rb = Some (Streaming st);
  ur_task : is_Some (h_receiver (w_b (tw_world W)));
  ur_expected : Forall (fun p => is_expected p = true)
    (mailbox (h_socket (w_b (tw_world W))) rb);
}.

(** A's sender task hands everything over. *)
Record handed_over (W W' : TwoWay) : Prop := {
  ho_b : w_b (tw_world W') = w_b (tw_world W);
  ho_sent : w_sent (tw_world W') = w_sent (tw_world W);
  ho_written : w_written (tw_world W') = w_written (tw_world W);
  ho_owners : h_owners (w_a (tw_world W')) = h_owners (w_a (tw_world W));
  ho_task : h_receiver (w_a (tw_world W')) = h_receiver (w_a (tw_world W));
  ho_mailboxes : mailboxes (h_socket (w_a (tw_world W'))) =
    mailboxes (h_socket (w_a (tw_world W)));
  ho_backlog : forall task, h_sender (w_a (tw_world W')) = Some task ->
    backlog task (h_socket (w_a (tw_world W'))) = [];
}.

Lemma hands_over `{!PromptMpsc} cid cid' W : host_ok (w_a (tw_world W)) ->
  up_and_running cid cid' W ->
  exists W', two_way_moves clock_a clock_b addr_a addr_b ra rb first cid cid' W W' /\
    handed_over W W' /\ is_Some (h_sender (w_a (tw_world W'))).
Proof.
  intros Hok [Honly Hans Hal [st Hown] _ _].
  destruct (host_sends clock_a (from_net addr_b (tw_back W)) _ Hok Hal)
    as (task & task' & s' & sent & Ht & Hstep & Hb & Hm & _ & _).
  eexists. split; [split_and!; [exact Honly| | |by eapply both_a]|].
  - exact Hans.
  - intros c st' Hc. cbn in Hc. congruence.
  - split; [split|]; cbn; try done; [by rewrite app_nil_r..|by intros ? [= <-]].
Qed.

Lemma handed_over_receiving cid cid' sa sb W0 W W' :
  two_way_start addr_a addr_b ra rb first cid cid' sa sb W0 ->
  rtc (two_way_moves clock_a clock_b addr_a addr_b ra rb first cid cid') W0 W' ->
  Z.of_nat (length (w_sent (tw_world W))) < 2 ^ 16 ->
  up_and_running cid cid' W -> handed_over W W' -> is_Some (h_sender (w_a (tw_world W'))) ->
  exists x k, receiving cid cid' (st_seq_number sa) W' x k.
Proof.
  intros H0 Hr Hl [Honly Hans Hal [st Hown] Htask Hexp] [Hob Hos _ Hoo _ _ Hbl] [task Ht].
  destruct (two_way_run clock_a clock_b _ _ _ _ _ _ _ _ _ _ Hr
    (two_way_start_simulates _ _ _ _ _ _ _ _ _ _ H0)) as (x & Hx & Hsim).
  pose proof (tm_world _ _ _ _ _ _ _ _ _ Hsim) as Hw.
  pose proof (two_way_start_exchange _ _ _ _ _ _ _ _ _ _ H0) as Hx0.
  assert (Hfew : Z.of_nat (length (t_sent (x_transfer x))) < 2 ^ 16)
    by by rewrite (sm_sent _ _ _ _ _ _ _ _ Hw), Hos.
  destruct (transfer_reachable_ok clock_a clock_b _ _ (xs_transfer _ Hx0) (xs_receiver _ Hx0)
    (rtc_congruence x_transfer _ _ _ (exchange_transfer clock_a clock_b) Hx) Hfew)
    as [Hseq [k Hok]].
  exists x, k. split; try done.
  - unfold only_stream. by rewrite Hoo.
  - unfold only_answers. by rewrite Hob.
  - rewrite Hob, Hown. f_equal.
    destruct (sm_receiver _ _ _ _ _ _ _ _ Hw) as (_ & _ & Hend). rewrite Hob in Hend.
    by rewrite (Hend _ Hown).
  - by rewrite Hob.
  - by rewrite Hob.
  - destruct (under_way_reachable cid sa sb (tw_world W0) (tw_world W')) as [Hdata Hway];
      [apply H0|by eapply two_way_world|].
    apply Forall_forall. intros p Hp. rewrite Forall_forall in Hdata. split; [by apply Hdata|].
    destruct (Hway task p Ht Hp) as [Hq|Hn]; [|done]. rewrite (Hbl _ Ht) in Hq.
    by apply elem_of_nil in Hq.
Qed.

(** From any state that can be reached. *)
Lemma goes_on `{!PromptMpsc} cid cid' sa sb W0 W :
  two_way_start addr_a addr_b ra rb first cid cid' sa sb W0 ->
  rtc (two_way_moves clock_a clock_b addr_a addr_b ra rb first cid cid') W0 W ->
  Z.of_nat (length (w_sent (tw_world W))) < 2 ^ 16 -> up_and_running cid cid' W ->
  exists W' x k, two_way_moves clock_a clock_b addr_a addr_b ra rb first cid cid' W W' /\
    handed_over W W' /\ receiving cid cid' (st_seq_number sa) W' x k.
Proof.
  intros H0 Hr Hl Hup.
  destruct (two_way_run clock_a clock_b _ _ _ _ _ _ _ _ _ _ Hr
    (two_way_start_simulates _ _ _ _ _ _ _ _ _ _ H0)) as (x & _ & Hsim).
  pose proof (sm_a _ _ _ _ _ _ _ _ (tm_world _ _ _ _ _ _ _ _ _ Hsim)) as Ha.
  destruct (hands_over _ _ _ Ha Hup) as (W' & Hm & Ho & Ht).
  destruct (handed_over_receiving _ _ _ _ _ W W' H0 (rtc_r _ _ _ Hr Hm) Hl Hup Ho Ht)
    as (x' & k & Hrc). by exists W', x', k.
Qed.

(** ** Properties *)

(** C9. The connection is not stuck while the network still delivers: from any
    state that the two hosts can reach by the moves of TwoWay.v in which the
    connection is up and running ([up_and_running]: no other stream of either host
    sends to the other under its identifiers, A's socket has an owner, B's end is
    a stream, B's receiver task runs, and only data and acknowledgements wait in
    the mailbox of B's end), there is a continuation by such moves in which the
    reader at B, with a buffer of any size but 0, gets all the bytes that were
    written at A, whatever was lost, repeated or reordered before; the packets
    that A handed over may be delivered again. This is with B's clock past 1970 and
    prompt channels, and before 65536 packets are sent. *)
Theorem written_can_be_read `{!PromptMpsc} cid cid' sa sb W0 W buf :
  (forall i, 0 <= clock_b i) -> (0 < remaining buf)%nat ->
  two_way_start addr_a addr_b ra rb first cid cid' sa sb W0 ->
  rtc (two_way_moves clock_a clock_b addr_a addr_b ra rb first cid cid') W0 W ->
  Z.of_nat (length (w_sent (tw_world W))) < 2 ^ 16 -> up_and_running cid cid' W ->
  exists W', rtc (two_way_moves clock_a clock_b addr_a addr_b ra rb first cid cid') W W' /\
    w_written (tw_world W') = w_written (tw_world W) /\
    w_read (tw_world W') = w_written (tw_world W).
Proof.
  intros Hc Hroom H0 Hr Hl Hup.
  destruct (goes_on _ _ _ _ _ _ H0 Hr Hl Hup) as (W1 & x & k & Hm & Ho & Hrc).
  destruct (receiving_everything _ _ _ _ _ _ _ Hc Hroom Hrc) as (W' & x' & Hb & Hread & _).
  exists W'. split_and!.
  - eapply rtc_l; [exact Hm|apply Hb].
  - destruct (bs_b_only _ _ _ _ _ _ _ _ _ Hb) as (_ & _ & ->). apply Ho.
  - rewrite Hread. apply Ho.
Qed.
End progress.

(** ** Witnesses

    A writes three times, the second packet overtakes the first, B has read
    nothing, and the third is not even sent: all three bytes can still be read. *)

Definition overtaken : list Turn :=
  [AtFirst (Writes 0%nat [1]); AtFirst (Writes 0%nat [2]); AtFirst Sends; ToSecond 1%nat;
   AtSecond (Reads 0%nat 3%nat); AtFirst (Writes 0%nat [3])].
Definition sample_overtaken : TwoWay :=
  played sample_turn sample_allowed overtaken sample_two_way.

Lemma sample_overtaken_run : rtc sample_moves sample_two_way sample_overtaken.
Proof.
  apply played_run; [intros t W1 W2; apply two_way_turn_moves|]. by vm_compute.
Qed.

Lemma sample_overtaken_facts :
  length (w_sent (tw_world sample_overtaken)) = 3%nat /\
  w_written (tw_world sample_overtaken) = [1; 2; 3] /\
  w_read (tw_world sample_overtaken) = [].
Proof. split_and!; by vm_compute. Qed.

(** Whether the end of [id] is a stream that can be polled. *)
Definition is_pollable (id : ChanId) (h : Host) : bool :=
  bool_decide (is_Some (stream_at id h)) && bool_decide (is_Some (h_receiver h)) &&
  forallb is_expected (mailbox (h_socket h) id).

Lemma is_pollable_elim id h : is_pollable id h = true ->
  (exists st, h_owners h !! id = Some (Streaming st)) /\ is_Some (h_receiver h) /\
  Forall (fun p => is_expected p = true) (mailbox (h_socket h) id).
Proof.
  unfold is_pollable. rewrite !andb_true_iff, !bool_decide_eq_true, forallb_forall.
  intros [[[st Hst] Ht] Hex]. split_and!; [|done|].
  - exists st. unfold stream_at in Hst. destruct (h_owners _ !! id) as [[]|]; by simplify_eq.
  - apply Forall_forall. intros p Hp. by apply Hex, list_elem_of_In.
Qed.

(** The conditions of [up_and_running], decided. *)
Definition is_up (cid cid' : Z) (addr_a addr_b : SocketAddr) (ra rb : ChanId) (W : TwoWay)
    : bool :=
  only_sends cid addr_b ra (w_a (tw_world W)) && only_sends cid' addr_a rb (w_b (tw_world W)) &&
  alive (w_a (tw_world W)) && is_pollable rb (w_b (tw_world W)).

Lemma is_up_elim cid cid' addr_a addr_b ra rb W : is_up cid cid' addr_a addr_b ra rb W = true ->
  up_and_running addr_a addr_b ra rb cid cid' W.
Proof.
  unfold is_up. rewrite !andb_true_iff.
  intros [[[Ha Hb] Hal] (Ho & Ht & Hex)%is_pollable_elim]. split; try done.
  - intros id st'. by apply only_sends_elim.
  - intros id st'. by apply only_sends_elim.
Qed.

Lemma sample_overtaken_up :
  is_up 77 78 sample_addr sample_peer 0%nat 0%nat sample_overtaken = true.
Proof. by vm_compute. Qed.

Lemma written_can_be_read_witness : exists W, rtc sample_moves sample_overtaken W /\
  w_read (tw_world sample_overtaken) = [] /\ w_read (tw_world W) = [1; 2; 3].
Proof.
  destruct sample_overtaken_facts as (Hl & Hw & Hr).
  destruct (written_can_be_read sample_clock sample_clock sample_addr sample_peer 0%nat 0%nat
    500 77 78 _ _ _ sample_overtaken sample_buf sample_clock_nonneg ltac:(cbn; lia)
    sample_two_way_start sample_overtaken_run) as (W & HW & _ & Hread).
  - rewrite Hl. reflexivity.
  - apply is_up_elim, sample_overtaken_up.
  - exists W. split; [exact HW|]. split; [exact Hr|]. rewrite <- Hw. exact Hread.
Defined.
