(* ===== verification/Settle.v ===== *)
(** * Every connection can settle

    The other half of Progress.v: when everything is read, the acknowledgement of
    the last read can travel back, and a flush at the writer is ready, from any
    state that two hosts reach in which the connection is up and running at both
    ends. *)

From S2P Require Import Prelude Crates CratesRef Errors Time Packet.
From S2P Require Import PacketWire Congestion Socket PacketSender PacketReceiver Stream.
From S2P Require Import StreamFacts StreamRead StreamWrite StreamInvariant Polls.
From S2P Require Import Listener Handshake Host Boxes HostState HostEffect Delivery Transfer.
From S2P Require Import Acks Runs World TwoWay Progress.

(** ** The last acknowledgement *)

Section stream.
Context `{By : BytesCrate, Rb : ReadBufCrate, Mp : MpscCrate, Dm : DashMapCrate}.
Variable clock : nat -> SystemTime.

(** It covers everything in flight. *)
Lemma pop_acked_rest n ds m : 0 <= n -> n + Z.of_nat (length ds) <= 2 ^ 16 ->
  pop_acked (n + Z.of_nat (length ds) - 1) (drop m (numbered n ds)) = [].
Proof.
  intros Hn Hl. rewrite numbered_drop. destruct (decide (length ds <= m)%nat) as [Hge|Hlt].
  - rewrite drop_ge by done. by rewrite numbered_nil.
  - assert (seq_at n m = n + Z.of_nat m) as Hs by (unfold seq_at; int_lia).
    rewrite pop_acked_no_wrap by (rewrite ?Hs, ?length_drop; lia).
    apply drop_ge. rewrite length_numbered, length_drop, Hs. lia.
Qed.

(** A flush that finds it behind other packets of the connection is ready. *)
Lemma last_ack_flushes `{!PromptMpsc} fuel st e n ds k acks box p :
  receivable clock fuel st e ->
  mailbox (env_socket e) (inbound_packets st) = box ++ [p] ->
  Forall (fun p => packet_type p = State -> ack_number p ∈ acks) box ->
  Forall (covers n k) acks -> keeps_unacked n ds k st ->
  1 <= n -> n + Z.of_nat (length ds) <= 2 ^ 16 ->
  st_seq_number st = seq_at n (length ds) -> packet_type p = State ->
  ack_number p = n + Z.of_nat (length ds) - 1 ->
  exists st' e', poll_flush clock fuel st e = Done (Ready (Ok tt), st', e').
Proof.
  intros Hrec Hbox Hacks Hcov Hun Hn Hl Hseq Hp Ha.
  destruct (process_packets_whole clock fuel st e Hrec) as (st2 & e2 & Hpp & Hall).
  rewrite Hbox, receive_all_app in Hall. apply bind_Done in Hall as (st1 & H1 & H2).
  pose proof (receive_all_same _ _ _ _ _ H1) as [[_ _ _ _ Hseq1 _ _] _].
  destruct (receive_all_keeps clock clock clock _ _ _ _ n ds k acks H1) as (m & Hm & Hu1);
    [lia|done..|].
  destruct (receive_ack clock (clock_reads e + length box) st1 p) as (st3 & H3 & Hu3);
    [apply Hrec|done| |].
  { rewrite Hseq1, Hseq, Ha. unfold seq_at. int_lia. }
  cbn in H2. rewrite H3 in H2. cbn in H2. injection H2 as <-.
  exists st3, e2. unfold poll_flush. rewrite Hpp. cbn.
  rewrite Hu3, Hu1, Ha, pop_acked_rest by lia. done.
Qed.
End stream.

(** ** Helper lemmas *)

Section settle.
Context `{By : BytesCrate, Rb : ReadBufCrate, Mp : MpscCrate, Dm : DashMapCrate}.
Variables clock_a clock_b : nat -> SystemTime.
Variables addr_a addr_b : SocketAddr.
Variables ra rb : ChanId.
Variable first : Z.
Abbreviation moves := (two_way_moves clock_a clock_b addr_a addr_b ra rb first).
Abbreviation receiving := (receiving addr_a addr_b ra rb first).

(** B's sender task hands an acknowledgement to the network. *)
Lemma acknowledges `{!PromptMpsc} cid cid' n W x k ack : receiving cid cid' n W x k ->
  (ack, addr_a) ∈ queued (outgoing_channel (h_socket (w_b (tw_world W)))) ->
  exists W' x' k', moves cid cid' W W' /\ receiving cid cid' n W' x' k' /\
    tw_world W' = b_moved rb (tw_world W) (emits []) (w_b (tw_world W')) /\
    wf_Packet ack /\ wire ack ∈ tw_back W'.
Proof.
  intros Hrc Hack.
  pose proof (sm_b _ _ _ _ _ _ _ _ (tm_world _ _ _ _ _ _ _ _ _ (rc_sim _ _ _ _ _ _ _ _ _ _ _ Hrc)))
    as Hb.
  pose proof (rc_owner _ _ _ _ _ _ _ _ _ _ _ Hrc) as Hown.
  destruct (host_sends clock_b (from_net addr_a (w_net (tw_world W))) _ Hb
    (alive_owner _ _ _ Hown)) as (task & task' & s' & sent & Ht & Hstep & _ & Hm & Hwf & Hser).
  destruct (receiving_moved clock_a clock_b _ _ _ _ _ _ _ _ _ _ _ _ _ (t_receiver (x_transfer x)) Hrc Hstep)
    as (x' & k' & Hmv & Hrc' & _).
  - cbn. symmetry. by apply insert_id.
  - apply Hrc.
  - cbn. unfold mailbox. rewrite Hm. apply Hrc.
  - eexists _, x', k'. split_and!; [exact Hmv|exact Hrc'|done|..].
    all: destruct (gone_emitted _ _ ack addr_a Hwf Hser) as [Hw Hin];
      [by apply elem_of_app; right|].
    + done.
    + cbn. apply elem_of_app. by right.
Qed.

(** B has read everything, and its last acknowledgement is in the network; A has
    only sent what it had queued. *)
Record acknowledged (cid' n : Z) (W W' : TwoWay) (ack : Packet) : Prop := {
  ak_sent : w_sent (tw_world W') = w_sent (tw_world W);
  ak_written : w_written (tw_world W') = w_written (tw_world W);
  ak_read : w_read (tw_world W') = w_written (tw_world W);
  ak_owners : h_owners (w_a (tw_world W')) = h_owners (w_a (tw_world W));
  ak_task : h_receiver (w_a (tw_world W')) = h_receiver (w_a (tw_world W));
  ak_mailbox : mailbox (h_socket (w_a (tw_world W'))) ra =
    mailbox (h_socket (w_a (tw_world W))) ra;
  ak_wf : wf_Packet ack;
  ak_type : packet_type ack = State;
  ak_id : connection_id ack = cid';
  ak_number : ack_number ack =
    wrapping_sub16 (seq_at n (length (w_sent (tw_world W)))) 1;
  ak_back : wire ack ∈ tw_back W';
}.

Lemma all_acknowledged `{!PromptMpsc} cid cid' sa sb W0 W buf :
  (forall i, 0 <= clock_b i) -> (0 < remaining buf)%nat ->
  two_way_start addr_a addr_b ra rb first cid cid' sa sb W0 -> rtc (moves cid cid') W0 W ->
  Z.of_nat (length (w_sent (tw_world W))) < 2 ^ 16 ->
  up_and_running addr_a addr_b ra rb cid cid' W ->
  exists W' x k ack, rtc (moves cid cid') W W' /\
    receiving cid cid' (st_seq_number sa) W' x k /\
    acknowledged cid' (st_seq_number sa) W W' ack.
Proof.
  intros Hc Hroom H0 Hr Hl Hup.
  destruct (goes_on clock_a clock_b _ _ _ _ _ _ _ _ _ _ _ H0 Hr Hl Hup)
    as (W1 & x1 & k1 & Hm1 & [_ Hs1 Hwr1 Ho1 Ht1 Hbox1 _] & Hrc1).
  destruct (receiving_everything clock_a clock_b _ _ _ _ _ _ _ _ _ _ _ _ Hc Hroom Hrc1)
    as (W2 & x2 & Hb & Hread & now & Hq).
  pose proof (bs_next _ _ _ _ _ _ _ _ _ _ _ _ _ _ _ _ Hb) as Hrc2.
  destruct (bs_b_only _ _ _ _ _ _ _ _ _ _ _ _ _ _ _ _ Hb) as (Ha2 & Hs2 & Hwr2).
  destruct (acknowledges _ _ _ _ _ _ _ Hrc2 Hq) as (W3 & x3 & k3 & Hm3 & Hrc3 & Hw3 & Hwf & Hback).
  exists W3, x3, k3, (ack_packet (t_receiver (x_transfer x2)) now).
  pose proof (rc_sim _ _ _ _ _ _ _ _ _ _ _ Hrc2) as [Hw2 _ Hid _ _].
  split; [|split; [done|]].
  { eapply rtc_l; [exact Hm1|]. etrans; [apply Hb|by apply rtc_once]. }
  split; [rewrite Hw3; cbn..| | | | |exact Hback].
  - congruence.
  - congruence.
  - rewrite app_nil_r. congruence.
  - congruence.
  - congruence.
  - rewrite Ha2. unfold mailbox. by rewrite Hbox1.
  - exact Hwf.
  - reflexivity.
  - exact Hid.
  - cbn. rewrite (to_ack _ _ _ (rc_ok _ _ _ _ _ _ _ _ _ _ _ Hrc2)).
    by rewrite (sm_sent _ _ _ _ _ _ _ _ Hw2), Hs2, Hs1.
Qed.

(** It arrives at A. *)
Lemma ack_arrives cid cid' n W x k sta ack : receiving cid cid' n W x k ->
  h_owners (w_a (tw_world W)) !! ra = Some (Streaming sta) ->
  is_Some (h_receiver (w_a (tw_world W))) ->
  wf_Packet ack -> packet_type ack = State ->
  connection_id ack = cid' -> wire ack ∈ tw_back W ->
  exists a', moves cid cid' W (mkTwoWay (a_moved addr_b ra (tw_world W) silent a') (tw_back W)) /\
    h_owners a' !! ra = Some (Streaming sta) /\
    mailbox (h_socket a') ra = mailbox (h_socket (w_a (tw_world W))) ra ++ [ack].
Proof.
  intros Hrc Hown Htask Hwf Hp Hid Hback.
  pose proof (rc_sim _ _ _ _ _ _ _ _ _ _ _ Hrc) as [Hw Hka Hkb _ _].
  destruct (sm_sender _ _ _ _ _ _ _ _ Hw) as (_ & _ & Hend).
  injection (Hend _ Hown) as Hsta.
  destruct (host_receives clock_a (from_net addr_b (tw_back W)) (w_a (tw_world W)) ra _ ack addr_b
    (sm_a _ _ _ _ _ _ _ _ Hw) Htask Hown Hwf) as (s' & Hstep & Hbox & _);
    [congruence|unfold recv_key in Hka; cbn; congruence|by intros _|].
  eexists. split; [split_and!; [apply Hrc| | |by eapply both_a]|by split].
  - apply Hrc.
  - intros c st Hc. pose proof (rc_owner _ _ _ _ _ _ _ _ _ _ _ Hrc). cbn in Hc. congruence.
Qed.

(** A flush behind the last acknowledgement, in a state that can be reached. *)
Lemma settled_flush `{!PromptMpsc} cid cid' sa sb W0 W sta box ack :
  (forall i, 0 <= clock_a i) ->
  two_way_start addr_a addr_b ra rb first cid cid' sa sb W0 -> rtc (moves cid cid') W0 W ->
  1 <= st_seq_number sa ->
  st_seq_number sa + Z.of_nat (length (w_sent (tw_world W))) <= 2 ^ 16 ->
  h_owners (w_a (tw_world W)) !! ra = Some (Streaming sta) ->
  mailbox (h_socket (w_a (tw_world W))) ra = box ++ [ack] ->
  Forall (fun p => is_expected p = true) box -> packet_type ack = State ->
  ack_number ack = st_seq_number sa + Z.of_nat (length (w_sent (tw_world W))) - 1 ->
  exists fuel st' e', poll_flush clock_a fuel sta (mkEnv (h_socket (w_a (tw_world W))) 0) =
    Done (Ready (Ok tt), st', e').
Proof.
  intros Hc H0 Hr Hn Hl Hown Hbox Hex Hp Hack.
  destruct (two_way_run clock_a clock_b _ _ _ _ _ _ _ _ _ _ Hr
    (two_way_start_simulates _ _ _ _ _ _ _ _ _ _ H0)) as (x & Hx & Hsim).
  pose proof (tm_world _ _ _ _ _ _ _ _ _ Hsim) as Hw.
  rewrite <- (sm_sent _ _ _ _ _ _ _ _ Hw), <- length_payloads in Hl, Hack.
  destruct (exchange_reachable_ok clock_a clock_b _ _ (two_way_start_exchange _ _ _ _ _ _ _ _ _ _ H0)
    Hx Hn) as (k & [Hok _ Hcov Hun]); [by rewrite <- length_payloads|].
  pose proof (tracked_acks _ _ _ _ _ _ _ _ _ Hsim) as Hacks.
  destruct (sm_sender _ _ _ _ _ _ _ _ Hw) as (_ & _ & Hend).
  injection (Hend _ Hown) as Hsta. rewrite <- Hsta in Hacks, Hun. specialize (Hacks Hown).
  destruct (owner_pollable clock_a _ _ _ Hc (sm_a _ _ _ _ _ _ _ _ Hw) Hown) as [Hrx Hpoll].
  { rewrite Hbox. apply Forall_app. split; [done|]. apply Forall_singleton.
    unfold is_expected. by rewrite Hp. }
  unfold acks_from in Hacks. rewrite Hrx, Hbox in Hacks. apply Forall_app in Hacks as [Hacks _].
  eexists. eapply (last_ack_flushes clock_a _ sta _ _ (payloads (x_transfer x)));
    [apply Hpoll|cbn; by rewrite Hrx|exact Hacks|exact Hcov|exact Hun|done|done| |done|done].
  rewrite Hsta, length_payloads. apply Hok.
Qed.

(** ** Properties *)

(** C8. A flush can become ready: from any state that the two hosts can reach by
    the moves of TwoWay.v, there is a continuation by such moves after which the
    reader has all the bytes written and a [poll_flush] of the stream at A, as it
    is, is ready; provided that in that state the connection is up and running
    ([up_and_running]: no other stream of either host sends to the other under its
    identifiers, A's socket has an owner, B's end is a stream, B's receiver task
    runs, and only data and acknowledgements wait in the mailbox of B's end), that
    A's end is a stream, A's receiver task runs and only data and acknowledgements
    wait in its mailbox, that the clocks are past 1970 and channels prompt, and
    that the sequence numbers, which start at 1 or later, do not wrap around. A
    receiver task that an error of the UDP socket has ended
    leaves no such continuation. *)
Theorem flush_can_be_ready `{!PromptMpsc} cid cid' sa sb W0 W sta buf :
  (forall i, 0 <= clock_a i) -> (forall i, 0 <= clock_b i) -> (0 < remaining buf)%nat ->
  two_way_start addr_a addr_b ra rb first cid cid' sa sb W0 -> rtc (moves cid cid') W0 W ->
  1 <= st_seq_number sa ->
  st_seq_number sa + Z.of_nat (length (w_sent (tw_world W))) <= 2 ^ 16 ->
  up_and_running addr_a addr_b ra rb cid cid' W ->
  h_owners (w_a (tw_world W)) !! ra = Some (Streaming sta) ->
  is_Some (h_receiver (w_a (tw_world W))) ->
  Forall (fun p => is_expected p = true) (mailbox (h_socket (w_a (tw_world W))) ra) ->
  exists W' fuel st' e', rtc (moves cid cid') W W' /\
    w_read (tw_world W') = w_written (tw_world W) /\
    w_written (tw_world W') = w_written (tw_world W) /\
    h_owners (w_a (tw_world W')) !! ra = Some (Streaming sta) /\
    poll_flush clock_a fuel sta (mkEnv (h_socket (w_a (tw_world W'))) 0) =
      Done (Ready (Ok tt), st', e').
Proof.
  intros Hca Hcb Hroom H0 Hr Hn Hl Hup Hown Htask Hex.
  destruct (all_acknowledged _ _ _ _ _ _ _ Hcb Hroom H0 Hr) as (W3 & x & k & ack & Hr3 & Hrc & Hak);
    [lia|done|]. destruct Hak as [Hs3 Hwr3 Hread Ho3 Ht3 Hbox3 Hwf Hp Hid Hack Hback].
  destruct (ack_arrives _ _ _ _ _ _ sta ack Hrc) as (a4 & Hm4 & Hown4 & Hbox4);
    [by rewrite Ho3|by rewrite Ht3|done..|].
  rewrite Hbox3 in Hbox4. set (W4 := mkTwoWay _ _) in Hm4.
  assert (Hs4 : w_sent (tw_world W4) = w_sent (tw_world W)) by (cbn; by rewrite app_nil_r).
  assert (Hr4 : rtc (moves cid cid') W W4) by by eapply rtc_r.
  destruct (settled_flush cid cid' sa sb W0 W4 sta _ _ Hca H0 (rtc_trans _ _ _ Hr Hr4) Hn
    ltac:(by rewrite Hs4) Hown4 Hbox4 Hex Hp) as (fuel & st' & e' & Hf).
  - rewrite Hack, Hs4. unfold seq_at. int_lia.
  - exists W4, fuel, st', e'. split_and!; [done|done| |done|done].
    cbn. by rewrite app_nil_r.
Qed.
End settle.

(** ** Witnesses

    The connection of Progress.v where one packet overtook another and a third
    was not sent. *)

Lemma sample_overtaken_pollable : is_pollable 0%nat (w_a (tw_world sample_overtaken)) = true.
Proof. by vm_compute. Qed.

Lemma flush_can_be_ready_witness : exists W st fuel st' e', rtc sample_moves sample_overtaken W /\
  w_read (tw_world W) = [1; 2; 3] /\
  h_owners (w_a (tw_world W)) !! 0%nat = Some (Streaming st) /\
  poll_flush sample_clock fuel st (mkEnv (h_socket (w_a (tw_world W))) 0) =
    Done (Ready (Ok tt), st', e').
Proof.
  destruct sample_overtaken_facts as (Hl & Hw & _).
  destruct (is_pollable_elim _ _ sample_overtaken_pollable) as ([st Hst] & Ht & Hex).
  destruct (flush_can_be_ready sample_clock sample_clock sample_addr sample_peer 0%nat 0%nat
    500 77 78 _ _ _ sample_overtaken st sample_buf sample_clock_nonneg sample_clock_nonneg
    ltac:(cbn; lia) sample_two_way_start sample_overtaken_run)
    as (W & fuel & st' & e' & HW & Hread & _ & Hown & Hf).
  - vm_compute. discriminate.
  - rewrite Hl. vm_compute. discriminate.
  - apply is_up_elim, sample_overtaken_up.
  - exact Hst.
  - exact Ht.
  - exact Hex.
  - exists W, st, fuel, st', e'. rewrite <- Hw.
    split; [exact HW|]. split; [exact Hread|]. split; [exact Hown|exact Hf].
Defined.
