(* ===== verification/Fair.v ===== *)
(** * Fair runs

    What happens in the long run. In an infinite run of the two hosts of World.v
    in which the tasks are polled, the network delivers every data packet once and
    a reader comes back whenever there is something for it, everything written is
    read: the tasks and the two ends of the connection drop no packet, as long as
    the writer is never more than 128 packets ahead of the reader. *)

From S2P Require Import Prelude Crates CratesRef Errors Time Packet.
From S2P Require Import PacketWire Congestion Socket PacketSender PacketReceiver Stream.
From S2P Require Import StreamFacts StreamRead StreamWrite StreamInvariant Polls.
From S2P Require Import Listener Handshake Host Boxes HostState HostEffect Delivery Transfer.
From S2P Require Import Acks Runs World Mailbox TwoWay Progress Wakers.

(** ** Definitions *)

(** Whenever [P] holds, [Q] holds then or later. *)
Definition leads_to {S} (run : nat -> S) (P Q : S -> Prop) : Prop :=
  forall i, P (run i) -> exists j, (i <= j)%nat /\ Q (run j).

Section fair.
Context `{By : BytesCrate, Rb : ReadBufCrate, Mp : MpscCrate, Dm : DashMapCrate}.
Variables clock_a clock_b : nat -> SystemTime.
Variables addr_a addr_b : SocketAddr.
Variables ra rb : ChanId.
Variable first : Z.

(** A [poll_read] of B's end, with room in its buffer. *)
Definition reads (h h' : Host) : Prop :=
  exists st fuel n buf r st' e' buf',
    (0 < remaining buf)%nat /\ h_owners h !! rb = Some (Streaming st) /\
    poll_read clock_b fuel st (mkEnv (h_socket h) n) buf = Done (r, st', e', buf') /\
    h' = with_owner rb (Streaming st') (with_h_socket (env_socket e') h).

(** There is something for a reader to do at B: the condition under which its
    task is woken ([sole_task_waits_rightly] of Wakers.v). *)
Definition readable (w : World) : Prop :=
  exists st, h_owners (w_b w) !! rb = Some (Streaming st) /\
    (mailbox (h_socket (w_b w)) rb <> [] \/ ~ must_wait Reading st).

(** The two ends are there, and A has sent at most 128 packets that B has not
    reassembled. *)
Definition in_step (w : World) : Prop :=
  exists sta stb, h_owners (w_a w) !! ra = Some (Streaming sta) /\
    h_owners (w_b w) !! rb = Some (Streaming stb) /\
    wrapping_sub16 (wrapping_sub16 (st_seq_number sta) 1) (st_ack_number stb) <= 128.

(** What waits to be sent to B. *)
Definition waits (p : Packet) (w : World) : Prop :=
  exists task, h_sender (w_a w) = Some task /\
    (p, addr_b) ∈ backlog task (h_socket (w_a w)).

(** A run, with pauses, that treats everybody fairly. *)
Record fair (cid : Z) (run : nat -> World) : Prop := {
  fr_moves : forall i, run (S i) = run i \/
    world_moves clock_a clock_b addr_a addr_b ra rb first cid (run i) (run (S i));
  fr_ends : forall i, in_step (run i);
  fr_sends : forall p, leads_to run (waits p) (fun w => ~ waits p w);
  fr_delivers : forall i p, data_for cid p -> wire p ∈ w_net (run i) ->
    exists j, receives (w_b (run j)) (w_b (run (S j))) (wire p) addr_a;
  fr_reads : forall i, readable (run i) ->
    exists j, (i <= j)%nat /\ reads (w_b (run j)) (w_b (run (S j)));
}.

(** The [i]-th packet has come to a receiver that has reassembled [k] packets. *)
Definition has_come (n : Z) (i k : nat) (m : gmap Z bytes) (box : list Packet) : Prop :=
  (i < k)%nat \/ is_Some (m !! seq_at n i) \/
  exists p, p ∈ box /\ packet_type p = Data /\ seq_number p = seq_at n i.

(** The world simulates the transfer [t], with [k] packets reassembled. *)
Record caught (cid n : Z) (w : World) (t : Transfer) (k : nat) : Prop := {
  ca_sim : simulates addr_a addr_b ra rb first cid w t;
  ca_ok : transfer_ok n t k;
  ca_seq : u16 (st_seq_number (t_receiver t));
  ca_few : Z.of_nat (length (w_sent w)) < 2 ^ 16;
  ca_step : in_step w;
}.

(** The [i]-th packet of the connection is at B. *)
Definition at_b (n : Z) (i k : nat) (w : World) (t : Transfer) : Prop :=
  has_come n i k (inbound_data (t_receiver t)) (mailbox (h_socket (w_b w)) rb).

(** ** Helper lemmas: polls *)

(** What a run does not take stays. *)
Lemma run_kept m n ds m' x d : StreamRead.run m n ds m' -> m !! x = Some d ->
  (forall i, (i < length ds)%nat -> x <> seq_at n i) -> u16 n -> m' !! x = Some d.
Proof.
  intros Hr. induction Hr as [m n Hn|m n d0 ds m' Hd _ IH]; intros Hx Hne Hu; [done|].
  apply IH; [| |apply wrapping_add16_u16].
  - rewrite lookup_delete_ne; [done|]. intros <-. apply (Hne 0%nat); [cbn; lia|].
    unfold seq_at. cbn. by rewrite wrapping_add16_0.
  - intros i Hi. rewrite seq_at_shift. apply Hne. cbn. lia.
Qed.

(** A packet in the window that has come is buffered, or still in the mailbox. *)
Lemma come_buffered n t k popped box' i : transfer_ok n t k ->
  Z.of_nat (length (t_sent t)) < 2 ^ 16 -> Forall (genuine n (payloads t)) popped ->
  (i < length (t_sent t))%nat -> (k <= i < k + 128)%nat ->
  has_come n i k (inbound_data (t_receiver t)) (popped ++ box') ->
  is_Some (buffer_data (st_ack_number (t_receiver t)) (inbound_data (t_receiver t)) popped
    !! seq_at n i) \/
  exists p, p ∈ box' /\ packet_type p = Data /\ seq_number p = seq_at n i.
Proof.
  intros Hok Hl Hg Hi Hwin Har. rewrite <- length_payloads in Hl, Hi.
  destruct (lookup_lt_is_Some_2 _ _ Hi) as [d Hd]. destruct Har as [Har|Har]; [lia|].
  destruct Har as [Hm|(p & [Hp|Hp]%elem_of_app & Ht & Hs)]; [left|left|right; by exists p];
    exists d; (apply (buffer_data_lookup n (payloads t)); [apply Hok|done|done|]);
    (split; [by exists i|]); [by left|right].
  exists p. split_and!; [done| |done].
  apply (keeps_seq_at clock_b _ _ (i - k));
    [rewrite (to_ack _ _ _ Hok); apply wrapping_sub16_u16|done| |lia|lia].
  rewrite Hs, (to_ack _ _ _ Hok), wrapping_add16_sub16 by apply seq_at_u16.
  rewrite seq_at_add. f_equal. lia.
Qed.

(** A packet in the window that has come stays so. *)
Lemma took_come n t k st' box box' ds i k' : transfer_ok n t k ->
  Z.of_nat (length (t_sent t)) < 2 ^ 16 -> Forall (genuine n (payloads t)) box ->
  took (t_receiver t) st' box box' ds -> (k + length ds <= k')%nat ->
  (i < length (t_sent t))%nat -> (i < k + 128)%nat ->
  has_come n i k (inbound_data (t_receiver t)) box -> has_come n i k' (inbound_data st') box'.
Proof.
  intros Hok Hl Hg (popped & -> & Hrun & _) Hk' Hi Hwin Har.
  apply Forall_app in Hg as [Hg _].
  destruct (decide (i < k')%nat) as [Hlt|Hge]; [by left|right].
  assert (Hki : (k <= i < k + 128)%nat) by lia.
  destruct (come_buffered _ _ _ _ _ _ Hok Hl Hg Hi Hki Har) as [[d Hd]|Hbox];
    [left; exists d|by right].
  destruct Hrun as [Hrun|[_ ->]]; [|done].
  rewrite (to_ack _ _ _ Hok), wrapping_add16_sub16 in Hrun by apply seq_at_u16.
  rewrite <- (to_ack _ _ _ Hok) in Hrun.
  eapply run_kept; [exact Hrun|done| |apply seq_at_u16].
  intros j Hj. rewrite seq_at_add. intros Heq%seq_at_inj; lia.
Qed.

(** ** Helper lemmas: a step of the run *)

Lemma in_step_window cid n w t k i : caught cid n w t k -> (i < length (w_sent w))%nat ->
  (i < k + 128)%nat.
Proof.
  intros [Hsim Hok _ Hl (sta & stb & Ha & Hb & Hwin)] Hi.
  pose proof (to_k _ _ _ Hok) as Hk. rewrite length_payloads in Hk.
  pose proof (to_seq _ _ _ Hok) as Hs. pose proof (to_ack _ _ _ Hok) as Hack.
  rewrite (sm_sent _ _ _ _ _ _ _ _ Hsim) in Hk, Hs.
  destruct (sm_sender _ _ _ _ _ _ _ _ Hsim) as (_ & _ & Hsa).
  destruct (sm_receiver _ _ _ _ _ _ _ _ Hsim) as (_ & _ & Hsb).
  injection (Hsa _ Ha) as ->. rewrite (Hsb _ Hb) in Hwin.
  rewrite Hs, Hack in Hwin. unfold seq_at in Hwin. int_lia.
Qed.

(** What waits for B's end is what A sent. *)
Lemma caught_genuine cid n w t k : caught cid n w t k ->
  h_owners (w_b w) !! rb = Some (Streaming (t_receiver t)) /\
  Forall (genuine n (payloads t)) (mailbox (h_socket (w_b w)) rb).
Proof.
  intros [Hsim Hok _ _ (_ & stb & _ & Hb & _)].
  destruct (sm_receiver _ _ _ _ _ _ _ _ Hsim) as (_ & _ & Hsb). rewrite (Hsb _ Hb) in Hb.
  split; [done|].
  destruct (ok_owners _ (sm_b _ _ _ _ _ _ _ _ Hsim) _ _ Hb) as (Hid & _).
  pose proof (from_network_genuine n t k _ (mkEnv _ 0) Hok
    (tracked_mailbox _ _ _ _ _ _ _ _ Hsim Hb)) as Hg.
  cbn [env_socket] in Hg. by rewrite Hid in Hg.
Qed.

(** How many packets are reassembled after a poll. *)
Lemma took_number cid n w t k box' ds t' k' : caught cid n w t k ->
  took (t_receiver t) (t_receiver t') (mailbox (h_socket (w_b w)) rb) box' ds ->
  transfer_ok n t' k' -> Z.of_nat (length (t_sent t')) < 2 ^ 16 -> k' = (k + length ds)%nat.
Proof.
  intros Hc (popped & Hm & Hrun & Ha) Hok' Hl'.
  destruct (caught_genuine _ _ _ _ _ Hc) as [_ Hg]. destruct Hc as [Hsim Hok _ Hl _].
  rewrite <- (sm_sent _ _ _ _ _ _ _ _ Hsim) in Hl. rewrite Hm in Hg.
  apply Forall_app in Hg as [Hg _].
  pose proof (to_k _ _ _ Hok) as Hk. pose proof (to_k _ _ _ Hok') as Hk'.
  rewrite length_payloads in Hk, Hk'.
  assert (k + length ds <= length (t_sent t))%nat as Hle.
  { destruct Hrun as [Hrun|[-> _]]; [|cbn; lia].
    by destruct (run_next clock_b _ _ _ _ _ _ sample_queued Hok Hl Hg Hrun). }
  apply (seq_at_inj n); [lia..|]. rewrite (to_ack _ _ _ Hok), (to_ack _ _ _ Hok') in Ha.
  pose proof (seq_at_u16 n k'). pose proof (seq_at_u16 n (k + length ds)).
  rewrite <- seq_at_add. unfold seq_at in *. int_lia.
Qed.

(** A step of B that takes no packets leaves what its end buffered. *)
Lemma not_taken h l h' arrives id st st' : host_step clock_b arrives h l h' -> host_ok h ->
  h_owners h !! id = Some (Streaming st) -> h_owners h' !! id = Some (Streaming st') ->
  takes_packets id l = false -> same_ids st st' /\ inbound_data st' = inbound_data st.
Proof.
  intros Hstep Hok Ho Ho' Htp. pose proof (host_step_effect _ _ _ _ _ Hstep Hok) as He.
  pose proof (ef_owners _ _ _ _ _ He id (owner_below _ _ _ Hok Ho)) as Hev.
  unfold owner_evolves, takes_packets in *.
  destruct (event_of id l) as [[chunk|acc packets|]|]; try done.
  - destruct Hev as (st0 & st1 & Hst & Hst1 & Hp). simplify_eq.
    split; [by eapply stream_poll_ids|]. destruct Hp as (n & buf & r & e' & Hr & _).
    apply poll_write_Done in Hr as (out & _ & Hw); [apply Hw|].
    destruct (ok_owners _ Hok _ _ Ho) as (_ & _ & Hwf). apply Hwf.
  - destruct Hev as [Hsame|[Hn|(c & p & Hc & _)]]; [|congruence..].
    rewrite Ho, Ho' in Hsame. injection Hsame as ->. by split; [split|].
Qed.

(** What is at B stays there. *)
Lemma b_step_come cid n w t k l b' t' k' i :
  caught cid n w t k -> caught cid n (b_moved rb w l b') t' k' -> (k <= k')%nat ->
  host_step clock_b (from_net addr_a (w_net w)) (w_b w) l b' ->
  (i < length (w_sent w))%nat -> at_b n i k w t -> at_b n i k' (b_moved rb w l b') t'.
Proof.
  intros Hc Hc' Hk Hstep Hi Har.
  pose proof (in_step_window _ _ _ _ _ _ Hc Hi) as Hwin.
  destruct (caught_genuine _ _ _ _ _ Hc) as [Hb Hg].
  destruct (caught_genuine _ _ _ _ _ Hc') as [Hb' _]. cbn in Hb'.
  pose proof (sm_b _ _ _ _ _ _ _ _ (ca_sim _ _ _ _ _ Hc)) as Hhb.
  pose proof (sm_sent _ _ _ _ _ _ _ _ (ca_sim _ _ _ _ _ Hc)) as Hse.
  pose proof (sm_sent _ _ _ _ _ _ _ _ (ca_sim _ _ _ _ _ Hc')) as Hse'. cbn in Hse'.
  pose proof (ca_few _ _ _ _ _ Hc) as Hl. unfold at_b in *. cbn [w_b b_moved].
  destruct (takes_packets rb l) eqn:Htp.
  - destruct (host_step_took _ _ _ _ _ _ _ Hstep Hhb Hb Htp) as (st2 & ds & Hb2 & Htook).
    rewrite Hb' in Hb2. injection Hb2 as <-.
    assert (k' = (k + length ds)%nat) as ->.
    { eapply took_number; [exact Hc|exact Htook|apply Hc'|]. by rewrite Hse'. }
    rewrite <- Hse in Hl, Hi. eapply took_come; [apply Hc|done..| |done|done|exact Har]. lia.
  - destruct (not_taken _ _ _ _ _ _ _ Hstep Hhb Hb Hb' Htp) as [Hids ->].
    destruct (mailbox_kept _ _ _ _ _ _ _ _ Hstep Hhb Hb Hb' Hids Htp) as [more ->].
    destruct Har as [Har|[Har|(p & Hp & Hpt)]]; [left; lia|by right; left|].
    right; right. exists p. split; [|done]. apply elem_of_app. by left.
Qed.

Lemma step_come cid n w t k w' :
  caught cid n w t k -> in_step w' -> Z.of_nat (length (w_sent w')) < 2 ^ 16 ->
  world_moves clock_a clock_b addr_a addr_b ra rb first cid w w' ->
  exists t' k', caught cid n w' t' k' /\ (k <= k')%nat /\
    w_read w `prefix_of` w_read w' /\ w_sent w `prefix_of` w_sent w' /\
    forall i, (i < length (w_sent w))%nat -> at_b n i k w t -> at_b n i k' w' t'.
Proof.
  intros Hc Hin Hl Hm. pose proof Hc as [Hsim Hok Hu _ _].
  destruct (world_moves_simulates _ _ _ _ _ _ _ _ _ _ _ Hm Hsim) as (t' & Ht & Hsim').
  destruct (transfer_run_ok clock_a clock_b n t k t' Ht) as [Hu' (k' & Hk & Hok')];
    [by rewrite (sm_sent _ _ _ _ _ _ _ _ Hsim')|done..|].
  exists t', k'. assert (Hc' : caught cid n w' t' k') by done.
  destruct Hm as (_ & _ & Hstep).
  inversion Hstep as [l a' Hs Heq|l b' Hs Heq]; subst w'; split_and!; try done;
    try by apply prefix_app_r.
  - intros i Hi Har. unfold at_b in *. cbn [w_b a_moved].
    destruct (caught_genuine _ _ _ _ _ Hc) as [Hb _].
    destruct (caught_genuine _ _ _ _ _ Hc') as [Hb' _].
    injection (eq_trans (eq_sym Hb) Hb') as <-. destruct Har as [Har|Har]; [left; lia|by right].
  - intros i Hi. by eapply b_step_come.
Qed.

(** A poll of the reader empties the mailbox, and hands over what it can. *)
Lemma owner_reads `{!PromptMpsc} h id st fuel m buf r st' e' buf' :
  (forall i, 0 <= clock_b i) -> host_ok h -> h_owners h !! id = Some (Streaming st) ->
  poll_read clock_b fuel st (mkEnv (h_socket h) m) buf = Done (r, st', e', buf') ->
  exists (ds : list bytes) chunk,
    run (buffer_data (st_ack_number st) (inbound_data st) (mailbox (h_socket h) id))
      (wrapping_add16 (st_ack_number st) 1) ds (inbound_data st') /\
    st_ack_number st' = wrapping_add16 (st_ack_number st) (Z.of_nat (length ds)) /\
    received_data st ++ concat ds = chunk ++ received_data st' /\
    length chunk = (remaining buf `min` length (received_data st ++ concat ds))%nat.
Proof.
  intros Hclock Hok Ho Hr. destruct (ok_owners _ Hok _ _ Ho) as (<- & _ & Hwf).
  pose proof Hr as Hr1. unfold poll_read in Hr1.
  apply bind_Done in Hr1 as ([[term st1] e1] & Hp & _).
  destruct (process_packets_not_closed _ _ _ _ _ _ _ _ _ Hok Ho Hp) as [-> _].
  pose proof (process_packets_drained clock_b _ _ _ _ _ Hp) as [Hnil _].
  pose proof Hp as (popped & st2 & Hpr)%process_packets_Done.
  assert (st2 = st1) as -> by by rewrite (pp_stream _ _ _ _ _ _ _ _ Hpr).
  pose proof (td_mailbox _ _ _ _ _ (pp_touched _ _ _ _ _ _ _ _ Hpr)) as Hm.
  cbn [env_socket] in Hm. rewrite Hnil, app_nil_r in Hm. subst popped.
  destruct (poll_read_after clock_b fuel st _ buf st1 e1 _ Hpr Hp)
    as (r2 & st3 & e3 & buf3 & ds & chunk & now & Hr2 & Hd);
    [apply Hclock|apply Hwf|by eapply host_out_alive, alive_owner|].
  rewrite Hr in Hr2. injection Hr2 as <- <- <- <-. destruct Hd. by exists ds, chunk.
Qed.

(** A reader's poll hands over a byte if one is at hand, and gets past the next
    packet if that has come. *)
Lemma reads_on `{!PromptMpsc} cid n w t k w' t' k' : (forall i, 0 <= clock_b i) ->
  caught cid n w t k -> caught cid n w' t' k' -> w_sent w `prefix_of` w_sent w' ->
  reads (w_b w) (w_b w') ->
  exists (ds : list bytes) chunk, k' = (k + length ds)%nat /\ w_read w' = w_read w ++ chunk /\
    (received_data (t_receiver t) <> [] -> chunk <> []) /\
    ((k < length (w_sent w))%nat -> at_b n k k w t -> ds <> []).
Proof.
  intros Hclock Hc Hc' [more Hmore] (st & fuel & m & buf & r & st' & e' & buf' & Hroom & Ho & Hr & Hw').
  destruct (caught_genuine _ _ _ _ _ Hc) as [Hb Hg].
  destruct (caught_genuine _ _ _ _ _ Hc') as [Hb' _].
  assert (st = t_receiver t) as -> by congruence.
  assert (st' = t_receiver t') as ->.
  { rewrite Hw' in Hb'. cbn in Hb'. rewrite lookup_insert_eq in Hb'. congruence. }
  pose proof Hc as [Hsim Hok _ Hl _]. pose proof Hc' as [Hsim' Hok' _ Hl' _].
  pose proof (sm_sent _ _ _ _ _ _ _ _ Hsim) as Hse.
  pose proof (sm_sent _ _ _ _ _ _ _ _ Hsim') as Hse'.
  destruct (owner_reads _ _ _ _ _ _ _ _ _ _ Hclock (sm_b _ _ _ _ _ _ _ _ Hsim) Hb Hr)
    as (ds & chunk & Hrun & Hack & Hbytes & Hlen).
  assert (k' = (k + length ds)%nat) as ->.
  { eapply took_number; [exact Hc| |exact Hok'|by rewrite Hse'].
    exists (mailbox (h_socket (w_b w)) rb). split; [symmetry; apply app_nil_r|]. split; [by left|done]. }
  exists ds, chunk. split; [done|]. split; [|split].
  - rewrite <- Hse in Hl.
    pose proof (transfer_ok_receive clock_a clock_b n t k (t_receiver t') ds (t_delivered t ++ chunk) _ Hok Hl Hg
      (or_introl Hrun) Hack) as Hok2.
    rewrite <- (assoc_L (++)), <- Hbytes in Hok2. specialize (Hok2 eq_refl).
    pose proof (to_bytes _ _ _ Hok2) as Hb2. pose proof (to_bytes _ _ _ Hok') as Hb3.
    pose proof (to_k _ _ _ Hok2) as Hk2. cbn in Hb2.
    change (payloads (mkTransfer _ _ _ _)) with (payloads t) in Hb2, Hk2.
    assert (payloads t' = payloads t ++ (data <$> more)) as Hpay
      by (unfold payloads; by rewrite Hse, Hse', Hmore, fmap_app).
    rewrite Hpay, take_app_le, <- Hb2 in Hb3 by done. apply app_inv_tail in Hb3.
    by rewrite <- (sm_read _ _ _ _ _ _ _ _ Hsim'), <- (sm_read _ _ _ _ _ _ _ _ Hsim).
  - intros Hne ->. cbn in Hlen. rewrite length_app in Hlen.
    destruct (received_data (t_receiver t)); [done|cbn in Hlen; lia].
  - rewrite <- Hse in Hl |- *. intros Hk Hcome ->.
    assert (Hki : (k <= k < k + 128)%nat) by lia. unfold at_b in Hcome.
    rewrite <- (app_nil_r (mailbox _ _)) in Hcome.
    destruct (come_buffered _ _ _ _ _ _ Hok Hl Hg Hk Hki Hcome) as [Hs|(p & Hp & _)];
      [|by apply elem_of_nil in Hp].
    rewrite (to_ack _ _ _ Hok), wrapping_add16_sub16 in Hrun by apply seq_at_u16.
    rewrite <- (to_ack _ _ _ Hok) in Hrun. inversion Hrun as [? ? Hnone|]; subst.
    rewrite Hnone in Hs. by destruct Hs.
Qed.

(** ** Helper lemmas: the run *)

(** Two transfers that a world simulates have the same receiver. *)
Lemma caught_same cid n w t k t' k' : caught cid n w t k -> caught cid n w t' k' ->
  t_receiver t' = t_receiver t /\ k' = k.
Proof.
  intros Hc Hc'. destruct (caught_genuine _ _ _ _ _ Hc) as [Hb _].
  destruct (caught_genuine _ _ _ _ _ Hc') as [Hb' _].
  assert (t_receiver t' = t_receiver t) as Hr by congruence. split; [done|].
  destruct Hc as [Hsim Hok _ Hl _], Hc' as [Hsim' Hok' _ _ _].
  apply (transfer_ok_same clock_a clock_b n t k t' k'); try done.
  - by rewrite (sm_sent _ _ _ _ _ _ _ _ Hsim).
  - by rewrite (sm_sent _ _ _ _ _ _ _ _ Hsim').
Qed.

(** A packet found in B's mailbox was sent. *)
Lemma in_mailbox_sent cid n w t k p i : caught cid n w t k ->
  p ∈ mailbox (h_socket (w_b w)) rb -> packet_type p = Data -> seq_number p = seq_at n i ->
  Z.of_nat i < 2 ^ 16 -> (i < length (w_sent w))%nat.
Proof.
  intros Hc Hp Hd Hs Hi. destruct (caught_genuine _ _ _ _ _ Hc) as [_ Hg].
  destruct Hc as [Hsim _ _ Hl _]. rewrite <- (sm_sent _ _ _ _ _ _ _ _ Hsim) in Hl |- *.
  rewrite <- length_payloads in Hl |- *. rewrite Forall_forall in Hg.
  destruct (Hg p Hp Hd) as (j & Hj%lookup_lt_Some & Hsj). rewrite Hs in Hsj.
  apply seq_at_inj in Hsj as ->; [done|lia..].
Qed.

Section fair_run.
Variables cid : Z.
Variables sa sb : UtpStream.
Variable ws : nat -> World.
Hypothesis start : world_start addr_a addr_b ra rb first cid sa sb (ws 0%nat).
Hypothesis fairly : fair cid ws.
Hypothesis few : forall i, Z.of_nat (length (w_sent (ws i))) < 2 ^ 16.
Abbreviation n := (st_seq_number sa).

Lemma fair_rtc i j : (i <= j)%nat ->
  rtc (world_moves clock_a clock_b addr_a addr_b ra rb first cid) (ws i) (ws j).
Proof.
  induction 1 as [|j _ IH]; [done|].
  destruct (fr_moves _ _ fairly j) as [->|Hm]; [done|]. by eapply rtc_r.
Qed.

Lemma fair_start : caught cid n (ws 0%nat) (transfer_of sa sb) 0.
Proof.
  destruct (world_start_transfer _ _ _ _ _ _ _ _ _ start) as [Hstart Hu]. split; try done.
  - by apply world_start_simulates.
  - by apply (transfer_start_ok (transfer_of sa sb)).
  - apply fairly.
Qed.

Lemma fair_on i j t k : (i <= j)%nat -> caught cid n (ws i) t k ->
  exists t' k', caught cid n (ws j) t' k' /\ (k <= k')%nat /\
    w_read (ws i) `prefix_of` w_read (ws j) /\ w_sent (ws i) `prefix_of` w_sent (ws j) /\
    forall q, (q < length (w_sent (ws i)))%nat -> at_b n q k (ws i) t -> at_b n q k' (ws j) t'.
Proof.
  intros Hij Hc. induction Hij as [|j _ (t1 & k1 & Hc1 & Hk & Hrd & Hse & Hat)].
  - exists t, k. split_and!; done.
  - destruct (fr_moves _ _ fairly j) as [->|Hm]; [by exists t1, k1|].
    destruct (step_come _ _ _ _ _ _ Hc1 (fr_ends _ _ fairly (S j)) (few (S j)) Hm)
      as (t2 & k2 & Hc2 & Hk2 & Hrd2 & Hse2 & Hat2).
    exists t2, k2. split_and!; [done|lia|by etrans|by etrans|].
    intros q Hq Hq1. apply Hat2; [|by apply Hat].
    pose proof (prefix_length _ _ Hse). lia.
Qed.

Lemma fair_caught i : exists t k, caught cid n (ws i) t k.
Proof.
  destruct (fair_on 0 i _ _ ltac:(lia) fair_start) as (t & k & Hc & _). by exists t, k.
Qed.

(** The [q]-th packet has come to B. *)
Definition home (q : nat) (i : nat) : Prop :=
  exists t k, caught cid n (ws i) t k /\ (q < length (w_sent (ws i)))%nat /\
    at_b n q k (ws i) t.

Lemma home_later q i j : (i <= j)%nat -> home q i -> home q j.
Proof.
  intros Hij (t & k & Hc & Hq & Hat).
  destruct (fair_on _ _ _ _ Hij Hc) as (t' & k' & Hc' & _ & _ & Hse & Hat').
  exists t', k'. split_and!; [done| |by apply Hat'].
  pose proof (prefix_length _ _ Hse). lia.
Qed.

(** Every packet is handed to the network. *)
Lemma handed_on i p : p ∈ w_sent (ws i) ->
  exists j, data_for cid p /\ wf_Packet p /\ wire p ∈ w_net (ws j).
Proof.
  intros Hp.
  assert (Hway : forall j, (i <= j)%nat ->
    waits p (ws j) \/ data_for cid p /\ wf_Packet p /\ wire p ∈ w_net (ws j)).
  { intros j Hij. destruct (fair_caught i) as (t & k & Hc).
    destruct (fair_on _ _ _ _ Hij Hc) as (t' & k' & Hc' & _ & _ & [more Hse] & _).
    assert (Hpj : p ∈ w_sent (ws j)) by (rewrite Hse; apply elem_of_app; by left).
    destruct (under_way_reachable clock_a clock_b addr_a addr_b ra rb first cid sa sb _ _ start
      (fair_rtc 0 j ltac:(lia))) as [Hdata Hq].
    rewrite Forall_forall in Hdata.
    destruct (fr_ends _ _ fairly j) as (sta & _ & Ha & _).
    destruct (ok_sender _ (sm_a _ _ _ _ _ _ _ _ (ca_sim _ _ _ _ _ Hc')) (alive_owner _ _ _ Ha))
      as [task Ht].
    destruct (Hq task p Ht Hpj) as [Hin|Hnet]; [left; by exists task|right; auto]. }
  destruct (Hway i (le_n i)) as [Hw|Hnet]; [|by exists i].
  destruct (fr_sends _ _ fairly p i Hw) as (j & Hij & Hnw). exists j.
  by destruct (Hway j Hij).
Qed.

(** And comes to B. *)
Lemma comes_home i q : (q < length (w_sent (ws i)))%nat -> exists j, home q j.
Proof.
  intros Hq. destruct (lookup_lt_is_Some_2 _ _ Hq) as [p Hp].
  destruct (fair_caught i) as (t & k & Hc). pose proof Hc as [Hsim Hok _ _ _].
  rewrite <- (sm_sent _ _ _ _ _ _ _ _ Hsim) in Hp.
  destruct (to_sent _ _ _ Hok _ _ Hp) as [Hd Hs].
  rewrite (sm_sent _ _ _ _ _ _ _ _ Hsim) in Hp.
  destruct (handed_on i p) as (j0 & Hfor & Hwf & Hnet); [by eapply list_elem_of_lookup_2|].
  destruct (fr_delivers _ _ fairly j0 p Hfor Hnet) as (j & Hrecv).
  destruct (fair_caught j) as (t1 & k1 & Hc1). destruct (fair_caught (S j)) as (t2 & k2 & Hc2).
  destruct (caught_genuine _ _ _ _ _ Hc1) as [Hb1 _].
  assert (Hin : p ∈ mailbox (h_socket (w_b (ws (S j)))) rb).
  { eapply received_in_mailbox; [exact Hrecv|apply Hc1|exact Hb1|done|congruence| |apply Hc2].
    destruct (sm_receiver _ _ _ _ _ _ _ _ (ca_sim _ _ _ _ _ Hc1)) as (_ & -> & _).
    destruct Hfor as [_ ->]. done. }
  pose proof (few i). exists (S j), t2, k2. split_and!; [done| |].
  - eapply in_mailbox_sent; [done..|lia].
  - right; right. by exists p.
Qed.

Lemma all_home i m : (m <= length (w_sent (ws i)))%nat ->
  exists j, (i <= j)%nat /\ forall q, (q < m)%nat -> home q j.
Proof.
  induction m as [|m IH]; intros Hm; [exists i; split; [done|lia]|].
  destruct IH as (j1 & Hj1 & Hall); [lia|]. destruct (comes_home i m) as (j2 & Hj2); [lia|].
  exists (Nat.max j1 j2). split; [lia|]. intros q Hq.
  destruct (decide (q = m)) as [->|Hne]; [by eapply home_later; [|exact Hj2]; lia|].
  eapply home_later; [|apply Hall]; lia.
Qed.
(** When B has not read all the bytes of the first packets, and holds none for its
    reader, it has not reassembled all of these packets. *)
Lemma unread_next i j t k : (i <= j)%nat -> caught cid n (ws j) t k ->
  (length (w_read (ws j)) < length (w_written (ws i)))%nat ->
  received_data (t_receiver t) = [] -> (k < length (w_sent (ws i)))%nat.
Proof.
  intros Hij Hc Hlt Hnil. destruct (fair_caught i) as (ti & ki & Hci).
  destruct (fair_on _ _ _ _ Hij Hci) as (_ & _ & _ & _ & _ & [more Hse] & _).
  destruct Hc as [Hsim Hok _ _ _]. pose proof (ca_sim _ _ _ _ _ Hci) as Hsimi.
  destruct (decide (k < length (w_sent (ws i)))%nat) as [|Hge]; [done|exfalso].
  pose proof (to_bytes _ _ _ Hok) as Hb. rewrite Hnil, app_nil_r in Hb.
  rewrite <- (sm_read _ _ _ _ _ _ _ _ Hsim), Hb in Hlt.
  rewrite <- (sm_written _ _ _ _ _ _ _ _ Hsimi) in Hlt. unfold payloads in Hlt.
  rewrite (sm_sent _ _ _ _ _ _ _ _ Hsim), (sm_sent _ _ _ _ _ _ _ _ Hsimi), Hse in Hlt.
  rewrite fmap_app, take_app_ge, concat_app, length_app in Hlt by (rewrite length_fmap; lia). lia.
Qed.

Lemma fair_written i j : (i <= j)%nat -> w_written (ws i) `prefix_of` w_written (ws j).
Proof.
  intros Hij. destruct (fair_caught i) as (t & k & Hc).
  destruct (fair_on _ _ _ _ Hij Hc) as (t' & k' & Hc' & _ & _ & [more Hse] & _).
  pose proof (ca_sim _ _ _ _ _ Hc) as Hs. pose proof (ca_sim _ _ _ _ _ Hc') as Hs'.
  rewrite <- (sm_written _ _ _ _ _ _ _ _ Hs), <- (sm_written _ _ _ _ _ _ _ _ Hs').
  unfold payloads. rewrite (sm_sent _ _ _ _ _ _ _ _ Hs), (sm_sent _ _ _ _ _ _ _ _ Hs'), Hse.
  rewrite fmap_app, concat_app. by apply prefix_app_r.
Qed.

(** What is at B for its reader. *)
Lemma home_at_b q j t k : home q j -> caught cid n (ws j) t k -> at_b n q k (ws j) t.
Proof.
  intros (t' & k' & Hc' & _ & Hat) Hc. destruct (caught_same _ _ _ _ _ _ _ Hc Hc') as [Hr ->].
  unfold at_b in *. by rewrite <- Hr.
Qed.

Lemma fair_readable i j t k : (i <= j)%nat -> caught cid n (ws j) t k ->
  (forall q, (q < length (w_sent (ws i)))%nat -> home q j) ->
  (length (w_read (ws j)) < length (w_written (ws i)))%nat -> readable (ws j).
Proof.
  intros Hij Hc Hall Hlt. destruct (caught_genuine _ _ _ _ _ Hc) as [Hb _].
  exists (t_receiver t). split; [done|].
  destruct (decide (received_data (t_receiver t) = [])) as [Hnil|Hne]; [|right; by intros [? _]].
  pose proof (unread_next _ _ _ _ Hij Hc Hlt Hnil) as Hk.
  destruct (home_at_b _ _ _ _ (Hall k Hk) Hc) as [Hlt2|[[d Hd]|(p & Hp & _)]]; [lia|right|left].
  - intros [_ Hnone]. unfold next_buffered in Hnone. pose proof (ca_ok _ _ _ _ _ Hc) as Hok.
    rewrite (to_ack _ _ _ Hok), wrapping_add16_sub16 in Hnone by apply seq_at_u16. congruence.
  - intros Hnil2. rewrite Hnil2 in Hp. by apply elem_of_nil in Hp.
Qed.

(** The reader gets there: each of its polls brings it nearer. *)
Lemma gets_there `{!PromptMpsc} i d : (forall i, 0 <= clock_b i) -> forall j t k, (i <= j)%nat ->
  caught cid n (ws j) t k -> (forall q, (q < length (w_sent (ws i)))%nat -> home q j) ->
  (length (w_sent (ws i)) - k + (length (w_written (ws i)) - length (w_read (ws j))) <= d)%nat ->
  exists j', (j <= j')%nat /\ (length (w_written (ws i)) <= length (w_read (ws j')))%nat.
Proof.
  intros Hclock. induction d as [|d IH]; intros j t k Hij Hc Hall Hd;
    (destruct (decide (length (w_written (ws i)) <= length (w_read (ws j)))%nat) as [|Hlt];
      [by exists j|]); [lia|].
  destruct (fr_reads _ _ fairly j) as (j1 & Hj1 & Hreads);
    [eapply fair_readable; [exact Hij|done..|lia]|].
  destruct (fair_on _ _ _ _ Hj1 Hc) as (t1 & k1 & Hc1 & Hk1 & Hrd1%prefix_length & _ & _).
  destruct (decide (length (w_written (ws i)) <= length (w_read (ws j1)))%nat) as [|Hlt1];
    [by exists j1|].
  destruct (fair_on j1 (S j1) _ _ ltac:(lia) Hc1) as (t2 & k2 & Hc2 & _ & _ & Hse & _).
  destruct (reads_on _ _ _ _ _ _ _ _ Hclock Hc1 Hc2 Hse Hreads)
    as (ds & chunk & -> & Hrd2%(f_equal length) & Hbytes & Hnext).
  rewrite length_app in Hrd2.
  assert (Hall1 : forall q, (q < length (w_sent (ws i)))%nat -> home q j1)
    by (intros q Hq; eapply home_later; [exact Hj1|by apply Hall]).
  destruct (IH (S j1) t2 (k1 + length ds)%nat) as (j' & Hj' & Hdone); [lia|done| | |].
  - intros q Hq. eapply home_later; [|by apply Hall1]. lia.
  - destruct (decide (received_data (t_receiver t1) = [])) as [Hnil|Hne].
    + assert (Hij1 : (i <= j1)%nat) by lia.
      pose proof (unread_next _ _ _ _ Hij1 Hc1 ltac:(lia) Hnil) as Hk.
      destruct (fair_caught i) as (ti & ki & Hci).
      destruct (fair_on _ _ _ _ Hij1 Hci) as (_ & _ & _ & _ & _ & Hpre%prefix_length & _).
      assert (ds <> []) as Hds by (apply Hnext; [lia|by apply home_at_b, Hc1; apply Hall1]).
      destruct ds; [done|cbn in *; lia].
    + specialize (Hbytes Hne). destruct chunk; [done|cbn in *; lia].
  - exists j'. split; [lia|done].
Qed.
End fair_run.

(** ** Properties *)

(** C6. In the long run everything is read. In every fair run of the two hosts,
    the bytes written at A at any time are all read at B at some later time, and
    are then a prefix of what was read: the run is fair when A's sender task is
    polled until the packets waiting for B are gone, every data packet handed to
    the network reaches a poll of B's receiver task once, in any order, and the
    stream is polled with room when there is something for the reader; and when
    both ends stay, with A at most 128 packets ahead of what B has reassembled,
    and fewer than 65536 packets sent. Anything else may happen in between. *)
Theorem fair_runs_read_everything `{!PromptMpsc} cid sa sb (ws : nat -> World) :
  (forall i, 0 <= clock_b i) ->
  world_start addr_a addr_b ra rb first cid sa sb (ws 0%nat) -> fair cid ws ->
  (forall i, Z.of_nat (length (w_sent (ws i))) < 2 ^ 16) ->
  forall i, exists j, (i <= j)%nat /\ w_written (ws i) `prefix_of` w_read (ws j).
Proof.
  intros Hclock H0 Hf Hl i.
  destruct (all_home _ _ _ _ H0 Hf Hl i _ (le_n _)) as (j & Hij & Hall).
  destruct (fair_caught _ _ _ _ H0 Hf Hl j) as (t & k & Hc).
  destruct (gets_there _ _ _ _ H0 Hf Hl i _ Hclock j t k Hij Hc Hall (le_n _))
    as (j' & Hj' & Hlen).
  exists j'. split; [lia|].
  assert (Hij' : (i <= j')%nat) by lia.
  pose proof (world_safe _ _ _ _ _ _ _ _ _ _ _ _ H0 (fair_rtc _ _ Hf 0 j' ltac:(lia)) (Hl j')) as Hr.
  pose proof (fair_written _ _ _ _ H0 Hf Hl i j' Hij') as Hw.
  destruct (prefix_weak_total _ _ _ Hw Hr) as [|Hback]; [done|].
  by rewrite (prefix_length_eq _ _ Hback Hlen).
Qed.
End fair.

(** ** Witnesses

    A writes two packets, the second overtakes the first, and B reads twice, the
    first time too early. *)

Definition fair_script : list Turn :=
  [AtFirst (Writes 0%nat [1]); AtFirst (Writes 0%nat [2]); AtFirst Sends; ToSecond 1%nat;
   AtSecond (Reads 0%nat 9%nat); ToSecond 0%nat; AtSecond (Reads 0%nat 9%nat)].

Definition fair_state (i : nat) : World :=
  tw_world (path sample_turn sample_allowed fair_script sample_two_way i).

Lemma fair_state_end i : (7 <= i)%nat -> fair_state i = fair_state 7.
Proof. intros Hi. unfold fair_state. by rewrite !path_end by (cbn; lia). Qed.

(** A fact about the states of the run, from the eight of them. *)
Lemma fair_states (f : World -> bool) : forallb (fun i => f (fair_state i)) (seq 0 8) = true ->
  forall i, f (fair_state i) = true.
Proof.
  intros Hf i. rewrite forallb_forall in Hf. destruct (decide (i < 7)%nat) as [Hi|Hge].
  - apply Hf, in_seq. lia.
  - rewrite fair_state_end by lia. apply Hf, in_seq. lia.
Qed.

(** The conditions of a fair run, decided. *)
Definition is_in_step (w : World) : bool :=
  match stream_at 0%nat (w_a w), stream_at 0%nat (w_b w) with
  | Some sta, Some stb =>
      Z.leb (wrapping_sub16 (wrapping_sub16 (st_seq_number sta) 1) (st_ack_number stb)) 128
  | _, _ => false
  end.

Definition nothing_waits (w : World) : bool :=
  match h_sender (w_a w) with
  | Some task => is_empty (backlog task (h_socket (w_a w)))
  | None => true
  end.

Definition is_readable (w : World) : bool :=
  match stream_at 0%nat (w_b w) with
  | Some st => negb (is_empty (mailbox (h_socket (w_b w)) 0%nat)) ||
      negb (is_empty (received_data st)) || bool_decide (is_Some (next_buffered st))
  | None => false
  end.

Lemma is_in_step_elim w : is_in_step w = true -> in_step 0%nat 0%nat w.
Proof.
  unfold is_in_step. destruct (stream_at 0%nat (w_a w)) as [sta|] eqn:Ha; [|done].
  destruct (stream_at 0%nat (w_b w)) as [stb|] eqn:Hb; [|done]. intros Hle%Z.leb_le.
  exists sta, stb. by split_and!; [apply stream_at_Some..|].
Qed.

Lemma is_readable_intro w : readable 0%nat w -> is_readable w = true.
Proof.
  intros (st & Ho & Hr). unfold is_readable, stream_at. rewrite Ho.
  destruct (mailbox _ _); [|done]. destruct Hr as [Hr|Hr]; [done|]. cbn.
  destruct (received_data st) eqn:Hd; [|done]. cbn. apply bool_decide_eq_true.
  destruct (next_buffered st) eqn:Hn; [done|]. by destruct Hr.
Qed.

#[local] Arguments poll_read : simpl never.
#[local] Arguments receiver_poll : simpl never.

(** A read, and a delivery, from the action that performs it. *)
Lemma performed_reads h l h' room : (0 < room)%nat ->
  perform sample_clock (Reads 0%nat room) h = Some (l, h') -> reads sample_clock 0%nat h h'.
Proof.
  intros Hroom Hp. cbn in Hp. performed. destruct x as [c|st]; [done|]. performed.
  eexists st, run_fuel, 0%nat, (([], room) : bytes * nat), _, _, _, _.
  split_and!; [exact Hroom|done|eassumption|reflexivity].
Qed.

Lemma performed_receives h l h' bs from : socket_alive (h_socket h) = true ->
  perform sample_clock (Receives bs from) h = Some (l, h') -> receives h h' bs from.
Proof.
  intros Hal Hp. cbn in Hp. performed. clear H0.
  match goal with H : receiver_poll _ _ = Done (?r, ?s, ?rest) |- _ =>
    rename H into Hr; assert (exists used, receives_one bs from =
      (mkRecvAnswer (Ready (Ok tt)) (Ready (Ok (bs, from))) :: used) ++ rest) as [used Hu] end.
  { unfold receiver_poll in Hr. rewrite Hal in Hr. cbn in Hr.
    apply bind_Done in Hr as ([pk|err] & _ & Hr); [destruct (route_packet _ _ _) as [[] s2]|];
      outcome_inv; (by exists []) || by exists [mkRecvAnswer Pending Pending]. }
  rewrite Hu in Hr. eexists _, _, _, _, _. split_and!; [done|exact Hr|done|].
  eexists. split; [by left|done].
Qed.

(** A turn of B. *)
Lemma turn_at_b t W W' a : sample_turn t W = Some W' ->
  turn_action sample_addr sample_peer (w_net (tw_world W)) (tw_back W) t = Some (false, a) ->
  exists l, perform sample_clock a (w_b (tw_world W)) = Some (l, w_b (tw_world W')).
Proof.
  intros Ht Ha. unfold sample_turn, two_way_turn in Ht. rewrite Ha in Ht. cbn [mbind option_bind] in Ht.
  apply bind_Some in Ht as ([l b'] & Hp & Heq). injection Heq as <-. by exists l.
Qed.

Lemma fair_turn_b i t a : fair_script !! i = Some t ->
  turn_action sample_addr sample_peer (w_net (fair_state i))
    (tw_back (path sample_turn sample_allowed fair_script sample_two_way i)) t =
    Some (false, a) ->
  playable sample_turn sample_allowed fair_script sample_two_way = true ->
  exists l, perform sample_clock a (w_b (fair_state i)) = Some (l, w_b (fair_state (S i))).
Proof.
  intros Ht Ha Hplay. destruct (path_turn sample_turn sample_allowed _ _ _ _ Hplay Ht) as [Hs _].
  by eapply turn_at_b.
Qed.

Lemma fair_facts :
  playable sample_turn sample_allowed fair_script sample_two_way = true /\
  forallb (fun i => is_in_step (fair_state i)) (seq 0 8) = true /\
  forallb (fun i => Nat.ltb (length (w_sent (fair_state i))) 3) (seq 0 8) = true /\
  nothing_waits (fair_state 7) = true /\ is_readable (fair_state 7) = false /\
  w_written (fair_state 2) = [1; 2].
Proof. split_and!; by vm_compute. Qed.

(** The two datagrams arrive in the turns 3 and 5. *)
Definition fair_net : list bytes := w_net (fair_state 7).

Lemma fair_deliveries bs : bs ∈ fair_net ->
  exists j, receives (w_b (fair_state j)) (w_b (fair_state (S j))) bs sample_addr.
Proof.
  assert (fair_net = [nth 0 fair_net []; nth 1 fair_net []]) as Hnet by by vm_compute.
  rewrite Hnet. intros [->|[->|[]%elem_of_nil]%elem_of_cons]%elem_of_cons;
    [exists 5%nat|exists 3%nat].
  - destruct (fair_turn_b 5 _ (Receives (nth 0 fair_net []) sample_addr) eq_refl) as [l Hp];
      [by vm_compute|apply fair_facts|]. eapply performed_receives; [by vm_compute|exact Hp].
  - destruct (fair_turn_b 3 _ (Receives (nth 1 fair_net []) sample_addr) eq_refl) as [l Hp];
      [by vm_compute|apply fair_facts|]. eapply performed_receives; [by vm_compute|exact Hp].
Qed.

Lemma fair_states_net i bs : bs ∈ w_net (fair_state i) -> bs ∈ fair_net.
Proof.
  intros Hbs. pose proof (fair_states
    (fun w => forallb (fun bs => bool_decide (bs ∈ fair_net)) (w_net w))
    ltac:(by vm_compute) i) as Hall.
  rewrite forallb_forall in Hall. apply list_elem_of_In, Hall in Hbs.
  by apply bool_decide_eq_true in Hbs.
Qed.

Lemma sample_fair :
  fair sample_clock sample_clock sample_addr sample_peer 0%nat 0%nat 500 77 fair_state.
Proof.
  destruct fair_facts as (Hplay & Hin & _ & Hnone & Hread & _). split.
  - intros i. destruct (path_step sample_turn sample_allowed sample_moves fair_script
      sample_two_way i) as [Heq|Hm]; [intros t W1 W2; apply two_way_turn_moves|done|left|right].
    + unfold fair_state. by rewrite Heq.
    + by apply (two_way_moves_world _ _ _ _ _ _ _ _ 78).
  - intros i. apply is_in_step_elim. by apply (fair_states is_in_step).
  - intros p i _. exists (i + 7)%nat. split; [lia|]. rewrite fair_state_end by lia.
    unfold nothing_waits in Hnone. intros (task & Ht & Hp). rewrite Ht in Hnone.
    apply is_empty_nil in Hnone. rewrite Hnone in Hp. by apply elem_of_nil in Hp.
  - intros i p _ Hp. by apply fair_deliveries, (fair_states_net i).
  - intros i Hr%is_readable_intro. exists 6%nat. split.
    + destruct (decide (i <= 6)%nat) as [|Hgt]; [done|].
      rewrite fair_state_end in Hr by lia. congruence.
    + destruct (fair_turn_b 6 _ (Reads 0%nat 9%nat) eq_refl eq_refl Hplay) as [l Hp].
      eapply (performed_reads _ _ _ 9); [lia|exact Hp].
Qed.

Lemma fair_runs_read_everything_witness :
  w_written (fair_state 2) = [1; 2] /\ exists j, [1; 2] `prefix_of` w_read (fair_state j).
Proof.
  destruct fair_facts as (_ & _ & Hfew & _ & _ & Hw). split; [exact Hw|].
  destruct (fair_runs_read_everything sample_clock sample_clock sample_addr sample_peer 0%nat 0%nat
    500 77 _ _ fair_state sample_clock_nonneg sample_world_start sample_fair) with (i := 2%nat)
    as (j & _ & Hr).
  - intros i. pose proof (fair_states (fun w => Nat.ltb (length (w_sent w)) 3) Hfew i) as Hlt.
    apply Nat.ltb_lt in Hlt. lia.
  - exists j. rewrite <- Hw. exact Hr.
Defined.
