(* ===== verification/TransferWrap.v ===== *)
(** * The bound of the transfer is tight

    A transfer of 65536 packets over a network that repeats one packet once: the
    receiver keeps the duplicate of the first packet, and delivers it a second
    time after the last one, when the 16-bit numbers have come round. The run is
    built round by round on the reference crates. *)

From S2P Require Import Prelude Crates CratesRef Errors Time Packet.
From S2P Require Import PacketWire Congestion Socket Stream StreamFacts StreamRead.
From S2P Require Import StreamWrite Polls Transfer.

(** ** Definitions *)

(** After [k] packets, the first with the byte 1 and the others with the byte 2,
    all delivered, with the duplicate of the first one in the buffer. *)
Record wrap_round (k : nat) (t : Transfer) : Prop := {
  wr_sender_seq : st_seq_number (t_sender t) = seq_at 101 k;
  wr_open : is_shutdown (t_sender t) = false;
  wr_receiver_ack : st_ack_number (t_receiver t) = wrapping_sub16 (seq_at 101 k) 1;
  wr_buffer : inbound_data (t_receiver t) = {[101 := [1]]};
  wr_unread : received_data (t_receiver t) = [];
  wr_mailbox : inbound_packets (t_receiver t) = 0%nat;
  wr_count : length (t_sent t) = k;
  wr_bytes : concat (payloads t) = 1 :: replicate (k - 1) 2;
  wr_delivered : t_delivered t = 1 :: replicate (k - 1) 2;
}.

Abbreviation moves := (transfer_step sample_clock sample_clock).

(** ** Helper lemmas *)

(** The sender writes one byte, which makes one packet. *)
Lemma write_one t b : u16 (st_seq_number (t_sender t)) -> is_shutdown (t_sender t) = false ->
  exists p, packet_type p = Data /\ seq_number p = st_seq_number (t_sender t) /\
    data p = [b] /\
    moves t (mkTransfer (written (t_sender t) [[b]]) (t_sent t ++ [p])
      (t_receiver t) (t_delivered t)).
Proof.
  intros Hu Hsh.
  destruct (write_chunks_alive sample_clock [[b]] 0 (t_sender t) (sample_env [])
    sample_clock_nonneg eq_refl Hu) as (e' & Hw & _ & Ht).
  pose proof (sender_writes sample_clock sample_clock t (sample_env []) [b] _ _ e' _
    ltac:(unfold poll_write; rewrite Hsh; exact Hw) (td_out _ _ _ _ _ Ht)) as Hstep.
  eexists (data_packet _ _ _ _ [b]). split_and!; [done| |done|exact Hstep].
  cbn. by rewrite seq_at_0.
Qed.

(** The receiver reads one packet it keeps. *)
Lemma read_one t p ds m' :
  inbound_packets (t_receiver t) = 0%nat -> u16 (st_ack_number (t_receiver t)) ->
  received_data (t_receiver t) = [] -> p ∈ t_sent t ->
  keeps (st_ack_number (t_receiver t)) p = true ->
  run (<[seq_number p := data p]> (inbound_data (t_receiver t)))
    (wrapping_add16 (st_ack_number (t_receiver t)) 1) ds m' ->
  (length (concat ds) <= 10)%nat ->
  exists st', moves t (mkTransfer (t_sender t) (t_sent t) st' (t_delivered t ++ concat ds)) /\
    inbound_packets st' = 0%nat /\ received_data st' = [] /\ inbound_data st' = m' /\
    st_ack_number st' = wrapping_add16 (st_ack_number (t_receiver t)) (Z.of_nat (length ds)).
Proof.
  intros Hrx Hu Hrec Hp Hk Hrun Hlen.
  assert (Ho : pollable sample_clock 2 (t_receiver t) (sample_env [p])).
  { split; [split|done]; rewrite ?Hrx; try done.
    - apply sample_clock_nonneg.
    - by exists (mkRefChan [p] true true).
    - change (mailbox _ _) with [p]. cbn. lia.
    - change (mailbox _ _) with [p]. constructor; [|constructor]. unfold is_expected. by rewrite (keeps_Data _ _ Hk). }
  destruct (poll_read_open _ _ _ _ sample_buf Ho)
    as (r & st' & e' & buf' & popped & ds2 & chunk & now & Hr & Hd).
  destruct (poll_read_popped _ _ _ _ _ _ _ _ _ _ _ _ _ Ho Hr Hd) as [Hpop _].
  assert (popped = [p]) as -> by (by rewrite Hpop, Hrx). clear Hpop.
  pose proof (rd_run _ _ _ _ _ _ _ _ _ _ _ Hd) as Hrun2.
  rewrite buffer_data_cons, Hk in Hrun2.
  destruct (run_det _ _ _ _ _ _ Hrun Hrun2) as [<- ->].
  pose proof (rd_bytes _ _ _ _ _ _ _ _ _ _ _ Hd) as Hb. rewrite Hrec in Hb. cbn [app] in Hb.
  assert (chunk = concat ds /\ received_data st' = []) as [-> Hrec'].
  { pose proof (rd_chunk _ _ _ _ _ _ _ _ _ _ _ Hd) as Hl. rewrite Hrec in Hl.
    cbn [app remaining ref_readbuf sample_buf snd] in Hl.
    pose proof (f_equal length Hb) as Hl2. rewrite length_app in Hl2.
    assert (received_data st' = []) as Hnil by (apply nil_length_inv; lia).
    rewrite Hnil, app_nil_r in Hb. by split. }
  exists st'. split; [|split_and!; try done; try apply Hd].
  - eapply (receiver_reads _ _ t 2 (sample_env [p]) sample_buf r st' e' buf'); [|done|apply Hd].
    unfold from_network. rewrite Hrx. constructor; [by intros _|constructor].
  - destruct Hd as [(_ & _ & _ & Hids & _)]. congruence.
Qed.

Lemma payloads_app s ps st d p : data p = d ->
  concat (payloads (mkTransfer s (ps ++ [p]) st [])) = concat (data <$> ps) ++ d.
Proof.
  intros <-. unfold payloads. cbn. rewrite fmap_app, concat_app. cbn. by rewrite app_nil_r.
Qed.

Lemma keeps_next ack p : u16 ack -> packet_type p = Data ->
  seq_number p = wrapping_add16 ack 1 -> keeps ack p = true.
Proof.
  intros Hu Hp Hs. apply keeps_window; [done|rewrite Hs; apply wrapping_add16_u16|done|].
  exists 1. split; [lia|done].
Qed.

Lemma seq_at_101 k : (0 < k)%nat -> Z.of_nat k < 2 ^ 16 -> seq_at 101 k <> 101.
Proof. unfold seq_at. intros. int_lia. Qed.

Lemma replicate_last k : (0 < k)%nat -> replicate (k - 1) 2 ++ [2] = replicate k 2.
Proof. intros Hk. rewrite <- replicate_S_end. f_equal. lia. Qed.

(** ** The rounds *)

(** The first packet is delivered, and its duplicate is kept. *)
Lemma first_round : exists t, rtc moves sample_transfer t /\ wrap_round 1 t.
Proof.
  destruct (write_one sample_transfer 1) as (p & Hp & Hs & Hd & Hw); [done..|].
  cbn [t_sender sample_transfer st_seq_number UtpStream_new] in Hs.
  set (t1 := mkTransfer _ _ _ _) in Hw.
  destruct (read_one t1 p [[1]] ∅) as (st1 & Hr1 & Hx1 & Hu1 & Hi1 & Ha1); try done.
  - by apply list_elem_of_singleton.
  - by apply keeps_next.
  - cbn. rewrite Hs, Hd. eapply run_cons; [by rewrite lookup_insert_eq|].
    rewrite delete_insert_id by done. by apply run_nil.
  - cbn. lia.
  - set (t2 := mkTransfer _ _ _ _) in Hr1. cbn in Ha1.
    change (wrapping_add16 100 (Z.of_nat 1)) with 101 in Ha1.
    destruct (read_one t2 p [] {[101 := [1]]}) as (st2 & Hr2 & Hx2 & Hu2 & Hi2 & Ha2); try done.
    + cbn. by rewrite Ha1.
    + by apply list_elem_of_singleton.
    + cbn. rewrite Ha1. apply keeps_window; [done|by rewrite Hs|done|].
      exists 0. split; [lia|]. by rewrite Hs.
    + cbn. rewrite Ha1, Hi1, Hs, Hd. by apply run_nil.
    + cbn. lia.
    + eexists. split; [eapply rtc_l; [exact Hw|]; eapply rtc_l; [exact Hr1|];
        eapply rtc_once; exact Hr2|].
      split; cbn; try done.
      * rewrite Ha2. cbn. by rewrite Ha1.
      * unfold payloads. cbn. by rewrite Hd.
Qed.

(** One more packet: what the receiver has when the run from it is [ds]. *)
Lemma round_step k t ds m' : wrap_round k t -> (0 < k)%nat -> Z.of_nat k < 2 ^ 16 ->
  run (<[seq_at 101 k := [2]]> {[101 := [1]]}) (seq_at 101 k) ds m' ->
  (length (concat ds) <= 10)%nat ->
  exists t', rtc moves t t' /\
    st_seq_number (t_sender t') = seq_at 101 (S k) /\ is_shutdown (t_sender t') = false /\
    st_ack_number (t_receiver t') = wrapping_sub16 (seq_at 101 (k + length ds)) 1 /\
    inbound_data (t_receiver t') = m' /\ received_data (t_receiver t') = [] /\
    inbound_packets (t_receiver t') = 0%nat /\ length (t_sent t') = S k /\
    concat (payloads t') = 1 :: replicate k 2 /\
    t_delivered t' = (1 :: replicate (k - 1) 2) ++ concat ds.
Proof.
  intros [Hseq Hopen Hack Hbuf Hun Hbox Hcount Hbytes Hdel] Hk Hk16 Hrun Hlen.
  destruct (write_one t 2) as (p & Hp & Hs & Hd & Hw); [rewrite Hseq; apply seq_at_u16|done|].
  set (t1 := mkTransfer _ _ _ _) in Hw. rewrite Hseq in Hs.
  assert (Hnext : wrapping_add16 (wrapping_sub16 (seq_at 101 k) 1) 1 = seq_at 101 k)
    by (apply wrapping_add16_sub16, seq_at_u16).
  destruct (read_one t1 p ds m') as (st2 & Hr & Hx & Hu & Hi & Ha); try done.
  - cbn. rewrite Hack. apply wrapping_sub16_u16.
  - cbn. apply elem_of_app. right. by apply list_elem_of_singleton.
  - cbn. rewrite Hack. apply keeps_next; [apply wrapping_sub16_u16|done|congruence].
  - cbn. by rewrite Hs, Hd, Hbuf, Hack, Hnext.
  - eexists. split; [eapply rtc_l; [exact Hw|]; eapply rtc_once; exact Hr|].
    cbn. split_and!; try done.
    + rewrite Hseq. by rewrite seq_at_add, Nat.add_1_r.
    + rewrite Ha. cbn. rewrite Hack. unfold seq_at. int_lia.
    + rewrite length_app, Hcount. cbn. lia.
    + unfold payloads in *. cbn. rewrite fmap_app, concat_app, Hbytes. cbn. rewrite Hd. cbn.
      by rewrite replicate_last.
    + by rewrite Hdel.
Qed.

Lemma next_round k t : wrap_round k t -> (0 < k)%nat -> Z.of_nat (S k) < 2 ^ 16 ->
  exists t', rtc moves t t' /\ wrap_round (S k) t'.
Proof.
  intros Hw Hk Hk16. pose proof (seq_at_101 k Hk ltac:(lia)) as Hne.
  pose proof (seq_at_101 (S k) ltac:(lia) Hk16) as Hne2.
  destruct (round_step k t [[2]] {[101 := [1]]} Hw Hk) as (t' & Hr & ? & ? & Ha & ? & ? & ? & ? & Hp & Hd).
  - lia.
  - eapply run_cons; [by rewrite lookup_insert_eq|].
    rewrite delete_insert_id by (by rewrite lookup_singleton_ne).
    apply run_nil. rewrite <- seq_at_S. by rewrite lookup_singleton_ne.
  - cbn. lia.
  - exists t'. split; [done|]. split; try done.
    + rewrite Ha. cbn. by rewrite Nat.add_1_r.
    + rewrite Hp. cbn. by rewrite Nat.sub_0_r.
    + rewrite Hd. cbn. by rewrite replicate_last, Nat.sub_0_r.
Qed.

Lemma rounds k : (0 < k)%nat -> Z.of_nat k < 2 ^ 16 ->
  exists t, rtc moves sample_transfer t /\ wrap_round k t.
Proof.
  induction k as [|[|k] IH]; intros Hk Hk16; [lia|apply first_round|].
  destruct IH as (t & Hr & Hw); [lia|lia|].
  destruct (next_round _ _ Hw) as (t' & Hr' & Hw'); [lia|done|].
  exists t'. split; [by etrans|done].
Qed.

(** ** Properties *)

(** C24. The bound of [transfer_safe] cannot be raised. There is a run of the
    transfer, in which the network loses nothing and repeats one packet once,
    that sends exactly 65536 packets and delivers the first of them twice: once
    in its place, and again after the last one, since the receiver had kept the
    duplicate and the numbers had come round to it. The bytes delivered are not
    a prefix of the bytes sent. *)
Theorem transfer_wraps_around : exists t, rtc moves sample_transfer t /\
  Z.of_nat (length (t_sent t)) = 2 ^ 16 /\
  t_delivered t = concat (payloads t) ++ [1] /\
  ~ t_delivered t `prefix_of` concat (payloads t).
Proof.
  set (k := Z.to_nat 65535). assert (Hk : Z.of_nat k = 65535) by (unfold k; lia).
  clearbody k. destruct (rounds k) as (t & Hr & Hw); [lia|lia|].
  assert (H100 : seq_at 101 k = 100) by (unfold seq_at; rewrite Hk; reflexivity).
  destruct (round_step k t [[2]; [1]] ∅ Hw) as (t' & Hr' & _ & _ & _ & _ & _ & _ & Hl & Hp & Hd);
    [lia|lia| |cbn; lia|].
  { rewrite H100. eapply run_cons; [by rewrite lookup_insert_eq|].
    rewrite delete_insert_id by done. eapply run_cons; [done|]. by apply run_nil. }
  assert (Hdel : t_delivered t' = concat (payloads t') ++ [1]).
  { rewrite Hp, Hd, <- (replicate_last k) by lia. cbn. by rewrite <- (assoc_L (++)). }
  exists t'. split_and!; [by etrans|rewrite Hl; lia|done|].
  intros Hpre%prefix_length. rewrite Hdel, length_app in Hpre. cbn in Hpre. lia.
Qed.
